(** * Threat-detection dashboard: detection rules, reputation cache, ingestion

    A shallow embedding of the JavaScript sources

      - src/utils/parsers.js        (normalizeLogEntry, the file parsers)
      - src/enrichment/abuseipdb.js (reputation cache, fallback generator)
      - src/detection/rules.js      (the four detectors, runAllDetections)
      - src/detection/aiAnalyst.js  (the summaries and their provider)
      - src/database/init.js        (the prepared statements)
      - src/api/routes.js           (the ingestion transaction, the handlers)
      - src/index.js                (the error-handling middleware)

    The SQLite tables are lists of rows, the SQL statements are list
    programs that follow SQLite's documented semantics, and the
    asynchronous functions run in a small state-and-exception monad over
    the database together with a trace of the effects the code performs
    (cache reads and writes, HTTP requests, timer delays).  The analyst,
    which only reads the database, runs in a second such monad over the
    requests it has sent. *)

From Stdlib Require Import ZArith List String Ascii Bool Lia Permutation.
From Stdlib Require Import DecimalString OrderedTypeEx Sorted.
Import ListNotations.

Open Scope string_scope.
Open Scope Z_scope.

(** ** JavaScript primitives used by the sources *)

Module Js.

(** JavaScript numbers as far as the sources use them: the integers,
    held as doubles, the two infinities (what parseInt gives on a run of
    digits beyond the range of a double) and NaN (what parseInt gives on
    a string without leading digits). *)
Inductive number : Type :=
| Num (z : Z)
| Infinity
| NegInfinity
| NaN.

(** The double nearest to an integer that is not negative: 53 binary
    digits are kept, the rest is rounded to the nearest, a tie to the
    even one; from 2^1024 on the result is Infinity. *)
Definition nearest (v : Z) : number :=
  let e := Z.log2 v + 1 - 53 in
  if e <=? 0 then Num v
  else
    let q := Z.shiftr v e in
    let r := v - Z.shiftl q e in
    let half := Z.shiftl 1 (e - 1) in
    let q' := if (half <? r) || ((half =? r) && Z.odd q) then q + 1 else q in
    let d := Z.shiftl q' e in
    if Z.shiftl 1 1024 <=? d then Infinity else Num d.

Definition negate (a : number) : number :=
  match a with
  | Num z => Num (- z)
  | Infinity => NegInfinity
  | NegInfinity => Infinity
  | NaN => NaN
  end.

(** The double nearest to an integer. *)
Definition double (v : Z) : number :=
  if v <? 0 then negate (nearest (- v)) else nearest v.

Definition number_eqb (a b : number) : bool :=
  match a, b with
  | Num x, Num y => Z.eqb x y
  | Infinity, Infinity => true
  | NegInfinity, NegInfinity => true
  | _, _ => false
  end.

(** [a > b]: false as soon as one side is NaN. *)
Definition gt (a b : number) : bool :=
  match a, b with
  | Num x, Num y => Z.ltb y x
  | Infinity, Num _ => true
  | Infinity, NegInfinity => true
  | Num _, NegInfinity => true
  | _, _ => false
  end.

(** [a >= b]: false as soon as one side is NaN. *)
Definition ge (a b : number) : bool :=
  match a, b with
  | Num x, Num y => Z.leb y x
  | Infinity, Num _ => true
  | Infinity, Infinity => true
  | Infinity, NegInfinity => true
  | Num _, NegInfinity => true
  | NegInfinity, NegInfinity => true
  | _, _ => false
  end.

(** [a + b]: the sum of two integers is rounded to a double; the two
    infinities together give NaN. *)
Definition add (a b : number) : number :=
  match a, b with
  | Num x, Num y => double (x + y)
  | NaN, _ => NaN
  | _, NaN => NaN
  | Infinity, NegInfinity => NaN
  | NegInfinity, Infinity => NaN
  | Infinity, _ => Infinity
  | _, Infinity => Infinity
  | NegInfinity, _ => NegInfinity
  | _, NegInfinity => NegInfinity
  end.

(** [a % b]: the remainder has the sign of the dividend, and a finite
    dividend is its own remainder by an infinity; NaN when the divisor
    is 0, the dividend is infinite or an operand is NaN. *)
Definition rem (a b : number) : number :=
  match a, b with
  | Num x, Num y => if Z.eqb y 0 then NaN else Num (Z.rem x y)
  | Num x, Infinity => Num x
  | Num x, NegInfinity => Num x
  | _, _ => NaN
  end.

(** Template-literal rendering of a number. *)
Definition string_of_Z (z : Z) : string :=
  NilZero.string_of_int (Z.to_int z).

Definition number_to_string (n : number) : string :=
  match n with
  | Num z => string_of_Z z
  | Infinity => "Infinity"
  | NegInfinity => "-Infinity"
  | NaN => "NaN"
  end.

(** [s.startsWith(p)]. *)
Definition startsWith (s p : string) : bool := String.prefix p s.

(** [s.split(c)] for a one-character separator. *)
Fixpoint split (c : ascii) (s : string) : list string :=
  match s with
  | EmptyString => [EmptyString]
  | String a s' =>
      if Ascii.eqb a c then EmptyString :: split c s'
      else match split c s' with
           | h :: t => String a h :: t
           | [] => [String a EmptyString]
           end
  end.

Definition is_white (a : ascii) : bool :=
  let n := nat_of_ascii a in
  (Nat.eqb n 32 || Nat.eqb n 9 || Nat.eqb n 10 || Nat.eqb n 11
   || Nat.eqb n 12 || Nat.eqb n 13)%bool.

Fixpoint trim_start (s : string) : string :=
  match s with
  | String a s' => if is_white a then trim_start s' else s
  | EmptyString => EmptyString
  end.

(** Value of a digit in the given radix (10 or 16), if it is one. *)
Definition digit_value (radix : Z) (a : ascii) : option Z :=
  let n := Z.of_nat (nat_of_ascii a) in
  let v :=
    if (48 <=? n) && (n <=? 57) then Some (n - 48)
    else if (97 <=? n) && (n <=? 122) then Some (n - 87)
    else if (65 <=? n) && (n <=? 90) then Some (n - 55)
    else None in
  match v with
  | Some d => if d <? radix then Some d else None
  | None => None
  end.

(** Longest prefix of digits, accumulated most significant first. *)
Fixpoint parse_digits (radix : Z) (s : string) (acc : option Z) : option Z :=
  match s with
  | String a s' =>
      match digit_value radix a with
      | Some d =>
          parse_digits radix s'
            (Some (match acc with Some v => v * radix + d | None => d end))
      | None => acc
      end
  | EmptyString => acc
  end.

(** [parseInt(s)] without a radix argument: leading white space is
    skipped, a sign is read, a 0x / 0X prefix selects base 16, and the
    longest run of digits is read; the result is the double nearest to
    its value, and NaN when there is no digit. *)
Definition parseInt (s : string) : number :=
  let s1 := trim_start s in
  let '(neg, s2) :=
    match s1 with
    | String "-" r => (true, r)
    | String "+" r => (false, r)
    | _ => (false, s1)
    end in
  let '(radix, s3) :=
    match s2 with
    | String "0" (String "x" r) => (16, r)
    | String "0" (String "X" r) => (16, r)
    | _ => (10, s2)
    end in
  match parse_digits radix s3 None with
  | Some v => if neg then negate (nearest v) else nearest v
  | None => NaN
  end.

(** ASCII lower-casing (what SQLite's LIKE folds, and
    String.prototype.toLowerCase on ASCII text). *)
Definition lower_ascii (a : ascii) : ascii :=
  let n := nat_of_ascii a in
  if (Nat.leb 65 n && Nat.leb n 90)%bool then ascii_of_nat (n + 32) else a.

Fixpoint toLowerCase (s : string) : string :=
  match s with
  | EmptyString => EmptyString
  | String a s' => String (lower_ascii a) (toLowerCase s')
  end.

(** [s.includes(p)]. *)
Fixpoint includes (s p : string) : bool :=
  String.prefix p s ||
  match s with
  | EmptyString => false
  | String _ s' => includes s' p
  end.

(** [[...new Set(l)]]: every string once, at its first occurrence. *)
Fixpoint uniq (l : list string) : list string :=
  match l with
  | [] => []
  | x :: t => x :: filter (fun y => negb (String.eqb y x)) (uniq t)
  end.

(** An argument that is a string, null or undefined. *)
Inductive arg : Type :=
| Undefined
| Null
| Str (s : string).

(** Truth value of such an argument: only a non-empty string is truthy. *)
Definition truthy (a : arg) : bool :=
  match a with
  | Str s => negb (String.eqb s EmptyString)
  | _ => false
  end.

(** The truthy members of an array of such values
    ([l.filter(x => x)]). *)
Fixpoint filter_truthy (l : list arg) : list string :=
  match l with
  | [] => []
  | Str s :: t =>
      if String.eqb s EmptyString then filter_truthy t
      else s :: filter_truthy t
  | _ :: t => filter_truthy t
  end.

(** A plain object used as a map, as the list of its own properties in
    insertion order. *)
Definition object (A : Type) : Type := list (string * A).

Definition has_key {A : Type} (k : string) (o : object A) : bool :=
  existsb (fun kv => String.eqb (fst kv) k) o.

(** [o[k] = v] where [v] is an object or null: an existing property is
    overwritten in place, a new one is added last; the key __proto__
    sets the prototype and adds no property. *)
Definition set {A : Type} (k : string) (v : A) (o : object A) : object A :=
  if String.eqb k "__proto__" then o
  else if has_key k o then
    map (fun kv => if String.eqb (fst kv) k then (k, v) else kv) o
  else (o ++ [(k, v)])%list.

(** A key that is an array index: the canonical decimal form of an
    integer below 2^32 - 1. *)
Definition array_index (k : string) : option Z :=
  match parse_digits 10 k None with
  | Some n =>
      if (String.eqb (string_of_Z n) k && (n <? 4294967295))%bool
      then Some n else None
  | None => None
  end.

Fixpoint insert_by_index {A : Type} (n : Z) (kv : string * A)
    (l : list (Z * (string * A))) : list (Z * (string * A)) :=
  match l with
  | [] => [(n, kv)]
  | (m, kv') :: t =>
      if n <=? m then (n, kv) :: l else (m, kv') :: insert_by_index n kv t
  end.

Fixpoint index_keys {A : Type} (o : object A) : list (Z * (string * A)) :=
  match o with
  | [] => []
  | kv :: t =>
      match array_index (fst kv) with
      | Some n => insert_by_index n kv (index_keys t)
      | None => index_keys t
      end
  end.

Definition is_index_key {A : Type} (kv : string * A) : bool :=
  match array_index (fst kv) with Some _ => true | None => false end.

(** [Object.entries(o)]: the array-index keys in ascending order, then
    the other keys in insertion order. *)
Definition entries {A : Type} (o : object A) : list (string * A) :=
  (map snd (index_keys o) ++ filter (fun kv => negb (is_index_key kv)) o)%list.

End Js.

(** ** SQLite semantics used by the statements *)

Module Sql.

(** [col LIKE '%tok%']: NULL is not a match; LIKE folds ASCII case. *)
Definition like_contains (col : option string) (tok : string) : bool :=
  match col with
  | Some s => Js.includes (Js.toLowerCase s) (Js.toLowerCase tok)
  | None => false
  end.

(** [col LIKE 'p%']. *)
Definition like_prefix (col : option string) (p : string) : bool :=
  match col with
  | Some s => String.prefix (Js.toLowerCase p) (Js.toLowerCase s)
  | None => false
  end.

(** [col = v]. *)
Definition eq_text (col : option string) (v : string) : bool :=
  match col with
  | Some s => String.eqb s v
  | None => false
  end.

(** MIN and MAX of a TEXT column compare with the BINARY collation,
    byte by byte; over no row at all they are NULL. *)
Definition text_min (a b : string) : string :=
  if String.leb a b then a else b.

Definition text_max (a b : string) : string :=
  if String.leb a b then b else a.

Definition MIN (l : list string) : option string :=
  match l with
  | [] => None
  | x :: t => Some (fold_left text_min t x)
  end.

Definition MAX (l : list string) : option string :=
  match l with
  | [] => None
  | x :: t => Some (fold_left text_max t x)
  end.

(** The order of an index on a TEXT column: ascending in the BINARY
    collation.  [index_insert] puts a key at its place among keys that
    are in that order already. *)
Fixpoint index_insert (k : string) (keys : list string) : list string :=
  match keys with
  | [] => [k]
  | x :: t => if String.leb k x then k :: keys else x :: index_insert k t
  end.

Definition index_order (keys : list string) : list string :=
  fold_right index_insert [] keys.

(** The distinct values of an indexed column (SELECT DISTINCT, and the
    keys of a GROUP BY): each value once, in the order of the index the
    statement walks (idx_logs_source_ip, idx_logs_username). *)
Definition distinct (l : list string) : list string :=
  index_order (Js.uniq l).

(** The non-NULL values of a nullable column. *)
Fixpoint non_null {A : Type} (l : list (option A)) : list A :=
  match l with
  | [] => []
  | Some x :: t => x :: non_null t
  | None :: t => non_null t
  end.

(** Time of day and day of week of an instant given in seconds since
    1970-01-01 00:00:00 UTC (a Thursday): strftime('%H') and
    strftime('%w'), Sunday being 0. *)
Definition hour_of (t : Z) : Z := (t mod 86400) / 3600.

Definition weekday_of (t : Z) : Z := (t / 86400 + 4) mod 7.

End Sql.

(** ** The database and the outside world *)

(** A row of [logs]. *)
Record LogRow : Type := mkLog {
  log_id : Z;
  timestamp : string;
  event_type : option string;
  username : option string;
  source_ip : option string;
  destination_ip : option string;
  status : option string;
  message : option string;
  raw_data : option string;
  log_created_at : Z
}.

(** A row of [alerts]. *)
Record AlertRow : Type := mkAlert {
  alert_id : Z;
  alert_type : string;
  severity : string;
  title : string;
  description : string;
  affected_entity : option string;
  alert_source_ip : option string;
  event_count : Z;
  first_seen : string;
  last_seen : string;
  alert_status : string;
  ai_summary : option string;
  alert_created_at : Z
}.

(** A reputation assessment: a row of [ip_reputation], and also the object
    [fetchFromAbuseIPDB] returns (which has no [last_checked] yet).  The
    columns are those of the INSERT statement of abuseipdb.js (the CREATE
    TABLE is not among the sources); the table is a list of rows, and
    nothing is assumed about the uniqueness of [ip_address].
    [is_whitelisted] is the truth value of the field: the table keeps it
    as 0 / 1, the fetched object as a boolean.  [last_checked] is in
    seconds since the epoch: the statements only ever write
    datetime('now') there.  A score that is NaN stands also for the NULL
    SQLite stores for it: both fail every threshold comparison. *)
Record Reputation : Type := mkRep {
  ip_address : string;
  abuse_confidence_score : Js.number;
  country_code : option string;
  usage_type : option string;
  is_whitelisted : bool;
  total_reports : Js.number;
  rep_raw_data : string;
  last_checked : option Z
}.

(** What the code does to the outside, in the order it does it. *)
Inductive Effect : Type :=
| CacheRead (ip : string)      (* a SELECT on ip_reputation *)
| CacheWrite (ip : string)     (* an INSERT or UPDATE on ip_reputation *)
| HttpGet (ip : string)        (* fetch() to the provider *)
| Delay (ms : Z).              (* setTimeout awaited *)

Record World : Type := mkWorld {
  logs : list LogRow;
  logs_seq : Z;                 (* AUTOINCREMENT counter of logs *)
  alerts : list AlertRow;
  alerts_seq : Z;               (* AUTOINCREMENT counter of alerts *)
  ip_reputation : list Reputation;
  trace : list Effect
}.

(** The fields of [result.data] in a provider response. *)
Record ApiData : Type := mkApi {
  abuseConfidenceScore : option Z;
  countryCode : option string;
  usageType : option string;
  isWhitelisted : option bool;
  totalReports : option Z;
  data_json : string            (* JSON.stringify(result.data) *)
}.

(** What one request to the provider comes to. *)
Inductive FetchOutcome : Type :=
| NetworkError (msg : string)                 (* fetch() rejects *)
| HttpStatus (code : Z) (statusText : string) (* response.ok is false *)
| BadBody (msg : string)                      (* response.json() rejects *)
| Body (data : option ApiData).               (* parsed; data may be absent *)

#[local] Set Warnings "-register-all".

(** Values that JSON.parse and the CSV parser produce; numbers are the
    integers (of a fraction only its being non-zero would matter). *)
Inductive Json : Type :=
| JNull
| JBool (b : bool)
| JNum (z : Z)
| JStr (s : string)
| JArr (l : list Json)
| JObj (fields : list (string * Json)).

(** Everything the code reads from outside the database. *)
Record Env : Type := mkEnv {
  now : Z;                               (* datetime('now') when an
                                            operation starts, in seconds;
                                            its statements read this same
                                            second, but for the one that
                                            runs after the awaited lookups
                                            (see [elapsed]) *)
  toISOString_now : string;              (* new Date().toISOString() *)
  datetime : string -> option Z;         (* SQLite's date parser; NULL when
                                            the text is no date *)
  bare_row : list LogRow -> option LogRow;
                                         (* the row of a group SQLite takes
                                            bare columns from *)
  ABUSEIPDB_API_KEY : option string;     (* process.env.ABUSEIPDB_API_KEY *)
  fetch : nat -> string -> FetchOutcome; (* the n-th request, for that IP *)
  JSON_stringify : Json -> string;
  BindArgs : list Json -> option (list (option string));
                                         (* better-sqlite3's parameter binder
                                            followed by the TEXT affinity of
                                            the columns: the column values,
                                            or nothing when the binder
                                            throws *)
  elapsed : string -> N                  (* the seconds gone by since [now]
                                            when the high-risk rule, the
                                            lookups done, counts the events
                                            of that address *)
}.

(** ** State and exceptions *)

(** An operation returns a value or throws an error, given by its
    message; either way it leaves a world. *)
Inductive Res (A : Type) : Type :=
| Ok (a : A) (w : World)
| Throw (e : string) (w : World).

Arguments Ok {A} a w.
Arguments Throw {A} e w.

Definition M (A : Type) : Type := World -> Res A.

Definition ret {A : Type} (a : A) : M A := fun w => Ok a w.

Definition bind {A B : Type} (m : M A) (k : A -> M B) : M B :=
  fun w => match m w with
           | Ok a w' => k a w'
           | Throw e w' => Throw e w'
           end.

Definition throw {A : Type} (e : string) : M A := fun w => Throw e w.

(** [try { body } catch (error) { handler(error) }]. *)
Definition try_catch {A : Type} (body : M A) (handler : string -> M A) : M A :=
  fun w => match body w with
           | Ok a w' => Ok a w'
           | Throw e w' => handler e w'
           end.

Definition get_world : M World := fun w => Ok w w.

Definition emit (e : Effect) : M unit :=
  fun w => Ok tt (mkWorld (logs w) (logs_seq w) (alerts w) (alerts_seq w)
                          (ip_reputation w) (trace w ++ [e])).

Declare Scope js_scope.
Delimit Scope js_scope with js.

Notation "'let*' x ':=' c1 'in' c2" := (bind c1 (fun x => c2))
  (at level 61, x name, c1 at next level, right associativity) : js_scope.
Notation "c1 ';;' c2" := (bind c1 (fun _ => c2))
  (at level 61, right associativity) : js_scope.

Open Scope js_scope.

(** [for (const x of l) { body(acc, x) }] with the loop-carried value
    [acc]. *)
Fixpoint for_of {A B : Type} (l : list A) (body : B -> A -> M B) (acc : B)
  : M B :=
  match l with
  | [] => ret acc
  | x :: t => let* acc' := body acc x in for_of t body acc'
  end.

(** [db.transaction(fn)] of better-sqlite3: BEGIN, run [fn], COMMIT; when
    [fn] throws, ROLLBACK and throw again.  A rollback restores the
    tables and their AUTOINCREMENT counters; what was done outside the
    database stays done. *)
Definition rollback (before after : World) : World :=
  mkWorld (logs before) (logs_seq before) (alerts before) (alerts_seq before)
          (ip_reputation before) (trace after).

Definition transaction {A : Type} (fn : M A) : M A :=
  fun w => match fn w with
           | Ok a w' => Ok a w'
           | Throw e w' => Throw e (rollback w w')
           end.

(** ** src/utils/parsers.js *)

Module Parsers.

(** Truth value of a property read; [None] is [undefined]. *)
Definition truthy (v : option Json) : bool :=
  match v with
  | None => false
  | Some JNull => false
  | Some (JBool b) => b
  | Some (JNum z) => negb (Z.eqb z 0)
  | Some (JStr s) => negb (String.eqb s EmptyString)
  | Some (JArr _) => true
  | Some (JObj _) => true
  end.

Fixpoint assoc (k : string) (fields : list (string * Json)) : option Json :=
  match fields with
  | [] => None
  | (k', v) :: t => if String.eqb k' k then Some v else assoc k t
  end.

(** [entry.k] for an [entry] that is not null: an own property of an
    object; none of the names read below exists on a number, a string,
    a boolean or an array. *)
Definition prop (entry : Json) (k : string) : option Json :=
  match entry with
  | JObj fields => assoc k fields
  | _ => None
  end.

(** [a || b || ... || last]: the first truthy operand, else the last. *)
Fixpoint or_chain (operands : list (option Json)) (last : Json) : Json :=
  match operands with
  | [] => last
  | Some v :: t => if truthy (Some v) then v else or_chain t last
  | None :: t => or_chain t last
  end.

Record Normalized : Type := mkNormalized {
  n_timestamp : Json;
  n_event_type : Json;
  n_username : Json;
  n_source_ip : Json;
  n_destination_ip : Json;
  n_status : Json;
  n_message : Json;
  n_raw_data : string
}.

Section WithEnv.
Variable env : Env.

Definition normalizeLogEntry (entry : Json) : M Normalized :=
  match entry with
  | JNull => throw "Cannot read properties of null (reading 'timestamp')"
  | _ =>
      let get := prop entry in
      ret {|
        n_timestamp :=
          or_chain [get "timestamp"; get "time"; get "datetime"; get "date"]
                   (JStr (toISOString_now env));
        n_event_type :=
          or_chain [get "event_type"; get "eventType"; get "type";
                    get "action"] (JStr "unknown");
        n_username :=
          or_chain [get "username"; get "user"; get "account";
                    get "userid"] JNull;
        n_source_ip :=
          or_chain [get "source_ip"; get "sourceIP"; get "src_ip";
                    get "ip"; get "clientIP"] JNull;
        n_destination_ip :=
          or_chain [get "destination_ip"; get "destIP"; get "dest_ip";
                    get "target_ip"] JNull;
        n_status :=
          or_chain [get "status"; get "result"; get "outcome"] JNull;
        n_message :=
          or_chain [get "message"; get "description"; get "msg";
                    get "details"] JNull;
        n_raw_data := JSON_stringify env entry
      |}
  end.

End WithEnv.

End Parsers.

(** ** src/database/init.js: the prepared INSERT statements *)

Module Database.

Section WithEnv.
Variable env : Env.

(** [insertLog.run(...)]: eight parameters; [timestamp] is NOT NULL;
    [id] and [created_at] are assigned by the table. *)
Definition insertLog (args : list Json) : M Z :=
  match BindArgs env args with
  | Some [Some ts; et; un; sip; dip; st; msg; raw] =>
      fun w =>
        let id := logs_seq w + 1 in
        Ok id (mkWorld
                 (logs w ++ [mkLog id ts et un sip dip st msg raw (now env)])
                 id (alerts w) (alerts_seq w) (ip_reputation w) (trace w))
  | Some (None :: _) => throw "NOT NULL constraint failed: logs.timestamp"
  | _ => throw "SQLite3 can only bind numbers, strings, bigints, buffers, and null"
  end.

(** [insertAlert.run(...)]: [first_seen] and [last_seen] are NOT NULL;
    [status] defaults to 'open'; the returned value is
    [lastInsertRowid]. *)
Definition insertAlert (alert_type severity title description : string)
    (affected_entity source_ip : option string) (event_count : Z)
    (first_seen last_seen : option string) (ai_summary : option string)
  : M Z :=
  match first_seen, last_seen with
  | Some fs, Some ls =>
      fun w =>
        let id := alerts_seq w + 1 in
        Ok id (mkWorld (logs w) (logs_seq w)
                 (alerts w ++
                    [mkAlert id alert_type severity title description
                       affected_entity source_ip event_count fs ls
                       "open" ai_summary (now env)])
                 id (ip_reputation w) (trace w))
  | None, _ => throw "NOT NULL constraint failed: alerts.first_seen"
  | _, None => throw "NOT NULL constraint failed: alerts.last_seen"
  end.

End WithEnv.

End Database.

(** ** src/api/routes.js: the ingestion transaction *)

Module Routes.

Section WithEnv.
Variable env : Env.

Definition insertEntry (entry : Json) : M unit :=
  let* normalized := Parsers.normalizeLogEntry env entry in
  let* _ := Database.insertLog env
    [Parsers.n_timestamp normalized;
     Parsers.n_event_type normalized;
     Parsers.n_username normalized;
     Parsers.n_source_ip normalized;
     Parsers.n_destination_ip normalized;
     Parsers.n_status normalized;
     Parsers.n_message normalized;
     JStr (Parsers.n_raw_data normalized)] in
  ret tt.

Definition insertMany (entries : list Json) : M unit :=
  transaction (for_of entries (fun _ entry => insertEntry entry) tt).

End WithEnv.

End Routes.

(** ** src/enrichment/abuseipdb.js *)

Module Abuseipdb.

Definition CACHE_TTL_DAYS : Z := 7.

(** [parseInt(octets[3] || 0)]: a missing or empty fourth component is
    replaced by the number 0. *)
Definition lastOctet (ipAddress : string) : Js.number :=
  match nth_error (Js.split "." ipAddress) 3 with
  | Some s => if String.eqb s EmptyString then Js.Num 0 else Js.parseInt s
  | None => Js.Num 0
  end.

Definition isPrivate (ipAddress : string) : bool :=
  Js.startsWith ipAddress "10." ||
  Js.startsWith ipAddress "192.168." ||
  Js.startsWith ipAddress "172.16." ||
  Js.startsWith ipAddress "172.17." ||
  Js.startsWith ipAddress "172.18." ||
  Js.startsWith ipAddress "172.19." ||
  Js.startsWith ipAddress "172.2" ||
  Js.startsWith ipAddress "172.30." ||
  Js.startsWith ipAddress "172.31.".

Definition stubScore (ipAddress : string) : Js.number :=
  let lastOctet := lastOctet ipAddress in
  if negb (isPrivate ipAddress) then
    if Js.gt lastOctet (Js.Num 200) then
      Js.add (Js.Num 75) (Js.rem lastOctet (Js.Num 25))
    else if Js.gt lastOctet (Js.Num 100) then
      Js.add (Js.Num 25) (Js.rem lastOctet (Js.Num 25))
    else Js.rem lastOctet (Js.Num 15)
  else Js.Num 0.

Definition stubReports (ipAddress : string) : Js.number :=
  let lastOctet := lastOctet ipAddress in
  if negb (isPrivate ipAddress) then
    if Js.gt lastOctet (Js.Num 200) then
      Js.add (Js.Num 50) (Js.rem lastOctet (Js.Num 50))
    else if Js.gt lastOctet (Js.Num 100) then
      Js.add (Js.Num 10) (Js.rem lastOctet (Js.Num 20))
    else Js.rem lastOctet (Js.Num 5)
  else Js.Num 0.

Definition json_of_number (n : Js.number) : Json :=
  match n with
  | Js.Num z => JNum z
  | _ => JNull
  end.

Section WithEnv.
Variable env : Env.

Definition generateStubReputation (ipAddress : string) : Reputation :=
  let isPrivate := isPrivate ipAddress in
  let abuseScore := stubScore ipAddress in
  let totalReports := stubReports ipAddress in
  {| ip_address := ipAddress;
     abuse_confidence_score := abuseScore;
     country_code := if isPrivate then None else Some "US";
     usage_type :=
       if isPrivate then Some "Data Center/Web Hosting/Transit"
       else Some "Residential";
     is_whitelisted := isPrivate;
     total_reports := totalReports;
     rep_raw_data :=
       JSON_stringify env
         (JObj [("ipAddress", JStr ipAddress);
                ("abuseConfidenceScore", json_of_number abuseScore);
                ("totalReports", json_of_number totalReports);
                ("countryCode", if isPrivate then JNull else JStr "US");
                ("usageType",
                  if isPrivate then JStr "Data Center/Web Hosting/Transit"
                  else JStr "Residential");
                ("isWhitelisted", JBool isPrivate);
                ("stub", JBool true);
                ("note", JStr "Generated stub data - configure ABUSEIPDB_API_KEY for real data")]);
     last_checked := None |}.

(** [!ABUSEIPDB_API_KEY] is false exactly for a non-empty key. *)
Definition key_configured : bool :=
  match ABUSEIPDB_API_KEY env with
  | Some k => negb (String.eqb k EmptyString)
  | None => false
  end.

Definition is_request (e : Effect) : bool :=
  match e with HttpGet _ => true | _ => false end.

(** [await fetch(url, ...)] and [await response.json()]. *)
Definition http_get (ipAddress : string) : M FetchOutcome :=
  fun w =>
    let n := List.length (filter is_request (trace w)) in
    Ok (fetch env n ipAddress)
       (mkWorld (logs w) (logs_seq w) (alerts w) (alerts_seq w)
                (ip_reputation w) (trace w ++ [HttpGet ipAddress])).

Definition or_zero (v : option Z) : Js.number :=
  match v with Some z => Js.Num z | None => Js.Num 0 end.

Definition or_null (v : option string) : option string :=
  match v with
  | Some s => if String.eqb s EmptyString then None else Some s
  | None => None
  end.

Definition or_false (v : option bool) : bool :=
  match v with Some b => b | None => false end.

(** The object built from [result.data]. *)
Definition fromProvider (ipAddress : string) (data : ApiData)
  : Reputation :=
  {| ip_address := ipAddress;
     abuse_confidence_score := or_zero (abuseConfidenceScore data);
     country_code := or_null (countryCode data);
     usage_type := or_null (usageType data);
     is_whitelisted := or_false (isWhitelisted data);
     total_reports := or_zero (totalReports data);
     rep_raw_data := data_json data;
     last_checked := None |}.

Definition fetchFromAbuseIPDB (ipAddress : string) : M Reputation :=
  if negb key_configured then ret (generateStubReputation ipAddress)
  else
    try_catch
      (let* response := http_get ipAddress in
       match response with
       | NetworkError msg => throw msg
       | HttpStatus code statusText =>
           if code =? 429 then ret (generateStubReputation ipAddress)
           else throw ("AbuseIPDB API error: " ++ Js.string_of_Z code
                       ++ " " ++ statusText)
       | BadBody msg => throw msg
       | Body (Some data) => ret (fromProvider ipAddress data)
       | Body None => ret (generateStubReputation ipAddress)
       end)
      (fun _ => ret (generateStubReputation ipAddress)).

(** [datetime(last_checked) > datetime('now', '-7 days')]. *)
Definition fresh (r : Reputation) : bool :=
  match last_checked r with
  | Some t => now env - CACHE_TTL_DAYS * 86400 <? t
  | None => false
  end.

Definition cached_row (ipAddress : string) (table : list Reputation)
  : option Reputation :=
  find (fun r => String.eqb (ip_address r) ipAddress && fresh r) table.

(** [getIPReputation.get(ip)]. *)
Definition getIPReputation (ipAddress : string) : M (option Reputation) :=
  emit (CacheRead ipAddress) ;;
  let* w := get_world in
  ret (cached_row ipAddress (ip_reputation w)).

(** [SELECT ip_address FROM ip_reputation WHERE ip_address = ?]. *)
Definition existing (ipAddress : string) : M bool :=
  emit (CacheRead ipAddress) ;;
  let* w := get_world in
  ret (existsb (fun r => String.eqb (ip_address r) ipAddress)
               (ip_reputation w)).

Definition stamped (reputation : Reputation) (ipAddress : string)
  : Reputation :=
  {| ip_address := ipAddress;
     abuse_confidence_score := abuse_confidence_score reputation;
     country_code := country_code reputation;
     usage_type := usage_type reputation;
     is_whitelisted := is_whitelisted reputation;
     total_reports := total_reports reputation;
     rep_raw_data := rep_raw_data reputation;
     last_checked := Some (now env) |}.

Definition set_table (table : list Reputation) : M unit :=
  fun w => Ok tt (mkWorld (logs w) (logs_seq w) (alerts w) (alerts_seq w)
                          table (trace w)).

(** [updateIPReputation.run(..., ipAddress)]. *)
Definition updateIPReputation (reputation : Reputation)
    (ipAddress : string) : M unit :=
  emit (CacheWrite ipAddress) ;;
  let* w := get_world in
  set_table
    (map (fun r => if String.eqb (ip_address r) ipAddress
                   then stamped reputation ipAddress else r)
         (ip_reputation w)).

(** [insertIPReputation.run(ipAddress, ...)]. *)
Definition insertIPReputation (ipAddress : string)
    (reputation : Reputation) : M unit :=
  emit (CacheWrite ipAddress) ;;
  let* w := get_world in
  set_table (ip_reputation w ++ [stamped reputation ipAddress]).

Definition getIPReputationWithCache (ipAddress : Js.arg)
  : M (option Reputation) :=
  match ipAddress with
  | Js.Str ip =>
      if String.eqb ip EmptyString then ret None
      else
        let* cached := getIPReputation ip in
        match cached with
        | Some row => ret (Some row)
        | None =>
            let* reputation := fetchFromAbuseIPDB ip in
            try_catch
              (let* existing := existing ip in
               if existing then updateIPReputation reputation ip
               else insertIPReputation ip reputation)
              (fun _ => ret tt) ;;
            ret (Some reputation)
        end
  | _ => ret None
  end.

Definition delay (ms : Z) : M unit := emit (Delay ms).

Definition enrichIPsBatch (ipAddresses : list Js.arg)
  : M (Js.object (option Reputation)) :=
  let uniqueIPs := Js.uniq (Js.filter_truthy ipAddresses) in
  for_of uniqueIPs
    (fun results ip =>
       let* r := getIPReputationWithCache (Js.Str ip) in
       let results := Js.set ip r results in
       (if key_configured then delay 250 else ret tt) ;;
       ret results)
    [].

(** [DELETE FROM ip_reputation WHERE datetime(last_checked) <=
    datetime('now', '-7 days')]; the result is [changes]. *)
Definition stale (r : Reputation) : bool :=
  match last_checked r with
  | Some t => t <=? now env - CACHE_TTL_DAYS * 86400
  | None => false
  end.

Definition clearStaleCache : M Z :=
  let* w := get_world in
  let kept := filter (fun r => negb (stale r)) (ip_reputation w) in
  let changes :=
    Z.of_nat (List.length (filter stale (ip_reputation w))) in
  set_table kept ;;
  ret changes.

End WithEnv.

Definition getRiskLevel (score : Js.number) : string :=
  if Js.ge score (Js.Num 75) then "critical"
  else if Js.ge score (Js.Num 50) then "high"
  else if Js.ge score (Js.Num 25) then "medium"
  else "low".

End Abuseipdb.

(** ** src/detection/rules.js *)

Module Rules.

(** [${v}] for a column value that may be NULL. *)
Definition template (v : option string) : string :=
  match v with Some s => s | None => "null" end.

(** [v || fallback] for a column value. *)
Definition or_text (v : option string) (fallback : string) : string :=
  match v with
  | Some s => if String.eqb s EmptyString then fallback else s
  | None => fallback
  end.

Definition not_null {A : Type} (v : option A) : bool :=
  match v with Some _ => true | None => false end.

(** A row of [ipQuery], [userQuery] (where [source_ip] is a bare
    column) and of the geo query (where [username] is one). *)
Record GroupRow : Type := mkGroup {
  g_username : option string;
  g_source_ip : option string;
  g_count : Z;
  g_first : option string;
  g_last : option string
}.

(** The objects pushed by [detectBruteForce]; [bf_username] is absent
    (here [None]) on those of type brute_force_ip. *)
Record BruteForceAlert : Type := mkBruteForce {
  bf_id : Z;
  bf_type : string;
  bf_username : option string;
  bf_source_ip : option string;
  attempt_count : Z;
  first_attempt : option string;
  last_attempt : option string
}.

Record OffHoursAlert : Type := mkOffHours {
  oh_id : Z;
  oh_type : string;
  oh_username : option string;
  oh_source_ip : option string;
  oh_timestamp : string;
  oh_event_type : option string
}.

Record GeoAlert : Type := mkGeo {
  geo_id : Z;
  geo_type : string;
  geo_source_ip : option string;
  geo_username : option string;
  access_count : Z;
  geo_first_seen : option string;
  geo_last_seen : option string
}.

Record HighRiskAlert : Type := mkHighRisk {
  hr_id : Z;
  hr_type : string;
  hr_ip : string;
  abuse_score : Js.number;
  risk_level : string;
  hr_count : Z;
  hr_first_seen : option string;
  hr_last_seen : option string
}.

Record Detections : Type := mkDetections {
  brute_force : list BruteForceAlert;
  off_hours : list OffHoursAlert;
  geo_anomaly : list GeoAlert;
  high_risk_ip : list HighRiskAlert;
  total : Z
}.

Definition suspiciousRanges : list string :=
  ["10.0.0."; "192.168."; "0.0.0."].

Section WithEnv.
Variable env : Env.

(** [datetime(timestamp) > datetime('now', '-N seconds')]; NULL, hence
    not true, when the timestamp is no date. *)
Definition within (seconds : Z) (r : LogRow) : bool :=
  match datetime env (timestamp r) with
  | Some t => now env - seconds <? t
  | None => false
  end.

(** The same test in a statement that runs when the clock shows
    [clock]. *)
Definition within_at (clock seconds : Z) (r : LogRow) : bool :=
  match datetime env (timestamp r) with
  | Some t => clock - seconds <? t
  | None => false
  end.

Definition failed (r : LogRow) : bool :=
  Sql.like_contains (status r) "fail" ||
  Sql.like_contains (status r) "denied" ||
  Sql.like_contains (status r) "invalid".

Definition succeeded (r : LogRow) : bool :=
  Sql.like_contains (status r) "success" ||
  Sql.like_contains (status r) "accepted" ||
  Sql.eq_text (status r) "success".

(** [strftime('%H', timestamp) < start OR strftime('%H', timestamp) >=
    end OR strftime('%w', timestamp) IN (0, 6)]. *)
Definition off_hours_time (businessStartHour businessEndHour : Z)
    (r : LogRow) : bool :=
  match datetime env (timestamp r) with
  | Some t =>
      (Sql.hour_of t <? businessStartHour) ||
      (businessEndHour <=? Sql.hour_of t) ||
      (Sql.weekday_of t =? 0) || (Sql.weekday_of t =? 6)
  | None => false
  end.

Definition bare_username (group : list LogRow) : option string :=
  match bare_row env group with
  | Some r => username r
  | None => None
  end.

Definition bare_source_ip (group : list LogRow) : option string :=
  match bare_row env group with
  | Some r => source_ip r
  | None => None
  end.

(** The rows of one group, by [source_ip] or by [username]. *)
Definition by_source_ip (rows : list LogRow) (k : string) : list LogRow :=
  filter (fun r => Sql.eq_text (source_ip r) k) rows.

Definition by_username (rows : list LogRow) (k : string) : list LogRow :=
  filter (fun r => Sql.eq_text (username r) k) rows.

Definition count (group : list LogRow) : Z := Z.of_nat (List.length group).

Definition ipQuery (table : list LogRow) (threshold : Z) : list GroupRow :=
  let rows :=
    filter (fun r => failed r && not_null (source_ip r) && within 300 r)
           table in
  let keys := Sql.distinct (Sql.non_null (map source_ip rows)) in
  map (fun k =>
         let group := by_source_ip rows k in
         mkGroup None (Some k) (count group)
                 (Sql.MIN (map timestamp group))
                 (Sql.MAX (map timestamp group)))
      (filter (fun k => threshold <=? count (by_source_ip rows k)) keys).

Definition userQuery (table : list LogRow) (threshold : Z)
  : list GroupRow :=
  let rows :=
    filter (fun r => failed r && not_null (username r) && within 300 r)
           table in
  let keys := Sql.distinct (Sql.non_null (map username rows)) in
  map (fun k =>
         let group := by_username rows k in
         mkGroup (Some k) (bare_source_ip group) (count group)
                 (Sql.MIN (map timestamp group))
                 (Sql.MAX (map timestamp group)))
      (filter (fun k => threshold <=? count (by_username rows k)) keys).

Definition bruteForceIp (timeWindow : Z)
    (alerts : list BruteForceAlert) (result : GroupRow)
  : M (list BruteForceAlert) :=
  let* id := Database.insertAlert env
    "brute_force"
    "high"
    ("Brute Force Attack Detected from " ++ template (g_source_ip result))
    ("Detected " ++ Js.string_of_Z (g_count result)
       ++ " failed login attempts from IP "
       ++ template (g_source_ip result) ++ " within "
       ++ Js.string_of_Z (timeWindow / 60) ++ " minutes")
    (g_source_ip result)
    (g_source_ip result)
    (g_count result)
    (g_first result)
    (g_last result)
    None in
  ret (alerts ++
         [mkBruteForce id "brute_force_ip" None (g_source_ip result)
            (g_count result) (g_first result) (g_last result)])%list.

Definition bruteForceUser (timeWindow : Z)
    (alerts : list BruteForceAlert) (result : GroupRow)
  : M (list BruteForceAlert) :=
  let* id := Database.insertAlert env
    "brute_force"
    "high"
    ("Brute Force Attack on Account " ++ template (g_username result))
    ("Detected " ++ Js.string_of_Z (g_count result)
       ++ " failed login attempts for user "
       ++ template (g_username result) ++ " within "
       ++ Js.string_of_Z (timeWindow / 60) ++ " minutes")
    (g_username result)
    (g_source_ip result)
    (g_count result)
    (g_first result)
    (g_last result)
    None in
  ret (alerts ++
         [mkBruteForce id "brute_force_user" (g_username result)
            (g_source_ip result) (g_count result) (g_first result)
            (g_last result)])%list.

Definition detectBruteForce : M (list BruteForceAlert) :=
  let threshold := 5 in
  let timeWindow := 300 in
  let* w := get_world in
  let ipResults := ipQuery (logs w) threshold in
  let userResults := userQuery (logs w) threshold in
  let* alerts := for_of ipResults (bruteForceIp timeWindow) [] in
  for_of userResults (bruteForceUser timeWindow) alerts.

Definition offHoursQuery (table : list LogRow)
    (businessStartHour businessEndHour : Z) : list LogRow :=
  filter (fun r => succeeded r
                   && off_hours_time businessStartHour businessEndHour r
                   && within 86400 r)
         table.

Definition offHoursAlert (alerts : list OffHoursAlert) (result : LogRow)
  : M (list OffHoursAlert) :=
  let* id := Database.insertAlert env
    "off_hours_access"
    "medium"
    ("Off-Hours Access by " ++ or_text (username result) "Unknown User")
    ("Successful login detected outside business hours from IP "
       ++ template (source_ip result))
    (username result)
    (source_ip result)
    1
    (Some (timestamp result))
    (Some (timestamp result))
    None in
  ret (alerts ++
         [mkOffHours id "off_hours" (username result) (source_ip result)
            (timestamp result) (event_type result)])%list.

Definition detectOffHoursAccess : M (list OffHoursAlert) :=
  let businessStartHour := 9 in
  let businessEndHour := 18 in
  let* w := get_world in
  let results := offHoursQuery (logs w) businessStartHour businessEndHour in
  for_of results offHoursAlert [].

Definition geoQuery (table : list LogRow) (pattern_prefix : string)
  : list GroupRow :=
  let rows :=
    filter (fun r => Sql.like_prefix (source_ip r) pattern_prefix
                     && within 86400 r)
           table in
  let keys := Sql.distinct (Sql.non_null (map source_ip rows)) in
  map (fun k =>
         let group := by_source_ip rows k in
         mkGroup (bare_username group) (Some k) (count group)
                 (Sql.MIN (map timestamp group))
                 (Sql.MAX (map timestamp group)))
      keys.

Definition geoAlert (alerts : list GeoAlert) (result : GroupRow)
  : M (list GeoAlert) :=
  let* id := Database.insertAlert env
    "geo_anomaly"
    "medium"
    ("Suspicious IP Range Detected: " ++ template (g_source_ip result))
    ("Activity detected from potentially suspicious IP range. "
       ++ Js.string_of_Z (g_count result) ++ " events recorded.")
    (g_username result)
    (g_source_ip result)
    (g_count result)
    (g_first result)
    (g_last result)
    None in
  ret (alerts ++
         [mkGeo id "geo_anomaly" (g_source_ip result) (g_username result)
            (g_count result) (g_first result) (g_last result)])%list.

Definition detectGeoAnomalies : M (list GeoAlert) :=
  for_of suspiciousRanges
    (fun alerts range =>
       let* w := get_world in
       let results := geoQuery (logs w) range in
       for_of results geoAlert alerts)
    [].

(** [SELECT DISTINCT source_ip FROM logs WHERE source_ip IS NOT NULL
    AND datetime(timestamp) > datetime('now', '-1 day')]. *)
Definition recentIPs (table : list LogRow) : list string :=
  Sql.distinct
    (Sql.non_null
       (map source_ip
          (filter (fun r => not_null (source_ip r) && within 86400 r)
                  table))).

(** datetime('now') in the statement that counts the events of an
    address: it runs in the loop that follows the awaited lookups, and
    reads the clock again. *)
Definition counted_at (ip : string) : Z := now env + Z.of_N (elapsed env ip).

(** [SELECT COUNT( * ), MIN(timestamp), MAX(timestamp) FROM logs WHERE
    source_ip = ? AND datetime(timestamp) > datetime('now', '-1 day')]:
    the rows it aggregates. *)
Definition activityQuery (table : list LogRow) (ip : string)
  : list LogRow :=
  filter (fun r => Sql.eq_text (source_ip r) ip
                   && within_at (counted_at ip) 86400 r) table.

Definition highRiskAlert (alerts : list HighRiskAlert)
    (entry : string * option Reputation) : M (list HighRiskAlert) :=
  let '(ip, reputation) := entry in
  match reputation with
  | None => ret alerts
  | Some reputation =>
      if is_whitelisted reputation then ret alerts
      else if Js.ge (abuse_confidence_score reputation) (Js.Num 50) then
        let riskLevel :=
          Abuseipdb.getRiskLevel (abuse_confidence_score reputation) in
        let severity :=
          if Js.ge (abuse_confidence_score reputation) (Js.Num 75)
          then "critical" else "high" in
        let* w := get_world in
        let activity := activityQuery (logs w) ip in
        let* id := Database.insertAlert env
          "high_risk_ip"
          severity
          ("High-Risk IP Detected: " ++ ip)
          ("IP " ++ ip ++ " has an abuse confidence score of "
             ++ Js.number_to_string (abuse_confidence_score reputation)
             ++ "% ("
             ++ Js.number_to_string (total_reports reputation)
             ++ " reports). Country: "
             ++ or_text (country_code reputation) "Unknown"
             ++ ". Usage: "
             ++ or_text (usage_type reputation) "Unknown"
             ++ ". Activity count: "
             ++ Js.string_of_Z (count activity) ++ " events.")
          (Some ip)
          (Some ip)
          (count activity)
          (Sql.MIN (map timestamp activity))
          (Sql.MAX (map timestamp activity))
          None in
        ret (alerts ++
               [mkHighRisk id "high_risk_ip" ip
                  (abuse_confidence_score reputation) riskLevel
                  (count activity)
                  (Sql.MIN (map timestamp activity))
                  (Sql.MAX (map timestamp activity))])%list
      else ret alerts
  end.

Definition detectHighRiskIPs : M (list HighRiskAlert) :=
  let* w := get_world in
  let ips := recentIPs (logs w) in
  if Nat.eqb (List.length ips) 0 then ret []
  else
    let* reputations := Abuseipdb.enrichIPsBatch env (map Js.Str ips) in
    for_of (Js.entries reputations) highRiskAlert [].

Definition runAllDetections : M Detections :=
  let* bruteForceAlerts := detectBruteForce in
  let* offHoursAlerts := detectOffHoursAccess in
  let* geoAlerts := detectGeoAnomalies in
  let* highRiskIPAlerts := detectHighRiskIPs in
  let totalAlerts :=
    Z.of_nat (List.length bruteForceAlerts)
    + Z.of_nat (List.length offHoursAlerts)
    + Z.of_nat (List.length geoAlerts)
    + Z.of_nat (List.length highRiskIPAlerts) in
  ret {| brute_force := bruteForceAlerts;
         off_hours := offHoursAlerts;
         geo_anomaly := geoAlerts;
         high_risk_ip := highRiskIPAlerts;
         total := totalAlerts |}.

End WithEnv.

End Rules.

(** ** A concrete outside world, for running the code on examples *)

Module Sample.

Definition digit (a : ascii) : option Z :=
  let n := Z.of_nat (nat_of_ascii a) in
  if (48 <=? n) && (n <=? 57) then Some (n - 48) else None.

(** Exactly [n] decimal digits. *)
Fixpoint digits (n : nat) (acc : Z) (s : string) : option (Z * string) :=
  match n with
  | O => Some (acc, s)
  | S n' =>
      match s with
      | String a s' =>
          match digit a with
          | Some d => digits n' (acc * 10 + d) s'
          | None => None
          end
      | EmptyString => None
      end
  end.

Definition expect (c : ascii) (s : string) : option string :=
  match s with
  | String a s' => if Ascii.eqb a c then Some s' else None
  | EmptyString => None
  end.

(** Days from 1970-01-01 to the given day of the proleptic Gregorian
    calendar. *)
Definition days_from_civil (y m d : Z) : Z :=
  let y' := if m <=? 2 then y - 1 else y in
  let era := y' / 400 in
  let yoe := y' - era * 400 in
  let mp := if 2 <? m then m - 3 else m + 9 in
  let doy := (153 * mp + 2) / 5 + d - 1 in
  let doe := yoe * 365 + yoe / 4 - yoe / 100 + doy in
  era * 146097 + doe - 719468.

Fixpoint skip_digits (s : string) : string :=
  match s with
  | String a s' => match digit a with Some _ => skip_digits s' | None => s end
  | EmptyString => EmptyString
  end.

(** The zone suffix, in seconds east of UTC: nothing, Z, or +HH:MM /
    -HH:MM. *)
Definition zone (s : string) : option Z :=
  match s with
  | EmptyString => Some 0
  | String "Z" EmptyString => Some 0
  | String sign r =>
      match digits 2 0 r with
      | Some (h, r1) =>
          match expect ":" r1 with
          | Some r2 =>
              match digits 2 0 r2 with
              | Some (m, EmptyString) =>
                  if Ascii.eqb sign "+" then Some (h * 3600 + m * 60)
                  else if Ascii.eqb sign "-" then Some (- (h * 3600 + m * 60))
                  else None
              | _ => None
              end
          | None => None
          end
      | None => None
      end
  end.

Definition time_of_day (s : string) : option Z :=
  match digits 2 0 s with
  | Some (h, s1) =>
      match expect ":" s1 with
      | Some s2 =>
          match digits 2 0 s2 with
          | Some (mi, s3) =>
              match expect ":" s3 with
              | Some s4 =>
                  match digits 2 0 s4 with
                  | Some (sec, s5) =>
                      let s6 := match s5 with
                                | String "." r => skip_digits r
                                | _ => s5
                                end in
                      match zone s6 with
                      | Some off =>
                          if (h <? 24) && (mi <? 60) && (sec <? 60)
                          then Some (h * 3600 + mi * 60 + sec - off)
                          else None
                      | None => None
                      end
                  | None => None
                  end
              | None => None
              end
          | None => None
          end
      | None => None
      end
  | None => None
  end.

(** The ISO-8601 texts that SQLite's date functions read:
    YYYY-MM-DD, optionally followed by T or a space and HH:MM:SS, a
    fraction and a zone; the result is in seconds since the epoch, UTC.
    Anything else is no date. *)
Definition datetime (s : string) : option Z :=
  match digits 4 0 s with
  | Some (y, s1) =>
      match expect "-" s1 with
      | Some s2 =>
          match digits 2 0 s2 with
          | Some (m, s3) =>
              match expect "-" s3 with
              | Some s4 =>
                  match digits 2 0 s4 with
                  | Some (d, s5) =>
                      if (1 <=? m) && (m <=? 12) && (1 <=? d) && (d <=? 31)
                      then
                        let day := days_from_civil y m d * 86400 in
                        match s5 with
                        | EmptyString => Some day
                        | String sep r =>
                            if Ascii.eqb sep "T" || Ascii.eqb sep " " then
                              match time_of_day r with
                              | Some t => Some (day + t)
                              | None => None
                              end
                            else None
                        end
                      else None
                  | None => None
                  end
              | None => None
              end
          | None => None
          end
      | None => None
      end
  | None => None
  end.

(** A binder for scalar arguments: null is NULL, a string is itself, an
    integer is its decimal text; a boolean, an array or an object is
    refused. *)
Definition bind_scalar (v : Json) : option (option string) :=
  match v with
  | JNull => Some None
  | JStr s => Some (Some s)
  | JNum z => Some (Some (Js.string_of_Z z))
  | _ => None
  end.

Fixpoint BindArgs (args : list Json) : option (list (option string)) :=
  match args with
  | [] => Some []
  | v :: t =>
      match bind_scalar v, BindArgs t with
      | Some c, Some cs => Some (c :: cs)
      | _, _ => None
      end
  end.

(** A stand-in for JSON.stringify that only tells the kinds of values
    apart. *)
Definition JSON_stringify (v : Json) : string :=
  match v with
  | JNull => "null"
  | JBool true => "true"
  | JBool false => "false"
  | JNum z => Js.string_of_Z z
  | JStr s => s
  | JArr _ => "[...]"
  | JObj _ => "{...}"
  end.

Definition first_row (group : list LogRow) : option LogRow := hd_error group.

(** A run of [n] zeros. *)
Fixpoint zeros (n : nat) : string :=
  match n with
  | O => EmptyString
  | S n' => String "0" (zeros n')
  end.

(** 2025-10-15 (a Wednesday) 12:00:00 UTC. *)
Definition noon : Z := 1760529600.

Definition failing_provider (n : nat) (ip : string) : FetchOutcome :=
  NetworkError "fetch failed".

(** An operation that is over within the second it starts in. *)
Definition at_once (ip : string) : N := 0%N.

(** Lookups that take a second. *)
Definition a_second_later (ip : string) : N := 1%N.

(** No API key. *)
Definition offline : Env :=
  mkEnv noon "2025-10-15T12:00:00.000Z" datetime first_row None
        failing_provider JSON_stringify BindArgs at_once.

(** An API key, and a provider that fails on every request. *)
Definition provider_down : Env :=
  mkEnv noon "2025-10-15T12:00:00.000Z" datetime first_row (Some "key")
        failing_provider JSON_stringify BindArgs at_once.

(** The same, the lookups taking a second. *)
Definition provider_down_slow : Env :=
  mkEnv noon "2025-10-15T12:00:00.000Z" datetime first_row (Some "key")
        failing_provider JSON_stringify BindArgs a_second_later.

(** Monday 2025-10-20, 09:30:00 UTC, no API key. *)
Definition monday_morning : Env :=
  mkEnv (noon + 5 * 86400 - 9000) "2025-10-20T09:30:00.000Z" datetime
        first_row None failing_provider JSON_stringify BindArgs at_once.

(** A provider that answers the first request and fails afterwards. *)
Definition answering_once (n : nat) (ip : string) : FetchOutcome :=
  match n with
  | O => Body (Some (mkApi (Some 42) (Some "DE") (Some "ISP") (Some false)
                           (Some 3) "{...}"))
  | S _ => NetworkError "fetch failed"
  end.

Definition online : Env :=
  mkEnv noon "2025-10-15T12:00:00.000Z" datetime first_row (Some "key")
        answering_once JSON_stringify BindArgs at_once.

Definition an_hour_later : Env :=
  mkEnv (noon + 3600) "2025-10-15T13:00:00.000Z" datetime first_row
        (Some "key") answering_once JSON_stringify BindArgs at_once.

Definition empty : World := mkWorld [] 0 [] 0 [] [].

Definition log (id : Z) (ts : string) (user ip status : string) : LogRow :=
  mkLog id ts (Some "login") (Some user) (Some ip) None (Some status) None
        (Some "{}") noon.

Definition with_logs (rows : list LogRow) : World :=
  mkWorld rows (Z.of_nat (List.length rows)) [] 0 [] [].

End Sample.

(** ** Vocabulary of the statements *)

(** No name of the list gives a truthy value on the entry: the field is
    missing, null, empty, zero or false under every name it may have. *)
Definition missing (entry : Json) (names : list string) : bool :=
  forallb (fun k => negb (Parsers.truthy (Parsers.prop entry k))) names.

(** The database part of a world: the three tables and their counters. *)
Definition same_database (w w' : World) : Prop :=
  logs w' = logs w /\ logs_seq w' = logs_seq w /\
  alerts w' = alerts w /\ alerts_seq w' = alerts_seq w /\
  ip_reputation w' = ip_reputation w.

(** Inserting the entry on its own stores this row. *)
Definition stores (env : Env) (entry : Json) (row : LogRow) : Prop :=
  exists w0 w1, Routes.insertEntry env entry w0 = Ok tt w1 /\
                logs w1 = (logs w0 ++ [row])%list.

(** Normalising or inserting the entry raises an error, whatever the
    state of the store. *)
Definition rejected (env : Env) (entry : Json) : Prop :=
  forall w0, exists e, Routes.insertEntry env entry w0 = Throw e w0.

(** The world after some more effects. *)
Definition with_trace (w : World) (effects : list Effect) : World :=
  mkWorld (logs w) (logs_seq w) (alerts w) (alerts_seq w) (ip_reputation w)
          (trace w ++ effects).

(** Number of requests sent to the provider so far. *)
Definition requests (t : list Effect) : nat :=
  List.length (filter Abuseipdb.is_request t).

(** What [fetchFromAbuseIPDB] returns when its request, if it sends one,
    is the [n]-th. *)
Definition answer (env : Env) (n : nat) (ip : string) : Reputation :=
  if Abuseipdb.key_configured env then
    match fetch env n ip with
    | Body (Some data) => Abuseipdb.fromProvider ip data
    | _ => Abuseipdb.generateStubReputation env ip
    end
  else Abuseipdb.generateStubReputation env ip.

(** The request [fetchFromAbuseIPDB] sends: one when a key is configured. *)
Definition network (env : Env) (ip : string) : list Effect :=
  if Abuseipdb.key_configured env then [HttpGet ip] else [].

(** The table after a miss: the rows of that IP are overwritten, or a row
    is added when there is none. *)
Definition upsert (env : Env) (reputation : Reputation) (ip : string)
    (table : list Reputation) : list Reputation :=
  if existsb (fun r => String.eqb (ip_address r) ip) table then
    map (fun r => if String.eqb (ip_address r) ip
                  then Abuseipdb.stamped env reputation ip else r) table
  else (table ++ [Abuseipdb.stamped env reputation ip])%list.

(** The effects of one lookup, given the table it starts from. *)
Definition lookup_trace (env : Env) (table : list Reputation) (ip : string)
  : list Effect :=
  CacheRead ip ::
  match Abuseipdb.cached_row env ip table with
  | Some _ => []
  | None => (network env ip ++ [CacheRead ip; CacheWrite ip])%list
  end.

(** The effects of one turn of the batch loop: the lookup, then the pause
    when a key is configured. *)
Definition segment (env : Env) (table : list Reputation) (ip : string)
  : list Effect :=
  (lookup_trace env table ip
   ++ (if Abuseipdb.key_configured env then [Delay 250] else []))%list.

Definition is_delay (e : Effect) : bool :=
  match e with Delay _ => true | _ => false end.

(** What a lookup of the address returns on that table: the cached row,
    or else an answer of [fetchFromAbuseIPDB]. *)
Definition resolved_by (env : Env) (table : list Reputation) (ip : string)
    (reputation : Reputation) : Prop :=
  match Abuseipdb.cached_row env ip table with
  | Some row => reputation = row
  | None => exists n, reputation = answer env n ip
  end.

(** The result object built from the resolved addresses. *)
Definition collected (l : list (string * Reputation))
  : Js.object (option Reputation) :=
  map (fun p => (fst p, Some (snd p)))
      (filter (fun p => negb (String.eqb (fst p) "__proto__")) l).

(** The world after some alerts were inserted. *)
Definition add_alerts (w : World) (rows : list AlertRow) : World :=
  mkWorld (logs w) (logs_seq w) (alerts w ++ rows)
          (alerts_seq w + Z.of_nat (List.length rows))
          (ip_reputation w) (trace w).

(** The items of a list that are kept, each built with the next number
    of a sequence: the objects a detector pushes and the rows it
    inserts, numbered by [lastInsertRowid]. *)
Fixpoint numbered {A B : Type} (keep : A -> bool) (f : Z -> A -> B) (seq : Z)
    (l : list A) : list B :=
  match l with
  | [] => []
  | x :: t =>
      if keep x then f (seq + 1) x :: numbered keep f (seq + 1) t
      else numbered keep f seq t
  end.

Definition text (v : option string) : string :=
  match v with Some s => s | None => EmptyString end.

(** The predicate of the off-hours query. *)
Definition alerting (env : Env) (r : LogRow) : bool :=
  Rules.succeeded r && Rules.off_hours_time env 9 18 r
  && Rules.within env 86400 r.

(** The status is in the success vocabulary: it contains success or
    accepted, in any case of the letters. *)
Definition success_status (st : option string) : Prop :=
  exists s, st = Some s
            /\ (Js.includes (Js.toLowerCase s) "success" = true
                \/ Js.includes (Js.toLowerCase s) "accepted" = true).

(** The event [a] is not later than the event [b]. *)
Definition not_later (env : Env) (a b : LogRow) : Prop :=
  match datetime env (timestamp a), datetime env (timestamp b) with
  | Some x, Some y => x <= y
  | _, _ => False
  end.

(** On the group, the order of the timestamps as texts is the order of
    their instants: so it is when they are written in one format and
    with one offset. *)
Definition texts_in_time_order (env : Env) (group : list LogRow) : Prop :=
  forall a b, In a group -> In b group ->
    String.leb (timestamp a) (timestamp b) = true -> not_later env a b.

(** The same, decided on a given group. *)
Definition texts_in_time_orderb (env : Env) (group : list LogRow) : bool :=
  forallb
    (fun a =>
       forallb
         (fun b =>
            implb (String.leb (timestamp a) (timestamp b))
                  match datetime env (timestamp a),
                        datetime env (timestamp b) with
                  | Some x, Some y => x <=? y
                  | _, _ => false
                  end)
         group)
    group.

(** [m] is the timestamp of an event of the group that none is earlier
    (later) than. *)
Definition earliest (env : Env) (m : string) (group : list LogRow) : Prop :=
  exists r, In r group /\ timestamp r = m
            /\ forall r', In r' group -> not_later env r r'.

Definition latest (env : Env) (m : string) (group : list LogRow) : Prop :=
  exists r, In r group /\ timestamp r = m
            /\ forall r', In r' group -> not_later env r' r.

(** The group of the IP-keyed brute-force query for one address. *)
Definition failures_from (env : Env) (table : list LogRow) (ip : string)
  : list LogRow :=
  filter (fun r => Rules.failed r && Sql.eq_text (source_ip r) ip
                   && Rules.within env 300 r) table.

(** The timestamp lies in the trailing window: after now - seconds and
    not after now. *)
Definition in_trailing_window (env : Env) (seconds : Z) (r : LogRow) : bool :=
  match datetime env (timestamp r) with
  | Some t => (now env - seconds <? t) && (t <=? now env)
  | None => false
  end.

(** [m] is the least (the greatest) of the texts, in the order of the
    column. *)
Definition least (m : string) (l : list string) : Prop :=
  In m l /\ forall t, In t l -> String.leb m t = true.

Definition greatest (m : string) (l : list string) : Prop :=
  In m l /\ forall t, In t l -> String.leb t m = true.

(** The objects the detectors push and the rows they insert, for the
    number [id] the table gives them. *)
Definition off_hours_out (id : Z) (r : LogRow) : Rules.OffHoursAlert :=
  Rules.mkOffHours id "off_hours" (username r) (source_ip r) (timestamp r)
                   (event_type r).

Definition off_hours_row (env : Env) (id : Z) (r : LogRow) : AlertRow :=
  mkAlert id "off_hours_access" "medium"
    ("Off-Hours Access by " ++ Rules.or_text (username r) "Unknown User")
    ("Successful login detected outside business hours from IP "
       ++ Rules.template (source_ip r))
    (username r) (source_ip r) 1 (timestamp r) (timestamp r) "open" None
    (now env).

Definition brute_ip_out (id : Z) (g : Rules.GroupRow) : Rules.BruteForceAlert :=
  Rules.mkBruteForce id "brute_force_ip" None (Rules.g_source_ip g)
    (Rules.g_count g) (Rules.g_first g) (Rules.g_last g).

Definition brute_ip_row (env : Env) (id : Z) (g : Rules.GroupRow) : AlertRow :=
  mkAlert id "brute_force" "high"
    ("Brute Force Attack Detected from " ++ Rules.template (Rules.g_source_ip g))
    ("Detected " ++ Js.string_of_Z (Rules.g_count g)
       ++ " failed login attempts from IP "
       ++ Rules.template (Rules.g_source_ip g) ++ " within "
       ++ Js.string_of_Z (300 / 60) ++ " minutes")
    (Rules.g_source_ip g) (Rules.g_source_ip g) (Rules.g_count g)
    (text (Rules.g_first g)) (text (Rules.g_last g)) "open" None (now env).

Definition brute_user_out (id : Z) (g : Rules.GroupRow)
  : Rules.BruteForceAlert :=
  Rules.mkBruteForce id "brute_force_user" (Rules.g_username g)
    (Rules.g_source_ip g) (Rules.g_count g) (Rules.g_first g) (Rules.g_last g).

Definition brute_user_row (env : Env) (id : Z) (g : Rules.GroupRow)
  : AlertRow :=
  mkAlert id "brute_force" "high"
    ("Brute Force Attack on Account " ++ Rules.template (Rules.g_username g))
    ("Detected " ++ Js.string_of_Z (Rules.g_count g)
       ++ " failed login attempts for user "
       ++ Rules.template (Rules.g_username g) ++ " within "
       ++ Js.string_of_Z (300 / 60) ++ " minutes")
    (Rules.g_username g) (Rules.g_source_ip g) (Rules.g_count g)
    (text (Rules.g_first g)) (text (Rules.g_last g)) "open" None (now env).

Definition geo_out (id : Z) (g : Rules.GroupRow) : Rules.GeoAlert :=
  Rules.mkGeo id "geo_anomaly" (Rules.g_source_ip g) (Rules.g_username g)
    (Rules.g_count g) (Rules.g_first g) (Rules.g_last g).

Definition geo_row (env : Env) (id : Z) (g : Rules.GroupRow) : AlertRow :=
  mkAlert id "geo_anomaly" "medium"
    ("Suspicious IP Range Detected: " ++ Rules.template (Rules.g_source_ip g))
    ("Activity detected from potentially suspicious IP range. "
       ++ Js.string_of_Z (Rules.g_count g) ++ " events recorded.")
    (Rules.g_username g) (Rules.g_source_ip g) (Rules.g_count g)
    (text (Rules.g_first g)) (text (Rules.g_last g)) "open" None (now env).

(** Both bounds of the group are there (the group is not empty). *)
Definition bounded (g : Rules.GroupRow) : Prop :=
  Rules.g_first g <> None /\ Rules.g_last g <> None.

(** An object of the brute-force rule that is keyed by that address. *)
Definition ip_keyed (ip : string) (o : Rules.BruteForceAlert) : bool :=
  String.eqb (Rules.bf_type o) "brute_force_ip"
  && Sql.eq_text (Rules.bf_source_ip o) ip.

(** The dotted-decimal text of an IPv4 address. *)
Definition dotted (a b c d : Z) : string :=
  Js.string_of_Z a ++ "." ++ Js.string_of_Z b ++ "." ++ Js.string_of_Z c
    ++ "." ++ Js.string_of_Z d.

(** The private ranges 10.x, 172.16-31.x and 192.168.x, on the first two
    octets. *)
Definition private_range (a b : Z) : bool :=
  (a =? 10) || ((a =? 172) && (16 <=? b) && (b <=? 31))
  || ((a =? 192) && (b =? 168)).

(** The addresses whose text starts with 172.2: second octet 2, 20 to 29,
    or 200 to 255. *)
Definition starts_172_2 (a b : Z) : bool :=
  (a =? 172) && ((b =? 2) || ((20 <=? b) && (b <=? 29)) || (200 <=? b)).

(** The octets, 0 to 255. *)
Definition octets : list Z := map Z.of_nat (seq 0 256).

(** Whether [p] is a prefix of every text that starts with [s]: decided
    unless [s] is a proper prefix of [p]. *)
Fixpoint prefix_status (p s : string) : option bool :=
  match p with
  | EmptyString => Some true
  | String a p' =>
      match s with
      | EmptyString => None
      | String b s' => if Ascii.eqb a b then prefix_status p' s' else Some false
      end
  end.

Fixpoint decided_any (l : list (option bool)) : option bool :=
  match l with
  | [] => Some false
  | Some b :: t =>
      match decided_any t with
      | Some v => Some (b || v)
      | None => None
      end
  | None :: _ => None
  end.

Definition private_prefixes : list string :=
  ["10."; "192.168."; "172.16."; "172.17."; "172.18."; "172.19."; "172.2";
   "172.30."; "172.31."].

Fixpoint no_dot (s : string) : bool :=
  match s with
  | EmptyString => true
  | String a s' => negb (Ascii.eqb a ".") && no_dot s'
  end.

(** The provider fails on every request: no request is answered with a
    body. *)
Definition provider_fails (env : Env) : Prop :=
  forall n ip, match fetch env n ip with Body _ => False | _ => True end.

(** The reputation of an address when the provider cannot be reached: the
    fresh cached row, or else the generated record. *)
Definition fallback_reputation (env : Env) (table : list Reputation)
    (ip : string) : Reputation :=
  match Abuseipdb.cached_row env ip table with
  | Some row => row
  | None => Abuseipdb.generateStubReputation env ip
  end.

(** The test of the high-risk rule: not whitelisted and score >= 50. *)
Definition high_risk (r : Reputation) : bool :=
  negb (is_whitelisted r) && Js.ge (abuse_confidence_score r) (Js.Num 50).

Definition high_risk_entry (entry : string * option Reputation) : bool :=
  match snd entry with
  | Some r => high_risk r
  | None => false
  end.

Definition high_risk_out (env : Env) (table : list LogRow) (id : Z)
    (entry : string * option Reputation) : Rules.HighRiskAlert :=
  let ip := fst entry in
  let activity := Rules.activityQuery env table ip in
  match snd entry with
  | Some r =>
      Rules.mkHighRisk id "high_risk_ip" ip (abuse_confidence_score r)
        (Abuseipdb.getRiskLevel (abuse_confidence_score r))
        (Rules.count activity)
        (Sql.MIN (map timestamp activity)) (Sql.MAX (map timestamp activity))
  | None =>
      Rules.mkHighRisk id "high_risk_ip" ip Js.NaN "low" 0 None None
  end.

Definition high_risk_row (env : Env) (table : list LogRow) (id : Z)
    (entry : string * option Reputation) : AlertRow :=
  let ip := fst entry in
  let activity := Rules.activityQuery env table ip in
  match snd entry with
  | Some r =>
      mkAlert id "high_risk_ip"
        (if Js.ge (abuse_confidence_score r) (Js.Num 75)
         then "critical" else "high")
        ("High-Risk IP Detected: " ++ ip)
        ("IP " ++ ip ++ " has an abuse confidence score of "
           ++ Js.number_to_string (abuse_confidence_score r) ++ "% ("
           ++ Js.number_to_string (total_reports r) ++ " reports). Country: "
           ++ Rules.or_text (country_code r) "Unknown" ++ ". Usage: "
           ++ Rules.or_text (usage_type r) "Unknown" ++ ". Activity count: "
           ++ Js.string_of_Z (Rules.count activity) ++ " events.")
        (Some ip) (Some ip) (Rules.count activity)
        (text (Sql.MIN (map timestamp activity)))
        (text (Sql.MAX (map timestamp activity))) "open" None (now env)
  | None =>
      mkAlert id "high_risk_ip" "high" EmptyString EmptyString None None 0
        EmptyString EmptyString "open" None (now env)
  end.

(** The events of an address that are dated later than now - 24 h when
    the operation starts. *)
Definition recent_from (env : Env) (table : list LogRow) (ip : string)
  : list LogRow :=
  filter (fun r => Sql.eq_text (source_ip r) ip && Rules.within env 86400 r)
         table.

(** No event of the address is in the window any more when the
    high-risk rule counts them. *)
Definition lapsed (env : Env) (table : list LogRow) (ip : string) : bool :=
  match Rules.activityQuery env table ip with
  | [] => true
  | _ :: _ => false
  end.

(** The entry passes the test of the high-risk rule and the events of
    its address have lapsed: the INSERT of its alert has no first_seen. *)
Definition unbounded (env : Env) (table : list LogRow)
    (entry : string * option Reputation) : bool :=
  high_risk_entry entry && lapsed env table (fst entry).

(** Every address of the last 24 hours still has an event in the window
    when the high-risk rule counts its events. *)
Definition settled (env : Env) (table : list LogRow) : bool :=
  forallb (fun ip => negb (lapsed env table ip)) (Rules.recentIPs env table).

(** The items of a list that come before the first one with the
    property, when there is one. *)
Fixpoint before_first {A : Type} (p : A -> bool) (l : list A)
  : option (list A) :=
  match l with
  | [] => None
  | x :: t =>
      if p x then Some []
      else match before_first p t with
           | Some pre => Some (x :: pre)
           | None => None
           end
  end.

(** The message of the error of an INSERT into alerts without a
    first_seen. *)
Definition first_seen_null : string :=
  "NOT NULL constraint failed: alerts.first_seen".

(** The world an operation ends in, whether it returns or throws. *)
Definition final {A : Type} (r : Res A) : World :=
  match r with
  | Ok _ w => w
  | Throw _ w => w
  end.

(** The reputation data of a record: everything but [last_checked]. *)
Definition same_data (a b : Reputation) : Prop :=
  ip_address a = ip_address b
  /\ abuse_confidence_score a = abuse_confidence_score b
  /\ country_code a = country_code b
  /\ usage_type a = usage_type b
  /\ is_whitelisted a = is_whitelisted b
  /\ total_reports a = total_reports b
  /\ rep_raw_data a = rep_raw_data b.

(** ** src/api/routes.js: the request handlers *)

Module Handlers.

(** The counting statements of GET /stats. *)
Definition total_logs (w : World) : Z := Z.of_nat (List.length (logs w)).

Definition total_alerts (w : World) : Z := Z.of_nat (List.length (alerts w)).

(** The number of rows of alerts WHERE status = ?, with 'open'. *)
Definition open_alerts (w : World) : Z :=
  Z.of_nat (List.length
              (filter (fun a => String.eqb (alert_status a) "open")
                      (alerts w))).

(** The number of rows of alerts WHERE severity = ? AND status = ?, with
    'critical' (with 'high') and 'open'. *)
Definition critical_alerts (w : World) : Z :=
  Z.of_nat (List.length
              (filter (fun a => String.eqb (severity a) "critical"
                                && String.eqb (alert_status a) "open")
                      (alerts w))).

Definition high_alerts (w : World) : Z :=
  Z.of_nat (List.length
              (filter (fun a => String.eqb (severity a) "high"
                                && String.eqb (alert_status a) "open")
                      (alerts w))).

(** What POST /logs/batch answers: status 200 with the number of
    entries, or status 500 with the message of the error. *)
Inductive BatchResponse : Type :=
| Ingested (logs_ingested : Z)
| IngestFailed (error : string).

(** The reputation object of the answer of GET /ip/:ip/reputation. *)
Record ReputationView : Type := mkView {
  v_abuse_confidence_score : Js.number;
  v_country_code : option string;
  v_usage_type : option string;
  v_is_whitelisted : bool;
  v_total_reports : Js.number;
  v_last_checked : option Z;
  v_risk_level : string
}.

(** What GET /ip/:ip/reputation answers: status 200, 400, 404 or 500. *)
Inductive ReputationResponse : Type :=
| ReputationFound (ip_address : string) (reputation : ReputationView)
| InvalidAddress (error : string)
| ReputationNotFound (error : string)
| ReputationFailed (error : string).

Definition is_digit (a : ascii) : bool :=
  let n := nat_of_ascii a in (Nat.leb 48 n && Nat.leb n 57)%bool.

(** [[0-9]{1,3}] at the head of a text: what may follow it, after one,
    two or three digits. *)
Definition digits_1_3 (s : string) : list string :=
  match s with
  | String a s1 =>
      if is_digit a then
        s1 :: match s1 with
              | String b s2 =>
                  if is_digit b then
                    s2 :: match s2 with
                          | String c s3 => if is_digit c then [s3] else []
                          | EmptyString => []
                          end
                  else []
              | EmptyString => []
              end
      else []
  | EmptyString => []
  end.

(** [\.] *)
Definition dot (s : string) : list string :=
  match s with
  | String "." r => [r]
  | _ => []
  end.

(** [(?:[0-9]{1,3}\.)] *)
Definition digits_dot (s : string) : list string :=
  flat_map dot (digits_1_3 s).

(** [/^(?:[0-9]{1,3}\.){3}[0-9]{1,3}$/.test(s)]: some way of reading
    the pattern consumes the whole text. *)
Definition ipRegex_test (s : string) : bool :=
  existsb (fun rest => String.eqb rest EmptyString)
          (flat_map digits_1_3
             (flat_map digits_dot (flat_map digits_dot (digits_dot s)))).

Section WithEnv.
Variable env : Env.

(** POST /logs/batch: a body that is not an array is a batch of one
    entry. *)
Definition post_logs_batch (body : Json) : M BatchResponse :=
  try_catch
    (let logs := match body with JArr l => l | _ => [body] end in
     Routes.insertMany env logs ;;
     ret (Ingested (Z.of_nat (List.length logs))))
    (fun error => ret (IngestFailed error)).

(** GET /ip/:ip/reputation. *)
Definition get_ip_reputation (ipAddress : string) : M ReputationResponse :=
  try_catch
    (if negb (ipRegex_test ipAddress)
     then ret (InvalidAddress "Invalid IP address format")
     else
       let* reputation :=
         Abuseipdb.getIPReputationWithCache env (Js.Str ipAddress) in
       match reputation with
       | None => ret (ReputationNotFound "Could not fetch IP reputation")
       | Some reputation =>
           ret (ReputationFound ipAddress
                  {| v_abuse_confidence_score :=
                       abuse_confidence_score reputation;
                     v_country_code := country_code reputation;
                     v_usage_type := usage_type reputation;
                     v_is_whitelisted := is_whitelisted reputation;
                     v_total_reports := total_reports reputation;
                     v_last_checked := last_checked reputation;
                     v_risk_level :=
                       if Js.ge (abuse_confidence_score reputation)
                                (Js.Num 75) then "critical"
                       else if Js.ge (abuse_confidence_score reputation)
                                     (Js.Num 50) then "high"
                       else if Js.ge (abuse_confidence_score reputation)
                                     (Js.Num 25) then "medium"
                       else "low" |})
       end)
    (fun error => ret (ReputationFailed error)).

End WithEnv.

End Handlers.

(** ** Vocabulary of the further statements *)

(** The group of the account-keyed brute-force query for one account. *)
Definition failures_on (env : Env) (table : list LogRow) (user : string)
  : list LogRow :=
  filter (fun r => Rules.failed r && Sql.eq_text (username r) user
                   && Rules.within env 300 r) table.

(** An object of the brute-force rule that is keyed by that account. *)
Definition user_keyed (user : string) (o : Rules.BruteForceAlert) : bool :=
  String.eqb (Rules.bf_type o) "brute_force_user"
  && Sql.eq_text (Rules.bf_username o) user.

(** The address matches one of the patterns of the geo rule. *)
Definition suspicious (ip : string) : bool :=
  existsb (fun range => Sql.like_prefix (Some ip) range)
          Rules.suspiciousRanges.

(** An object of the geo rule for that address. *)
Definition geo_keyed (ip : string) (o : Rules.GeoAlert) : bool :=
  Sql.eq_text (Rules.geo_source_ip o) ip.

(** No character of the text is a letter. *)
Definition is_letter (a : ascii) : bool :=
  let n := nat_of_ascii a in
  ((Nat.leb 65 n && Nat.leb n 90) || (Nat.leb 97 n && Nat.leb n 122))%bool.

Fixpoint no_letter (s : string) : bool :=
  match s with
  | EmptyString => true
  | String a s' => negb (is_letter a) && no_letter s'
  end.

(** The 256 characters. *)
Definition all_ascii : list ascii := map ascii_of_nat (seq 0 256).

(** The rows carry the numbers seq + 1, seq + 2, ... in order. *)
Definition numbered_from (seq : Z) (rows : list AlertRow) : Prop :=
  map alert_id rows
  = map (fun i => seq + Z.of_nat i) (List.seq 1 (List.length rows)).

(** What an object of the high-risk rule and the row inserted for it
    have in common. *)
Definition high_risk_stored (o : Rules.HighRiskAlert) (a : AlertRow) : Prop :=
  alert_id a = Rules.hr_id o
  /\ alert_type a = "high_risk_ip"
  /\ severity a = Rules.risk_level o
  /\ affected_entity a = Some (Rules.hr_ip o)
  /\ alert_source_ip a = Some (Rules.hr_ip o)
  /\ event_count a = Rules.hr_count o
  /\ Some (first_seen a) = Rules.hr_first_seen o
  /\ Some (last_seen a) = Rules.hr_last_seen o
  /\ alert_status a = "open".

(** What a detector reports and stores: the rows carry the next numbers
    of the table, in the order of the objects, with the severity of
    each object, and are open. *)
Definition stored_as {O : Type} (id : O -> Z) (sev : O -> string) (seq : Z)
    (outs : list O) (new : list AlertRow) : Prop :=
  numbered_from seq new
  /\ map alert_id new = map id outs
  /\ map severity new = map sev outs
  /\ Forall (fun a => alert_status a = "open") new.

(** The table holds at most one row for an address. *)
Definition one_row_per_address (table : list Reputation) : Prop :=
  NoDup (map ip_address table).

(** The address has no fresh row in the table: a lookup of it is a
    miss. *)
Definition misses (env : Env) (table : list Reputation) (ip : string) : bool :=
  match Abuseipdb.cached_row env ip table with
  | Some _ => false
  | None => true
  end.

(** After a batch, the address has a fresh row in the table that holds
    what the batch returned for it: the row that was there, or the
    answer of [fetchFromAbuseIPDB] as it was written. *)
Definition warmed (env : Env) (before after : list Reputation) (ip : string)
    (r : Reputation) : Prop :=
  match Abuseipdb.cached_row env ip before with
  | Some row => r = row /\ Abuseipdb.cached_row env ip after = Some row
  | None =>
      (exists n, r = answer env n ip)
      /\ Abuseipdb.cached_row env ip after
         = Some (Abuseipdb.stamped env r ip)
  end.

(** Two results of the batch lookup with the same keys and, key by key,
    the same reputation data. *)
Definition same_results (a b : Js.object (option Reputation)) : Prop :=
  Forall2 (fun x y =>
             fst x = fst y
             /\ match snd x, snd y with
                | Some r1, Some r2 => same_data r1 r2
                | _, _ => False
                end) a b.

(** One to three decimal digits. *)
Definition digits_only (x : string) : bool :=
  forallb Handlers.is_digit (list_ascii_of_string x).

Definition octet_like (x : string) : bool :=
  (Nat.leb 1 (String.length x) && Nat.leb (String.length x) 3)%bool
  && digits_only x.

(** The numbers 0 to 999. *)
Definition up_to_999 : list Z := map Z.of_nat (seq 0 1000).

(** The aliases under which [normalizeLogEntry] reads each field, in the
    order it tries them. *)
Definition timestamp_aliases : list string :=
  ["timestamp"; "time"; "datetime"; "date"].

Definition event_type_aliases : list string :=
  ["event_type"; "eventType"; "type"; "action"].

Definition username_aliases : list string :=
  ["username"; "user"; "account"; "userid"].

Definition source_ip_aliases : list string :=
  ["source_ip"; "sourceIP"; "src_ip"; "ip"; "clientIP"].

Definition destination_ip_aliases : list string :=
  ["destination_ip"; "destIP"; "dest_ip"; "target_ip"].

Definition status_aliases : list string := ["status"; "result"; "outcome"].

Definition message_aliases : list string :=
  ["message"; "description"; "msg"; "details"].

(** The value of the first alias that is truthy on the entry, if there
    is one. *)
Fixpoint first_truthy (entry : Json) (names : list string) : option Json :=
  match names with
  | [] => None
  | k :: t =>
      if Parsers.truthy (Parsers.prop entry k) then Parsers.prop entry k
      else first_truthy entry t
  end.

(** ** SQLite: ORDER BY ... DESC, LIMIT and OFFSET *)

Module Order.

(** Rows in the order of [before], built by insertion; rows that
    [before] does not tell apart keep the order they had. *)
Fixpoint place {A : Type} (before : A -> A -> bool) (x : A) (l : list A)
  : list A :=
  match l with
  | [] => [x]
  | y :: t => if before x y then x :: l else y :: place before x t
  end.

Definition sorted_by {A : Type} (before : A -> A -> bool) (l : list A)
  : list A :=
  fold_right (place before) [] l.

(** [ORDER BY timestamp DESC] on a TEXT column: the greater text first,
    by the BINARY collation.  SQLite is free in the order of rows with
    equal keys; [rank] is its choice for the rows selected. *)
Definition text_desc {A : Type} (key : A -> string) (rank : A -> Z)
    (a b : A) : bool :=
  if String.eqb (key a) (key b) then rank a <=? rank b
  else String.leb (key b) (key a).

(** [ORDER BY created_at DESC] on an instant. *)
Definition time_desc {A : Type} (key : A -> Z) (rank : A -> Z) (a b : A)
  : bool :=
  if key a =? key b then rank a <=? rank b else key b <? key a.

(** [LIMIT limit OFFSET offset]: a negative limit is no limit, a
    negative offset is no offset. *)
Definition limit_offset {A : Type} (limit offset : Z) (l : list A) : list A :=
  let rest := skipn (Z.to_nat offset) l in
  if limit <? 0 then rest else firstn (Z.to_nat limit) rest.

End Order.

(** ** src/detection/aiAnalyst.js *)

Module AiAnalyst.

Definition ANTHROPIC_API_URL : string :=
  "https://api.anthropic.com/v1/messages".

Definition MODEL : string := "claude-3-5-sonnet-20241022".

(** The POST sent to the provider: where it goes, the key header, and
    the body with its one user message. *)
Record Request : Type := mkRequest {
  url : string;
  x_api_key : string;
  model : string;
  max_tokens : Z;
  content : string
}.

(** A promise, once awaited. *)
Inductive Settled (A : Type) : Type :=
| Rejected (message : string)
| Fulfilled (a : A).

Arguments Rejected {A} message.
Arguments Fulfilled {A} a.

Record Response : Type := mkResponse {
  ok : bool;
  body_text : Settled string;   (* response.text() *)
  body_json : Settled Json      (* response.json() *)
}.

(** What the analyst and the listing statements read from outside the
    database. *)
Record AiEnv : Type := mkAiEnv {
  ANTHROPIC_API_KEY : option string;  (* process.env.ANTHROPIC_API_KEY *)
  post : list Request -> Request -> Settled Response;
                                      (* fetch(), after the requests sent
                                         before *)
  toUpperCase : string -> string;     (* String.prototype.toUpperCase *)
  function_text : string -> string;   (* the text of the function
                                         Object.prototype holds under a
                                         name *)
  Number : string -> Js.number;       (* the number a text converts to *)
  null_read : string -> string;       (* the message of the TypeError of
                                         reading a property of null *)
  log_rank : string -> list LogRow -> LogRow -> Z;
  alert_rank : Z -> Z -> list AlertRow -> AlertRow -> Z
                                      (* the order SQLite gives to rows
                                         with equal sort keys: for the
                                         logs, by the column compared and
                                         the rows selected; for the
                                         alerts, by the limit, the offset
                                         and the rows selected *)
}.

(** The requests sent so far are the state; a call returns or throws. *)
Inductive Run (A : Type) : Type :=
| Returned (a : A) (sent : list Request)
| Thrown (message : string) (sent : list Request).

Arguments Returned {A} a sent.
Arguments Thrown {A} message sent.

Definition Ai (A : Type) : Type := list Request -> Run A.

Definition ret {A : Type} (a : A) : Ai A := fun sent => Returned a sent.

Definition bind {A B : Type} (m : Ai A) (k : A -> Ai B) : Ai B :=
  fun sent => match m sent with
              | Returned a sent' => k a sent'
              | Thrown e sent' => Thrown e sent'
              end.

Definition throw {A : Type} (message : string) : Ai A :=
  fun sent => Thrown message sent.

Definition try_catch {A : Type} (body : Ai A) (handler : string -> Ai A)
  : Ai A :=
  fun sent => match body sent with
              | Returned a sent' => Returned a sent'
              | Thrown e sent' => handler e sent'
              end.

Definition await {A : Type} (p : Settled A) : Ai A :=
  match p with
  | Rejected message => throw message
  | Fulfilled a => ret a
  end.

Definition nl : string := String (ascii_of_nat 10) EmptyString.

(** The bullet character, U+2022, in UTF-8. *)
Definition bullet : string :=
  String (ascii_of_nat 226)
    (String (ascii_of_nat 128) (String (ascii_of_nat 162) EmptyString)).

(** [l.join(sep)]. *)
Fixpoint join (sep : string) (l : list string) : string :=
  match l with
  | [] => EmptyString
  | [x] => x
  | x :: t => x ++ sep ++ join sep t
  end.

(** A value of [severityCounts]: a count, or the text that adding 1 to
    something that is no number gives. *)
Inductive Counter : Type :=
| Count (n : Z)
| Text (s : string).

(** The functions every plain object inherits from Object.prototype. *)
Definition prototype_functions : list string :=
  ["constructor"; "__defineGetter__"; "__defineSetter__"; "hasOwnProperty";
   "__lookupGetter__"; "__lookupSetter__"; "isPrototypeOf";
   "propertyIsEnumerable"; "toString"; "valueOf"; "toLocaleString"].

(** What [acc[k]] evaluates to on a plain object: an own property, or
    else what the prototype has under that name. *)
Inductive Value : Type :=
| VUndefined
| VOwn (c : Counter)
| VFunction (name : string)
| VPrototype.

Definition own {A : Type} (k : string) (o : Js.object A) : option A :=
  match find (fun kv => String.eqb (fst kv) k) o with
  | Some kv => Some (snd kv)
  | None => None
  end.

Definition get (acc : Js.object Counter) (k : string) : Value :=
  match own k acc with
  | Some c => VOwn c
  | None =>
      if String.eqb k "__proto__" then VPrototype
      else if existsb (String.eqb k) prototype_functions then VFunction k
      else VUndefined
  end.

(** [${v}] for a value of [severityCounts]. *)
Definition show (c : Counter) : string :=
  match c with
  | Count n => Js.string_of_Z n
  | Text s => s
  end.

Section WithEnv.
Variable env : AiEnv.

Definition key_configured : bool :=
  match ANTHROPIC_API_KEY env with
  | Some k =>
      negb (String.eqb k EmptyString)
      && negb (String.eqb k "your_api_key_here")
  | None => false
  end.

Definition api_key : string :=
  match ANTHROPIC_API_KEY env with Some k => k | None => "undefined" end.

(** [await fetch(ANTHROPIC_API_URL, { method: 'POST', ... })]. *)
Definition fetch (max_tokens : Z) (prompt : string) : Ai Response :=
  fun sent =>
    let request :=
      mkRequest ANTHROPIC_API_URL api_key MODEL max_tokens prompt in
    match post env sent request with
    | Rejected message => Thrown message (sent ++ [request])
    | Fulfilled response => Returned response (sent ++ [request])
    end.

(** [(acc[k] || 0) + 1]. *)
Definition or_zero_plus_one (v : Value) : Counter :=
  match v with
  | VUndefined => Count 1
  | VOwn (Count n) => if n =? 0 then Count 1 else Count (n + 1)
  | VOwn (Text s) =>
      if String.eqb s EmptyString then Count 1 else Text (s ++ "1")
  | VFunction name => Text (function_text env name ++ "1")
  | VPrototype => Text "[object Object]1"
  end.

(** [v > 0]. *)
Definition gt_zero (v : Value) : bool :=
  match v with
  | VUndefined => false
  | VOwn (Count n) => 0 <? n
  | VOwn (Text s) => Js.gt (Number env s) (Js.Num 0)
  | VFunction name => Js.gt (Number env (function_text env name)) (Js.Num 0)
  | VPrototype => Js.gt (Number env "[object Object]") (Js.Num 0)
  end.

Definition severityCounts (alerts : list AlertRow) : Js.object Counter :=
  fold_left (fun acc alert =>
               Js.set (severity alert)
                      (or_zero_plus_one (get acc (severity alert))) acc)
            alerts [].

(** [sum + (a.event_count || 1)] from 0. *)
Definition totalEvents (alerts : list AlertRow) : Z :=
  fold_left (fun sum a =>
               sum + (if event_count a =? 0 then 1 else event_count a))
            alerts 0.

Definition threatLevel (alerts : list AlertRow) : string :=
  let counts := severityCounts alerts in
  if gt_zero (get counts "critical") then "Critical"
  else if gt_zero (get counts "high") then "High"
  else if gt_zero (get counts "medium") then "Medium"
  else "Low".

Definition breakdown (alerts : list AlertRow) : string :=
  join ", " (map (fun kv => show (snd kv) ++ " " ++ fst kv)
                 (Js.entries (severityCounts alerts))).

(** The template of the summary, with its four holes. *)
Definition summary_text (threatLevel : string) (length totalEvents : Z)
    (breakdown : string) : string :=
  "[AI Analyst Summary - Stub Mode]" ++ nl ++ nl
  ++ "Overall Threat Level: " ++ threatLevel ++ nl ++ nl
  ++ "Key Findings:" ++ nl ++ bullet ++ " "
  ++ Js.string_of_Z length
  ++ " distinct threat pattern(s) detected" ++ nl ++ bullet ++ " "
  ++ Js.string_of_Z totalEvents
  ++ " total security events analyzed"
  ++ nl ++ bullet ++ " Severity breakdown: " ++ breakdown ++ nl ++ nl
  ++ "Recommended Actions:" ++ nl ++ bullet
  ++ " Review high-severity alerts immediately" ++ nl ++ bullet
  ++ " Investigate source IPs for potential blocking" ++ nl ++ bullet
  ++ " Consider implementing rate limiting for affected services" ++ nl
  ++ nl ++ "Note: Connect your Anthropic API key in .env to enable full "
  ++ "AI analysis.".

Definition generateStubSummary (alerts : list AlertRow) : string :=
  summary_text (threatLevel alerts) (Z.of_nat (List.length alerts))
               (totalEvents alerts) (breakdown alerts).

Definition buildAnalystPrompt (alerts : list AlertRow) : string :=
  let alertsSummary :=
    join nl (map (fun a =>
                    "- [" ++ toUpperCase env (severity a) ++ "] " ++ title a
                    ++ ": " ++ description a) alerts) in
  "You are a cybersecurity analyst reviewing threat detection "
  ++ "alerts. Analyze the following alerts and provide a concise "
  ++ "executive summary." ++ nl ++ nl ++ "Alerts detected:" ++ nl
  ++ alertsSummary ++ nl ++ nl ++ "Provide:" ++ nl
  ++ "1. Overall threat level (Low/Medium/High/Critical)" ++ nl
  ++ "2. Key findings (2-3 bullets)" ++ nl
  ++ "3. Recommended immediate actions" ++ nl ++ nl
  ++ "Keep the response concise and actionable.".

(** [data.content]: reading a property of null throws; no other value
    that JSON.parse gives has the property unless it is an object with
    that key. *)
Definition read (data : Json) (k : string) : Ai (option Json) :=
  match data with
  | JNull => throw (null_read env k)
  | _ => ret (Parsers.prop data k)
  end.

(** [content[0]] for a truthy [content]: the first element of an array,
    the property 0 of an object, the first character of a text (of
    which only its being there is used: a character has no property
    text). *)
Definition first (content : Json) : option Json :=
  match content with
  | JArr l => hd_error l
  | JObj fields => Parsers.assoc "0" fields
  | JStr (String a _) => Some (JStr (String a EmptyString))
  | _ => None
  end.

(** [data.content[0].text] when
    [!data.content || !data.content[0] || !data.content[0].text] is
    false, and nothing when it is true. *)
Definition content_text (data : Json) : Ai (option Json) :=
  bind (read data "content") (fun content =>
  match content with
  | Some c =>
      if Parsers.truthy content then
        match first c with
        | Some item =>
            if Parsers.truthy (Some item) then
              if Parsers.truthy (Parsers.prop item "text")
              then ret (Parsers.prop item "text")
              else ret None
            else ret None
        | None => ret None
        end
      else ret None
  | None => ret None
  end).

Definition generateAISummary (alerts : list AlertRow) : Ai Json :=
  if negb key_configured then ret (JStr (generateStubSummary alerts))
  else
    try_catch
      (let prompt := buildAnalystPrompt alerts in
       bind (fetch 1024 prompt) (fun response =>
       if negb (ok response) then
         bind (await (body_text response)) (fun errorBody =>
         ret (JStr (generateStubSummary alerts)))
       else
         bind (await (body_json response)) (fun data =>
         bind (content_text data) (fun text =>
         match text with
         | None => ret (JStr (generateStubSummary alerts))
         | Some text => ret text
         end))))
      (fun error => ret (JStr (generateStubSummary alerts))).

Definition summarizeAlerts (alerts : list AlertRow) : Ai Json :=
  generateAISummary alerts.

(** [SELECT * FROM alerts WHERE id = ?]: no row has an infinite id or
    the id NaN. *)
Definition alertById (table : list AlertRow) (alertId : Js.number)
  : option AlertRow :=
  match alertId with
  | Js.Num z => find (fun a => alert_id a =? z) table
  | _ => None
  end.

(** [SELECT * FROM logs WHERE column = ? ORDER BY timestamp DESC
    LIMIT 20]. *)
Definition latestLogs (name : string) (column : LogRow -> option string)
    (value : string) (table : list LogRow) : list LogRow :=
  let selected := filter (fun r => Sql.eq_text (column r) value) table in
  Order.limit_offset 20 0
    (Order.sorted_by (Order.text_desc timestamp (log_rank env name selected))
                     selected).

Definition truthy_text (v : option string) : bool :=
  match v with
  | Some s => negb (String.eqb s EmptyString)
  | None => false
  end.

Definition relatedLogs (table : list LogRow) (alert : AlertRow)
  : list LogRow :=
  if truthy_text (alert_source_ip alert)
  then latestLogs "source_ip" source_ip (text (alert_source_ip alert)) table
  else if truthy_text (affected_entity alert)
  then latestLogs "username" username (text (affected_entity alert)) table
  else [].

Definition logsContext (relatedLogs : list LogRow) : string :=
  if (0 <? Z.of_nat (List.length relatedLogs))
  then join nl (map (fun log =>
                       "[" ++ timestamp log ++ "] "
                       ++ Rules.template (event_type log)
                       ++ " - User: " ++ Rules.or_text (username log) "N/A"
                       ++ ", IP: " ++ Rules.or_text (source_ip log) "N/A"
                       ++ ", Status: " ++ Rules.template (status log)
                       ++ ", Msg: " ++ Rules.template (message log))
                    relatedLogs)
  else "No related logs found".

Definition alertPrompt (alert : AlertRow) (logsContext : string) : string :=
  "You are a cybersecurity analyst conducting a deep-dive "
  ++ "investigation into a security alert." ++ nl ++ nl
  ++ "Alert Details:" ++ nl ++ "- Type: " ++ alert_type alert ++ nl
  ++ "- Severity: " ++ severity alert ++ nl ++ "- Title: " ++ title alert
  ++ nl ++ "- Description: " ++ description alert ++ nl
  ++ "- Affected Entity: " ++ Rules.or_text (affected_entity alert) "N/A"
  ++ nl ++ "- Source IP: " ++ Rules.or_text (alert_source_ip alert) "N/A"
  ++ nl ++ "- Event Count: " ++ Js.string_of_Z (event_count alert) ++ nl
  ++ "- Time Range: " ++ first_seen alert ++ " to " ++ last_seen alert
  ++ nl ++ nl ++ "Related Log Entries:" ++ nl ++ logsContext ++ nl ++ nl
  ++ "Provide a detailed security analysis including:" ++ nl
  ++ "1. Attack pattern identification" ++ nl
  ++ "2. Potential impact assessment" ++ nl
  ++ "3. Recommended investigation steps" ++ nl
  ++ "4. Suggested remediation actions" ++ nl ++ nl
  ++ "Be specific and actionable.".

(** The texts returned in place of an analysis end with the title and
    the description of the alert. *)
Definition titled (head : string) (alert : AlertRow) : string :=
  head ++ nl ++ nl ++ title alert ++ nl ++ description alert.

(** [generateAlertSummary(alertId)] on the database [w], which it only
    reads. *)
Definition generateAlertSummary (w : World) (alertId : Js.number) : Ai Json :=
  match alertById (alerts w) alertId with
  | None => ret (JStr "Alert not found")
  | Some alert =>
      if negb key_configured then
        ret (JStr (titled ("[Detailed analysis for alert #"
                           ++ Js.number_to_string alertId
                           ++ " - AI not configured]") alert))
      else
        try_catch
          (let relatedLogs := relatedLogs (logs w) alert in
           let logsContext := logsContext relatedLogs in
           let prompt := alertPrompt alert logsContext in
           bind (fetch 2048 prompt) (fun response =>
           if negb (ok response) then
             bind (await (body_text response)) (fun errorBody =>
             ret (JStr (titled "[Analysis failed - API error]" alert)))
           else
             bind (await (body_json response)) (fun data =>
             bind (content_text data) (fun text =>
             match text with
             | None =>
                 ret (JStr (titled "[Analysis failed - Invalid response]"
                                   alert))
             | Some text => ret text
             end))))
          (fun error =>
             ret (JStr (titled ("[Analysis failed - " ++ error ++ "]")
                               alert)))
  end.

(** [getAlerts.all(status, limit, offset)] of init.js. *)
Definition getAlerts (table : list AlertRow) (status : string)
    (limit offset : Z) : list AlertRow :=
  let selected := filter (fun a => String.eqb (alert_status a) status) table in
  Order.limit_offset limit offset
    (Order.sorted_by
       (Order.time_desc alert_created_at
                        (alert_rank env limit offset selected))
       selected).

(** What POST /api/analyze answers. *)
Inductive AnalyzeResponse : Type :=
| NothingToAnalyze (summary : string)
| Analyzed (alerts_analyzed : Z) (summary : Json)
| AnalyzeFailed (error : string).

Definition post_analyze (w : World) : Ai AnalyzeResponse :=
  try_catch
    (let recentAlerts := getAlerts (alerts w) "open" 20 0 in
     if Z.of_nat (List.length recentAlerts) =? 0
     then ret (NothingToAnalyze "No open alerts to analyze.")
     else
       bind (generateAISummary recentAlerts) (fun summary =>
       ret (Analyzed (Z.of_nat (List.length recentAlerts)) summary)))
    (fun error => ret (AnalyzeFailed error)).

(** What GET /api/alerts/:id/analyze answers: 400, 200 or 500. *)
Inductive AlertAnalysisResponse : Type :=
| InvalidAlertId (error : string)
| Analysis (alert_id : Js.number) (analysis : Json)
| AnalysisFailed (error : string).

Definition get_alert_analyze (w : World) (id : string)
  : Ai AlertAnalysisResponse :=
  try_catch
    (let alertId := Js.parseInt id in
     match alertId with
     | Js.NaN => ret (InvalidAlertId "Invalid alert ID")
     | _ =>
         bind (generateAlertSummary w alertId) (fun analysis =>
         ret (Analysis alertId analysis))
     end)
    (fun error => ret (AnalysisFailed error)).

End WithEnv.

End AiAnalyst.

(** ** Vocabulary of the statements on the analyst *)

(** The number of alerts of a severity. *)
Definition alerts_of (sev : string) (alerts : list AlertRow) : Z :=
  Z.of_nat (List.length
              (filter (fun a => String.eqb (severity a) sev) alerts)).

Definition has_severity (sev : string) (alerts : list AlertRow) : bool :=
  existsb (fun a => String.eqb (severity a) sev) alerts.

(** The highest of the three levels that some alert has, under the
    names the summary gives them. *)
Definition worst (alerts : list AlertRow) : string :=
  if has_severity "critical" alerts then "Critical"
  else if has_severity "high" alerts then "High"
  else if has_severity "medium" alerts then "Medium"
  else "Low".

(** A severity that is a key like any other of a plain object: no
    property of Object.prototype, and no array index. *)
Definition plain_key (k : string) : bool :=
  negb (String.eqb k "__proto__")
  && negb (existsb (String.eqb k) AiAnalyst.prototype_functions)
  && match Js.array_index k with Some _ => false | None => true end.

(** What the object of the counts holds after the alerts seen so far:
    under an ordinary key the number of alerts of that severity, and
    the severities as keys, in the order of their first alert. *)
Definition counted (seen : list AlertRow)
    (acc : Js.object AiAnalyst.Counter) : Prop :=
  (forall k, plain_key k = true ->
             AiAnalyst.own k acc
             = if has_severity k seen
               then Some (AiAnalyst.Count (alerts_of k seen)) else None)
  /\ map fst acc
     = filter (fun k => negb (String.eqb k "__proto__"))
              (Js.uniq (map severity seen)).

(** The events an alert stands for in the summary: its count, and 1
    when the count is 0. *)
Definition events_of (a : AlertRow) : Z :=
  if event_count a =? 0 then 1 else event_count a.

Fixpoint sum_of (l : list Z) : Z :=
  match l with
  | [] => 0
  | x :: t => x + sum_of t
  end.

(** The request a call sends. *)
Definition request_of (env : AiAnalyst.AiEnv) (max_tokens : Z)
    (prompt : string) : AiAnalyst.Request :=
  AiAnalyst.mkRequest AiAnalyst.ANTHROPIC_API_URL (AiAnalyst.api_key env)
                      AiAnalyst.MODEL max_tokens prompt.

(** What the provider's answer to a request comes to: the text of
    [data.content[0].text] of a response that is ok and can be read, or
    else the reason why there is none. *)
Inductive Verdict : Type :=
| Threw (message : string)   (* fetch or the reading of the body rejects,
                                or the body is null *)
| ErrorStatus                (* the response is not ok *)
| InvalidBody                (* there is no content[0].text *)
| Answer (text : Json).

Definition text_of (data : Json) : option Json :=
  match Parsers.prop data "content" with
  | Some c =>
      if Parsers.truthy (Some c) then
        match AiAnalyst.first c with
        | Some item =>
            if Parsers.truthy (Some item)
               && Parsers.truthy (Parsers.prop item "text")
            then Parsers.prop item "text" else None
        | None => None
        end
      else None
  | None => None
  end.

Definition verdict (env : AiAnalyst.AiEnv) (sent : list AiAnalyst.Request)
    (request : AiAnalyst.Request) : Verdict :=
  match AiAnalyst.post env sent request with
  | AiAnalyst.Rejected message => Threw message
  | AiAnalyst.Fulfilled response =>
      if AiAnalyst.ok response then
        match AiAnalyst.body_json response with
        | AiAnalyst.Rejected message => Threw message
        | AiAnalyst.Fulfilled JNull =>
            Threw (AiAnalyst.null_read env "content")
        | AiAnalyst.Fulfilled data =>
            match text_of data with
            | Some t => Answer t
            | None => InvalidBody
            end
        end
      else
        match AiAnalyst.body_text response with
        | AiAnalyst.Rejected message => Threw message
        | AiAnalyst.Fulfilled _ => ErrorStatus
        end
  end.

(** The open alerts. *)
Definition open_rows (table : list AlertRow) : list AlertRow :=
  filter (fun a => String.eqb (alert_status a) "open") table.

(** The logs an alert is related to: those of its address, or, when it
    has none, those of its account. *)
Definition related_to (alert : AlertRow) (r : LogRow) : bool :=
  if AiAnalyst.truthy_text (alert_source_ip alert)
  then Sql.eq_text (source_ip r) (text (alert_source_ip alert))
  else if AiAnalyst.truthy_text (affected_entity alert)
  then Sql.eq_text (username r) (text (affected_entity alert))
  else false.

(** ** An analyst environment for the examples *)

Module SampleAi.

Definition upper_ascii (a : ascii) : ascii :=
  let n := nat_of_ascii a in
  if (Nat.leb 97 n && Nat.leb n 122)%bool then ascii_of_nat (n - 32) else a.

Fixpoint toUpperCase (s : string) : string :=
  match s with
  | EmptyString => EmptyString
  | String a s' => String (upper_ascii a) (toUpperCase s')
  end.

Definition function_text (name : string) : string :=
  "function " ++ name ++ "() { [native code] }".

Definition Number (s : string) : Js.number := Js.NaN.

Definition null_read (k : string) : string :=
  "Cannot read properties of null (reading '" ++ k ++ "')".

Definition by_id_log (column : string) (selected : list LogRow) (r : LogRow)
  : Z := log_id r.

Definition by_id_alert (limit offset : Z) (selected : list AlertRow)
    (a : AlertRow) : Z := alert_id a.

(** A provider that answers every request with one text. *)
Definition answering (sent : list AiAnalyst.Request)
    (request : AiAnalyst.Request) : AiAnalyst.Settled AiAnalyst.Response :=
  AiAnalyst.Fulfilled
    (AiAnalyst.mkResponse true (AiAnalyst.Fulfilled "{...}")
       (AiAnalyst.Fulfilled
          (JObj [("content",
                  JArr [JObj [("type", JStr "text");
                              ("text", JStr "Threat level: High")]])]))).

(** A provider that is over its quota. *)
Definition refusing (sent : list AiAnalyst.Request)
    (request : AiAnalyst.Request) : AiAnalyst.Settled AiAnalyst.Response :=
  AiAnalyst.Fulfilled
    (AiAnalyst.mkResponse false (AiAnalyst.Fulfilled "rate limited")
       (AiAnalyst.Rejected "Unexpected token")).

Definition no_key : AiAnalyst.AiEnv :=
  AiAnalyst.mkAiEnv None refusing toUpperCase function_text Number null_read
                    by_id_log by_id_alert.

Definition placeholder_key : AiAnalyst.AiEnv :=
  AiAnalyst.mkAiEnv (Some "your_api_key_here") answering toUpperCase
                    function_text Number null_read by_id_log by_id_alert.

Definition with_key : AiAnalyst.AiEnv :=
  AiAnalyst.mkAiEnv (Some "sk-test") answering toUpperCase function_text
                    Number null_read by_id_log by_id_alert.

Definition over_quota : AiAnalyst.AiEnv :=
  AiAnalyst.mkAiEnv (Some "sk-test") refusing toUpperCase function_text
                    Number null_read by_id_log by_id_alert.

Definition alert (id : Z) (sev : string) (ip : option string) (count : Z)
  : AlertRow :=
  mkAlert id "brute_force" sev "Brute Force Attack" "Detected failed logins"
          ip ip count "2025-10-15T11:55:00Z" "2025-10-15T11:59:00Z" "open"
          None Sample.noon.

Definition with_alerts (rows : list AlertRow) (table : list LogRow) : World :=
  mkWorld table (Z.of_nat (List.length table)) rows
          (Z.of_nat (List.length rows)) [] [].

End SampleAi.

(** ** src/utils/parsers.js: the file parsers *)

Module Files.

(** What the parsers and the upload handlers take from Node and from
    the csv-parse library.  A call that throws gives the message of its
    error on the left. *)
Record FileEnv : Type := mkFileEnv {
  readFileSync : string -> string + string;   (* fs.readFileSync(path,
                                                 'utf-8') *)
  JSON_parse : string -> string + Json;
  trim : string -> string;                    (* String.prototype.trim *)
  csv_parse : bool -> string -> string + list Json;
                                              (* parse(text, options) of
                                                 csv-parse/sync, with or
                                                 without
                                                 relax_column_count *)
  extname : string -> string                  (* path.extname *)
}.

Section WithEnv.
Variable fs : FileEnv.

(** [lines.map(line => JSON.parse(line))]: the first line that does not
    parse throws. *)
Fixpoint parse_lines (lines : list string) : string + list Json :=
  match lines with
  | [] => inr []
  | line :: rest =>
      match JSON_parse fs line with
      | inl e => inl e
      | inr v =>
          match parse_lines rest with
          | inl e => inl e
          | inr vs => inr (v :: vs)
          end
      end
  end.

(** [line.trim()] as a condition. *)
Definition not_blank (line : string) : bool :=
  negb (String.eqb (trim fs line) EmptyString).

Definition parseJSON (filePath : string) : string + list Json :=
  match readFileSync fs filePath with
  | inl e => inl e
  | inr content =>
      match JSON_parse fs content with
      | inr data => inr (match data with JArr l => l | _ => [data] end)
      | inl _ =>
          parse_lines (filter not_blank (Js.split (ascii_of_nat 10) content))
      end
  end.

Definition parseCSV (filePath : string) : string + list Json :=
  match readFileSync fs filePath with
  | inl e => inl e
  | inr content => csv_parse fs false content
  end.

End WithEnv.

End Files.

(** ** src/api/routes.js: file upload and CSV ingestion *)

Module Uploads.

(** A file part of a request: its name, and the path multer stores it
    under when it accepts it. *)
Record File : Type := mkFile {
  originalname : string;
  path : string
}.

Record DetectionSummary : Type := mkSummary {
  s_brute_force : Z;
  s_off_hours : Z;
  s_geo_anomaly : Z;
  s_high_risk_ip : Z
}.

(** What the two routes answer: status 400, 200 or 500. *)
Inductive Response : Type :=
| BadRequest (error : string)
| Processed (logs_ingested alerts_generated : Z)
            (detection_summary : DetectionSummary)
| ServerError (error : string).

(** The body of a request as the body parsers leave it: nothing, a
    parsed JSON value (a text when it is a JSON string or raw text), or
    a Buffer, given by its text in UTF-8. *)
Inductive Body : Type :=
| NoBody
| Parsed (value : Json)
| Buffer (content : string).

Section WithEnv.
Variable fs : Files.FileEnv.
Variable env : Env.

(** The extension the handlers compare.  It is lower-cased as ASCII
    text: JavaScript's toLowerCase takes no character that is not an
    ASCII letter to a letter of the extensions compared below, so the
    comparisons come out the same. *)
Definition extension (originalname : string) : string :=
  Js.toLowerCase (Files.extname fs originalname).

(** The fileFilter of multer: whether the file is accepted. *)
Definition fileFilter (file : File) : bool :=
  let allowedTypes := [".json"; ".csv"; ".log"] in
  let ext := extension (originalname file) in
  existsb (String.eqb ext) allowedTypes.

(** A call, made in a handler, that may throw. *)
Definition call {A : Type} (r : string + A) : M A :=
  match r with
  | inl e => throw e
  | inr a => ret a
  end.

(** The common end of the two handlers: the transaction, then the
    detections, then the numbers of the answer. *)
Definition ingest (logs : list Json) : M Response :=
  Routes.insertMany env logs ;;
  let* detectionResults := Rules.runAllDetections env in
  ret (Processed
         (Z.of_nat (List.length logs))
         (Rules.total detectionResults)
         {| s_brute_force :=
              Z.of_nat (List.length (Rules.brute_force detectionResults));
            s_off_hours :=
              Z.of_nat (List.length (Rules.off_hours detectionResults));
            s_geo_anomaly :=
              Z.of_nat (List.length (Rules.geo_anomaly detectionResults));
            s_high_risk_ip :=
              Z.of_nat (List.length (Rules.high_risk_ip detectionResults))
         |}).

(** The error the fileFilter passes on for a file it refuses. *)
Definition filter_error : string := "Only JSON and CSV files are allowed".

(** [upload.single('logfile')] on a request with at most one file part,
    in the field logfile and within the size limit: a file the
    fileFilter refuses is not stored and its error goes to [next];
    otherwise [req.file] is the file, or undefined when there is
    none. *)
Definition upload_single (part : option File) : string + option File :=
  match part with
  | None => inr None
  | Some file =>
      if fileFilter file then inr (Some file) else inl filter_error
  end.

(** The error-handling middleware of index.js, for an error without a
    status: 500 with [err.message || 'Internal server error']. *)
Definition errorMiddleware (message : string) : Response :=
  ServerError (if String.eqb message EmptyString
               then "Internal server error" else message).

(** The handler of POST /api/logs/upload: [file] is [req.file]. *)
Definition logs_upload_handler (file : option File) : M Response :=
  try_catch
    (match file with
     | None => ret (BadRequest "No file uploaded")
     | Some file =>
         let filePath := path file in
         let ext := extension (originalname file) in
         if String.eqb ext ".json" then
           let* logs := call (Files.parseJSON fs filePath) in ingest logs
         else if String.eqb ext ".csv" then
           let* logs := call (Files.parseCSV fs filePath) in ingest logs
         else ret (BadRequest "Unsupported file type")
     end)
    (fun error => ret (ServerError error)).

(** POST /api/logs/upload: multer, then the handler or, when multer
    passes an error on, the error-handling middleware. *)
Definition post_logs_upload (part : option File) : M Response :=
  match upload_single part with
  | inl err => ret (errorMiddleware err)
  | inr file => logs_upload_handler file
  end.

Definition csv_required : string :=
  "CSV data required in request body as " ++ String (ascii_of_nat 34) "csv"
  ++ String (ascii_of_nat 34) " field or raw text".

(** The text the CSV is read from, when the body has one of the three
    shapes; it is any value yet when it is the csv field. *)
Definition csvText (body : Body) : option Json :=
  match body with
  | Parsed (JStr s) => Some (JStr s)
  | Parsed value =>
      if Parsers.truthy (Some value)
         && Parsers.truthy (Parsers.prop value "csv")
      then Parsers.prop value "csv" else None
  | Buffer content => Some (JStr content)
  | NoBody => None
  end.

(** POST /api/ingest-csv. *)
Definition post_ingest_csv (body : Body) : M Response :=
  try_catch
    (match csvText body with
     | None => ret (BadRequest csv_required)
     | Some (JStr text) =>
         if String.eqb text EmptyString then ret (BadRequest csv_required)
         else
           let* records := call (Files.csv_parse fs true text) in
           if Z.of_nat (List.length records) =? 0
           then ret (BadRequest "No valid records found in CSV")
           else ingest records
     | Some _ => ret (BadRequest csv_required)
     end)
    (fun error => ret (ServerError error)).

End WithEnv.

End Uploads.

(** ** Vocabulary of the statements on the uploads *)

(** What the upload handler parses the file with. *)
Definition parsed (fs : Files.FileEnv) (file : Uploads.File)
  : string + list Json :=
  if String.eqb (Uploads.extension fs (Uploads.originalname file)) ".json"
  then Files.parseJSON fs (Uploads.path file)
  else Files.parseCSV fs (Uploads.path file).

(** The entries are stored, in order, as the only change to the
    database. *)
Definition stored (env : Env) (entries : list Json) (w w1 : World) : Prop :=
  exists rows,
    logs w1 = (logs w ++ rows)%list
    /\ Forall2 (stores env) entries rows
    /\ alerts w1 = alerts w
    /\ alerts_seq w1 = alerts_seq w
    /\ ip_reputation w1 = ip_reputation w.

(** The entries were stored, taking the database from [w] to [w1], and
    the detection run then threw the error of the INSERT of the
    high-risk rule, which only a run that is not settled does; it left
    the database in [w'], where the logs are those of [w1] and the
    alerts have grown by what the run had inserted. *)
Definition interrupted (env : Env) (entries : list Json) (w w1 w' : World)
  : Prop :=
  stored env entries w w1
  /\ Rules.runAllDetections env w1 = Throw first_seen_null w'
  /\ settled env (logs w1) = false
  /\ logs w' = logs w1
  /\ exists new, alerts w' = (alerts w1 ++ new)%list.

(** The answer reports the run [d], which took the database from [w1]
    to [w']: the logs are those of [w1], and the alerts have grown by
    the number reported, which is the sum of the four numbers of the
    summary. *)
Definition reports (d : Rules.Detections) (w1 w' : World)
    (alerts_generated : Z) (summary : Uploads.DetectionSummary) : Prop :=
  alerts_generated = Rules.total d
  /\ alerts_generated
     = Uploads.s_brute_force summary + Uploads.s_off_hours summary
       + Uploads.s_geo_anomaly summary + Uploads.s_high_risk_ip summary
  /\ logs w' = logs w1
  /\ Z.of_nat (List.length (alerts w'))
     = Z.of_nat (List.length (alerts w1)) + alerts_generated.

(** ** File environments for the examples *)

Module SampleFiles.

(** The text after the last dot of a name without directories. *)
Fixpoint after_last_dot (s : string) (found : option string) : option string :=
  match s with
  | EmptyString => found
  | String a rest =>
      after_last_dot rest
        (if Ascii.eqb a "." then Some (String a rest) else found)
  end.

Definition extname (name : string) : string :=
  match after_last_dot name None with
  | Some ext => ext
  | None => EmptyString
  end.

Definition no_file (path : string) : string + string :=
  inl "ENOENT: no such file or directory".

Definition no_json (s : string) : string + Json :=
  inl "Unexpected token".

Definition one_record (relax : bool) (s : string) : string + list Json :=
  inr [JObj [("timestamp", JStr "2025-10-15T11:59:00Z");
             ("username", JStr "admin"); ("status", JStr "failed")]].

Definition node : Files.FileEnv :=
  Files.mkFileEnv no_file no_json (fun s => s) one_record extname.

(** A CSV of one record, dated a second inside the 24-hour window of
    noon of 2025-10-15. *)
Definition old_record (relax : bool) (s : string) : string + list Json :=
  inr [JObj [("timestamp", JStr "2025-10-14T12:00:01Z");
             ("source_ip", JStr "203.0.113.250");
             ("status", JStr "failed")]].

Definition node_old_record : Files.FileEnv :=
  Files.mkFileEnv no_file no_json (fun s => s) old_record extname.

End SampleFiles.

(** ** The primitives on examples *)

Example parseInt_250 : Js.parseInt "250" = Js.Num 250.
Proof. reflexivity. Qed.

Example parseInt_hex : Js.parseInt "0x1f" = Js.Num 31.
Proof. reflexivity. Qed.

Example parseInt_rounds :
  Js.parseInt "99999999999999999999" = Js.Num 100000000000000000000
  /\ Js.parseInt "9007199254740993" = Js.Num 9007199254740992
  /\ Js.parseInt ("1" ++ Sample.zeros 309) = Js.Infinity
  /\ Js.parseInt ("-1" ++ Sample.zeros 309) = Js.NegInfinity.
Proof. repeat split; vm_compute; reflexivity. Qed.

Example parseInt_nan : Js.parseInt "x" = Js.NaN.
Proof. reflexivity. Qed.

Example split_ip : Js.split "." "10.0.0.5" = ["10"; "0"; "0"; "5"].
Proof. reflexivity. Qed.

Example string_of_Z_250 : Js.string_of_Z 250 = "250".
Proof. reflexivity. Qed.

Example datetime_noon : Sample.datetime "2025-10-15T12:00:00Z" = Some Sample.noon.
Proof. reflexivity. Qed.

Example datetime_offset :
  Sample.datetime "2025-10-15T02:00:00+05:00"
  = Sample.datetime "2025-10-14 21:00:00".
Proof. reflexivity. Qed.

Example weekday_wednesday : Sql.weekday_of Sample.noon = 3.
Proof. reflexivity. Qed.

Example hour_noon : Sql.hour_of Sample.noon = 12.
Proof. reflexivity. Qed.

Example datetime_garbage : Sample.datetime "yesterday" = None.
Proof. reflexivity. Qed.

(** ** The loop and the sequencing of effects *)

Lemma for_of_cons {A B : Type} (x : A) (t : list A) (body : B -> A -> M B)
    (acc : B) (w : World) :
  for_of (x :: t) body acc w
  = match body acc x w with
    | Ok acc' w' => for_of t body acc' w'
    | Throw e w' => Throw e w'
    end.
Proof. reflexivity. Qed.

Lemma bind_run {A B : Type} (m : M A) (k : A -> M B) (w : World) :
  bind m k w
  = match m w with
    | Ok a w' => k a w'
    | Throw e w' => Throw e w'
    end.
Proof. reflexivity. Qed.

(** ** Ingestion *)

Section Ingestion.
Variable env : Env.

Lemma or_chain_not_null (operands : list (option Json)) (last : Json) :
  last <> JNull -> Parsers.or_chain operands last <> JNull.
Proof.
  intros Hlast. induction operands as [|[v|] t IH]; simpl; auto.
  destruct v; simpl; auto; try discriminate.
  - destruct b; auto. discriminate.
  - destruct (negb (z =? 0)); auto. discriminate.
  - destruct (negb (String.eqb s EmptyString)); auto. discriminate.
Qed.

Lemma or_chain_missing (operands : list (option Json)) (last : Json) :
  forallb (fun v => negb (Parsers.truthy v)) operands = true ->
  Parsers.or_chain operands last = last.
Proof.
  induction operands as [|[v|] t IH]; simpl; auto.
  intros H. apply andb_true_iff in H as [Hv Ht].
  apply negb_true_iff in Hv.
  change (Parsers.or_chain (Some v :: t) last)
    with (if Parsers.truthy (Some v) then v else Parsers.or_chain t last).
  rewrite Hv. auto.
Qed.

Lemma missing_default (entry : Json) (names : list string) (last : Json) :
  missing entry names = true ->
  Parsers.or_chain (map (Parsers.prop entry) names) last = last.
Proof.
  intros H. apply or_chain_missing.
  unfold missing in H. rewrite forallb_forall in *.
  intros v Hv. apply in_map_iff in Hv as [k [<- Hk]]. auto.
Qed.

(** The two outcomes of inserting one entry do not depend on the
    state of the store. *)
Lemma insertEntry_cases (entry : Json) :
  (forall w0, exists row,
      Routes.insertEntry env entry w0
      = Ok tt (mkWorld (logs w0 ++ [row]) (logs_seq w0 + 1) (alerts w0)
                       (alerts_seq w0) (ip_reputation w0) (trace w0)))
  \/ rejected env entry.
Proof.
  unfold rejected, Routes.insertEntry, Parsers.normalizeLogEntry,
    Database.insertLog.
  destruct entry; try (right; intros w0; eexists; reflexivity);
    unfold bind, ret, throw; simpl;
    match goal with
    | |- context [BindArgs env ?a] => destruct (BindArgs env a) as [cols|]
    end;
    try (right; intros w0; eexists; reflexivity);
    (destruct cols as [|[ts|] [|et [|un [|sip [|dip [|st [|msg [|raw [|]]]]]]]]];
     try (right; intros w0; eexists; reflexivity);
     left; intros w0; eexists; reflexivity).
Qed.

(** The loop of the transaction body: all rows in, or an error with
    whatever was inserted before it. *)
Lemma insert_loop (entries : list Json) (w : World) :
  (exists rows,
      for_of entries (fun _ entry => Routes.insertEntry env entry) tt w
      = Ok tt (mkWorld (logs w ++ rows) (logs_seq w + Z.of_nat (List.length rows))
                       (alerts w) (alerts_seq w) (ip_reputation w) (trace w))
      /\ Forall2 (stores env) entries rows)
  \/ (exists e w',
      for_of entries (fun _ entry => Routes.insertEntry env entry) tt w
      = Throw e w'
      /\ trace w' = trace w
      /\ exists entry, In entry entries /\ rejected env entry).
Proof.
  revert w. induction entries as [|entry t IH]; intros w.
  - left. exists []. simpl. split; [|constructor].
    unfold ret. rewrite app_nil_r, Z.add_0_r. destruct w; reflexivity.
  - rewrite !for_of_cons.
    destruct (insertEntry_cases entry) as [Hok | Hrej].
    + destruct (Hok w) as [row Hrow]. rewrite Hrow.
      destruct (IH (mkWorld (logs w ++ [row]) (logs_seq w + 1) (alerts w)
                      (alerts_seq w) (ip_reputation w) (trace w)))
        as [[rows [Hrows Hall]] | [e [w' [Hthrow [Htr [bad [Hin Hbad]]]]]]].
      * left. exists (row :: rows). split.
        -- rewrite Hrows. simpl logs. simpl logs_seq. simpl alerts.
           simpl alerts_seq. simpl ip_reputation. simpl trace.
           rewrite <- app_assoc. simpl app.
           replace (logs_seq w + 1 + Z.of_nat (List.length rows))
             with (logs_seq w + Z.of_nat (List.length (row :: rows)))
             by (simpl List.length; lia).
           reflexivity.
        -- constructor; auto. exists w. eexists. split; [exact Hrow|].
           reflexivity.
      * right. exists e, w'. split; [exact Hthrow|]. split; [exact Htr|].
        exists bad. split; [right; exact Hin | exact Hbad].
    + right. destruct (Hrej w) as [e He]. rewrite He.
      exists e, w. split; [reflexivity|]. split; [reflexivity|].
      exists entry. split; [left; reflexivity | exact Hrej].
Qed.

Lemma rejected_not_stored (entry : Json) (w0 w1 : World) :
  rejected env entry -> Routes.insertEntry env entry w0 <> Ok tt w1.
Proof.
  intros Hrej H. destruct (Hrej w0) as [e He]. congruence.
Qed.

End Ingestion.

(** C9.  Normalisation never rejects a record: for every entry other than
    JSON null it returns, without touching the store, an event whose
    timestamp is not null (the current time when no timestamp field is
    given), whose raw payload is the serialised entry, whose event type
    is "unknown" when none is given, and whose other fields are null when
    they are not given. *)
Theorem normalizeLogEntry_defaults (env : Env) (entry : Json) (w : World) :
  entry <> JNull ->
  exists n,
    Parsers.normalizeLogEntry env entry w = Ok n w
    /\ Parsers.n_timestamp n <> JNull
    /\ Parsers.n_raw_data n = JSON_stringify env entry
    /\ (missing entry ["timestamp"; "time"; "datetime"; "date"] = true ->
        Parsers.n_timestamp n = JStr (toISOString_now env))
    /\ (missing entry ["event_type"; "eventType"; "type"; "action"] = true ->
        Parsers.n_event_type n = JStr "unknown")
    /\ (missing entry ["username"; "user"; "account"; "userid"] = true ->
        Parsers.n_username n = JNull)
    /\ (missing entry ["source_ip"; "sourceIP"; "src_ip"; "ip"; "clientIP"]
        = true -> Parsers.n_source_ip n = JNull)
    /\ (missing entry ["destination_ip"; "destIP"; "dest_ip"; "target_ip"]
        = true -> Parsers.n_destination_ip n = JNull)
    /\ (missing entry ["status"; "result"; "outcome"] = true ->
        Parsers.n_status n = JNull)
    /\ (missing entry ["message"; "description"; "msg"; "details"] = true ->
        Parsers.n_message n = JNull).
Proof.
  intros Hentry.
  assert (Hrun : exists n, Parsers.normalizeLogEntry env entry w = Ok n w
            /\ n = {|
              Parsers.n_timestamp :=
                Parsers.or_chain
                  (map (Parsers.prop entry)
                     ["timestamp"; "time"; "datetime"; "date"])
                  (JStr (toISOString_now env));
              Parsers.n_event_type :=
                Parsers.or_chain
                  (map (Parsers.prop entry)
                     ["event_type"; "eventType"; "type"; "action"])
                  (JStr "unknown");
              Parsers.n_username :=
                Parsers.or_chain
                  (map (Parsers.prop entry)
                     ["username"; "user"; "account"; "userid"]) JNull;
              Parsers.n_source_ip :=
                Parsers.or_chain
                  (map (Parsers.prop entry)
                     ["source_ip"; "sourceIP"; "src_ip"; "ip"; "clientIP"])
                  JNull;
              Parsers.n_destination_ip :=
                Parsers.or_chain
                  (map (Parsers.prop entry)
                     ["destination_ip"; "destIP"; "dest_ip"; "target_ip"])
                  JNull;
              Parsers.n_status :=
                Parsers.or_chain
                  (map (Parsers.prop entry) ["status"; "result"; "outcome"])
                  JNull;
              Parsers.n_message :=
                Parsers.or_chain
                  (map (Parsers.prop entry)
                     ["message"; "description"; "msg"; "details"]) JNull;
              Parsers.n_raw_data := JSON_stringify env entry |}).
  { destruct entry; try congruence; eexists; split; reflexivity. }
  destruct Hrun as [n [Hrun ->]]. eexists. split; [exact Hrun|].
  cbn [Parsers.n_timestamp Parsers.n_event_type Parsers.n_username
       Parsers.n_source_ip Parsers.n_destination_ip Parsers.n_status
       Parsers.n_message Parsers.n_raw_data].
  split; [apply or_chain_not_null; discriminate|].
  split; [reflexivity|].
  repeat split; apply missing_default.
Qed.

(** A record that only says who logged in: everything else is defaulted. *)
Lemma normalizeLogEntry_defaults_witness :
  exists n,
    Parsers.normalizeLogEntry Sample.offline
      (JObj [("user", JStr "alice"); ("status", JStr EmptyString)])
      Sample.empty
    = Ok n Sample.empty
    /\ Parsers.n_timestamp n = JStr "2025-10-15T12:00:00.000Z"
    /\ Parsers.n_event_type n = JStr "unknown"
    /\ Parsers.n_username n = JStr "alice"
    /\ Parsers.n_status n = JNull.
Proof.
  destruct (normalizeLogEntry_defaults Sample.offline
              (JObj [("user", JStr "alice"); ("status", JStr EmptyString)])
              Sample.empty)
    as [n [Hrun [_ [_ [Hts [Het [_ [_ [_ [Hst _]]]]]]]]]].
  - discriminate.
  - exists n. split; [exact Hrun|].
    split; [apply Hts; reflexivity|].
    split; [apply Het; reflexivity|].
    split; [|apply Hst; reflexivity].
    injection Hrun as <-. reflexivity.
Defined.

(** C7.  Batch ingestion is atomic.  When it returns, every entry of the
    batch has been accepted and the rows of all of them, in order, are
    the only change to the store; when it throws, some entry was rejected
    and the database is exactly as before.  An entry that raises an error
    in normalisation or insertion therefore leaves the store unchanged. *)
Theorem insertMany_atomic (env : Env) (entries : list Json) (w : World) :
  match Routes.insertMany env entries w with
  | Ok _ w' =>
      exists rows,
        logs w' = (logs w ++ rows)%list
        /\ Forall2 (stores env) entries rows
        /\ alerts w' = alerts w
        /\ ip_reputation w' = ip_reputation w
  | Throw _ w' =>
      same_database w w'
      /\ exists entry, In entry entries /\ rejected env entry
  end
  /\ (forall entry, In entry entries -> rejected env entry ->
      exists e w', Routes.insertMany env entries w = Throw e w'
                   /\ same_database w w').
Proof.
  assert (Hmain :
    match Routes.insertMany env entries w with
    | Ok _ w' =>
        exists rows,
          logs w' = (logs w ++ rows)%list
          /\ Forall2 (stores env) entries rows
          /\ alerts w' = alerts w
          /\ ip_reputation w' = ip_reputation w
    | Throw _ w' =>
        same_database w w'
        /\ exists entry, In entry entries /\ rejected env entry
    end).
  { unfold Routes.insertMany, transaction.
    destruct (insert_loop env entries w)
      as [[rows [Hrun Hall]] | [e [w' [Hrun [_ Hbad]]]]]; rewrite Hrun.
    - exists rows. repeat split; auto.
    - split; [|exact Hbad]. repeat split. }
  split; [exact Hmain|].
  intros entry Hin Hrej.
  destruct (Routes.insertMany env entries w) as [[] w' | e w'].
  - exfalso. destruct Hmain as [rows [_ [Hall _]]].
    clear - Hall Hin Hrej. induction Hall as [|x row t rows Hx _ IH].
    + contradiction.
    + destruct Hin as [-> | Hin]; auto.
      destruct Hx as [w0 [w1 [Hx _]]].
      exact (rejected_not_stored env entry w0 w1 Hrej Hx).
  - exists e, w'. split; [reflexivity|]. apply Hmain.
Qed.

(** A batch whose second entry is null: nothing is stored, not even the
    first entry. *)
Lemma insertMany_atomic_witness :
  exists e w',
    Routes.insertMany Sample.offline
      [JObj [("status", JStr "failed")]; JNull] Sample.empty = Throw e w'
    /\ same_database Sample.empty w'.
Proof.
  apply (proj2 (insertMany_atomic Sample.offline
                  [JObj [("status", JStr "failed")]; JNull] Sample.empty)
           JNull).
  - simpl. right. left. reflexivity.
  - intros w0. eexists. reflexivity.
Defined.

(** ** The reputation cache *)

Section Cache.
Variable env : Env.

Lemma requests_app (t1 t2 : list Effect) :
  requests (t1 ++ t2) = (requests t1 + requests t2)%nat.
Proof. unfold requests. rewrite filter_app, length_app. reflexivity. Qed.

(** [fetchFromAbuseIPDB] always returns: every error is caught and
    replaced by the generated record. *)
Lemma fetchFromAbuseIPDB_spec (ip : string) (w : World) :
  Abuseipdb.fetchFromAbuseIPDB env ip w
  = Ok (answer env (requests (trace w)) ip) (with_trace w (network env ip)).
Proof.
  unfold Abuseipdb.fetchFromAbuseIPDB, answer, network, with_trace.
  destruct (Abuseipdb.key_configured env); simpl.
  - unfold try_catch, bind, Abuseipdb.http_get. fold (requests (trace w)).
    destruct (fetch env (requests (trace w)) ip) as [msg|code txt|msg|[data|]];
      try reflexivity.
    destruct (code =? 429); reflexivity.
  - unfold ret. rewrite app_nil_r. destruct w; reflexivity.
Qed.

Lemma lookup_spec (ip : string) (w : World) :
  ip <> EmptyString ->
  Abuseipdb.getIPReputationWithCache env (Js.Str ip) w
  = match Abuseipdb.cached_row env ip (ip_reputation w) with
    | Some row => Ok (Some row) (with_trace w (lookup_trace env (ip_reputation w) ip))
    | None =>
        Ok (Some (answer env (requests (trace w)) ip))
           (mkWorld (logs w) (logs_seq w) (alerts w) (alerts_seq w)
              (upsert env (answer env (requests (trace w)) ip) ip
                      (ip_reputation w))
              (trace w ++ lookup_trace env (ip_reputation w) ip))
    end.
Proof.
  intros Hip. apply String.eqb_neq in Hip.
  destruct w as [lg ls al sq tb tr].
  cbv [Abuseipdb.getIPReputationWithCache Abuseipdb.getIPReputation bind
       emit get_world ret]. rewrite Hip.
  cbn [logs logs_seq alerts alerts_seq ip_reputation trace].
  unfold lookup_trace, with_trace.
  cbn [logs logs_seq alerts alerts_seq ip_reputation trace].
  destruct (Abuseipdb.cached_row env ip tb) as [row|]; [reflexivity|].
  rewrite fetchFromAbuseIPDB_spec.
  cbv [with_trace try_catch Abuseipdb.existing bind emit get_world ret].
  cbn [logs logs_seq alerts alerts_seq ip_reputation trace].
  rewrite requests_app. change (requests [CacheRead ip]) with 0%nat.
  rewrite Nat.add_0_r. unfold upsert.
  destruct (existsb (fun r => String.eqb (ip_address r) ip) tb);
    cbv [Abuseipdb.updateIPReputation Abuseipdb.insertIPReputation
         Abuseipdb.set_table bind emit get_world ret];
    cbn [logs logs_seq alerts alerts_seq ip_reputation trace];
    rewrite <- !app_assoc; reflexivity.
Qed.

(** A falsy argument: nothing is read, fetched or written. *)
Lemma lookup_falsy (a : Js.arg) (w : World) :
  Js.truthy a = false ->
  Abuseipdb.getIPReputationWithCache env a w = Ok None w.
Proof.
  destruct a as [| |s]; try reflexivity.
  simpl. intros H. apply negb_false_iff in H.
  unfold Abuseipdb.getIPReputationWithCache. rewrite H. reflexivity.
Qed.

Lemma fresh_stamped (reputation : Reputation) (ip : string) :
  Abuseipdb.fresh env (Abuseipdb.stamped env reputation ip) = true.
Proof.
  unfold Abuseipdb.fresh, Abuseipdb.stamped, Abuseipdb.CACHE_TTL_DAYS.
  simpl. apply Z.ltb_lt. lia.
Qed.

(** A miss on one address leaves the cached rows of the others alone. *)
Lemma cached_row_upsert_other (reputation : Reputation)
    (ip ip' : string) (table : list Reputation) :
  ip' <> ip ->
  Abuseipdb.cached_row env ip' (upsert env reputation ip table)
  = Abuseipdb.cached_row env ip' table.
Proof.
  intros Hne. unfold upsert, Abuseipdb.cached_row.
  destruct (existsb _ table).
  - induction table as [|r t IH]; simpl; auto.
    destruct (String.eqb (ip_address r) ip) eqn:Hr.
    + apply String.eqb_eq in Hr. simpl.
      assert (H1 : String.eqb ip ip' = false)
        by (apply String.eqb_neq; congruence).
      assert (H2 : String.eqb (ip_address r) ip' = false)
        by (apply String.eqb_neq; congruence).
      rewrite H1, H2. simpl. exact IH.
    + rewrite IH. reflexivity.
  - induction table as [|r t IH]; simpl.
    + assert (H1 : String.eqb ip ip' = false)
        by (apply String.eqb_neq; congruence).
      rewrite H1. reflexivity.
    + rewrite IH. reflexivity.
Qed.

(** After a miss the record just written is the cached row, for as
    long as it is fresh. *)
Lemma cached_row_upsert_later (later : Env) (reputation : Reputation)
    (ip : string) (table : list Reputation) :
  Abuseipdb.fresh later (Abuseipdb.stamped env reputation ip) = true ->
  Abuseipdb.cached_row later ip (upsert env reputation ip table)
  = Some (Abuseipdb.stamped env reputation ip).
Proof.
  intros Hfresh. unfold upsert, Abuseipdb.cached_row.
  destruct (existsb _ table) eqn:Hex.
  - induction table as [|r t IH]; simpl in *; [discriminate|].
    destruct (String.eqb (ip_address r) ip) eqn:Hr; simpl.
    + rewrite String.eqb_refl, Hfresh. reflexivity.
    + rewrite Hr. simpl. apply IH. exact Hex.
  - induction table as [|r t IH]; simpl in *.
    + rewrite String.eqb_refl, Hfresh. reflexivity.
    + apply orb_false_iff in Hex as [Hr Ht]. rewrite Hr. simpl. auto.
Qed.

Lemma cached_row_upsert_same (reputation : Reputation) (ip : string)
    (table : list Reputation) :
  Abuseipdb.cached_row env ip (upsert env reputation ip table)
  = Some (Abuseipdb.stamped env reputation ip).
Proof. apply cached_row_upsert_later, fresh_stamped. Qed.

(** A row that is still fresh later was the first fresh one then if it
    is now: time only moves forward. *)
Lemma cached_row_later (later : Env) (ip : string)
    (table : list Reputation) (row : Reputation) :
  now env <= now later ->
  Abuseipdb.cached_row env ip table = Some row ->
  Abuseipdb.fresh later row = true ->
  Abuseipdb.cached_row later ip table = Some row.
Proof.
  intros Hnow. unfold Abuseipdb.cached_row.
  induction table as [|r t IH]; simpl; [discriminate|].
  intros Hfind Hrow.
  destruct (String.eqb (ip_address r) ip) eqn:Hr; simpl in *.
  - destruct (Abuseipdb.fresh env r) eqn:Hf.
    + injection Hfind as ->. rewrite Hrow. reflexivity.
    + destruct (Abuseipdb.fresh later r) eqn:Hl; auto.
      exfalso. unfold Abuseipdb.fresh in *.
      destruct (last_checked r) as [tm|]; [|discriminate].
      apply Z.ltb_lt in Hl. apply Z.ltb_ge in Hf. lia.
  - auto.
Qed.

Lemma answer_ip_address (n : nat) (ip : string) :
  ip_address (answer env n ip) = ip.
Proof.
  unfold answer. destruct (Abuseipdb.key_configured env); auto.
  destruct (fetch env n ip) as [?|? ?|?|[?|]]; reflexivity.
Qed.

Lemma answer_last_checked (n : nat) (ip : string) :
  last_checked (answer env n ip) = None.
Proof.
  unfold answer. destruct (Abuseipdb.key_configured env); auto.
  destruct (fetch env n ip) as [?|? ?|?|[?|]]; reflexivity.
Qed.

Lemma same_data_stamped (reputation : Reputation) (ip : string) :
  ip_address reputation = ip ->
  same_data reputation (Abuseipdb.stamped env reputation ip).
Proof. intros H. unfold same_data. simpl. repeat split; auto. Qed.

Lemma lookup_trace_hit (ip : string) (table : list Reputation)
    (row : Reputation) :
  Abuseipdb.cached_row env ip table = Some row ->
  lookup_trace env table ip = [CacheRead ip].
Proof. intros H. unfold lookup_trace. rewrite H. reflexivity. Qed.

(** A fresh record of the address exists exactly when the cache read
    finds one. *)
Lemma cached_row_exists (ip : string) (table : list Reputation) :
  (exists row, In row table /\ ip_address row = ip
               /\ exists t, last_checked row = Some t
                            /\ now env - t < Abuseipdb.CACHE_TTL_DAYS * 86400)
  <-> (exists row, Abuseipdb.cached_row env ip table = Some row).
Proof.
  unfold Abuseipdb.cached_row, Abuseipdb.CACHE_TTL_DAYS. split.
  - intros [row [Hin [Hip [t [Ht Hage]]]]].
    destruct (find _ table) as [r|] eqn:Hfind; [eauto|].
    exfalso. apply (find_none _ _ Hfind) in Hin.
    unfold Abuseipdb.fresh, Abuseipdb.CACHE_TTL_DAYS in Hin.
    rewrite Ht, Hip, String.eqb_refl in Hin.
    simpl in Hin. apply Z.ltb_ge in Hin. lia.
  - intros [row Hfind]. apply find_some in Hfind as [Hin Hrow].
    apply andb_true_iff in Hrow as [Hip Hfresh].
    apply String.eqb_eq in Hip.
    unfold Abuseipdb.fresh, Abuseipdb.CACHE_TTL_DAYS in Hfresh.
    exists row. repeat split; auto.
    destruct (last_checked row) as [t|]; [|discriminate].
    exists t. split; auto. apply Z.ltb_lt in Hfresh. lia.
Qed.

End Cache.



(** ** Eviction *)

Lemma filter_length_split {A : Type} (p : A -> bool) (l : list A) :
  (List.length (filter p l) + List.length (filter (fun x => negb (p x)) l)
   = List.length l)%nat.
Proof.
  induction l as [|x t IH]; simpl; auto.
  destruct (p x); simpl; lia.
Qed.

(** C6 as amended.  [evictStale] deletes exactly the records whose
    last_checked is at or before now - 7 days (those a lookup treats as
    absent), leaves every other record as it was, in every field and in
    the same order, touches nothing else, and returns the number of
    records it removed. *)
Theorem clearStaleCache_exact (env : Env) (w : World) :
  exists w',
    Abuseipdb.clearStaleCache env w
    = Ok (Z.of_nat (List.length (ip_reputation w))
          - Z.of_nat (List.length (ip_reputation w'))) w'
    /\ ip_reputation w'
       = filter (fun r => negb (Abuseipdb.stale env r)) (ip_reputation w)
    /\ (forall r, In r (ip_reputation w') <->
                  In r (ip_reputation w)
                  /\ ~ (exists t, last_checked r = Some t
                                  /\ t <= now env
                                          - Abuseipdb.CACHE_TTL_DAYS * 86400))
    /\ logs w' = logs w /\ alerts w' = alerts w /\ trace w' = trace w.
Proof.
  exists (mkWorld (logs w) (logs_seq w) (alerts w) (alerts_seq w)
            (filter (fun r => negb (Abuseipdb.stale env r)) (ip_reputation w))
            (trace w)).
  split; [|split; [reflexivity|split]].
  - unfold Abuseipdb.clearStaleCache.
    cbv [bind get_world Abuseipdb.set_table ret].
    cbn [logs logs_seq alerts alerts_seq ip_reputation trace].
    f_equal.
    pose proof (filter_length_split (Abuseipdb.stale env) (ip_reputation w)).
    lia.
  - intros r. cbn [ip_reputation]. rewrite filter_In.
    unfold Abuseipdb.stale. split.
    + intros [Hin Hr]. split; auto. intros [t [Ht Hle]].
      rewrite Ht in Hr. apply negb_true_iff, Z.leb_gt in Hr. lia.
    + intros [Hin Hr]. split; auto.
      destruct (last_checked r) as [t|]; auto.
      apply negb_true_iff, Z.leb_gt.
      destruct (Z.le_gt_cases t (now env - Abuseipdb.CACHE_TTL_DAYS * 86400));
        auto.
      exfalso. apply Hr. eauto.
  - repeat split.
Qed.

(** C6 as stated fails at the boundary: a record checked exactly seven
    days ago does not precede now - TTL, and it is deleted. *)
Lemma clearStaleCache_boundary :
  let r := mkRep "8.8.8.8" (Js.Num 0) None None false (Js.Num 0) "{}"
                 (Some (Sample.noon - 7 * 86400)) in
  let w := mkWorld [] 0 [] 0 [r] [] in
  ~ (Sample.noon - 7 * 86400 < now Sample.offline - 7 * 86400)
  /\ Abuseipdb.clearStaleCache Sample.offline w = Ok 1 Sample.empty.
Proof.
  split.
  - vm_compute. discriminate.
  - reflexivity.
Qed.

(** ** Batch lookup *)

Lemma uniq_In (x : string) (l : list string) : In x (Js.uniq l) <-> In x l.
Proof.
  induction l as [|y t IH]; simpl; [tauto|].
  rewrite filter_In, IH. split.
  - intros [H | [H _]]; auto.
  - intros [H | H]; auto.
    destruct (String.eqb x y) eqn:E.
    + apply String.eqb_eq in E. auto.
    + right. split; auto.
Qed.

Lemma uniq_NoDup (l : list string) : NoDup (Js.uniq l).
Proof.
  induction l as [|y t IH]; simpl; constructor.
  - rewrite filter_In. intros [_ H]. rewrite String.eqb_refl in H.
    discriminate.
  - apply NoDup_filter, IH.
Qed.

Lemma index_insert_keys (k : string) (keys : list string) :
  Permutation (k :: keys) (Sql.index_insert k keys).
Proof.
  induction keys as [|x t IH]; simpl; [reflexivity|].
  destruct (String.leb k x); [reflexivity|].
  rewrite perm_swap. constructor. exact IH.
Qed.

Lemma index_order_keys (keys : list string) :
  Permutation keys (Sql.index_order keys).
Proof.
  induction keys as [|k t IH]; simpl; [constructor|].
  rewrite <- index_insert_keys. constructor. exact IH.
Qed.

(** The distinct values of a column are its values, each once. *)
Lemma distinct_In (x : string) (l : list string) :
  In x (Sql.distinct l) <-> In x l.
Proof.
  unfold Sql.distinct. rewrite <- (uniq_In x l). split; intros H.
  - apply (Permutation_in _ (Permutation_sym (index_order_keys _)) H).
  - apply (Permutation_in _ (index_order_keys _) H).
Qed.

Lemma distinct_NoDup (l : list string) : NoDup (Sql.distinct l).
Proof.
  unfold Sql.distinct.
  apply (Permutation_NoDup (index_order_keys _)), uniq_NoDup.
Qed.

Lemma filter_truthy_In (s : string) (l : list Js.arg) :
  In s (Js.filter_truthy l) <-> In (Js.Str s) l /\ s <> EmptyString.
Proof.
  induction l as [|a t IH]; simpl; [tauto|].
  destruct a as [| |s0].
  - rewrite IH. split; [tauto|]. intros [[H|H] ?]; [discriminate|tauto].
  - rewrite IH. split; [tauto|]. intros [[H|H] ?]; [discriminate|tauto].
  - destruct (String.eqb s0 EmptyString) eqn:E.
    + apply String.eqb_eq in E. rewrite IH. split; [tauto|].
      intros [[H|H] Hs]; [|tauto]. injection H as ->. contradiction.
    + apply String.eqb_neq in E. simpl. rewrite IH. split.
      * intros [-> | H]; tauto.
      * intros [[H|H] Hs]; [injection H as ->|]; tauto.
Qed.

Lemma filter_truthy_idem (l : list Js.arg) :
  Js.filter_truthy (map Js.Str (Js.filter_truthy l)) = Js.filter_truthy l.
Proof.
  induction l as [|a t IH]; simpl; auto.
  destruct a as [| |s]; auto.
  destruct (String.eqb s EmptyString) eqn:E; auto.
  simpl. rewrite E, IH. reflexivity.
Qed.

Lemma has_key_app {A : Type} (k : string) (o1 o2 : Js.object A) :
  Js.has_key k (o1 ++ o2)%list = Js.has_key k o1 || Js.has_key k o2.
Proof. unfold Js.has_key. apply existsb_app. Qed.

Lemma set_new {A : Type} (k : string) (v : A) (o : Js.object A) :
  Js.has_key k o = false ->
  Js.set k v o
  = (o ++ if String.eqb k "__proto__" then [] else [(k, v)])%list.
Proof.
  intros H. unfold Js.set. rewrite H.
  destruct (String.eqb k "__proto__"); auto. rewrite app_nil_r. reflexivity.
Qed.

Lemma Forall2_impl_In {A B : Type} (R R' : A -> B -> Prop) (l : list A)
    (l' : list B) :
  (forall a b, In a l -> R a b -> R' a b) ->
  Forall2 R l l' -> Forall2 R' l l'.
Proof.
  intros H HF. induction HF as [|a b l l' Hab _ IH]; constructor.
  - apply H; [left; reflexivity | exact Hab].
  - apply IH. intros a' b' Hin. apply H. right. exact Hin.
Qed.

Section Batch.
Variable env : Env.

(** One lookup of a non-empty address, as far as the loop needs it. *)
Lemma lookup_step (ip : string) (w : World) :
  ip <> EmptyString ->
  exists reputation w1,
    Abuseipdb.getIPReputationWithCache env (Js.Str ip) w
    = Ok (Some reputation) w1
    /\ resolved_by env (ip_reputation w) ip reputation
    /\ trace w1 = (trace w ++ lookup_trace env (ip_reputation w) ip)%list
    /\ logs w1 = logs w /\ logs_seq w1 = logs_seq w
    /\ alerts w1 = alerts w /\ alerts_seq w1 = alerts_seq w
    /\ (forall ip', ip' <> ip ->
          Abuseipdb.cached_row env ip' (ip_reputation w1)
          = Abuseipdb.cached_row env ip' (ip_reputation w)).
Proof.
  intros Hip. rewrite (lookup_spec env ip w Hip). unfold resolved_by.
  destruct (Abuseipdb.cached_row env ip (ip_reputation w)) as [row|].
  - eexists. eexists. split; [reflexivity|]. repeat split; auto.
  - eexists. eexists. split; [reflexivity|]. repeat split; eauto.
    intros ip' Hne. simpl. apply cached_row_upsert_other. exact Hne.
Qed.

Lemma segment_ext (table table' : list Reputation) (ip : string) :
  Abuseipdb.cached_row env ip table' = Abuseipdb.cached_row env ip table ->
  segment env table' ip = segment env table ip.
Proof. intros H. unfold segment, lookup_trace. rewrite H. reflexivity. Qed.

Lemma resolved_by_ext (table table' : list Reputation) (ip : string)
    (reputation : Reputation) :
  Abuseipdb.cached_row env ip table' = Abuseipdb.cached_row env ip table ->
  resolved_by env table' ip reputation -> resolved_by env table ip reputation.
Proof. intros H. unfold resolved_by. rewrite H. auto. Qed.

Lemma enrich_loop (l : list string) :
  forall (acc : Js.object (option Reputation)) (w : World),
    NoDup l ->
    Forall (fun ip => ip <> EmptyString) l ->
    (forall ip, In ip l -> Js.has_key ip acc = false) ->
    exists reps w',
      for_of l
        (fun results ip =>
           let* r := Abuseipdb.getIPReputationWithCache env (Js.Str ip) in
           let results := Js.set ip r results in
           (if Abuseipdb.key_configured env then Abuseipdb.delay 250
            else ret tt) ;;
           ret results)
        acc w
      = Ok (acc ++ collected (combine l reps))%list w'
      /\ Forall2 (resolved_by env (ip_reputation w)) l reps
      /\ trace w' = (trace w ++ flat_map (segment env (ip_reputation w)) l)%list
      /\ logs w' = logs w /\ logs_seq w' = logs_seq w
      /\ alerts w' = alerts w /\ alerts_seq w' = alerts_seq w.
Proof.
  induction l as [|ip t IH]; intros acc w Hnd Hne Hacc.
  - exists [], w. simpl. unfold ret. rewrite !app_nil_r.
    repeat split; auto.
  - inversion Hnd as [|? ? Hnotin Hnd']; subst.
    inversion Hne as [|? ? Hip Hne']; subst.
    destruct (lookup_step ip w Hip)
      as [rep [w1 [Hrun [Hres [Htr [Hl [Hls [Ha [Has Hother]]]]]]]]].
    set (acc' := (acc ++ if String.eqb ip "__proto__" then []
                         else [(ip, Some rep)])%list).
    set (w2 := if Abuseipdb.key_configured env
               then with_trace w1 [Delay 250] else w1).
    assert (Hstep :
      for_of (ip :: t)
        (fun results ip =>
           let* r := Abuseipdb.getIPReputationWithCache env (Js.Str ip) in
           let results := Js.set ip r results in
           (if Abuseipdb.key_configured env then Abuseipdb.delay 250
            else ret tt) ;;
           ret results)
        acc w
      = for_of t
        (fun results ip =>
           let* r := Abuseipdb.getIPReputationWithCache env (Js.Str ip) in
           let results := Js.set ip r results in
           (if Abuseipdb.key_configured env then Abuseipdb.delay 250
            else ret tt) ;;
           ret results)
        acc' w2).
    { rewrite for_of_cons, bind_run, Hrun. cbv beta iota zeta.
      rewrite (set_new ip (Some rep) acc) by (apply Hacc; left; reflexivity).
      fold acc'. unfold w2.
      destruct (Abuseipdb.key_configured env); reflexivity. }
    assert (Hw2 : ip_reputation w2 = ip_reputation w1
                  /\ logs w2 = logs w1 /\ logs_seq w2 = logs_seq w1
                  /\ alerts w2 = alerts w1 /\ alerts_seq w2 = alerts_seq w1
                  /\ trace w2 = (trace w1 ++
                       if Abuseipdb.key_configured env then [Delay 250]
                       else [])%list).
    { unfold w2. destruct (Abuseipdb.key_configured env); simpl;
        rewrite ?app_nil_r; repeat split; reflexivity. }
    destruct Hw2 as [Htab2 [Hl2 [Hls2 [Ha2 [Has2 Htr2]]]]].
    destruct (IH acc' w2 Hnd' Hne') as [reps [w' [Hloop [Hall [Htr' Hrest]]]]].
    { intros ip' Hin. unfold acc'. rewrite has_key_app.
      rewrite (Hacc ip') by (right; exact Hin). simpl.
      destruct (String.eqb ip "__proto__"); simpl; auto.
      rewrite orb_false_r. apply String.eqb_neq. intros ->. contradiction. }
    assert (Hsame : forall ip', In ip' t ->
              Abuseipdb.cached_row env ip' (ip_reputation w2)
              = Abuseipdb.cached_row env ip' (ip_reputation w)).
    { intros ip' Hin. rewrite Htab2. apply Hother. intros ->. contradiction. }
    exists (rep :: reps), w'. split; [|split; [|split]].
    + rewrite Hstep, Hloop. unfold acc'. rewrite <- app_assoc.
      f_equal. f_equal.
      unfold collected. simpl.
      destruct (String.eqb ip "__proto__"); reflexivity.
    + constructor; auto.
      eapply Forall2_impl_In; [|exact Hall].
      intros a b Hin. apply resolved_by_ext. apply Hsame, Hin.
    + assert (Hflat : flat_map (segment env (ip_reputation w2)) t
                      = flat_map (segment env (ip_reputation w)) t).
      { rewrite !flat_map_concat_map. f_equal.
        apply map_ext_in. intros a Hin. apply segment_ext, Hsame, Hin. }
      rewrite Htr', Htr2, Htr, Hflat.
      change (flat_map (segment env (ip_reputation w)) (ip :: t))
        with (segment env (ip_reputation w) ip
              ++ flat_map (segment env (ip_reputation w)) t)%list.
      assert (Hseg : segment env (ip_reputation w) ip
                     = (lookup_trace env (ip_reputation w) ip
                        ++ if Abuseipdb.key_configured env then [Delay 250]
                           else [])%list) by reflexivity.
      rewrite Hseg, <- !app_assoc. reflexivity.
    + destruct Hrest as [H1 [H2 [H3 H4]]].
      repeat split; congruence.
Qed.

(** The batch lookup, whatever the provider does: it returns, having
    looked the distinct truthy addresses up in order. *)
Lemma enrichIPsBatch_spec (ipAddresses : list Js.arg) (w : World) :
  exists reps w',
    Abuseipdb.enrichIPsBatch env ipAddresses w
    = Ok (collected (combine (Js.uniq (Js.filter_truthy ipAddresses)) reps))
         w'
    /\ Forall2 (resolved_by env (ip_reputation w))
               (Js.uniq (Js.filter_truthy ipAddresses)) reps
    /\ trace w' = (trace w ++ flat_map (segment env (ip_reputation w))
                               (Js.uniq (Js.filter_truthy ipAddresses)))%list
    /\ logs w' = logs w /\ logs_seq w' = logs_seq w
    /\ alerts w' = alerts w /\ alerts_seq w' = alerts_seq w.
Proof.
  unfold Abuseipdb.enrichIPsBatch.
  destruct (enrich_loop (Js.uniq (Js.filter_truthy ipAddresses)) [] w)
    as [reps [w' H]].
  - apply uniq_NoDup.
  - apply Forall_forall. intros ip Hin.
    apply uniq_In, filter_truthy_In in Hin. tauto.
  - reflexivity.
  - exists reps, w'. exact H.
Qed.

Lemma collected_keys (k : string) (l : list (string * Reputation)) :
  Js.has_key k (collected l) = true -> In k (map fst l).
Proof.
  unfold Js.has_key, collected. intros H.
  apply existsb_exists in H as [[k' v] [Hin Hk]].
  apply in_map_iff in Hin as [[k0 r] [Heq Hin]].
  apply filter_In in Hin as [Hin _].
  simpl in *. apply String.eqb_eq in Hk.
  assert (Hk0 : k0 = k) by congruence.
  apply in_map_iff. exists (k0, r). auto.
Qed.

Lemma delays_of_segments (table : list Reputation) (l : list string) :
  List.length (filter is_delay (flat_map (segment env table) l))
  = if Abuseipdb.key_configured env then List.length l else 0%nat.
Proof.
  induction l as [|ip t IH]; simpl.
  - destruct (Abuseipdb.key_configured env); reflexivity.
  - rewrite filter_app, length_app, IH.
    unfold segment, lookup_trace, network.
    destruct (Abuseipdb.cached_row env ip table);
      destruct (Abuseipdb.key_configured env); reflexivity.
Qed.

End Batch.

(** C8 as amended.  [batchLookup] drops the falsy and the repeated
    addresses, then looks the remaining ones up one after the other, in
    the order of their first occurrence; when an API key is configured it
    pauses 250 ms after every lookup, whether that lookup was a cache
    hit, a generated record or a request; when no key is configured it
    never pauses. *)
Theorem enrichIPsBatch_paces (env : Env) (ipAddresses : list Js.arg)
    (w : World) :
  let uniqueIPs := Js.uniq (Js.filter_truthy ipAddresses) in
  let effects :=
    flat_map
      (fun ip =>
         lookup_trace env (ip_reputation w) ip
         ++ (if Abuseipdb.key_configured env then [Delay 250] else []))%list
      uniqueIPs in
  exists results w',
    Abuseipdb.enrichIPsBatch env ipAddresses w = Ok results w'
    /\ NoDup uniqueIPs
    /\ trace w' = (trace w ++ effects)%list
    /\ List.length (filter is_delay effects)
       = (if Abuseipdb.key_configured env then List.length uniqueIPs
          else 0%nat)
    /\ Forall (fun e => is_delay e = true -> e = Delay 250) effects.
Proof.
  intros uniqueIPs effects.
  destruct (enrichIPsBatch_spec env ipAddresses w)
    as [reps [w' [Hrun [_ [Htr _]]]]].
  eexists. exists w'. split; [exact Hrun|].
  split; [apply uniq_NoDup|]. split; [exact Htr|].
  split; [apply delays_of_segments|].
  apply Forall_forall. intros e Hin Hd.
  apply in_flat_map in Hin as [ip [_ Hin]].
  apply in_app_or in Hin as [Hin | Hin].
  - exfalso. unfold lookup_trace, network in Hin.
    destruct Hin as [<- | Hin]; [discriminate|].
    destruct (Abuseipdb.cached_row env ip (ip_reputation w));
      [contradiction|].
    destruct (Abuseipdb.key_configured env); simpl in Hin;
      repeat (destruct Hin as [<- | Hin]; [discriminate|]); contradiction.
  - destruct (Abuseipdb.key_configured env); simpl in Hin;
      [destruct Hin as [<- | []]; reflexivity | contradiction].
Qed.

(** C8 as stated fails: with a key configured, a lookup that is a cache
    hit (one read of the table, no request) is still followed by the
    250 ms pause. *)
Lemma enrichIPsBatch_pause_after_hit :
  let row := mkRep "8.8.8.8" (Js.Num 42) (Some "DE") (Some "ISP") false
                   (Js.Num 3) "{...}" (Some Sample.noon) in
  let w := mkWorld [] 0 [] 0 [row] [] in
  Abuseipdb.enrichIPsBatch Sample.online [Js.Str "8.8.8.8"] w
  = Ok [("8.8.8.8", Some row)]
       (with_trace w [CacheRead "8.8.8.8"; Delay 250]).
Proof. reflexivity. Qed.

(** C10.  A falsy address (undefined, null, the empty string) is
    answered with null at once: the world is unchanged, so nothing was
    read from the cache, asked of the provider or written.  The batch
    lookup drops the falsy entries before it resolves anything, and the
    keys of its result are non-empty addresses of its input. *)
Theorem lookup_falsy_skipped (env : Env) (ipAddresses : list Js.arg)
    (w : World) :
  Abuseipdb.getIPReputationWithCache env Js.Undefined w = Ok None w
  /\ Abuseipdb.getIPReputationWithCache env Js.Null w = Ok None w
  /\ Abuseipdb.getIPReputationWithCache env (Js.Str EmptyString) w = Ok None w
  /\ (forall a, Js.truthy a = false ->
                Abuseipdb.getIPReputationWithCache env a w = Ok None w)
  /\ Abuseipdb.enrichIPsBatch env ipAddresses w
     = Abuseipdb.enrichIPsBatch env
         (map Js.Str (Js.filter_truthy ipAddresses)) w
  /\ exists results w',
       Abuseipdb.enrichIPsBatch env ipAddresses w = Ok results w'
       /\ forall k, Js.has_key k results = true ->
                    k <> EmptyString /\ In (Js.Str k) ipAddresses.
Proof.
  split; [reflexivity|]. split; [reflexivity|]. split; [reflexivity|].
  split; [intros a Ha; apply lookup_falsy; exact Ha|].
  split.
  - unfold Abuseipdb.enrichIPsBatch. rewrite filter_truthy_idem. reflexivity.
  - destruct (enrichIPsBatch_spec env ipAddresses w)
      as [reps [w' [Hrun [Hall _]]]].
    eexists. exists w'. split; [exact Hrun|].
    intros k Hk. apply collected_keys in Hk.
    apply in_map_iff in Hk as [[k' r] [Hfst Hin]]. simpl in Hfst. subst k'.
    apply in_combine_l in Hin. apply uniq_In, filter_truthy_In in Hin. tauto.
Qed.

(** A batch with null, undefined and empty entries around one address. *)
Lemma lookup_falsy_skipped_witness :
  exists results w',
    Abuseipdb.enrichIPsBatch Sample.offline
      [Js.Null; Js.Str "10.0.0.5"; Js.Undefined; Js.Str EmptyString;
       Js.Str "10.0.0.5"] Sample.empty = Ok results w'
    /\ map fst results = ["10.0.0.5"]
    /\ trace w' = [CacheRead "10.0.0.5"; CacheRead "10.0.0.5";
                   CacheWrite "10.0.0.5"].
Proof.
  destruct (lookup_falsy_skipped Sample.offline
              [Js.Null; Js.Str "10.0.0.5"; Js.Undefined; Js.Str EmptyString;
               Js.Str "10.0.0.5"] Sample.empty)
    as [_ [_ [_ [_ [Heq _]]]]].
  rewrite Heq. eexists. eexists. split; [reflexivity|].
  split; reflexivity.
Defined.

(** ** Loops that insert alerts *)

Lemma add_alerts_nil (w : World) : add_alerts w [] = w.
Proof.
  unfold add_alerts. simpl. rewrite app_nil_r, Z.add_0_r.
  destruct w; reflexivity.
Qed.

Lemma add_alerts_app (w : World) (a b : list AlertRow) :
  add_alerts (add_alerts w a) b = add_alerts w (a ++ b).
Proof.
  unfold add_alerts. simpl. rewrite <- app_assoc, length_app, Nat2Z.inj_add.
  rewrite Z.add_assoc. reflexivity.
Qed.

Lemma numbered_length {A B C : Type} (keep : A -> bool) (f : Z -> A -> B)
    (g : Z -> A -> C) (seq : Z) (l : list A) :
  List.length (numbered keep f seq l) = List.length (numbered keep g seq l).
Proof.
  revert seq. induction l as [|x t IH]; intros seq; simpl; auto.
  destruct (keep x); simpl; auto.
Qed.

Lemma numbered_map {A B C : Type} (keep : A -> bool) (f : Z -> A -> B)
    (h : B -> C) (g : A -> C) (seq : Z) (l : list A) :
  (forall n x, h (f n x) = g x) ->
  map h (numbered keep f seq l) = map g (filter keep l).
Proof.
  intros H. revert seq. induction l as [|x t IH]; intros seq; simpl; auto.
  destruct (keep x); simpl; auto. rewrite H, IH. reflexivity.
Qed.

Lemma numbered_ids {A B C : Type} (keep : A -> bool) (f : Z -> A -> B)
    (g : Z -> A -> C) (idf : B -> Z) (idg : C -> Z) (seq : Z) (l : list A) :
  (forall n x, idf (f n x) = n) -> (forall n x, idg (g n x) = n) ->
  map idf (numbered keep f seq l) = map idg (numbered keep g seq l).
Proof.
  intros Hf Hg. revert seq. induction l as [|x t IH]; intros seq; simpl; auto.
  destruct (keep x); simpl; auto. rewrite Hf, Hg, IH. reflexivity.
Qed.

(** The numbers given to the items are above the starting number. *)
Lemma numbered_ids_above {A B : Type} (keep : A -> bool) (f : Z -> A -> B)
    (idf : B -> Z) (seq : Z) (l : list A) :
  (forall n x, idf (f n x) = n) ->
  Forall (fun b => seq < idf b) (numbered keep f seq l).
Proof.
  intros Hf. revert seq. induction l as [|x t IH]; intros seq; simpl.
  - constructor.
  - destruct (keep x).
    + constructor; [rewrite Hf; lia|].
      eapply Forall_impl; [|apply IH]. simpl. intros b Hb. lia.
    + apply IH.
Qed.

(** Two items of the numbering with the same number are the same item. *)
Lemma numbered_ids_unique {A B : Type} (keep : A -> bool) (f : Z -> A -> B)
    (idf : B -> Z) (seq : Z) (l : list A) (a b : B) :
  (forall n x, idf (f n x) = n) ->
  In a (numbered keep f seq l) -> In b (numbered keep f seq l) ->
  idf a = idf b -> a = b.
Proof.
  intros Hf. revert seq. induction l as [|x t IH]; intros seq; simpl.
  - contradiction.
  - destruct (keep x); [|apply IH].
    pose proof (numbered_ids_above keep f idf (seq + 1) t Hf) as Habove.
    rewrite Forall_forall in Habove.
    intros [<- | Ha] [<- | Hb] Heq; auto.
    + apply Habove in Hb. rewrite Hf in Heq. lia.
    + apply Habove in Ha. rewrite Hf in Heq. lia.
    + eapply IH; eauto.
Qed.

(** The order of the items and their pairing with the rows. *)
Lemma numbered_combine {A B C : Type} (keep : A -> bool) (f : Z -> A -> B)
    (g : Z -> A -> C) (seq : Z) (l : list A) (b : B) :
  In b (numbered keep f seq l) ->
  exists n x, In x l /\ keep x = true /\ b = f n x
              /\ In (g n x) (numbered keep g seq l).
Proof.
  revert seq. induction l as [|x t IH]; intros seq; simpl; [contradiction|].
  destruct (keep x) eqn:Hk.
  - intros [<- | Hin].
    + exists (seq + 1), x. repeat split; auto. left. reflexivity.
    + destruct (IH _ Hin) as [n [y [Hy [Hky [Hb Hg]]]]].
      exists n, y. repeat split; auto. right. exact Hg.
  - intros Hin. destruct (IH _ Hin) as [n [y [Hy [Hky [Hb Hg]]]]].
    exists n, y. repeat split; auto.
Qed.

Lemma alert_loop {A B : Type} (table : list LogRow)
    (body : list B -> A -> M (list B)) (keep : A -> bool)
    (out : Z -> A -> B) (row : Z -> A -> AlertRow) (l : list A) :
  (forall acc x w, In x l -> logs w = table ->
     body acc x w
     = if keep x
       then Ok (acc ++ [out (alerts_seq w + 1) x])%list
               (add_alerts w [row (alerts_seq w + 1) x])
       else Ok acc w) ->
  forall acc w, logs w = table ->
    for_of l body acc w
    = Ok (acc ++ numbered keep out (alerts_seq w) l)%list
         (add_alerts w (numbered keep row (alerts_seq w) l)).
Proof.
  induction l as [|x t IH]; intros Hbody acc w Hw.
  - simpl. unfold ret. rewrite app_nil_r, add_alerts_nil. reflexivity.
  - rewrite for_of_cons, (Hbody acc x w (or_introl eq_refl) Hw).
    simpl numbered. destruct (keep x).
    + rewrite IH.
      * rewrite add_alerts_app, <- app_assoc. simpl.
        replace (alerts_seq w + 1 + 0) with (alerts_seq w + 1) by lia.
        reflexivity.
      * intros acc' y w' Hy. apply Hbody. right. exact Hy.
      * exact Hw.
    + apply IH; auto. intros acc' y w' Hy. apply Hbody. right. exact Hy.
Qed.

(** The same loop when the body throws [e] on the kept items that have
    the property [stop]: the loop ends at the first of them, and the
    rows of the items before it are in the table. *)
Lemma alert_loop_until {A B : Type} (table : list LogRow)
    (body : list B -> A -> M (list B)) (keep stop : A -> bool)
    (out : Z -> A -> B) (row : Z -> A -> AlertRow) (e : string)
    (l : list A) :
  (forall acc x w, In x l -> logs w = table ->
     body acc x w
     = if keep x
       then if stop x then Throw e w
            else Ok (acc ++ [out (alerts_seq w + 1) x])%list
                    (add_alerts w [row (alerts_seq w + 1) x])
       else Ok acc w) ->
  forall acc w, logs w = table ->
    for_of l body acc w
    = match before_first (fun x => keep x && stop x) l with
      | None =>
          Ok (acc ++ numbered keep out (alerts_seq w) l)%list
             (add_alerts w (numbered keep row (alerts_seq w) l))
      | Some pre =>
          Throw e (add_alerts w (numbered keep row (alerts_seq w) pre))
      end.
Proof.
  induction l as [|x t IH]; intros Hbody acc w Hw.
  - simpl. unfold ret. rewrite app_nil_r, add_alerts_nil. reflexivity.
  - assert (Ht : forall acc' y w', In y t -> logs w' = table ->
              body acc' y w'
              = if keep y
                then if stop y then Throw e w'
                     else Ok (acc' ++ [out (alerts_seq w' + 1) y])%list
                             (add_alerts w' [row (alerts_seq w' + 1) y])
                else Ok acc' w')
      by (intros acc' y w' Hy; apply Hbody; right; exact Hy).
    rewrite for_of_cons, (Hbody acc x w (or_introl eq_refl) Hw).
    cbn [numbered before_first]. destruct (keep x) eqn:Hk; cbn [andb].
    + destruct (stop x) eqn:Hs.
      * cbn [numbered]. rewrite add_alerts_nil. reflexivity.
      * rewrite (IH Ht _ (add_alerts w [row (alerts_seq w + 1) x]) Hw).
        change (alerts_seq (add_alerts w [row (alerts_seq w + 1) x]))
          with (alerts_seq w + Z.of_nat 1).
        change (Z.of_nat 1) with 1.
        destruct (before_first _ t) as [pre|].
        -- cbn [numbered]. rewrite Hk, add_alerts_app. reflexivity.
        -- rewrite add_alerts_app, <- app_assoc. reflexivity.
    + rewrite (IH Ht _ _ Hw).
      destruct (before_first _ t) as [pre|]; [|reflexivity].
      cbn [numbered]. rewrite Hk. reflexivity.
Qed.

(** ** The order of a TEXT column *)

Lemma leb_lt_or_eq (a b : string) :
  String.leb a b = true <-> String_as_OT.lt a b \/ a = b.
Proof.
  unfold String.leb. split.
  - destruct (String.compare a b) eqn:E; try discriminate; intros _.
    + right. apply String_as_OT.cmp_eq. exact E.
    + left. apply String_as_OT.cmp_lt. exact E.
  - intros [H | H].
    + apply String_as_OT.cmp_lt in H. unfold String_as_OT.cmp in H.
      rewrite H. reflexivity.
    + apply String_as_OT.cmp_eq in H. unfold String_as_OT.cmp in H.
      rewrite H. reflexivity.
Qed.

Lemma leb_refl (a : string) : String.leb a a = true.
Proof. apply leb_lt_or_eq. right. reflexivity. Qed.

Lemma leb_trans (a b c : string) :
  String.leb a b = true -> String.leb b c = true -> String.leb a c = true.
Proof.
  rewrite !leb_lt_or_eq. intros [H1 | ->] [H2 | ->]; auto.
  left. eapply String_as_OT.lt_trans; eauto.
Qed.

Lemma fold_text_min (t : list string) :
  forall x, least (fold_left Sql.text_min t x) (x :: t).
Proof.
  induction t as [|y t IH]; intros x; simpl.
  - split; [left; reflexivity|]. intros s [<- | []]. apply leb_refl.
  - destruct (IH (Sql.text_min x y)) as [Hin Hle]. split.
    + destruct Hin as [Hin | Hin]; [|right; right; exact Hin].
      rewrite <- Hin. unfold Sql.text_min.
      destruct (String.leb x y); simpl; auto.
    + intros s Hs.
      assert (Hm : String.leb (fold_left Sql.text_min t (Sql.text_min x y))
                              (Sql.text_min x y) = true)
        by (apply Hle; left; reflexivity).
      destruct Hs as [<- | [<- | Hs]].
      * eapply leb_trans; [exact Hm|]. unfold Sql.text_min.
        destruct (String.leb x y) eqn:E; [apply leb_refl|].
        destruct (String.leb_total x y) as [H | H]; congruence.
      * eapply leb_trans; [exact Hm|]. unfold Sql.text_min.
        destruct (String.leb x y) eqn:E; [exact E | apply leb_refl].
      * apply Hle. right. exact Hs.
Qed.

Lemma fold_text_max (t : list string) :
  forall x, greatest (fold_left Sql.text_max t x) (x :: t).
Proof.
  induction t as [|y t IH]; intros x; simpl.
  - split; [left; reflexivity|]. intros s [<- | []]. apply leb_refl.
  - destruct (IH (Sql.text_max x y)) as [Hin Hle]. split.
    + destruct Hin as [Hin | Hin]; [|right; right; exact Hin].
      rewrite <- Hin. unfold Sql.text_max.
      destruct (String.leb x y); simpl; auto.
    + intros s Hs.
      assert (Hm : String.leb (Sql.text_max x y)
                     (fold_left Sql.text_max t (Sql.text_max x y)) = true)
        by (apply Hle; left; reflexivity).
      destruct Hs as [<- | [<- | Hs]].
      * eapply leb_trans; [|exact Hm]. unfold Sql.text_max.
        destruct (String.leb x y) eqn:E; [exact E | apply leb_refl].
      * eapply leb_trans; [|exact Hm]. unfold Sql.text_max.
        destruct (String.leb x y) eqn:E; [apply leb_refl|].
        destruct (String.leb_total x y) as [H | H]; congruence.
      * apply Hle. right. exact Hs.
Qed.

Lemma MIN_least (l : list string) (m : string) :
  Sql.MIN l = Some m -> least m l.
Proof.
  destruct l as [|x t]; simpl; [discriminate|].
  intros H. injection H as <-. apply fold_text_min.
Qed.

Lemma MAX_greatest (l : list string) (m : string) :
  Sql.MAX l = Some m -> greatest m l.
Proof.
  destruct l as [|x t]; simpl; [discriminate|].
  intros H. injection H as <-. apply fold_text_max.
Qed.

Lemma MIN_MAX_nonempty {A : Type} (f : A -> string) (l : list A) :
  l <> [] -> Sql.MIN (map f l) <> None /\ Sql.MAX (map f l) <> None.
Proof. destruct l; [congruence|]. simpl. split; discriminate. Qed.

(** ** The detectors *)

Lemma numbered_all_length {A B : Type} (f : Z -> A -> B) (seq : Z)
    (l : list A) :
  List.length (numbered (fun _ => true) f seq l) = List.length l.
Proof.
  revert seq. induction l as [|x t IH]; intros seq; simpl; auto.
Qed.

Lemma numbered_ids_below {A B : Type} (keep : A -> bool) (f : Z -> A -> B)
    (idf : B -> Z) (seq : Z) (l : list A) :
  (forall n x, idf (f n x) = n) ->
  Forall (fun b => idf b <= seq + Z.of_nat (List.length l))
         (numbered keep f seq l).
Proof.
  intros Hf. revert seq.
  induction l as [|x t IH]; intros seq; cbn [List.length].
  - constructor.
  - simpl numbered. destruct (keep x).
    + constructor; [rewrite Hf; lia|].
      eapply Forall_impl; [|apply IH]. cbv beta. intros b Hb. lia.
    + eapply Forall_impl; [|apply IH]. cbv beta. intros b Hb. lia.
Qed.

Lemma filter_filter_and {A : Type} (p q : A -> bool) (l : list A) :
  filter q (filter p l) = filter (fun x => p x && q x) l.
Proof.
  induction l as [|x t IH]; simpl; auto.
  destruct (p x); simpl; [destruct (q x)|]; rewrite ?IH; reflexivity.
Qed.

Lemma non_null_In {A : Type} (x : A) (l : list (option A)) :
  In x (Sql.non_null l) <-> In (Some x) l.
Proof.
  induction l as [|[y|] t IH]; simpl; [tauto| |].
  - rewrite IH. split; intros [H | H]; auto; left; congruence.
  - rewrite IH. split; [auto|]. intros [H | H]; [discriminate | auto].
Qed.

Section Detectors.
Variable env : Env.

Lemma insertAlert_run (alert_type severity title description : string)
    (affected_entity source_ip : option string) (event_count : Z)
    (fs ls : string) (ai_summary : option string) (w : World) :
  Database.insertAlert env alert_type severity title description
    affected_entity source_ip event_count (Some fs) (Some ls) ai_summary w
  = Ok (alerts_seq w + 1)
       (add_alerts w
          [mkAlert (alerts_seq w + 1) alert_type severity title description
             affected_entity source_ip event_count fs ls "open" ai_summary
             (now env)]).
Proof. reflexivity. Qed.

Lemma bounded_text (g : Rules.GroupRow) :
  bounded g ->
  Rules.g_first g = Some (text (Rules.g_first g))
  /\ Rules.g_last g = Some (text (Rules.g_last g)).
Proof.
  intros [Hf Hl]. destruct (Rules.g_first g), (Rules.g_last g);
    try congruence. split; reflexivity.
Qed.

Lemma bruteForceIp_step (acc : list Rules.BruteForceAlert)
    (g : Rules.GroupRow) (w : World) :
  bounded g ->
  Rules.bruteForceIp env 300 acc g w
  = Ok (acc ++ [brute_ip_out (alerts_seq w + 1) g])%list
       (add_alerts w [brute_ip_row env (alerts_seq w + 1) g]).
Proof.
  intros Hb. destruct (bounded_text g Hb) as [Hf Hl].
  unfold Rules.bruteForceIp. rewrite bind_run, Hf, Hl, insertAlert_run.
  unfold brute_ip_out. rewrite <- Hf, <- Hl. reflexivity.
Qed.

Lemma bruteForceUser_step (acc : list Rules.BruteForceAlert)
    (g : Rules.GroupRow) (w : World) :
  bounded g ->
  Rules.bruteForceUser env 300 acc g w
  = Ok (acc ++ [brute_user_out (alerts_seq w + 1) g])%list
       (add_alerts w [brute_user_row env (alerts_seq w + 1) g]).
Proof.
  intros Hb. destruct (bounded_text g Hb) as [Hf Hl].
  unfold Rules.bruteForceUser. rewrite bind_run, Hf, Hl, insertAlert_run.
  unfold brute_user_out. rewrite <- Hf, <- Hl. reflexivity.
Qed.

Lemma geoAlert_step (acc : list Rules.GeoAlert) (g : Rules.GroupRow)
    (w : World) :
  bounded g ->
  Rules.geoAlert env acc g w
  = Ok (acc ++ [geo_out (alerts_seq w + 1) g])%list
       (add_alerts w [geo_row env (alerts_seq w + 1) g]).
Proof.
  intros Hb. destruct (bounded_text g Hb) as [Hf Hl].
  unfold Rules.geoAlert. rewrite bind_run, Hf, Hl, insertAlert_run.
  unfold geo_out. rewrite <- Hf, <- Hl. reflexivity.
Qed.

Lemma count_nonempty (group : list LogRow) :
  0 < Rules.count group -> group <> [].
Proof.
  unfold Rules.count. destruct group; simpl; [lia | discriminate].
Qed.

Lemma ipQuery_bounded (table : list LogRow) (g : Rules.GroupRow) :
  In g (Rules.ipQuery env table 5) -> bounded g.
Proof.
  unfold Rules.ipQuery. cbv zeta. intros H.
  apply in_map_iff in H as [k [<- Hk]].
  apply filter_In in Hk as [_ Hk]. apply Z.leb_le in Hk.
  apply MIN_MAX_nonempty, count_nonempty.
  eapply Z.lt_le_trans; [|exact Hk]. reflexivity.
Qed.

Lemma userQuery_bounded (table : list LogRow) (g : Rules.GroupRow) :
  In g (Rules.userQuery env table 5) -> bounded g.
Proof.
  unfold Rules.userQuery. cbv zeta. intros H.
  apply in_map_iff in H as [k [<- Hk]].
  apply filter_In in Hk as [_ Hk]. apply Z.leb_le in Hk.
  apply MIN_MAX_nonempty, count_nonempty.
  eapply Z.lt_le_trans; [|exact Hk]. reflexivity.
Qed.

Lemma by_source_ip_nonempty (rows : list LogRow) (k : string) :
  In k (Sql.distinct (Sql.non_null (map source_ip rows))) <->
  Rules.by_source_ip rows k <> [].
Proof.
  rewrite distinct_In, non_null_In, in_map_iff.
  unfold Rules.by_source_ip. split.
  - intros [r [Hr Hin]] Hnil.
    assert (Hf : In r (filter (fun r => Sql.eq_text (source_ip r) k) rows)).
    { apply filter_In. split; auto. rewrite Hr. simpl.
      apply String.eqb_refl. }
    rewrite Hnil in Hf. contradiction.
  - intros Hne.
    destruct (filter (fun r => Sql.eq_text (source_ip r) k) rows)
      as [|r t] eqn:E; [congruence|].
    assert (Hf : In r (filter (fun r => Sql.eq_text (source_ip r) k) rows))
      by (rewrite E; left; reflexivity).
    apply filter_In in Hf as [Hin Hr]. exists r. split; auto.
    destruct (source_ip r) as [s|]; [|discriminate].
    simpl in Hr. apply String.eqb_eq in Hr. congruence.
Qed.

Lemma geoQuery_bounded (table : list LogRow) (range : string)
    (g : Rules.GroupRow) :
  In g (Rules.geoQuery env table range) -> bounded g.
Proof.
  unfold Rules.geoQuery. intros H.
  apply in_map_iff in H as [k [<- Hk]].
  apply MIN_MAX_nonempty. apply by_source_ip_nonempty. exact Hk.
Qed.

(** The brute-force rule always returns: the alerts of the address
    groups, then those of the account groups. *)
Lemma detectBruteForce_spec (w : World) :
  let ipResults := Rules.ipQuery env (logs w) 5 in
  let userResults := Rules.userQuery env (logs w) 5 in
  let seq := alerts_seq w + Z.of_nat (List.length ipResults) in
  Rules.detectBruteForce env w
  = Ok (numbered (fun _ => true) brute_ip_out (alerts_seq w) ipResults
        ++ numbered (fun _ => true) brute_user_out seq userResults)%list
       (add_alerts w
          (numbered (fun _ => true) (brute_ip_row env) (alerts_seq w)
                    ipResults
           ++ numbered (fun _ => true) (brute_user_row env) seq
                       userResults)).
Proof.
  intros ipResults userResults seq.
  unfold Rules.detectBruteForce. rewrite bind_run. unfold get_world at 1.
  cbv beta iota zeta. fold ipResults. fold userResults.
  rewrite bind_run.
  rewrite (alert_loop (logs w) (Rules.bruteForceIp env 300) (fun _ => true)
             brute_ip_out (brute_ip_row env) ipResults).
  - rewrite (alert_loop (logs w) (Rules.bruteForceUser env 300)
               (fun _ => true) brute_user_out (brute_user_row env)
               userResults).
    + rewrite add_alerts_app. simpl alerts_seq.
      rewrite numbered_all_length. reflexivity.
    + intros acc g w' Hin _. apply bruteForceUser_step.
      eapply userQuery_bounded. exact Hin.
    + reflexivity.
  - intros acc g w' Hin _. apply bruteForceIp_step.
    eapply ipQuery_bounded. exact Hin.
  - reflexivity.
Qed.

(** The off-hours rule always returns: one alert for each row of its
    query, in order. *)
Lemma detectOffHoursAccess_spec (w : World) :
  let results := filter (alerting env) (logs w) in
  Rules.detectOffHoursAccess env w
  = Ok (numbered (fun _ => true) off_hours_out (alerts_seq w) results)
       (add_alerts w
          (numbered (fun _ => true) (off_hours_row env) (alerts_seq w)
                    results)).
Proof.
  intros results. unfold Rules.detectOffHoursAccess.
  rewrite bind_run. unfold get_world at 1. cbv beta iota zeta.
  change (Rules.offHoursQuery env (logs w) 9 18) with results.
  rewrite (alert_loop (logs w) (Rules.offHoursAlert env) (fun _ => true)
             off_hours_out (off_hours_row env) results); auto.
Qed.

(** The geo rule always returns, and only inserts alerts. *)
Lemma detectGeoAnomalies_spec (w : World) :
  exists outs rows,
    Rules.detectGeoAnomalies env w = Ok outs (add_alerts w rows).
Proof.
  unfold Rules.detectGeoAnomalies, Rules.suspiciousRanges.
  assert (Hstep : forall range acc w0,
    logs w0 = logs w ->
    exists outs rows,
      (let* w1 := get_world in
       for_of (Rules.geoQuery env (logs w1) range) (Rules.geoAlert env) acc)
        w0
      = Ok (acc ++ outs)%list (add_alerts w0 rows)).
  { intros range acc w0 Hw0. rewrite bind_run. unfold get_world at 1.
    cbv beta iota.
    rewrite (alert_loop (logs w0) (Rules.geoAlert env) (fun _ => true)
               geo_out (geo_row env) (Rules.geoQuery env (logs w0) range)).
    - eexists. eexists. reflexivity.
    - intros acc' g w' Hin _. apply geoAlert_step.
      eapply geoQuery_bounded. exact Hin.
    - reflexivity. }
  destruct (Hstep "10.0.0." [] w eq_refl) as [o1 [r1 H1]].
  destruct (Hstep "192.168." ([] ++ o1)%list (add_alerts w r1) eq_refl)
    as [o2 [r2 H2]].
  destruct (Hstep "0.0.0." (([] ++ o1) ++ o2)%list
              (add_alerts (add_alerts w r1) r2) eq_refl) as [o3 [r3 H3]].
  rewrite for_of_cons, H1. rewrite for_of_cons, H2.
  rewrite for_of_cons, H3. simpl for_of. unfold ret.
  rewrite !add_alerts_app. eexists. eexists. reflexivity.
Qed.

End Detectors.

Lemma map_filter_flat_map {A B : Type} (f : A -> B) (p : A -> bool)
    (l : list A) :
  map f (filter p l) = flat_map (fun x => if p x then [f x] else []) l.
Proof.
  induction l as [|x t IH]; simpl; auto.
  destruct (p x); simpl; rewrite IH; reflexivity.
Qed.

Lemma filter_all {A : Type} (l : list A) : filter (fun _ => true) l = l.
Proof. induction l as [|x t IH]; simpl; congruence. Qed.

Lemma filter_none {A : Type} (p : A -> bool) (l : list A) :
  (forall x, In x l -> p x = false) -> filter p l = [].
Proof.
  induction l as [|x t IH]; intros H; simpl; auto.
  rewrite (H x) by (left; reflexivity). apply IH.
  intros y Hy. apply H. right. exact Hy.
Qed.

Lemma succeeded_spec (r : LogRow) :
  Rules.succeeded r = true <-> success_status (status r).
Proof.
  unfold Rules.succeeded, success_status, Sql.like_contains, Sql.eq_text.
  destruct (status r) as [s|].
  - rewrite !orb_true_iff. split.
    + intros [[H | H] | H]; exists s; split; auto.
      apply String.eqb_eq in H. subst s. left. reflexivity.
    + intros [s' [Hs [H | H]]]; injection Hs as <-; auto.
  - split; [discriminate|]. intros [s [Hs _]]. discriminate.
Qed.

(** C5 as amended.  The off-hours rule returns one alert for each event
    of the store that its query selects and none for the others, in the
    order of the store and without grouping; every such alert has
    severity "medium", counts one event and carries the event's
    timestamp, user and address, and every alert returned is for a
    selected event of the store.  An event is selected exactly when its
    status is in the success vocabulary, it is dated later than
    now - 24 h, and its hour of day, taken in UTC, is before 9 or from
    18 on, or its day, in UTC, is a Saturday or a Sunday: hour and day
    are those of the instant, day number and second of the day since
    1970-01-01 (a Thursday), whatever offset the timestamp is written
    with.  A store without an event of a success status gives no alert
    at all; an event whose status is in the failure vocabulary and not
    in the success vocabulary is never selected, and a success event of
    the last 24 hours dated on a Sunday always is. *)
Theorem detectOffHoursAccess_per_event (env : Env) (w : World) :
  exists outs new w',
    Rules.detectOffHoursAccess env w = Ok outs w'
    /\ w' = add_alerts w new
    /\ map (fun o => (Rules.oh_username o, Rules.oh_source_ip o,
                      Rules.oh_timestamp o, Rules.oh_event_type o)) outs
       = flat_map (fun r => if alerting env r
                            then [(username r, source_ip r, timestamp r,
                                   event_type r)]
                            else []) (logs w)
    /\ map (fun a => (alert_type a, severity a, event_count a, first_seen a,
                      last_seen a, affected_entity a, alert_source_ip a)) new
       = flat_map (fun r => if alerting env r
                            then [("off_hours_access", "medium", 1,
                                   timestamp r, timestamp r, username r,
                                   source_ip r)]
                            else []) (logs w)
    /\ map alert_id new = map Rules.oh_id outs
    /\ (forall o,
          In o outs ->
          exists r,
            In r (logs w) /\ alerting env r = true
            /\ Rules.oh_username o = username r
            /\ Rules.oh_source_ip o = source_ip r
            /\ Rules.oh_timestamp o = timestamp r
            /\ Rules.oh_event_type o = event_type r)
    /\ (forall r,
          alerting env r = true <->
          success_status (status r)
          /\ exists t,
               datetime env (timestamp r) = Some t
               /\ now env - 86400 < t
               /\ (Sql.hour_of t < 9 \/ 18 <= Sql.hour_of t
                   \/ Sql.weekday_of t = 6 \/ Sql.weekday_of t = 0))
    /\ (forall day second,
          0 <= second < 86400 ->
          Sql.hour_of (86400 * day + second) = second / 3600
          /\ Sql.weekday_of (86400 * day + second) = (day + 4) mod 7)
    /\ ((forall r, In r (logs w) -> ~ success_status (status r)) ->
        outs = [] /\ new = [])
    /\ (forall r,
          Rules.failed r = true -> ~ success_status (status r) ->
          alerting env r = false)
    /\ (forall r, status r = Some "failed" -> alerting env r = false)
    /\ (forall r t,
          success_status (status r) ->
          datetime env (timestamp r) = Some t ->
          now env - 86400 < t ->
          Sql.weekday_of t = 0 ->
          alerting env r = true).
Proof.
  assert (Hsel : forall r,
            alerting env r = true <->
            success_status (status r)
            /\ exists t,
                 datetime env (timestamp r) = Some t
                 /\ now env - 86400 < t
                 /\ (Sql.hour_of t < 9 \/ 18 <= Sql.hour_of t
                     \/ Sql.weekday_of t = 6 \/ Sql.weekday_of t = 0)).
  { intros r. rewrite <- succeeded_spec.
    unfold alerting, Rules.off_hours_time, Rules.within.
    destruct (datetime env (timestamp r)) as [t|].
    - rewrite !andb_true_iff, !orb_true_iff, !Z.ltb_lt, Z.leb_le, !Z.eqb_eq.
      split.
      + intros [[Hs Hh] Hw]. split; [exact Hs|]. exists t. tauto.
      + intros [Hs [t' [Ht [Hw Hh]]]]. injection Ht as <-. tauto.
    - rewrite andb_false_r. split; [discriminate|].
      intros [_ [t [Ht _]]]. discriminate. }
  assert (Hnot : forall r, ~ success_status (status r) ->
                           alerting env r = false).
  { intros r Hs. destruct (alerting env r) eqn:E; [|reflexivity].
    apply Hsel in E as [E _]. contradiction. }
  exists (numbered (fun _ => true) off_hours_out (alerts_seq w)
            (filter (alerting env) (logs w))).
  exists (numbered (fun _ => true) (off_hours_row env) (alerts_seq w)
            (filter (alerting env) (logs w))).
  eexists. split; [apply detectOffHoursAccess_spec|].
  split; [reflexivity|].
  split; [|split; [|split; [|split; [|split; [exact Hsel|split; [|split;
    [|split; [|split]]]]]]]].
  - rewrite <- map_filter_flat_map.
    rewrite (numbered_map _ _ _
               (fun r => (username r, source_ip r, timestamp r, event_type r)))
      by reflexivity.
    rewrite filter_all. reflexivity.
  - rewrite <- map_filter_flat_map.
    rewrite (numbered_map _ _ _
               (fun r => ("off_hours_access", "medium", 1, timestamp r,
                          timestamp r, username r, source_ip r)))
      by reflexivity.
    rewrite filter_all. reflexivity.
  - apply numbered_ids; reflexivity.
  - intros o Ho.
    destruct (numbered_combine (fun _ => true) off_hours_out off_hours_out
                (alerts_seq w) (filter (alerting env) (logs w)) o Ho)
      as [n [r [Hr [_ [-> _]]]]].
    apply filter_In in Hr as [Hin Hsel'].
    exists r. repeat split; assumption.
  - intros day second Hs. unfold Sql.hour_of, Sql.weekday_of.
    replace (86400 * day + second) with (second + day * 86400) by lia.
    rewrite Z.mod_add, Z.div_add by lia.
    rewrite Z.mod_small, (Z.div_small second 86400) by lia.
    split; [reflexivity|]. f_equal; lia.
  - intros Hnone.
    rewrite (filter_none (alerting env) (logs w)); [split; reflexivity|].
    intros r Hr. apply Hnot, Hnone, Hr.
  - intros r _ Hs. apply Hnot, Hs.
  - intros r Hst. unfold alerting, Rules.succeeded. rewrite Hst. reflexivity.
  - intros r t Hs Ht Hw Hday. apply Hsel. split; [exact Hs|].
    exists t. split; [exact Ht|]. split; [exact Hw|].
    right. right. right. exact Hday.
Qed.

(** Monday 2025-10-20 at 09:30 UTC: of the logins of the last 24 hours,
    the one of Sunday 10:00 is reported, inside the business hours as it
    is, and so is the one of Monday 02:00; the one of Monday 09:00 and
    the failed one of Sunday 11:00 are not. *)
Lemma detectOffHoursAccess_per_event_witness :
  exists outs w',
    Rules.detectOffHoursAccess Sample.monday_morning
      (Sample.with_logs
         [Sample.log 1 "2025-10-19T10:00:00Z" "alice" "203.0.113.45" "success";
          Sample.log 2 "2025-10-20T09:00:00Z" "bob" "172.16.0.5" "success";
          Sample.log 3 "2025-10-20T02:00:00Z" "carol" "192.168.1.105"
                     "Accepted";
          Sample.log 4 "2025-10-19T11:00:00Z" "dave" "203.0.113.250" "failed"])
    = Ok outs w'
    /\ map Rules.oh_username outs = [Some "alice"; Some "carol"]
    /\ map severity (alerts w') = ["medium"; "medium"]
    /\ Sql.weekday_of (Sample.noon + 4 * 86400 - 7200) = 0
    /\ Sql.hour_of (Sample.noon + 4 * 86400 - 7200) = 10.
Proof.
  destruct (detectOffHoursAccess_per_event Sample.monday_morning
      (Sample.with_logs
         [Sample.log 1 "2025-10-19T10:00:00Z" "alice" "203.0.113.45" "success";
          Sample.log 2 "2025-10-20T09:00:00Z" "bob" "172.16.0.5" "success";
          Sample.log 3 "2025-10-20T02:00:00Z" "carol" "192.168.1.105"
                     "Accepted";
          Sample.log 4 "2025-10-19T11:00:00Z" "dave" "203.0.113.250" "failed"]))
    as [outs [new [w' [Hrun _]]]].
  exists outs, w'. split; [exact Hrun|].
  vm_compute in Hrun. injection Hrun as <- <-. repeat split; reflexivity.
Defined.

(** C5 as stated fails, on two counts.  A login of Wednesday
    2025-10-15 at 10:00 local time, written with the offset +05:00, is
    inside the business hours of its own offset; its instant is 05:00
    UTC, and the rule reports it.  And a login of 02:00 with the status
    failed: password not accepted has a failed status, which also
    contains accepted: the rule reports it too. *)
Lemma detectOffHoursAccess_reads_utc :
  let local := Sample.log 1 "2025-10-15T10:00:00+05:00" "alice"
                          "203.0.113.45" "success" in
  let refused := Sample.log 2 "2025-10-15T02:00:00Z" "bob" "203.0.113.46"
                            "failed: password not accepted" in
  Sample.datetime (timestamp local) = Some (Sample.noon - 7 * 3600)
  /\ Sql.hour_of (Sample.noon - 7 * 3600 + 5 * 3600) = 10
  /\ Sql.weekday_of (Sample.noon - 7 * 3600 + 5 * 3600) = 3
  /\ in_trailing_window Sample.offline 86400 local = true
  /\ Rules.succeeded local = true
  /\ Rules.failed refused = true
  /\ in_trailing_window Sample.offline 86400 refused = true
  /\ exists outs w',
       Rules.detectOffHoursAccess Sample.offline
         (Sample.with_logs [local; refused]) = Ok outs w'
       /\ map Rules.oh_username outs = [Some "alice"; Some "bob"]
       /\ map severity (alerts w') = ["medium"; "medium"].
Proof.
  repeat (split; [reflexivity|]).
  eexists. eexists. split; [lazy; reflexivity|]. split; reflexivity.
Qed.

(** ** The brute-force rule, keyed by address *)

Section BruteForceByAddress.
Variable env : Env.
Variable ip : string.

Lemma failures_group (table : list LogRow) :
  Rules.by_source_ip
    (filter (fun r => Rules.failed r && Rules.not_null (source_ip r)
                      && Rules.within env 300 r) table) ip
  = failures_from env table ip.
Proof.
  unfold Rules.by_source_ip, failures_from. rewrite filter_filter_and.
  apply filter_ext. intros r.
  destruct (source_ip r) as [s|]; simpl;
    destruct (Rules.failed r), (Rules.within env 300 r); simpl;
    try reflexivity; destruct (String.eqb s ip); reflexivity.
Qed.

Lemma ip_keyed_among (mk : string -> Rules.GroupRow) (ks : list string) :
  (forall k, Rules.g_source_ip (mk k) = Some k) ->
  NoDup ks ->
  forall seq,
    (In ip ks ->
     exists n,
       In (brute_ip_out n (mk ip))
          (numbered (fun _ => true) brute_ip_out seq (map mk ks))
       /\ filter (ip_keyed ip)
            (numbered (fun _ => true) brute_ip_out seq (map mk ks))
          = [brute_ip_out n (mk ip)])
    /\ (~ In ip ks ->
        filter (ip_keyed ip)
          (numbered (fun _ => true) brute_ip_out seq (map mk ks)) = []).
Proof.
  intros Hmk Hnd. induction Hnd as [|k t Hk Hnd IH]; intros seq.
  - split; [contradiction | reflexivity].
  - simpl map. simpl numbered. simpl filter.
    assert (Hp : ip_keyed ip (brute_ip_out (seq + 1) (mk k)) = String.eqb k ip).
    { unfold ip_keyed, brute_ip_out. simpl. rewrite Hmk. reflexivity. }
    rewrite Hp. destruct (IH (seq + 1)) as [IHin IHout].
    destruct (String.eqb k ip) eqn:E.
    + apply String.eqb_eq in E. subst k. split.
      * intros _. exists (seq + 1). split; [left; reflexivity|].
        rewrite (IHout Hk). reflexivity.
      * intros H. exfalso. apply H. left. reflexivity.
    + apply String.eqb_neq in E. split.
      * intros [H | H]; [contradiction|].
        destruct (IHin H) as [n [Hin Hf]]. exists n.
        split; [right; exact Hin | exact Hf].
      * intros H. apply IHout. intros Hin. apply H. right. exact Hin.
Qed.

Lemma user_outs_not_ip_keyed (seq : Z) (l : list Rules.GroupRow) :
  filter (ip_keyed ip) (numbered (fun _ => true) brute_user_out seq l) = [].
Proof.
  apply filter_none. intros o Ho.
  destruct (numbered_combine (fun _ => true) brute_user_out brute_user_out
              seq l o Ho) as [n [x [_ [_ [-> _]]]]].
  reflexivity.
Qed.

End BruteForceByAddress.

Lemma texts_in_time_orderb_spec (env : Env) (group : list LogRow) :
  texts_in_time_orderb env group = true -> texts_in_time_order env group.
Proof.
  unfold texts_in_time_orderb, texts_in_time_order, not_later.
  rewrite forallb_forall. intros H a b Ha Hb Hleb.
  specialize (H a Ha). rewrite forallb_forall in H. specialize (H b Hb).
  rewrite Hleb in H. cbn [implb] in H.
  destruct (datetime env (timestamp a)), (datetime env (timestamp b));
    try discriminate.
  apply Z.leb_le. exact H.
Qed.

Lemma least_earliest (env : Env) (m : string) (group : list LogRow) :
  texts_in_time_order env group ->
  least m (map timestamp group) -> earliest env m group.
Proof.
  intros Htime [Hin Hle]. apply in_map_iff in Hin as [r [Hr Hin]].
  exists r. split; [exact Hin|]. split; [exact Hr|].
  intros r' Hr'. apply (Htime r r' Hin Hr'). rewrite Hr.
  apply Hle, in_map, Hr'.
Qed.

Lemma greatest_latest (env : Env) (m : string) (group : list LogRow) :
  texts_in_time_order env group ->
  greatest m (map timestamp group) -> latest env m group.
Proof.
  intros Htime [Hin Hle]. apply in_map_iff in Hin as [r [Hr Hin]].
  exists r. split; [exact Hin|]. split; [exact Hr|].
  intros r' Hr'. apply (Htime r' r Hr' Hin). rewrite Hr.
  apply Hle, in_map, Hr'.
Qed.

(** C1 as amended.  Take the events of the store with a failure status
    and a given source address whose timestamp is later than
    now - 300 s (nothing bounds it from above), N of them.  If N >= 5 the
    brute-force rule returns exactly one alert keyed by that address: its
    count is N, its bounds are the least and the greatest timestamp of
    the group, compared as texts (byte by byte, as MIN and MAX compare
    the TEXT column), and the row inserted for it has that count, those
    bounds, severity "high" and the address as affected entity.  When
    the order of the group's timestamps as texts is the order of their
    instants, the bounds are the timestamps of an earliest and of a
    latest event of the group.  If N <= 4 the rule returns no alert
    keyed by that address. *)
Theorem detectBruteForce_by_address (env : Env) (w : World) (ip : string) :
  let group := failures_from env (logs w) ip in
  let N := Z.of_nat (List.length group) in
  exists outs new w',
    Rules.detectBruteForce env w = Ok outs w'
    /\ w' = add_alerts w new
    /\ (5 <= N ->
        exists o a mn mx,
          filter (ip_keyed ip) outs = [o]
          /\ Rules.attempt_count o = N
          /\ Rules.first_attempt o = Some mn
          /\ Rules.last_attempt o = Some mx
          /\ least mn (map timestamp group)
          /\ greatest mx (map timestamp group)
          /\ (texts_in_time_order env group ->
              earliest env mn group /\ latest env mx group)
          /\ In a new
          /\ (forall a', In a' new -> alert_id a' = alert_id a -> a' = a)
          /\ alert_id a = Rules.bf_id o
          /\ alert_type a = "brute_force"
          /\ severity a = "high"
          /\ affected_entity a = Some ip
          /\ alert_source_ip a = Some ip
          /\ event_count a = N
          /\ first_seen a = mn
          /\ last_seen a = mx)
    /\ (N <= 4 -> filter (ip_keyed ip) outs = []).
Proof.
  intros group N.
  pose proof (detectBruteForce_spec env w) as Hrun. cbv zeta in Hrun.
  set (rows := filter (fun r => Rules.failed r && Rules.not_null (source_ip r)
                                && Rules.within env 300 r) (logs w)).
  set (keys := Sql.distinct (Sql.non_null (map source_ip rows))).
  set (mk := fun k =>
               Rules.mkGroup None (Some k) (Rules.count (Rules.by_source_ip rows k))
                 (Sql.MIN (map timestamp (Rules.by_source_ip rows k)))
                 (Sql.MAX (map timestamp (Rules.by_source_ip rows k)))).
  set (kept := filter (fun k => 5 <=? Rules.count (Rules.by_source_ip rows k))
                      keys).
  assert (HipR : Rules.ipQuery env (logs w) 5 = map mk kept) by reflexivity.
  rewrite HipR in Hrun.
  set (userR := Rules.userQuery env (logs w) 5) in Hrun.
  set (seq := alerts_seq w + Z.of_nat (List.length (map mk kept))) in Hrun.
  set (A := numbered (fun _ => true) brute_ip_out (alerts_seq w) (map mk kept))
    in Hrun.
  set (RA := numbered (fun _ => true) (brute_ip_row env) (alerts_seq w)
                      (map mk kept)) in Hrun.
  set (RB := numbered (fun _ => true) (brute_user_row env) seq userR) in Hrun.
  assert (Hgroup : Rules.by_source_ip rows ip = group)
    by apply failures_group.
  assert (Hfilter : filter (ip_keyed ip)
                      (A ++ numbered (fun _ => true) brute_user_out seq userR)
                    = filter (ip_keyed ip) A).
  { rewrite filter_app, user_outs_not_ip_keyed, app_nil_r. reflexivity. }
  assert (Hkept : NoDup kept) by (apply NoDup_filter, distinct_NoDup).
  destruct (ip_keyed_among ip mk kept (fun k => eq_refl) Hkept (alerts_seq w))
    as [Hin Hout]. fold A in Hin, Hout.
  eexists. exists (RA ++ RB)%list. eexists. split; [exact Hrun|].
  split; [reflexivity|]. rewrite Hfilter. split.
  - intros HN.
    assert (Hipk : In ip kept).
    { apply filter_In. split.
      - apply by_source_ip_nonempty. rewrite Hgroup.
        intros Hnil. unfold N in HN. rewrite Hnil in HN. simpl in HN. lia.
      - apply Z.leb_le. rewrite Hgroup. exact HN. }
    destruct (Hin Hipk) as [n [HoA Hone]].
    destruct (numbered_combine (fun _ => true) brute_ip_out (brute_ip_row env)
                (alerts_seq w) (map mk kept) _ HoA)
      as [n' [x [_ [_ [Hox Hrow]]]]]. fold RA in Hrow.
    assert (Hne : group <> []).
    { intros Hnil. unfold N in HN. rewrite Hnil in HN. simpl in HN. lia. }
    destruct (MIN_MAX_nonempty timestamp group Hne) as [Hmin Hmax].
    destruct (Sql.MIN (map timestamp group)) as [mn|] eqn:Emin; [|congruence].
    destruct (Sql.MAX (map timestamp group)) as [mx|] eqn:Emax; [|congruence].
    assert (Ho : brute_ip_out n (mk ip)
                 = Rules.mkBruteForce n "brute_force_ip" None (Some ip) N
                     (Some mn) (Some mx)).
    { unfold brute_ip_out, mk. simpl. rewrite Hgroup, Emin, Emax.
      reflexivity. }
    rewrite Ho in Hox. unfold brute_ip_out in Hox.
    injection Hox as Hn Hsip Hcount Hfirst Hlast. subst n'.
    exists (brute_ip_out n (mk ip)), (brute_ip_row env n x), mn, mx.
    rewrite Ho at 2 3 4 5. simpl.
    rewrite <- Hsip, <- Hcount, <- Hfirst, <- Hlast.
    pose proof (MIN_least _ _ Emin) as Hleast.
    pose proof (MAX_greatest _ _ Emax) as Hgreatest.
    split; [exact Hone|].
    split; [reflexivity|]. split; [reflexivity|]. split; [reflexivity|].
    split; [exact Hleast|]. split; [exact Hgreatest|].
    split.
    { intros Htime. split.
      - apply least_earliest; assumption.
      - apply greatest_latest; assumption. }
    repeat split; auto.
    + apply in_or_app. left. exact Hrow.
    + intros a' Ha' Hid. apply in_app_or in Ha' as [Ha' | Ha'].
      * eapply (numbered_ids_unique (fun _ => true) (brute_ip_row env)
                  alert_id); eauto.
      * exfalso.
        pose proof (numbered_ids_below (fun _ => true) (brute_ip_row env)
                      alert_id (alerts_seq w) (map mk kept)
                      (fun _ _ => eq_refl)) as Hbelow.
        pose proof (numbered_ids_above (fun _ => true) (brute_user_row env)
                      alert_id seq userR (fun _ _ => eq_refl)) as Habove.
        rewrite Forall_forall in Hbelow, Habove.
        apply Hbelow in Hrow. apply Habove in Ha'. fold seq in Hrow.
        simpl in Hid. simpl in Hrow. lia.
  - intros HN. apply Hout. intros Hipk.
    apply filter_In in Hipk as [_ Hc]. apply Z.leb_le in Hc.
    rewrite Hgroup in Hc. unfold Rules.count in Hc. fold N in Hc. lia.
Qed.

(** Six failed logins from one address within the last minute, as in the
    repository's test, ten seconds apart and not in the order of their
    times: one alert keyed by the address, counting six, from the
    earliest of them to the latest. *)
Lemma detectBruteForce_by_address_witness :
  let w :=
    Sample.with_logs
      [Sample.log 1 "2025-10-15T11:59:20Z" "admin" "192.168.1.100" "failed";
       Sample.log 2 "2025-10-15T11:59:00Z" "admin" "192.168.1.100" "failed";
       Sample.log 3 "2025-10-15T11:59:50Z" "admin" "192.168.1.100" "failed";
       Sample.log 4 "2025-10-15T11:59:10Z" "admin" "192.168.1.100" "failed";
       Sample.log 5 "2025-10-15T11:59:40Z" "admin" "192.168.1.100" "failed";
       Sample.log 6 "2025-10-15T11:59:30Z" "admin" "192.168.1.100" "failed"] in
  exists outs w' o,
    Rules.detectBruteForce Sample.offline w = Ok outs w'
    /\ filter (ip_keyed "192.168.1.100") outs = [o]
    /\ Rules.attempt_count o = 6
    /\ Rules.first_attempt o = Some "2025-10-15T11:59:00Z"
    /\ Rules.last_attempt o = Some "2025-10-15T11:59:50Z"
    /\ earliest Sample.offline "2025-10-15T11:59:00Z"
         (failures_from Sample.offline (logs w) "192.168.1.100")
    /\ latest Sample.offline "2025-10-15T11:59:50Z"
         (failures_from Sample.offline (logs w) "192.168.1.100").
Proof.
  intros w.
  destruct (detectBruteForce_by_address Sample.offline w "192.168.1.100")
    as [outs [new [w' [Hrun [_ [Hmany _]]]]]].
  destruct Hmany
    as [o [a [mn [mx [Hone [Hcount [Hfirst [Hlast [_ [_ [Htimes _]]]]]]]]]]].
  - vm_compute. discriminate.
  - destruct Htimes as [Hearliest Hlatest].
    { apply texts_in_time_orderb_spec. reflexivity. }
    vm_compute in Hrun. injection Hrun as <- _.
    vm_compute in Hone. injection Hone as <-.
    injection Hfirst as <-. injection Hlast as <-.
    eexists. eexists. eexists. split; [vm_compute; reflexivity|].
    split; [reflexivity|]. split; [reflexivity|].
    split; [reflexivity|]. split; [reflexivity|].
    split; [exact Hearliest | exact Hlatest].
Defined.

(** C1 as stated fails, on two counts.  Four failed logins of the last
    minute and one dated 2030, all from one address: four events lie in
    the trailing 300-second window, and the rule still returns an alert
    keyed by the address, counting five.  And five failed logins of the
    last two minutes from one address, the latest of them written with
    the offset -02:00: the text of that one is the least of the group,
    so that the alert has the latest instant as first_seen and an
    earlier one as last_seen. *)
Lemma detectBruteForce_window_and_bounds :
  let w :=
    Sample.with_logs
      [Sample.log 1 "2025-10-15T11:59:00Z" "admin" "203.0.113.7" "failed";
       Sample.log 2 "2025-10-15T11:59:10Z" "admin" "203.0.113.7" "failed";
       Sample.log 3 "2025-10-15T11:59:20Z" "admin" "203.0.113.7" "failed";
       Sample.log 4 "2025-10-15T11:59:30Z" "admin" "203.0.113.7" "failed";
       Sample.log 5 "2030-01-01T00:00:00Z" "admin" "203.0.113.7" "failed"] in
  let w2 :=
    Sample.with_logs
      [Sample.log 1 "2025-10-15T11:58:00Z" "admin" "203.0.113.7" "failed";
       Sample.log 2 "2025-10-15T11:58:10Z" "admin" "203.0.113.7" "failed";
       Sample.log 3 "2025-10-15T11:58:20Z" "admin" "203.0.113.7" "failed";
       Sample.log 4 "2025-10-15T11:58:30Z" "admin" "203.0.113.7" "failed";
       Sample.log 5 "2025-10-15T09:59:30-02:00" "admin" "203.0.113.7"
                  "failed"] in
  (List.length
     (filter (fun r => Rules.failed r
                       && Sql.eq_text (source_ip r) "203.0.113.7"
                       && in_trailing_window Sample.offline 300 r) (logs w))
   = 4%nat
   /\ exists outs w',
        Rules.detectBruteForce Sample.offline w = Ok outs w'
        /\ map Rules.attempt_count (filter (ip_keyed "203.0.113.7") outs)
           = [5]
        /\ map Rules.last_attempt (filter (ip_keyed "203.0.113.7") outs)
           = [Some "2030-01-01T00:00:00Z"])
  /\ (List.length
        (filter (fun r => Rules.failed r
                          && Sql.eq_text (source_ip r) "203.0.113.7"
                          && in_trailing_window Sample.offline 300 r)
                (logs w2))
      = 5%nat
      /\ Sample.datetime "2025-10-15T09:59:30-02:00" = Some (Sample.noon - 30)
      /\ Sample.datetime "2025-10-15T11:58:30Z" = Some (Sample.noon - 90)
      /\ exists outs w',
           Rules.detectBruteForce Sample.offline w2 = Ok outs w'
           /\ map Rules.first_attempt (filter (ip_keyed "203.0.113.7") outs)
              = [Some "2025-10-15T09:59:30-02:00"]
           /\ map Rules.last_attempt (filter (ip_keyed "203.0.113.7") outs)
              = [Some "2025-10-15T11:58:30Z"]
           /\ map first_seen (alerts w')
              = ["2025-10-15T09:59:30-02:00"; "2025-10-15T09:59:30-02:00"]
           /\ map last_seen (alerts w')
              = ["2025-10-15T11:58:30Z"; "2025-10-15T11:58:30Z"]).
Proof.
  split.
  - split; [reflexivity|].
    eexists. eexists. split; [lazy; reflexivity|]. split; reflexivity.
  - split; [reflexivity|]. split; [reflexivity|]. split; [reflexivity|].
    eexists. eexists. split; [lazy; reflexivity|]. repeat split; reflexivity.
Qed.

(** ** The generated reputation *)

Lemma append_assoc (x y z : string) : (x ++ y) ++ z = x ++ (y ++ z).
Proof. induction x as [|a x IH]; simpl; congruence. Qed.

Lemma prefix_status_app (p s : string) (v : bool) :
  prefix_status p s = Some v -> forall rest, String.prefix p (s ++ rest) = v.
Proof.
  revert s. induction p as [|a p IH]; intros s H rest.
  - simpl in H. injection H as <-. destruct (s ++ rest); reflexivity.
  - destruct s as [|b s]; simpl in H; [discriminate|]. simpl.
    destruct (Ascii.eqb_spec a b) as [-> | Hne].
    + destruct (ascii_dec b b); [|congruence]. apply IH. exact H.
    + injection H as <-. destruct (ascii_dec a b); [contradiction|reflexivity].
Qed.

Lemma decided_any_app (head : string) (ps : list string) (v : bool) :
  decided_any (map (fun p => prefix_status p head) ps) = Some v ->
  forall rest, existsb (fun p => String.prefix p (head ++ rest)) ps = v.
Proof.
  revert v. induction ps as [|p ps IH]; intros v H rest; simpl in *.
  - congruence.
  - destruct (prefix_status p head) as [b|] eqn:Hp; [|discriminate].
    destruct (decided_any _) as [v'|]; [|discriminate].
    injection H as <-. rewrite (prefix_status_app p head b Hp), (IH v');
      reflexivity.
Qed.

Lemma isPrivate_existsb (s : string) :
  Abuseipdb.isPrivate s
  = existsb (fun p => String.prefix p s) private_prefixes.
Proof.
  unfold Abuseipdb.isPrivate, Js.startsWith, private_prefixes. simpl.
  rewrite orb_false_r, !orb_assoc. reflexivity.
Qed.

Lemma split_no_dot (x y : string) :
  no_dot x = true -> Js.split "." (x ++ String "." y) = x :: Js.split "." y.
Proof.
  induction x as [|a x IH]; simpl; intros H; [reflexivity|].
  apply andb_true_iff in H as [Ha Hx]. apply negb_true_iff in Ha.
  rewrite Ha, (IH Hx). reflexivity.
Qed.

Lemma split_no_dot_end (x : string) :
  no_dot x = true -> Js.split "." x = [x].
Proof.
  induction x as [|a x IH]; simpl; intros H; [reflexivity|].
  apply andb_true_iff in H as [Ha Hx]. apply negb_true_iff in Ha.
  rewrite Ha, (IH Hx). reflexivity.
Qed.

Lemma octets_In (n : Z) : 0 <= n < 256 -> In n octets.
Proof.
  intros H. unfold octets. apply in_map_iff. exists (Z.to_nat n).
  split; [lia|]. apply in_seq. lia.
Qed.

(** Checked on each of the 256 octets: its text has no dot, is not empty,
    and parseInt reads it back. *)
Lemma octet_text (n : Z) :
  0 <= n < 256 ->
  no_dot (Js.string_of_Z n) = true
  /\ String.eqb (Js.string_of_Z n) EmptyString = false
  /\ Js.parseInt (Js.string_of_Z n) = Js.Num n.
Proof.
  intros H. apply octets_In in H.
  assert (Hall : forallb (fun n =>
            no_dot (Js.string_of_Z n)
            && negb (String.eqb (Js.string_of_Z n) EmptyString)
            && Js.number_eqb (Js.parseInt (Js.string_of_Z n)) (Js.Num n))
            octets = true) by (vm_compute; reflexivity).
  rewrite forallb_forall in Hall. specialize (Hall n H).
  apply andb_true_iff in Hall as [Hall Hp].
  apply andb_true_iff in Hall as [Hd He]. apply negb_true_iff in He.
  repeat split; auto.
  destruct (Js.parseInt (Js.string_of_Z n)) as [z| | |]; try discriminate.
  simpl in Hp. apply Z.eqb_eq in Hp. congruence.
Qed.

(** Checked on each of the 65536 pairs of leading octets: the prefix
    tests of the generator are decided by the first two octets, and they
    say: private range, or text starting with 172.2. *)
Lemma isPrivate_dotted (a b c d : Z) :
  0 <= a < 256 -> 0 <= b < 256 ->
  Abuseipdb.isPrivate (dotted a b c d)
  = private_range a b || starts_172_2 a b.
Proof.
  intros Ha Hb. apply octets_In in Ha. apply octets_In in Hb.
  assert (Hall : forallb (fun a => forallb (fun b =>
            match decided_any
                    (map (fun p => prefix_status p
                                     (Js.string_of_Z a ++ "."
                                        ++ Js.string_of_Z b ++ "."))
                         private_prefixes) with
            | Some v => Bool.eqb v (private_range a b || starts_172_2 a b)
            | None => false
            end) octets) octets = true) by (vm_compute; reflexivity).
  rewrite forallb_forall in Hall. specialize (Hall a Ha).
  rewrite forallb_forall in Hall. specialize (Hall b Hb).
  destruct (decided_any _) as [v|] eqn:Hv; [|discriminate].
  apply Bool.eqb_prop in Hall. subst v.
  rewrite isPrivate_existsb.
  replace (dotted a b c d)
    with ((Js.string_of_Z a ++ "." ++ Js.string_of_Z b ++ ".")
            ++ (Js.string_of_Z c ++ "." ++ Js.string_of_Z d)).
  - apply decided_any_app. exact Hv.
  - unfold dotted. rewrite !append_assoc. reflexivity.
Qed.

Lemma lastOctet_dotted (a b c d : Z) :
  0 <= a < 256 -> 0 <= b < 256 -> 0 <= c < 256 -> 0 <= d < 256 ->
  Abuseipdb.lastOctet (dotted a b c d) = Js.Num d.
Proof.
  intros Ha Hb Hc Hd.
  destruct (octet_text a Ha) as [Da _], (octet_text b Hb) as [Db _],
    (octet_text c Hc) as [Dc _], (octet_text d Hd) as [Dd [Ed Pd]].
  unfold Abuseipdb.lastOctet, dotted.
  change (append "." ?x) with (String "." x).
  rewrite (split_no_dot _ _ Da).
  change (append "." ?x) with (String "." x).
  rewrite (split_no_dot _ _ Db).
  change (append "." ?x) with (String "." x).
  rewrite (split_no_dot _ _ Dc), (split_no_dot_end _ Dd).
  simpl. rewrite Ed. exact Pd.
Qed.

Lemma rem_octet (d m : Z) :
  0 <= d -> 0 < m -> Js.rem (Js.Num d) (Js.Num m) = Js.Num (d mod m).
Proof.
  intros Hd Hm. unfold Js.rem.
  assert (E : (m =? 0) = false) by (apply Z.eqb_neq; lia).
  rewrite E, Z.rem_mod_nonneg by lia. reflexivity.
Qed.

(** An integer below 2^53 in size is a double. *)
Lemma nearest_small (v : Z) : 0 <= v < 2 ^ 53 -> Js.nearest v = Js.Num v.
Proof.
  intros Hv. unfold Js.nearest. cbv zeta.
  assert (E : (Z.log2 v + 1 - 53 <=? 0) = true).
  { apply Z.leb_le. destruct (Z.eq_dec v 0) as [-> | Hne]; [simpl; lia|].
    assert (Z.log2 v < 53) by (apply Z.log2_lt_pow2; lia). lia. }
  rewrite E. reflexivity.
Qed.

Lemma double_small (v : Z) : - 2 ^ 53 < v < 2 ^ 53 -> Js.double v = Js.Num v.
Proof.
  intros Hv. unfold Js.double. destruct (v <? 0) eqn:E.
  - apply Z.ltb_lt in E. rewrite nearest_small by lia. simpl.
    rewrite Z.opp_involutive. reflexivity.
  - apply Z.ltb_ge in E. apply nearest_small. lia.
Qed.

Lemma add_small (x y : Z) :
  - 2 ^ 53 < x + y < 2 ^ 53 -> Js.add (Js.Num x) (Js.Num y) = Js.Num (x + y).
Proof. intros H. cbn [Js.add]. apply double_small. exact H. Qed.

(** C2 as amended.  For every IPv4 address a.b.c.d given to the fallback
    generator: in the ranges 10.x, 172.16-31.x and 192.168.x the record
    has score 0 and is whitelisted; outside them, and unless the text
    starts with 172.2, it is not whitelisted and the score follows the
    last octet d: d > 200 gives 75 + d mod 25 (75 to 99) with
    50 + d mod 50 reports, 100 < d <= 200 gives 25 + d mod 25 (25 to 49)
    with 10 + d mod 20 reports, d <= 100 gives d mod 15 (0 to 14) with
    d mod 5 reports.  And when no API key is configured and no fresh
    record of 10.0.0.5 is cached, lookup("10.0.0.5") returns a
    whitelisted record of score 0 without any request to the provider;
    with a key configured and no fresh record cached, it sends one
    request and returns what [fetchFromAbuseIPDB] makes of the answer. *)
Theorem generateStubReputation_bands (env : Env) (a b c d : Z) (w : World) :
  0 <= a < 256 -> 0 <= b < 256 -> 0 <= c < 256 -> 0 <= d < 256 ->
  let r := Abuseipdb.generateStubReputation env (dotted a b c d) in
  (private_range a b = true ->
   abuse_confidence_score r = Js.Num 0 /\ is_whitelisted r = true)
  /\ (private_range a b = false -> starts_172_2 a b = false ->
      is_whitelisted r = false
      /\ (200 < d ->
          abuse_confidence_score r = Js.Num (75 + d mod 25)
          /\ 75 <= 75 + d mod 25 <= 99
          /\ total_reports r = Js.Num (50 + d mod 50))
      /\ (100 < d <= 200 ->
          abuse_confidence_score r = Js.Num (25 + d mod 25)
          /\ 25 <= 25 + d mod 25 <= 49
          /\ total_reports r = Js.Num (10 + d mod 20))
      /\ (d <= 100 ->
          abuse_confidence_score r = Js.Num (d mod 15)
          /\ 0 <= d mod 15 <= 14
          /\ total_reports r = Js.Num (d mod 5)))
  /\ (Abuseipdb.key_configured env = false ->
      Abuseipdb.cached_row env "10.0.0.5" (ip_reputation w) = None ->
      exists r' w',
        Abuseipdb.getIPReputationWithCache env (Js.Str "10.0.0.5") w
        = Ok (Some r') w'
        /\ is_whitelisted r' = true
        /\ abuse_confidence_score r' = Js.Num 0
        /\ requests (trace w') = requests (trace w))
  /\ (Abuseipdb.key_configured env = true ->
      Abuseipdb.cached_row env "10.0.0.5" (ip_reputation w) = None ->
      exists w',
        Abuseipdb.getIPReputationWithCache env (Js.Str "10.0.0.5") w
        = Ok (Some (answer env (requests (trace w)) "10.0.0.5")) w'
        /\ requests (trace w') = S (requests (trace w))).
Proof.
  intros Ha Hb Hc Hd r.
  pose proof (isPrivate_dotted a b c d Ha Hb) as Hpriv.
  pose proof (lastOctet_dotted a b c d Ha Hb Hc Hd) as Hlast.
  assert (Hscore : abuse_confidence_score r
                   = Abuseipdb.stubScore (dotted a b c d)) by reflexivity.
  assert (Hreports : total_reports r
                     = Abuseipdb.stubReports (dotted a b c d)) by reflexivity.
  assert (Hwhite : is_whitelisted r = Abuseipdb.isPrivate (dotted a b c d))
    by reflexivity.
  rewrite Hscore, Hreports, Hwhite.
  unfold Abuseipdb.stubScore, Abuseipdb.stubReports.
  rewrite Hpriv, Hlast.
  split; [|split; [|split]].
  - intros Hp. rewrite Hp. split; reflexivity.
  - intros Hp Hs. rewrite Hp, Hs. cbn [orb negb Js.gt].
    split; [reflexivity|]. split; [|split].
    + intros H. assert (E : (200 <? d) = true) by (apply Z.ltb_lt; lia).
      rewrite E. rewrite !rem_octet by lia.
      pose proof (Z.mod_pos_bound d 25 ltac:(lia)).
      pose proof (Z.mod_pos_bound d 50 ltac:(lia)).
      rewrite !add_small by lia. repeat split; lia.
    + intros H. assert (E : (200 <? d) = false) by (apply Z.ltb_ge; lia).
      assert (E' : (100 <? d) = true) by (apply Z.ltb_lt; lia).
      rewrite E, E'. rewrite !rem_octet by lia.
      pose proof (Z.mod_pos_bound d 25 ltac:(lia)).
      pose proof (Z.mod_pos_bound d 20 ltac:(lia)).
      rewrite !add_small by lia. repeat split; lia.
    + intros H. assert (E : (200 <? d) = false) by (apply Z.ltb_ge; lia).
      assert (E' : (100 <? d) = false) by (apply Z.ltb_ge; lia).
      rewrite E, E'. rewrite !rem_octet by lia.
      pose proof (Z.mod_pos_bound d 15). repeat split; lia.
  - intros Hkey Hmiss.
    rewrite (lookup_spec env "10.0.0.5" w) by discriminate.
    rewrite Hmiss. eexists. eexists. split; [reflexivity|].
    unfold answer, lookup_trace, network. rewrite Hkey, Hmiss. simpl.
    split; [reflexivity|]. split; [reflexivity|].
    unfold requests. rewrite filter_app, length_app. simpl. lia.
  - intros Hkey Hmiss.
    rewrite (lookup_spec env "10.0.0.5" w) by discriminate.
    rewrite Hmiss. eexists. split; [reflexivity|].
    unfold lookup_trace, network. rewrite Hkey, Hmiss. simpl.
    unfold requests. rewrite filter_app, length_app. simpl. lia.
Qed.

(** The address 203.0.113.250: not private, last octet above 200. *)
Lemma generateStubReputation_bands_witness :
  let r := Abuseipdb.generateStubReputation Sample.offline "203.0.113.250" in
  is_whitelisted r = false
  /\ abuse_confidence_score r = Js.Num 75
  /\ total_reports r = Js.Num 50.
Proof.
  destruct (generateStubReputation_bands Sample.offline 203 0 113 250
              Sample.empty) as [_ [H _]]; try lia.
  destruct H as [Hw [Hhigh _]]; try reflexivity.
  destruct Hhigh as [Hs [_ Hr]]; [lia|].
  split; [exact Hw|]. split; [exact Hs | exact Hr].
Defined.

(** C2 as stated fails for the lookup of 10.0.0.5 when a key is
    configured and the provider answers: the provider is asked, and its
    answer (here score 42, not whitelisted) is what the lookup returns. *)
Lemma lookup_private_address_asks_provider :
  exists r w',
    Abuseipdb.getIPReputationWithCache Sample.online (Js.Str "10.0.0.5")
      Sample.empty = Ok (Some r) w'
    /\ is_whitelisted r = false
    /\ abuse_confidence_score r = Js.Num 42
    /\ trace w' = [CacheRead "10.0.0.5"; HttpGet "10.0.0.5";
                   CacheRead "10.0.0.5"; CacheWrite "10.0.0.5"].
Proof.
  eexists. eexists. split; [lazy; reflexivity|].
  split; [reflexivity|]. split; reflexivity.
Qed.

(** The prefix test "172.2" of the generator also holds for public
    addresses: 172.200.0.250 is outside 172.16-31.x, and the generated
    record is whitelisted with score 0. *)
Lemma generateStubReputation_172_2 :
  let r := Abuseipdb.generateStubReputation Sample.offline "172.200.0.250" in
  private_range 172 200 = false
  /\ dotted 172 200 0 250 = "172.200.0.250"
  /\ is_whitelisted r = true
  /\ abuse_confidence_score r = Js.Num 0.
Proof. repeat split; reflexivity. Qed.

(** ** The high-risk rule and the whole run *)

Lemma insert_by_index_In {A : Type} (n : Z) (kv : string * A)
    (l : list (Z * (string * A))) (x : Z * (string * A)) :
  In x (Js.insert_by_index n kv l) <-> x = (n, kv) \/ In x l.
Proof.
  induction l as [|[m kv'] t IH]; simpl.
  - split; intros [H | H]; auto.
  - destruct (n <=? m); simpl.
    + split; intros [H | H]; auto.
    + rewrite IH. split; intros [H | [H | H]]; auto.
Qed.

Lemma index_keys_In {A : Type} (o : Js.object A) (kv : string * A) :
  In kv (map snd (Js.index_keys o)) <->
  In kv o /\ Js.is_index_key kv = true.
Proof.
  induction o as [|kv0 t IH]; simpl; [tauto|].
  unfold Js.is_index_key in *.
  destruct (Js.array_index (fst kv0)) as [n|] eqn:E.
  - rewrite in_map_iff. split.
    + intros [[m kv'] [Hs Hin]]. simpl in Hs. subst kv'.
      apply insert_by_index_In in Hin as [Hin | Hin].
      * injection Hin as _ ->. rewrite E. auto.
      * assert (H : In kv (map snd (Js.index_keys t)))
          by (apply in_map_iff; exists (m, kv); auto).
        apply IH in H. tauto.
    + intros [[Hin | Hin] Hk].
      * subst kv0. exists (n, kv). split; [reflexivity|].
        apply insert_by_index_In. left. reflexivity.
      * assert (H : In kv (map snd (Js.index_keys t))) by (apply IH; auto).
        apply in_map_iff in H as [[m kv'] [Hs H]]. simpl in Hs. subst kv'.
        exists (m, kv). split; [reflexivity|].
        apply insert_by_index_In. right. exact H.
  - rewrite IH. split; [tauto|]. intros [[Hin | Hin] Hk]; [|tauto].
    subst kv0. rewrite E in Hk. discriminate.
Qed.

(** [Object.entries] lists the properties of the object and nothing
    else. *)
Lemma entries_In {A : Type} (o : Js.object A) (kv : string * A) :
  In kv (Js.entries o) <-> In kv o.
Proof.
  unfold Js.entries. rewrite in_app_iff, index_keys_In, filter_In.
  destruct (Js.is_index_key kv); simpl; split; tauto.
Qed.

Lemma Forall2_combine_In {A B : Type} (R : A -> B -> Prop) (l : list A)
    (l' : list B) :
  Forall2 R l l' ->
  (forall a b, In (a, b) (combine l l') -> R a b)
  /\ (forall a, In a l -> exists b, In (a, b) (combine l l')).
Proof.
  intros H. induction H as [|a b l l' Hab _ [IH1 IH2]]; simpl.
  - split; [contradiction|]. intros a [].
  - split.
    + intros a' b' [Heq | Hin]; [injection Heq as <- <-; exact Hab | auto].
    + intros a' [<- | Hin]; [exists b; auto|].
      destruct (IH2 a' Hin) as [b' Hb']. exists b'. auto.
Qed.

Lemma collected_In (l : list (string * Reputation)) (k : string)
    (v : option Reputation) :
  In (k, v) (collected l) <->
  exists r, v = Some r /\ In (k, r) l /\ k <> "__proto__".
Proof.
  unfold collected. rewrite in_map_iff. split.
  - intros [[k' r] [Heq Hin]]. simpl in Heq. injection Heq as <- <-.
    apply filter_In in Hin as [Hin Hk]. simpl in Hk.
    apply negb_true_iff, String.eqb_neq in Hk. eauto.
  - intros [r [-> [Hin Hk]]]. exists (k, r). split; [reflexivity|].
    apply filter_In. split; auto. simpl.
    apply negb_true_iff, String.eqb_neq. exact Hk.
Qed.

Section Run.
Variable env : Env.

Lemma answer_when_provider_fails (n : nat) (ip : string) :
  provider_fails env ->
  answer env n ip = Abuseipdb.generateStubReputation env ip.
Proof.
  intros H. unfold answer. destruct (Abuseipdb.key_configured env); auto.
  specialize (H n ip).
  destruct (fetch env n ip) as [?|? ?|?|[?|]]; try reflexivity.
  contradiction.
Qed.

Lemma resolved_by_fallback (table : list Reputation) (ip : string)
    (r : Reputation) :
  provider_fails env ->
  resolved_by env table ip r -> r = fallback_reputation env table ip.
Proof.
  intros H. unfold resolved_by, fallback_reputation.
  destruct (Abuseipdb.cached_row env ip table); auto.
  intros [n ->]. apply answer_when_provider_fails. exact H.
Qed.

Lemma recentIPs_In (table : list LogRow) (ip : string) :
  In ip (Rules.recentIPs env table) <->
  exists r, In r table /\ source_ip r = Some ip
            /\ Rules.within env 86400 r = true.
Proof.
  unfold Rules.recentIPs.
  rewrite distinct_In, non_null_In, in_map_iff. split.
  - intros [r [Hr Hin]]. apply filter_In in Hin as [Hin Hp].
    apply andb_true_iff in Hp as [_ Hw]. eauto.
  - intros [r [Hin [Hr Hw]]]. exists r. split; auto.
    apply filter_In. split; auto. rewrite Hr, Hw. reflexivity.
Qed.

(** An address of the last 24 hours has an event there. *)
Lemma recent_from_nonempty (table : list LogRow) (ip : string) :
  In ip (Rules.recentIPs env table) -> recent_from env table ip <> [].
Proof.
  intros H. apply recentIPs_In in H as [r [Hin [Hr Hw]]].
  assert (Hf : In r (recent_from env table ip)).
  { apply filter_In. split; auto. rewrite Hr, Hw. simpl.
    rewrite String.eqb_refl. reflexivity. }
  intros Hnil. rewrite Hnil in Hf. contradiction.
Qed.

(** The events counted for an address: those of the address that are
    later than 24 hours before the moment they are counted. *)
Lemma activityQuery_In (table : list LogRow) (ip : string) (r : LogRow) :
  In r (Rules.activityQuery env table ip) <->
  In r table /\ source_ip r = Some ip
  /\ exists t, datetime env (timestamp r) = Some t
               /\ now env + Z.of_N (elapsed env ip) - 86400 < t.
Proof.
  unfold Rules.activityQuery, Rules.within_at, Rules.counted_at, Sql.eq_text.
  rewrite filter_In, andb_true_iff. split.
  - intros [Hin [Hip Hw]]. split; [exact Hin|].
    destruct (source_ip r) as [s|]; [|discriminate].
    apply String.eqb_eq in Hip. subst s. split; [reflexivity|].
    destruct (datetime env (timestamp r)) as [t|]; [|discriminate].
    exists t. split; [reflexivity|]. apply Z.ltb_lt. exact Hw.
  - intros [Hin [Hip [t [Ht Hw]]]]. split; [exact Hin|].
    rewrite Hip, Ht. split; [apply String.eqb_refl|].
    apply Z.ltb_lt. exact Hw.
Qed.

Lemma lapsed_spec (table : list LogRow) (ip : string) :
  lapsed env table ip = false <-> Rules.activityQuery env table ip <> [].
Proof.
  unfold lapsed.
  destruct (Rules.activityQuery env table ip); split; congruence.
Qed.

Lemma settled_In (table : list LogRow) (ip : string) :
  settled env table = true ->
  In ip (Rules.recentIPs env table) ->
  Rules.activityQuery env table ip <> [].
Proof.
  unfold settled. rewrite forallb_forall. intros H Hin.
  apply lapsed_spec, negb_true_iff, H, Hin.
Qed.

(** When the events of an address are counted within the second the
    operation started in, they are its events of the last 24 hours. *)
Lemma activityQuery_at_once (table : list LogRow) (ip : string) :
  elapsed env ip = 0%N ->
  Rules.activityQuery env table ip = recent_from env table ip.
Proof.
  intros H.
  unfold Rules.activityQuery, recent_from, Rules.counted_at,
    Rules.within_at, Rules.within.
  rewrite H. change (Z.of_N 0) with 0. rewrite Z.add_0_r. reflexivity.
Qed.

(** An operation that is over within a second is settled. *)
Lemma at_once_settled (table : list LogRow) :
  (forall ip, elapsed env ip = 0%N) -> settled env table = true.
Proof.
  intros H. unfold settled. apply forallb_forall. intros ip Hin.
  apply negb_true_iff, lapsed_spec. rewrite activityQuery_at_once by apply H.
  apply recent_from_nonempty, Hin.
Qed.

Lemma highRiskAlert_step (table : list LogRow)
    (acc : list Rules.HighRiskAlert) (entry : string * option Reputation)
    (w : World) :
  logs w = table ->
  (high_risk_entry entry = true ->
   Rules.activityQuery env table (fst entry) <> []) ->
  Rules.highRiskAlert env acc entry w
  = if high_risk_entry entry
    then Ok (acc ++ [high_risk_out env table (alerts_seq w + 1) entry])%list
            (add_alerts w [high_risk_row env table (alerts_seq w + 1) entry])
    else Ok acc w.
Proof.
  intros Hw Hact. destruct entry as [ip [r|]]; [|reflexivity].
  unfold Rules.highRiskAlert. cbv beta iota.
  unfold high_risk_entry, high_risk in *. cbn [fst snd] in *.
  destruct (is_whitelisted r); [reflexivity|]. cbn [negb andb] in *.
  destruct (Js.ge (abuse_confidence_score r) (Js.Num 50)); [|reflexivity].
  destruct (MIN_MAX_nonempty timestamp _ (Hact eq_refl)) as [Hmin Hmax].
  rewrite bind_run. unfold get_world at 1. cbv beta iota zeta.
  rewrite Hw.
  destruct (Sql.MIN (map timestamp (Rules.activityQuery env table ip)))
    as [mn|] eqn:Emin; [|congruence].
  destruct (Sql.MAX (map timestamp (Rules.activityQuery env table ip)))
    as [mx|] eqn:Emax; [|congruence].
  rewrite bind_run, insertAlert_run.
  unfold high_risk_out, high_risk_row. cbn [fst snd].
  rewrite Emin, Emax. reflexivity.
Qed.

(** One turn of the loop of the high-risk rule: nothing for an entry
    that does not pass the test; for one that does, an alert, or the
    error of the INSERT when no event of the address is counted. *)
Lemma highRiskAlert_run (table : list LogRow)
    (acc : list Rules.HighRiskAlert) (entry : string * option Reputation)
    (w : World) :
  logs w = table ->
  Rules.highRiskAlert env acc entry w
  = if high_risk_entry entry
    then if lapsed env table (fst entry)
         then Throw first_seen_null w
         else Ok (acc ++ [high_risk_out env table (alerts_seq w + 1) entry])%list
                 (add_alerts w
                    [high_risk_row env table (alerts_seq w + 1) entry])
    else Ok acc w.
Proof.
  intros Hw. destruct (high_risk_entry entry) eqn:Hk.
  - destruct (lapsed env table (fst entry)) eqn:Hl.
    + destruct entry as [ip [r|]]; [|discriminate].
      unfold Rules.highRiskAlert. cbv beta iota.
      unfold high_risk_entry, high_risk in Hk. cbn [fst snd] in *.
      destruct (is_whitelisted r); [discriminate|]. cbn [negb andb] in Hk.
      rewrite Hk, bind_run. unfold get_world at 1. cbv beta iota zeta.
      rewrite Hw. unfold lapsed in Hl.
      destruct (Rules.activityQuery env table ip); [reflexivity|discriminate].
    + rewrite (highRiskAlert_step table acc entry w Hw), Hk; [reflexivity|].
      intros _. apply lapsed_spec. exact Hl.
  - rewrite (highRiskAlert_step table acc entry w Hw), Hk; [reflexivity|].
    congruence.
Qed.

End Run.

Lemma high_risk_out_ip (env : Env) (table : list LogRow) (n : Z)
    (entry : string * option Reputation) :
  Rules.hr_ip (high_risk_out env table n entry) = fst entry.
Proof. unfold high_risk_out. destruct (snd entry); reflexivity. Qed.

Lemma in_map_Str (ip : string) (ips : list string) :
  In (Js.Str ip) (map Js.Str ips) <-> In ip ips.
Proof.
  rewrite in_map_iff. split.
  - intros [x [Hx Hin]]. injection Hx as ->. exact Hin.
  - intros H. exists ip. auto.
Qed.

(** ** The table of the cache *)

Section Table.
Variable env : Env.

Lemma upsert_addresses (reputation : Reputation) (ip : string)
    (table : list Reputation) :
  map ip_address (upsert env reputation ip table)
  = (map ip_address table
     ++ if existsb (fun r => String.eqb (ip_address r) ip) table
        then [] else [ip])%list.
Proof.
  unfold upsert.
  destruct (existsb (fun r => String.eqb (ip_address r) ip) table).
  - rewrite app_nil_r, map_map. apply map_ext. intros r.
    destruct (String.eqb_spec (ip_address r) ip) as [-> | _]; reflexivity.
  - rewrite map_app. reflexivity.
Qed.

Lemma upsert_one_row (reputation : Reputation) (ip : string)
    (table : list Reputation) :
  one_row_per_address table ->
  one_row_per_address (upsert env reputation ip table).
Proof.
  unfold one_row_per_address. intros H. rewrite upsert_addresses.
  destruct (existsb (fun r => String.eqb (ip_address r) ip) table) eqn:E.
  - rewrite app_nil_r. exact H.
  - apply NoDup_app; [exact H | constructor; [intros [] | constructor] |].
    intros a Ha [<- | []]. apply in_map_iff in Ha as [r [Hr Hin]].
    assert (Hex : existsb (fun r => String.eqb (ip_address r) ip) table = true).
    { apply existsb_exists. exists r. split; [exact Hin|].
      apply String.eqb_eq. exact Hr. }
    congruence.
Qed.

(** The rows of the other addresses are not touched by a write. *)
Lemma upsert_others (reputation : Reputation) (ip : string)
    (table : list Reputation) :
  filter (fun r => negb (String.eqb (ip_address r) ip))
         (upsert env reputation ip table)
  = filter (fun r => negb (String.eqb (ip_address r) ip)) table.
Proof.
  unfold upsert.
  destruct (existsb (fun r => String.eqb (ip_address r) ip) table).
  - induction table as [|r t IH]; simpl; [reflexivity|].
    destruct (String.eqb (ip_address r) ip) eqn:E; simpl.
    + rewrite String.eqb_refl. simpl. exact IH.
    + rewrite E. simpl. rewrite IH. reflexivity.
  - rewrite filter_app. simpl. rewrite String.eqb_refl. simpl.
    apply app_nil_r.
Qed.

(** The table after a lookup: as it was, or with the answer written. *)
Lemma lookup_table (a : Js.arg) (w : World) :
  exists r w',
    Abuseipdb.getIPReputationWithCache env a w = Ok r w'
    /\ logs w' = logs w /\ logs_seq w' = logs_seq w
    /\ alerts w' = alerts w /\ alerts_seq w' = alerts_seq w
    /\ (ip_reputation w' = ip_reputation w
        \/ exists ip reputation,
             a = Js.Str ip /\ ip <> EmptyString
             /\ Abuseipdb.cached_row env ip (ip_reputation w) = None
             /\ ip_reputation w'
                = upsert env reputation ip (ip_reputation w)).
Proof.
  destruct (Js.truthy a) eqn:Ha.
  - destruct a as [| |ip]; try discriminate. simpl in Ha.
    apply negb_true_iff, String.eqb_neq in Ha.
    rewrite (lookup_spec env ip w Ha).
    destruct (Abuseipdb.cached_row env ip (ip_reputation w)) as [row|] eqn:E.
    + eexists. eexists. split; [reflexivity|]. repeat split. left.
      reflexivity.
    + eexists. eexists. split; [reflexivity|]. repeat split. right.
      exists ip. eexists. repeat split; auto.
  - rewrite (lookup_falsy env a w Ha). exists None, w. repeat split.
    left. reflexivity.
Qed.

(** A property of the table that every write keeps holds after the
    batch lookup. *)
Lemma enrich_loop_invariant (I : list Reputation -> Prop) (l : list string) :
  (forall reputation ip table, I table -> I (upsert env reputation ip table)) ->
  forall (acc : Js.object (option Reputation)) (w : World),
    I (ip_reputation w) ->
    exists results w',
      for_of l
        (fun results ip =>
           let* r := Abuseipdb.getIPReputationWithCache env (Js.Str ip) in
           let results := Js.set ip r results in
           (if Abuseipdb.key_configured env then Abuseipdb.delay 250
            else ret tt) ;;
           ret results)
        acc w
      = Ok results w'
      /\ I (ip_reputation w').
Proof.
  intros HI. induction l as [|ip t IH]; intros acc w Hw.
  - exists acc, w. split; [reflexivity | exact Hw].
  - destruct (lookup_table (Js.Str ip) w)
      as [r [w1 [Hrun [_ [_ [_ [_ Htab]]]]]]].
    assert (Hw1 : I (ip_reputation w1)).
    { destruct Htab as [-> | [ip' [rep [_ [_ [_ ->]]]]]]; auto. }
    rewrite for_of_cons, bind_run, Hrun. cbv beta iota zeta.
    destruct (Abuseipdb.key_configured env).
    + apply (IH _ (with_trace w1 [Delay 250])). exact Hw1.
    + apply (IH _ w1). exact Hw1.
Qed.

End Table.

(** ** The brute-force rule, keyed by account *)

(** Among the objects built for a list of distinct keys, those that
    answer to one key: the one of that key, if it is in the list. *)
Lemma keyed_among {G O : Type} (out : Z -> G -> O) (keyed : O -> bool)
    (mk : string -> G) (key : string) (ks : list string) :
  (forall n k, keyed (out n (mk k)) = String.eqb k key) ->
  NoDup ks ->
  forall seq,
    (In key ks ->
     exists n,
       In (out n (mk key)) (numbered (fun _ => true) out seq (map mk ks))
       /\ filter keyed (numbered (fun _ => true) out seq (map mk ks))
          = [out n (mk key)])
    /\ (~ In key ks ->
        filter keyed (numbered (fun _ => true) out seq (map mk ks)) = []).
Proof.
  intros Hmk Hnd. induction Hnd as [|k t Hk Hnd IH]; intros seq.
  - split; [contradiction | reflexivity].
  - simpl map. simpl numbered. simpl filter. rewrite Hmk.
    destruct (IH (seq + 1)) as [IHin IHout].
    destruct (String.eqb k key) eqn:E.
    + apply String.eqb_eq in E. subst k. split.
      * intros _. exists (seq + 1). split; [left; reflexivity|].
        rewrite (IHout Hk). reflexivity.
      * intros H. exfalso. apply H. left. reflexivity.
    + apply String.eqb_neq in E. split.
      * intros [H | H]; [contradiction|].
        destruct (IHin H) as [n [Hin Hf]]. exists n.
        split; [right; exact Hin | exact Hf].
      * intros H. apply IHout. intros Hin. apply H. right. exact Hin.
Qed.

Lemma by_username_nonempty (rows : list LogRow) (k : string) :
  In k (Sql.distinct (Sql.non_null (map username rows))) <->
  Rules.by_username rows k <> [].
Proof.
  rewrite distinct_In, non_null_In, in_map_iff.
  unfold Rules.by_username. split.
  - intros [r [Hr Hin]] Hnil.
    assert (Hf : In r (filter (fun r => Sql.eq_text (username r) k) rows)).
    { apply filter_In. split; auto. rewrite Hr. simpl.
      apply String.eqb_refl. }
    rewrite Hnil in Hf. contradiction.
  - intros Hne.
    destruct (filter (fun r => Sql.eq_text (username r) k) rows)
      as [|r t] eqn:E; [congruence|].
    assert (Hf : In r (filter (fun r => Sql.eq_text (username r) k) rows))
      by (rewrite E; left; reflexivity).
    apply filter_In in Hf as [Hin Hr]. exists r. split; auto.
    destruct (username r) as [s|]; [|discriminate].
    simpl in Hr. apply String.eqb_eq in Hr. congruence.
Qed.

Lemma failures_on_group (env : Env) (user : string) (table : list LogRow) :
  Rules.by_username
    (filter (fun r => Rules.failed r && Rules.not_null (username r)
                      && Rules.within env 300 r) table) user
  = failures_on env table user.
Proof.
  unfold Rules.by_username, failures_on. rewrite filter_filter_and.
  apply filter_ext. intros r.
  destruct (username r) as [s|]; simpl;
    destruct (Rules.failed r), (Rules.within env 300 r); simpl;
    try reflexivity; destruct (String.eqb s user); reflexivity.
Qed.

Lemma ip_outs_not_user_keyed (user : string) (seq : Z)
    (l : list Rules.GroupRow) :
  filter (user_keyed user) (numbered (fun _ => true) brute_ip_out seq l) = [].
Proof.
  apply filter_none. intros o Ho.
  destruct (numbered_combine (fun _ => true) brute_ip_out brute_ip_out
              seq l o Ho) as [n [x [_ [_ [-> _]]]]].
  reflexivity.
Qed.

(** The account-keyed half of the brute-force rule.  Take the events of
    the store with a failure status and a given user name whose
    timestamp is later than now - 300 s, N of them, from whatever
    addresses.  If N >= 5 the rule returns exactly one alert keyed by
    that account: its count is N, its bounds are the least and the
    greatest timestamp of the group, compared as texts (byte by byte,
    as MIN and MAX compare the TEXT column), its address is the bare
    column SQLite picks from the group, and the row inserted for it has
    that count, those bounds, severity "high" and the account as
    affected entity.  If N <= 4 it returns no alert keyed by that
    account. *)
Theorem detectBruteForce_by_account (env : Env) (w : World) (user : string) :
  let group := failures_on env (logs w) user in
  let N := Z.of_nat (List.length group) in
  exists outs new w',
    Rules.detectBruteForce env w = Ok outs w'
    /\ w' = add_alerts w new
    /\ (5 <= N ->
        exists o a mn mx,
          filter (user_keyed user) outs = [o]
          /\ Rules.attempt_count o = N
          /\ Rules.first_attempt o = Some mn
          /\ Rules.last_attempt o = Some mx
          /\ least mn (map timestamp group)
          /\ greatest mx (map timestamp group)
          /\ Rules.bf_source_ip o = Rules.bare_source_ip env group
          /\ In a new
          /\ alert_id a = Rules.bf_id o
          /\ alert_type a = "brute_force"
          /\ severity a = "high"
          /\ title a = "Brute Force Attack on Account " ++ user
          /\ affected_entity a = Some user
          /\ alert_source_ip a = Rules.bare_source_ip env group
          /\ event_count a = N
          /\ first_seen a = mn
          /\ last_seen a = mx)
    /\ (N <= 4 -> filter (user_keyed user) outs = []).
Proof.
  intros group N.
  pose proof (detectBruteForce_spec env w) as Hrun. cbv zeta in Hrun.
  set (rows := filter (fun r => Rules.failed r && Rules.not_null (username r)
                                && Rules.within env 300 r) (logs w)).
  set (keys := Sql.distinct (Sql.non_null (map username rows))).
  set (mk := fun k =>
               Rules.mkGroup (Some k)
                 (Rules.bare_source_ip env (Rules.by_username rows k))
                 (Rules.count (Rules.by_username rows k))
                 (Sql.MIN (map timestamp (Rules.by_username rows k)))
                 (Sql.MAX (map timestamp (Rules.by_username rows k)))).
  set (kept := filter (fun k => 5 <=? Rules.count (Rules.by_username rows k))
                      keys).
  assert (HuserR : Rules.userQuery env (logs w) 5 = map mk kept)
    by reflexivity.
  rewrite HuserR in Hrun.
  set (ipR := Rules.ipQuery env (logs w) 5) in Hrun.
  set (seq := alerts_seq w + Z.of_nat (List.length ipR)) in Hrun.
  set (A := numbered (fun _ => true) brute_ip_out (alerts_seq w) ipR) in Hrun.
  set (B := numbered (fun _ => true) brute_user_out seq (map mk kept))
    in Hrun.
  set (RA := numbered (fun _ => true) (brute_ip_row env) (alerts_seq w) ipR)
    in Hrun.
  set (RB := numbered (fun _ => true) (brute_user_row env) seq (map mk kept))
    in Hrun.
  assert (Hgroup : Rules.by_username rows user = group)
    by apply failures_on_group.
  assert (Hfilter : filter (user_keyed user) (A ++ B)
                    = filter (user_keyed user) B).
  { rewrite filter_app. unfold A. rewrite ip_outs_not_user_keyed.
    reflexivity. }
  assert (Hkept : NoDup kept) by (apply NoDup_filter, distinct_NoDup).
  destruct (keyed_among brute_user_out (user_keyed user) mk user kept
              (fun _ _ => eq_refl) Hkept seq) as [Hin Hout].
  fold B in Hin, Hout.
  eexists. exists (RA ++ RB)%list. eexists. split; [exact Hrun|].
  split; [reflexivity|]. rewrite Hfilter. split.
  - intros HN.
    assert (Hne : group <> []).
    { intros Hnil. unfold N in HN. rewrite Hnil in HN. simpl in HN. lia. }
    assert (Hipk : In user kept).
    { apply filter_In. split.
      - apply by_username_nonempty. rewrite Hgroup. exact Hne.
      - apply Z.leb_le. rewrite Hgroup. exact HN. }
    destruct (Hin Hipk) as [n [HoB Hone]].
    destruct (numbered_combine (fun _ => true) brute_user_out
                (brute_user_row env) seq (map mk kept) _ HoB)
      as [n' [x [_ [_ [Hox Hrow]]]]]. fold RB in Hrow.
    destruct (MIN_MAX_nonempty timestamp group Hne) as [Hmin Hmax].
    destruct (Sql.MIN (map timestamp group)) as [mn|] eqn:Emin; [|congruence].
    destruct (Sql.MAX (map timestamp group)) as [mx|] eqn:Emax; [|congruence].
    assert (Ho : brute_user_out n (mk user)
                 = Rules.mkBruteForce n "brute_force_user" (Some user)
                     (Rules.bare_source_ip env group) N (Some mn) (Some mx)).
    { unfold brute_user_out, mk. simpl. rewrite Hgroup, Emin, Emax.
      reflexivity. }
    rewrite Ho in Hox. unfold brute_user_out in Hox.
    injection Hox as Hn Huser Hsip Hcount Hfirst Hlast. subst n'.
    exists (brute_user_out n (mk user)), (brute_user_row env n x), mn, mx.
    rewrite Ho at 2 3 4 5 6. simpl.
    rewrite <- Huser, <- Hsip, <- Hcount, <- Hfirst, <- Hlast.
    repeat split; auto.
    + apply (MIN_least _ _ Emin).
    + apply (MIN_least _ _ Emin).
    + apply (MAX_greatest _ _ Emax).
    + apply (MAX_greatest _ _ Emax).
    + apply in_or_app. right. exact Hrow.
  - intros HN. apply Hout. intros Hipk.
    apply filter_In in Hipk as [_ Hc]. apply Z.leb_le in Hc.
    rewrite Hgroup in Hc. unfold Rules.count in Hc. fold N in Hc. lia.
Qed.

(** Five failed logins on one account from five addresses within the
    last minute, as in the repository's test: one alert keyed by the
    account, counting five, and none keyed by an address. *)
Lemma detectBruteForce_by_account_witness :
  exists outs w' o,
    Rules.detectBruteForce Sample.offline
      (Sample.with_logs
         (map (fun i => Sample.log i "2025-10-15T11:59:00Z" "admin"
                          ("10.0.0." ++ Js.string_of_Z i) "failed")
              [0; 1; 2; 3; 4]))
    = Ok outs w'
    /\ outs = [o]
    /\ filter (user_keyed "admin") outs = [o]
    /\ Rules.attempt_count o = 5.
Proof.
  destruct (detectBruteForce_by_account Sample.offline
              (Sample.with_logs
                 (map (fun i => Sample.log i "2025-10-15T11:59:00Z" "admin"
                                  ("10.0.0." ++ Js.string_of_Z i) "failed")
                      [0; 1; 2; 3; 4]))
              "admin")
    as [outs [new [w' [Hrun [_ [Hmany _]]]]]].
  destruct Hmany as [o [a [mn [mx [Hone [Hcount _]]]]]].
  - vm_compute. discriminate.
  - exists outs, w', o. split; [exact Hrun|].
    split; [|split; [exact Hone | rewrite Hcount; reflexivity]].
    vm_compute in Hrun. injection Hrun as <- _.
    vm_compute in Hone. exact Hone.
Defined.

(** ** The geo rule *)

Lemma all_ascii_In (a : ascii) : In a all_ascii.
Proof.
  unfold all_ascii. apply in_map_iff. exists (nat_of_ascii a).
  split; [apply ascii_nat_embedding|]. apply in_seq.
  pose proof (nat_ascii_bounded a). lia.
Qed.

(** Checked on each pair of characters: folding the case of [a] does not
    change whether it is a given character that is no letter. *)
Lemma lower_ascii_no_letter (c a : ascii) :
  is_letter c = false ->
  Ascii.eqb c (Js.lower_ascii a) = Ascii.eqb c a.
Proof.
  intros Hc.
  assert (Hall : forallb (fun c => forallb (fun a =>
            is_letter c
            || Bool.eqb (Ascii.eqb c (Js.lower_ascii a)) (Ascii.eqb c a))
            all_ascii) all_ascii = true) by (vm_compute; reflexivity).
  rewrite forallb_forall in Hall. specialize (Hall c (all_ascii_In c)).
  rewrite forallb_forall in Hall. specialize (Hall a (all_ascii_In a)).
  rewrite Hc in Hall. simpl in Hall. apply Bool.eqb_prop in Hall. exact Hall.
Qed.

Lemma prefix_cons (a b : ascii) (p s : string) :
  String.prefix (String a p) (String b s) = Ascii.eqb a b && String.prefix p s.
Proof.
  simpl. destruct (Ascii.eqb_spec a b) as [-> | Hne].
  - destruct (ascii_dec b b); [reflexivity | congruence].
  - destruct (ascii_dec a b); [contradiction | reflexivity].
Qed.

(** A pattern without letters matches a text under LIKE exactly when it
    is a prefix of the text as it is. *)
Lemma like_prefix_no_letter (p s : string) :
  no_letter p = true ->
  Sql.like_prefix (Some s) p = String.prefix p s.
Proof.
  unfold Sql.like_prefix. revert s.
  induction p as [|c p IH]; intros s Hp.
  - destruct s; reflexivity.
  - simpl in Hp. apply andb_true_iff in Hp as [Hc Hp].
    apply negb_true_iff in Hc.
    assert (Hlow : Js.lower_ascii c = c).
    { unfold Js.lower_ascii. unfold is_letter in Hc.
      apply orb_false_iff in Hc as [Hc _]. cbv zeta in Hc. rewrite Hc.
      reflexivity. }
    destruct s as [|a s]; [reflexivity|].
    change (Js.toLowerCase (String c p))
      with (String (Js.lower_ascii c) (Js.toLowerCase p)).
    change (Js.toLowerCase (String a s))
      with (String (Js.lower_ascii a) (Js.toLowerCase s)).
    rewrite !prefix_cons, Hlow, (IH s Hp), lower_ascii_no_letter by exact Hc.
    reflexivity.
Qed.

Lemma suspicious_startsWith (ip : string) :
  suspicious ip
  = Js.startsWith ip "10.0.0." || Js.startsWith ip "192.168."
    || Js.startsWith ip "0.0.0.".
Proof.
  unfold suspicious, Rules.suspiciousRanges, Js.startsWith.
  cbn [existsb]. rewrite !like_prefix_no_letter by reflexivity.
  rewrite orb_false_r, orb_assoc. reflexivity.
Qed.

(** The rows of one address in the query of one pattern. *)
Lemma geo_group (env : Env) (table : list LogRow) (range k : string) :
  Rules.by_source_ip
    (filter (fun r => Sql.like_prefix (source_ip r) range
                      && Rules.within env 86400 r) table) k
  = if Sql.like_prefix (Some k) range
    then recent_from env table k else [].
Proof.
  unfold Rules.by_source_ip, recent_from. rewrite filter_filter_and.
  assert (Hrow : forall r,
            Sql.like_prefix (source_ip r) range && Rules.within env 86400 r
            && Sql.eq_text (source_ip r) k
            = Sql.like_prefix (Some k) range
              && (Sql.eq_text (source_ip r) k && Rules.within env 86400 r)).
  { intros r. destruct (source_ip r) as [s|]; cbn [Sql.eq_text].
    - destruct (String.eqb_spec s k) as [-> | Hne].
      + destruct (Sql.like_prefix (Some k) range),
          (Rules.within env 86400 r); reflexivity.
      + rewrite andb_false_r. cbn [andb]. rewrite andb_false_r. reflexivity.
    - rewrite andb_false_r. cbn [andb]. rewrite andb_false_r. reflexivity. }
  destruct (Sql.like_prefix (Some k) range) eqn:Hk.
  - apply filter_ext. intros r. rewrite Hrow. reflexivity.
  - apply filter_none. intros r _. rewrite Hrow. reflexivity.
Qed.

Section Geo.
Variable env : Env.

(** One pattern of the geo rule: an alert for each address of its
    query. *)
Lemma geo_range_step (range : string) (acc : list Rules.GeoAlert)
    (w0 : World) :
  (let* w1 := get_world in
   for_of (Rules.geoQuery env (logs w1) range) (Rules.geoAlert env) acc) w0
  = Ok (acc ++ numbered (fun _ => true) geo_out (alerts_seq w0)
                        (Rules.geoQuery env (logs w0) range))%list
       (add_alerts w0
          (numbered (fun _ => true) (geo_row env) (alerts_seq w0)
                    (Rules.geoQuery env (logs w0) range))).
Proof.
  rewrite bind_run. unfold get_world at 1. cbv beta iota.
  apply (alert_loop (logs w0) (Rules.geoAlert env) (fun _ => true)
           geo_out (geo_row env) (Rules.geoQuery env (logs w0) range)).
  - intros acc' g w' Hin _. apply geoAlert_step.
    eapply geoQuery_bounded. exact Hin.
  - reflexivity.
Qed.

(** The geo rule always returns: the alerts of its three queries, one
    after the other. *)
Lemma detectGeoAnomalies_full (w : World) :
  let q1 := Rules.geoQuery env (logs w) "10.0.0." in
  let q2 := Rules.geoQuery env (logs w) "192.168." in
  let q3 := Rules.geoQuery env (logs w) "0.0.0." in
  let s1 := alerts_seq w + Z.of_nat (List.length q1) in
  let s2 := s1 + Z.of_nat (List.length q2) in
  Rules.detectGeoAnomalies env w
  = Ok (numbered (fun _ => true) geo_out (alerts_seq w) q1
        ++ numbered (fun _ => true) geo_out s1 q2
        ++ numbered (fun _ => true) geo_out s2 q3)%list
       (add_alerts w
          (numbered (fun _ => true) (geo_row env) (alerts_seq w) q1
           ++ numbered (fun _ => true) (geo_row env) s1 q2
           ++ numbered (fun _ => true) (geo_row env) s2 q3)).
Proof.
  intros q1 q2 q3 s1 s2.
  unfold Rules.detectGeoAnomalies, Rules.suspiciousRanges.
  rewrite for_of_cons, geo_range_step. fold q1.
  rewrite for_of_cons, geo_range_step.
  change (logs (add_alerts w ?r)) with (logs w). fold q2.
  rewrite for_of_cons, geo_range_step.
  change (logs (add_alerts (add_alerts w ?r) ?r')) with (logs w). fold q3.
  simpl for_of. unfold ret.
  rewrite !add_alerts_app.
  change (alerts_seq (add_alerts w ?r))
    with (alerts_seq w + Z.of_nat (List.length r)).
  rewrite !numbered_all_length. fold s1. fold s2.
  rewrite <- !app_assoc. reflexivity.
Qed.

(** The alerts of one pattern that are about one address. *)
Lemma geo_range_keyed (table : list LogRow) (range ip : string) (seq : Z) :
  let group := recent_from env table ip in
  let g := Rules.mkGroup (Rules.bare_username env group) (Some ip)
             (Rules.count group) (Sql.MIN (map timestamp group))
             (Sql.MAX (map timestamp group)) in
  let q := Rules.geoQuery env table range in
  (Sql.like_prefix (Some ip) range = true -> group <> [] ->
   exists n,
     filter (geo_keyed ip) (numbered (fun _ => true) geo_out seq q)
     = [geo_out n g]
     /\ In (geo_row env n g) (numbered (fun _ => true) (geo_row env) seq q))
  /\ (Sql.like_prefix (Some ip) range = false \/ group = [] ->
      filter (geo_keyed ip) (numbered (fun _ => true) geo_out seq q) = []).
Proof.
  intros group g q.
  set (rows := filter (fun r => Sql.like_prefix (source_ip r) range
                                && Rules.within env 86400 r) table).
  set (keys := Sql.distinct (Sql.non_null (map source_ip rows))).
  set (mk := fun k =>
               Rules.mkGroup
                 (Rules.bare_username env (Rules.by_source_ip rows k))
                 (Some k) (Rules.count (Rules.by_source_ip rows k))
                 (Sql.MIN (map timestamp (Rules.by_source_ip rows k)))
                 (Sql.MAX (map timestamp (Rules.by_source_ip rows k)))).
  assert (Hq : q = map mk keys) by reflexivity.
  assert (Hgroup : Rules.by_source_ip rows ip
                   = if Sql.like_prefix (Some ip) range then group else [])
    by apply geo_group.
  destruct (keyed_among geo_out (geo_keyed ip) mk ip keys
              (fun _ _ => eq_refl) (distinct_NoDup _) seq) as [Hin Hout].
  rewrite <- Hq in Hin, Hout. split.
  - intros Hlike Hne. rewrite Hlike in Hgroup.
    assert (Hk : In ip keys)
      by (apply by_source_ip_nonempty; rewrite Hgroup; exact Hne).
    destruct (Hin Hk) as [n [Ho Hone]].
    assert (Hmk : mk ip = g) by (unfold mk; rewrite Hgroup; reflexivity).
    rewrite Hmk in Ho, Hone. exists n. split; [exact Hone|].
    destruct (numbered_combine (fun _ => true) geo_out (geo_row env) seq q
                _ Ho) as [n' [x [_ [_ [Hox Hrow]]]]].
    unfold geo_out in Hox. injection Hox as Hn H1 H2 H3 H4 H5. subst n'.
    assert (Hx : x = g).
    { destruct x as [xu xs xc xf xl]. unfold g in *. simpl in *.
      subst. reflexivity. }
    rewrite <- Hx. exact Hrow.
  - intros Hno. apply Hout. intros Hk.
    apply by_source_ip_nonempty in Hk. rewrite Hgroup in Hk.
    destruct Hno as [Hlike | Hnil].
    + rewrite Hlike in Hk. congruence.
    + destruct (Sql.like_prefix (Some ip) range); congruence.
Qed.

End Geo.

Lemma prefix_head (c : ascii) (p s : string) :
  String.prefix (String c p) s = true ->
  exists s', s = String c s' /\ String.prefix p s' = true.
Proof.
  destruct s as [|a s]; [discriminate|]. rewrite prefix_cons.
  intros H. apply andb_true_iff in H as [Ha Hs].
  apply Ascii.eqb_eq in Ha. subst a. eauto.
Qed.

(** No address matches two patterns of the geo rule. *)
Lemma suspiciousRanges_exclusive (ip : string) :
  (Sql.like_prefix (Some ip) "10.0.0." = true ->
   Sql.like_prefix (Some ip) "192.168." = false
   /\ Sql.like_prefix (Some ip) "0.0.0." = false)
  /\ (Sql.like_prefix (Some ip) "192.168." = true ->
      Sql.like_prefix (Some ip) "0.0.0." = false).
Proof.
  rewrite !like_prefix_no_letter by reflexivity. split.
  - intros H. apply prefix_head in H as [s1 [-> H]].
    apply prefix_head in H as [s2 [-> _]]. split; reflexivity.
  - intros H. apply prefix_head in H as [s1 [-> _]]. reflexivity.
Qed.

(** The geo rule, address by address.  An address is reported when it
    matches one of the three patterns (its text starts with 10.0.0.,
    192.168. or 0.0.0.) and the store holds an event from it that is
    later than now - 24 h, whatever the status of the event and however
    few there are; it is then reported exactly once, with the number of
    those events and the least and the greatest of their timestamps,
    compared as texts (byte by byte, as MIN and MAX compare the TEXT
    column), and the row inserted for it has severity "medium".  Any
    other address is not reported. *)
Theorem detectGeoAnomalies_per_address (env : Env) (w : World) (ip : string) :
  let group := recent_from env (logs w) ip in
  exists outs new w',
    Rules.detectGeoAnomalies env w = Ok outs w'
    /\ w' = add_alerts w new
    /\ suspicious ip
       = Js.startsWith ip "10.0.0." || Js.startsWith ip "192.168."
         || Js.startsWith ip "0.0.0."
    /\ (suspicious ip = true -> group <> [] ->
        exists o a mn mx,
          filter (geo_keyed ip) outs = [o]
          /\ Rules.access_count o = Z.of_nat (List.length group)
          /\ Rules.geo_first_seen o = Some mn
          /\ Rules.geo_last_seen o = Some mx
          /\ least mn (map timestamp group)
          /\ greatest mx (map timestamp group)
          /\ Rules.geo_username o = Rules.bare_username env group
          /\ In a new
          /\ alert_id a = Rules.geo_id o
          /\ alert_type a = "geo_anomaly"
          /\ severity a = "medium"
          /\ affected_entity a = Rules.bare_username env group
          /\ alert_source_ip a = Some ip
          /\ event_count a = Z.of_nat (List.length group)
          /\ first_seen a = mn
          /\ last_seen a = mx)
    /\ (suspicious ip = false \/ group = [] ->
        filter (geo_keyed ip) outs = []).
Proof.
  intros group.
  pose proof (detectGeoAnomalies_full env w) as Hrun. cbv zeta in Hrun.
  match type of Hrun with
  | _ = Ok (numbered _ _ _ ?q1 ++ numbered _ _ ?s1 ?q2
            ++ numbered _ _ ?s2 ?q3)%list _ =>
      set (S2 := s2) in *; set (S1 := s1) in *;
      set (Q1 := q1) in *; set (Q2 := q2) in *; set (Q3 := q3) in *
  end.
  destruct (geo_range_keyed env (logs w) "10.0.0." ip (alerts_seq w))
    as [Hin1 Hout1].
  destruct (geo_range_keyed env (logs w) "192.168." ip S1) as [Hin2 Hout2].
  destruct (geo_range_keyed env (logs w) "0.0.0." ip S2) as [Hin3 Hout3].
  fold group in Hin1, Hin2, Hin3, Hout1, Hout2, Hout3.
  fold Q1 in Hin1, Hout1. fold Q2 in Hin2, Hout2. fold Q3 in Hin3, Hout3.
  destruct (suspiciousRanges_exclusive ip) as [Hex1 Hex2].
  eexists. eexists. eexists. split; [exact Hrun|].
  split; [reflexivity|]. split; [apply suspicious_startsWith|].
  rewrite !filter_app. split.
  - intros Hs Hne.
    assert (Hone : exists n g,
              g = Rules.mkGroup (Rules.bare_username env group) (Some ip)
                    (Rules.count group) (Sql.MIN (map timestamp group))
                    (Sql.MAX (map timestamp group))
              /\ (filter (geo_keyed ip)
                    (numbered (fun _ => true) geo_out (alerts_seq w) Q1)
                  ++ filter (geo_keyed ip)
                       (numbered (fun _ => true) geo_out S1 Q2)
                  ++ filter (geo_keyed ip)
                       (numbered (fun _ => true) geo_out S2 Q3))%list
                 = [geo_out n g]
              /\ In (geo_row env n g)
                    (numbered (fun _ => true) (geo_row env) (alerts_seq w) Q1
                     ++ numbered (fun _ => true) (geo_row env) S1 Q2
                     ++ numbered (fun _ => true) (geo_row env) S2 Q3)).
    { unfold suspicious, Rules.suspiciousRanges in Hs. cbn [existsb] in Hs.
      rewrite orb_false_r in Hs.
      destruct (Sql.like_prefix (Some ip) "10.0.0.") eqn:E1.
      - destruct (Hex1 eq_refl) as [E2 E3].
        destruct (Hin1 eq_refl Hne) as [n [Hf Hr]].
        exists n. eexists. split; [reflexivity|].
        rewrite Hf, (Hout2 (or_introl E2)), (Hout3 (or_introl E3)).
        split; [reflexivity|]. apply in_or_app. left. exact Hr.
      - destruct (Sql.like_prefix (Some ip) "192.168.") eqn:E2.
        + pose proof (Hex2 eq_refl) as E3.
          destruct (Hin2 eq_refl Hne) as [n [Hf Hr]].
          exists n. eexists. split; [reflexivity|].
          rewrite Hf, (Hout1 (or_introl eq_refl)), (Hout3 (or_introl E3)).
          split; [reflexivity|].
          apply in_or_app. right. apply in_or_app. left. exact Hr.
        + simpl in Hs.
          destruct (Hin3 Hs Hne) as [n [Hf Hr]].
          exists n. eexists. split; [reflexivity|].
          rewrite Hf, (Hout1 (or_introl eq_refl)),
            (Hout2 (or_introl eq_refl)).
          split; [reflexivity|].
          apply in_or_app. right. apply in_or_app. right. exact Hr. }
    destruct Hone as [n [g [Hg [Hf Hr]]]].
    destruct (MIN_MAX_nonempty timestamp group Hne) as [Hmin Hmax].
    destruct (Sql.MIN (map timestamp group)) as [mn|] eqn:Emin; [|congruence].
    destruct (Sql.MAX (map timestamp group)) as [mx|] eqn:Emax; [|congruence].
    exists (geo_out n g), (geo_row env n g), mn, mx.
    split; [exact Hf|]. subst g. simpl.
    repeat split; auto.
    + apply (MIN_least _ _ Emin).
    + apply (MIN_least _ _ Emin).
    + apply (MAX_greatest _ _ Emax).
    + apply (MAX_greatest _ _ Emax).
  - intros Hno.
    assert (Hall : forall range,
              In range Rules.suspiciousRanges ->
              Sql.like_prefix (Some ip) range = false \/ group = []).
    { intros range Hin. destruct Hno as [Hs | Hnil]; [|right; exact Hnil].
      left. unfold suspicious in Hs.
      destruct (Sql.like_prefix (Some ip) range) eqn:E; auto.
      assert (Hex : existsb (fun range => Sql.like_prefix (Some ip) range)
                            Rules.suspiciousRanges = true)
        by (apply existsb_exists; eauto).
      congruence. }
    rewrite Hout1, Hout2, Hout3; [reflexivity| | |]; apply Hall; simpl; auto.
Qed.

(** Two logins from 192.168.1.100 and one from 8.8.8.8 in the last
    hour: one alert, for the private address, counting two events. *)
Lemma detectGeoAnomalies_per_address_witness :
  exists outs w' o,
    Rules.detectGeoAnomalies Sample.offline
      (Sample.with_logs
         [Sample.log 1 "2025-10-15T11:10:00Z" "alice" "192.168.1.100" "success";
          Sample.log 2 "2025-10-15T11:20:00Z" "bob" "8.8.8.8" "success";
          Sample.log 3 "2025-10-15T11:30:00Z" "alice" "192.168.1.100" "failed"])
    = Ok outs w'
    /\ outs = [o]
    /\ filter (geo_keyed "192.168.1.100") outs = [o]
    /\ Rules.access_count o = 2
    /\ filter (geo_keyed "8.8.8.8") outs = [].
Proof.
  destruct (detectGeoAnomalies_per_address Sample.offline
      (Sample.with_logs
         [Sample.log 1 "2025-10-15T11:10:00Z" "alice" "192.168.1.100" "success";
          Sample.log 2 "2025-10-15T11:20:00Z" "bob" "8.8.8.8" "success";
          Sample.log 3 "2025-10-15T11:30:00Z" "alice" "192.168.1.100" "failed"])
      "192.168.1.100")
    as [outs [new [w' [Hrun [_ [_ [Hone _]]]]]]].
  destruct Hone as [o [a [mn [mx [Hf [Hcount _]]]]]].
  - reflexivity.
  - vm_compute. discriminate.
  - exists outs, w', o. split; [exact Hrun|].
    vm_compute in Hrun. injection Hrun as <- _.
    vm_compute in Hf. injection Hf as <-.
    repeat split; reflexivity.
Defined.

(** ** The high-risk rule, whatever the provider answers *)

Lemma insert_by_index_perm {A : Type} (n : Z) (kv : string * A)
    (l : list (Z * (string * A))) :
  Permutation (Js.insert_by_index n kv l) ((n, kv) :: l).
Proof.
  induction l as [|[m kv'] t IH]; simpl; [apply Permutation_refl|].
  destruct (n <=? m); [apply Permutation_refl|].
  eapply Permutation_trans; [apply perm_skip, IH | apply perm_swap].
Qed.

Lemma index_keys_perm {A : Type} (o : Js.object A) :
  Permutation (map snd (Js.index_keys o)) (filter Js.is_index_key o).
Proof.
  induction o as [|kv t IH]; simpl; [constructor|].
  unfold Js.is_index_key at 1.
  destruct (Js.array_index (fst kv)) as [n|]; [|exact IH].
  eapply Permutation_trans.
  - apply Permutation_map, insert_by_index_perm.
  - simpl. apply perm_skip, IH.
Qed.

Lemma filter_split_perm {A : Type} (p : A -> bool) (l : list A) :
  Permutation (filter p l ++ filter (fun x => negb (p x)) l) l.
Proof.
  induction l as [|x t IH]; simpl; [constructor|].
  destruct (p x); simpl.
  - apply perm_skip, IH.
  - apply Permutation_sym, Permutation_cons_app, Permutation_sym, IH.
Qed.

(** [Object.entries] lists every property once. *)
Lemma entries_perm {A : Type} (o : Js.object A) :
  Permutation (Js.entries o) o.
Proof.
  unfold Js.entries.
  eapply Permutation_trans; [|apply (filter_split_perm Js.is_index_key)].
  apply Permutation_app_tail, index_keys_perm.
Qed.

Lemma filter_keeps_distinct {Row Key : Type} (key : Row -> Key)
    (keep : Row -> bool) (rows : list Row)
    (Hdistinct : NoDup (map key rows)) :
  NoDup (map key (filter keep rows)).
Proof.
  induction rows as [|x t IH]; simpl in *; [constructor|].
  inversion Hdistinct as [|? ? Hx Ht]; subst.
  destruct (keep x); simpl; auto. constructor; auto.
  intros Hin. apply Hx. apply in_map_iff in Hin as [y [Hy Hin]].
  apply filter_In in Hin as [Hin _]. apply in_map_iff. eauto.
Qed.

Lemma map_fst_combine {A B : Type} (R : A -> B -> Prop) (l : list A)
    (l' : list B) :
  Forall2 R l l' -> map fst (combine l l') = l.
Proof. intros H. induction H; simpl; congruence. Qed.

Lemma collected_fst (l : list (string * Reputation)) :
  map fst (collected l)
  = map fst (filter (fun p => negb (String.eqb (fst p) "__proto__")) l).
Proof. unfold collected. rewrite map_map. reflexivity. Qed.

Lemma numbered_Forall2 {A B C : Type} (keep : A -> bool) (f : Z -> A -> B)
    (g : Z -> A -> C) (R : B -> C -> Prop) (l : list A) :
  (forall n x, In x l -> keep x = true -> R (f n x) (g n x)) ->
  forall seq, Forall2 R (numbered keep f seq l) (numbered keep g seq l).
Proof.
  induction l as [|x t IH]; intros H seq; simpl; [constructor|].
  destruct (keep x) eqn:Hk.
  - constructor; [apply H; auto; left; reflexivity|].
    apply IH. intros n y Hy. apply H. right. exact Hy.
  - apply IH. intros n y Hy. apply H. right. exact Hy.
Qed.

Lemma numbered_Forall {A B : Type} (keep : A -> bool) (f : Z -> A -> B)
    (P : B -> Prop) (seq : Z) (l : list A) :
  (forall n x, P (f n x)) -> Forall P (numbered keep f seq l).
Proof.
  intros H. revert seq. induction l as [|x t IH]; intros seq; simpl; auto.
  destruct (keep x); auto.
Qed.

Lemma numbered_from_numbered {A : Type} (keep : A -> bool)
    (row : Z -> A -> AlertRow) (l : list A) :
  (forall n x, alert_id (row n x) = n) ->
  forall seq, numbered_from seq (numbered keep row seq l).
Proof.
  intros Hid. unfold numbered_from.
  induction l as [|x t IH]; intros seq; simpl; [reflexivity|].
  destruct (keep x); [|apply IH].
  cbn [map List.length List.seq]. rewrite Hid, IH.
  rewrite <- (seq_shift _ 1), map_map.
  change (Z.of_nat 1) with 1. apply f_equal.
  apply map_ext. intros i. lia.
Qed.

Lemma map_seq_add (g : nat -> Z) (a n : nat) :
  forall s,
    map g (List.seq (s + a) n)
    = map (fun i => g (i + a)%nat) (List.seq s n).
Proof.
  induction n as [|n IH]; intros s; simpl; [reflexivity|].
  rewrite <- (IH (S s)). reflexivity.
Qed.

Lemma numbered_from_app (seq : Z) (a b : list AlertRow) :
  numbered_from seq a ->
  numbered_from (seq + Z.of_nat (List.length a)) b ->
  numbered_from seq (a ++ b).
Proof.
  unfold numbered_from. intros Ha Hb.
  rewrite map_app, length_app, seq_app, map_app, Ha, Hb. apply f_equal.
  rewrite (map_seq_add _ (List.length a) (List.length b) 1).
  apply map_ext. intros i. lia.
Qed.

Lemma getRiskLevel_high_risk (score : Js.number) :
  Js.ge score (Js.Num 50) = true ->
  Abuseipdb.getRiskLevel score
  = if Js.ge score (Js.Num 75) then "critical" else "high".
Proof.
  intros H. unfold Abuseipdb.getRiskLevel. rewrite H. reflexivity.
Qed.

Lemma before_first_none {A : Type} (p : A -> bool) (l : list A) :
  before_first p l = None <-> forall x, In x l -> p x = false.
Proof.
  induction l as [|x t IH]; simpl.
  - split; [intros _ x [] | reflexivity].
  - destruct (p x) eqn:E.
    + split; [discriminate|]. intros H.
      rewrite (H x (or_introl eq_refl)) in E. discriminate.
    + destruct (before_first p t) as [pre|].
      * split; [discriminate|]. intros H.
        assert (Hpre : Some pre = None)
          by (apply (proj2 IH); intros y Hy; apply H; right; exact Hy).
        discriminate.
      * split; [|reflexivity]. intros _ y [<- | Hy]; [exact E|].
        apply (proj1 IH eq_refl y Hy).
Qed.

Lemma before_first_some {A : Type} (p : A -> bool) (l pre : list A) :
  before_first p l = Some pre ->
  exists x post, l = (pre ++ x :: post)%list /\ p x = true.
Proof.
  revert pre. induction l as [|x t IH]; intros pre; simpl; [discriminate|].
  destruct (p x) eqn:E.
  - intros H. injection H as <-. exists x, t. auto.
  - destruct (before_first p t) as [pre'|]; [|discriminate].
    intros H. injection H as <-.
    destruct (IH pre' eq_refl) as [y [post [-> Hy]]]. exists y, post. auto.
Qed.

Section HighRisk.
Variable env : Env.

(** The objects of the high-risk rule and the rows inserted for them
    agree, pair by pair. *)
Lemma high_risk_stored_numbered (table : list LogRow)
    (entries : list (string * option Reputation)) (seq : Z) :
  (forall entry, In entry entries -> unbounded env table entry = false) ->
  Forall2 high_risk_stored
    (numbered high_risk_entry (high_risk_out env table) seq entries)
    (numbered high_risk_entry (high_risk_row env table) seq entries).
Proof.
  intros Hact. apply numbered_Forall2.
  intros n [k [r|]] Hin Hkeep; [|discriminate].
  apply Hact in Hin. unfold unbounded in Hin. rewrite Hkeep in Hin.
  cbn [andb fst] in Hin. apply lapsed_spec in Hin.
  destruct (MIN_MAX_nonempty timestamp _ Hin) as [Hmin Hmax].
  unfold high_risk_stored, high_risk_out, high_risk_row. cbn [fst snd].
  unfold high_risk_entry, high_risk in Hkeep. cbn [snd] in Hkeep.
  apply andb_true_iff in Hkeep as [_ Hge].
  cbn [alert_id alert_type severity affected_entity alert_source_ip
       event_count first_seen last_seen alert_status Rules.hr_id
       Rules.risk_level Rules.hr_ip Rules.hr_count Rules.hr_first_seen
       Rules.hr_last_seen].
  rewrite (getRiskLevel_high_risk _ Hge).
  destruct (Sql.MIN (map timestamp (Rules.activityQuery env table k)));
    [|congruence].
  destruct (Sql.MAX (map timestamp (Rules.activityQuery env table k)));
    [|congruence].
  repeat split.
Qed.

(** The high-risk rule.  The addresses of the last 24 hours are
    resolved one by one, each by its fresh cached record or else by what
    [fetchFromAbuseIPDB] returns, and an alert is inserted for each
    entry of the result that passes the test, until one of them has no
    event left to count: there the INSERT throws. *)
Lemma detectHighRiskIPs_spec (w : World) :
  let U := Js.uniq (Js.filter_truthy
                      (map Js.Str (Rules.recentIPs env (logs w)))) in
  exists reps w1,
    Forall2 (resolved_by env (ip_reputation w)) U reps
    /\ logs w1 = logs w /\ logs_seq w1 = logs_seq w
    /\ alerts w1 = alerts w /\ alerts_seq w1 = alerts_seq w
    /\ (Rules.recentIPs env (logs w) = [] -> w1 = w)
    /\ (forall I : list Reputation -> Prop,
          (forall reputation ip table,
              I table -> I (upsert env reputation ip table)) ->
          I (ip_reputation w) -> I (ip_reputation w1))
    /\ Rules.detectHighRiskIPs env w
       = match before_first (unbounded env (logs w))
                 (Js.entries (collected (combine U reps))) with
         | None =>
             Ok (numbered high_risk_entry (high_risk_out env (logs w))
                          (alerts_seq w)
                          (Js.entries (collected (combine U reps))))
                (add_alerts w1
                   (numbered high_risk_entry (high_risk_row env (logs w))
                             (alerts_seq w)
                             (Js.entries (collected (combine U reps)))))
         | Some pre =>
             Throw first_seen_null
                   (add_alerts w1
                      (numbered high_risk_entry (high_risk_row env (logs w))
                                (alerts_seq w) pre))
         end.
Proof.
  intros U. unfold Rules.detectHighRiskIPs. rewrite bind_run.
  unfold get_world at 1. cbv beta iota zeta.
  set (ips := Rules.recentIPs env (logs w)) in *.
  destruct (Nat.eqb (List.length ips) 0) eqn:Hlen.
  - apply Nat.eqb_eq in Hlen. destruct ips; [|discriminate].
    exists [], w. simpl. rewrite add_alerts_nil.
    repeat split; auto.
  - destruct (enrichIPsBatch_spec env (map Js.Str ips) w)
      as [reps [w1 [Hrun [Hall [_ [Hlogs [Hls [Hal Has]]]]]]]].
    fold U in Hrun, Hall.
    exists reps, w1. split; [exact Hall|].
    split; [exact Hlogs|]. split; [exact Hls|]. split; [exact Hal|].
    split; [exact Has|]. split.
    { intros Hnil. rewrite Hnil in Hlen. discriminate. }
    split.
    { intros I HI Hw.
      destruct (enrich_loop_invariant env I U HI [] w Hw)
        as [res [wb [Hb HIb]]].
      pose proof (eq_trans (eq_sym Hb) Hrun) as Heq.
      injection Heq as _ ->. exact HIb. }
    rewrite bind_run, Hrun. rewrite <- Has.
    apply (alert_loop_until (logs w) (Rules.highRiskAlert env) high_risk_entry
             (fun entry => lapsed env (logs w) (fst entry))
             (high_risk_out env (logs w)) (high_risk_row env (logs w))
             first_seen_null).
    + intros acc entry w0 _ Hw0. apply highRiskAlert_run. exact Hw0.
    + exact Hlogs.
Qed.

(** The addresses of the entries are addresses of the last 24 hours. *)
Lemma high_risk_entries_recent (w : World) (reps : list Reputation)
    (k : string) (v : option Reputation) :
  In (k, v)
     (Js.entries
        (collected
           (combine (Js.uniq (Js.filter_truthy
                                (map Js.Str (Rules.recentIPs env (logs w)))))
                    reps))) ->
  In k (Rules.recentIPs env (logs w)).
Proof.
  intros Hin.
  apply entries_In, collected_In in Hin as [r [_ [Hin _]]].
  apply in_combine_l, uniq_In, filter_truthy_In in Hin as [Hin _].
  apply in_map_Str in Hin. exact Hin.
Qed.

(** A settled run of the high-risk rule meets no entry without
    events. *)
Lemma settled_none_unbounded (w : World) (reps : list Reputation) :
  settled env (logs w) = true ->
  before_first (unbounded env (logs w))
    (Js.entries
       (collected
          (combine (Js.uniq (Js.filter_truthy
                               (map Js.Str (Rules.recentIPs env (logs w)))))
                   reps))) = None.
Proof.
  intros Hs. apply before_first_none. intros [k v] Hin.
  apply high_risk_entries_recent in Hin.
  unfold unbounded. cbn [fst].
  rewrite (proj2 (lapsed_spec env (logs w) k) (settled_In env _ _ Hs Hin)).
  apply andb_false_r.
Qed.

End HighRisk.



(** ** The run when the provider is down *)

Section RunWithoutProvider.
Variable env : Env.
Hypothesis Hdown : provider_fails env.

(** With the provider down a settled run of the high-risk rule returns:
    its alerts are those of the recent addresses whose cached or
    generated reputation passes the test, one for each. *)
Lemma detectHighRiskIPs_fallback (w : World) :
  settled env (logs w) = true ->
  exists outs w',
    Rules.detectHighRiskIPs env w = Ok outs w'
    /\ logs w' = logs w
    /\ (forall ip,
          In ip (map Rules.hr_ip outs) <->
          In ip (Rules.recentIPs env (logs w))
          /\ ip <> EmptyString /\ ip <> "__proto__"
          /\ high_risk (fallback_reputation env (ip_reputation w) ip)
             = true)
    /\ NoDup (map Rules.hr_ip outs).
Proof.
  intros Hsettled.
  destruct (detectHighRiskIPs_spec env w)
    as [reps [w1 [Hall [Hlogs [_ [_ [_ [_ [_ Hrun]]]]]]]]].
  rewrite (settled_none_unbounded env w reps Hsettled) in Hrun.
  set (ips := Rules.recentIPs env (logs w)) in *.
  set (U := Js.uniq (Js.filter_truthy (map Js.Str ips))) in *.
  set (entries := Js.entries (collected (combine U reps))) in *.
  assert (HU : forall ip, In ip U <-> In ip ips /\ ip <> EmptyString).
  { intros ip. unfold U. rewrite uniq_In, filter_truthy_In, in_map_Str.
    tauto. }
  destruct (Forall2_combine_In _ _ _ Hall) as [Hres Hex].
  assert (Hentry : forall k v,
            In (k, v) entries <->
            In k U /\ k <> "__proto__"
            /\ v = Some (fallback_reputation env (ip_reputation w) k)).
  { intros k v. unfold entries. rewrite entries_In, collected_In. split.
    - intros [r [-> [Hin Hk]]].
      pose proof (Hres _ _ Hin) as Hr.
      apply (resolved_by_fallback env _ _ _ Hdown) in Hr. subst r.
      apply in_combine_l in Hin. auto.
    - intros [Hin [Hk ->]]. destruct (Hex k Hin) as [r Hr].
      pose proof (Hres _ _ Hr) as Hf.
      apply (resolved_by_fallback env _ _ _ Hdown) in Hf. subst r.
      eauto. }
  eexists. eexists. split; [exact Hrun|]. split; [exact Hlogs|].
  rewrite (numbered_map _ _ _ fst) by (intros; apply high_risk_out_ip).
  split.
  - intros ip. rewrite in_map_iff. split.
    + intros [[k v] [Hk Hin]]. simpl in Hk. subst k.
      apply filter_In in Hin as [Hin Hkeep].
      apply Hentry in Hin as [HinU [Hproto ->]].
      apply HU in HinU as [Hips Hne].
      unfold high_risk_entry in Hkeep. simpl in Hkeep. auto.
    + intros [Hips [Hne [Hproto Hrisk]]].
      exists (ip, Some (fallback_reputation env (ip_reputation w) ip)).
      split; [reflexivity|]. apply filter_In. split.
      * apply Hentry. split; [apply HU; auto | auto].
      * unfold high_risk_entry. simpl. exact Hrisk.
  - apply filter_keeps_distinct.
    apply (Permutation_NoDup (l := map fst (collected (combine U reps)))).
    + apply Permutation_map, Permutation_sym, entries_perm.
    + rewrite collected_fst. apply filter_keeps_distinct.
      rewrite (map_fst_combine _ _ _ Hall). apply uniq_NoDup.
Qed.

End RunWithoutProvider.




(** A run that is not settled.  The one recent login is a second
    inside the window when the run starts and outside it when the
    lookups are done; the generated record of its address passes the
    test, the statement that counts its events finds none, and the
    INSERT of the alert throws: the run rejects. *)
Lemma runAllDetections_rejects_unsettled :
  let w := Sample.with_logs
             [Sample.log 1 "2025-10-14T12:00:01Z" "eve" "203.0.113.250"
                         "failed"] in
  Rules.recentIPs Sample.provider_down_slow (logs w) = ["203.0.113.250"]
  /\ settled Sample.provider_down_slow (logs w) = false
  /\ exists w',
       Rules.runAllDetections Sample.provider_down_slow w
       = Throw first_seen_null w'
       /\ alerts w' = [].
Proof.
  split; [reflexivity|]. split; [reflexivity|].
  eexists. split; [lazy; reflexivity | reflexivity].
Qed.

(** ** The whole run, whatever the provider answers *)

Lemma numbered_map_map {A B C D : Type} (keep : A -> bool) (f : Z -> A -> B)
    (g : Z -> A -> C) (h : B -> D) (k : C -> D) (seq : Z) (l : list A) :
  (forall n x, h (f n x) = k (g n x)) ->
  map h (numbered keep f seq l) = map k (numbered keep g seq l).
Proof.
  intros H. revert seq. induction l as [|x t IH]; intros seq; simpl; auto.
  destruct (keep x); simpl; auto. rewrite H, IH. reflexivity.
Qed.

Lemma Forall2_map_eq {A B C : Type} (R : A -> B -> Prop) (f : B -> C)
    (g : A -> C) (l : list A) (l' : list B) :
  (forall a b, R a b -> f b = g a) -> Forall2 R l l' -> map f l' = map g l.
Proof.
  intros H HF. induction HF as [|a b l l' Hab _ IH]; simpl; [reflexivity|].
  rewrite (H a b Hab), IH. reflexivity.
Qed.

Lemma stored_as_numbered {A O : Type} (id : O -> Z) (sev : O -> string)
    (keep : A -> bool) (out : Z -> A -> O) (row : Z -> A -> AlertRow)
    (seq : Z) (l : list A) :
  (forall n x, alert_id (row n x) = n) ->
  (forall n x, id (out n x) = n) ->
  (forall n x, severity (row n x) = sev (out n x)) ->
  (forall n x, alert_status (row n x) = "open") ->
  stored_as id sev seq (numbered keep out seq l) (numbered keep row seq l).
Proof.
  intros Hrow Hout Hsev Hopen. split; [|split; [|split]].
  - apply numbered_from_numbered. exact Hrow.
  - apply numbered_map_map. intros n x. rewrite Hrow, Hout. reflexivity.
  - apply numbered_map_map. exact Hsev.
  - apply numbered_Forall. exact Hopen.
Qed.

Lemma stored_as_app {O : Type} (id : O -> Z) (sev : O -> string) (seq : Z)
    (o1 o2 : list O) (n1 n2 : list AlertRow) :
  stored_as id sev seq o1 n1 ->
  stored_as id sev (seq + Z.of_nat (List.length n1)) o2 n2 ->
  stored_as id sev seq (o1 ++ o2) (n1 ++ n2).
Proof.
  intros [Ha [Hb [Hc Hd]]] [Ha' [Hb' [Hc' Hd']]].
  split; [|split; [|split]].
  - apply numbered_from_app; assumption.
  - rewrite !map_app. congruence.
  - rewrite !map_app. congruence.
  - apply Forall_app. auto.
Qed.

Section Summaries.
Variable env : Env.

Lemma detectBruteForce_stored (w : World) :
  exists outs new,
    Rules.detectBruteForce env w = Ok outs (add_alerts w new)
    /\ stored_as Rules.bf_id (fun _ => "high") (alerts_seq w) outs new.
Proof.
  pose proof (detectBruteForce_spec env w) as Hrun. cbv zeta in Hrun.
  eexists. eexists. split; [exact Hrun|].
  apply stored_as_app.
  - apply stored_as_numbered; reflexivity.
  - rewrite numbered_all_length. apply stored_as_numbered; reflexivity.
Qed.

Lemma detectOffHoursAccess_stored (w : World) :
  exists outs new,
    Rules.detectOffHoursAccess env w = Ok outs (add_alerts w new)
    /\ stored_as Rules.oh_id (fun _ => "medium") (alerts_seq w) outs new.
Proof.
  pose proof (detectOffHoursAccess_spec env w) as Hrun. cbv zeta in Hrun.
  eexists. eexists. split; [exact Hrun|].
  apply stored_as_numbered; reflexivity.
Qed.

Lemma detectGeoAnomalies_stored (w : World) :
  exists outs new,
    Rules.detectGeoAnomalies env w = Ok outs (add_alerts w new)
    /\ stored_as Rules.geo_id (fun _ => "medium") (alerts_seq w) outs new.
Proof.
  pose proof (detectGeoAnomalies_full env w) as Hrun. cbv zeta in Hrun.
  eexists. eexists. split; [exact Hrun|].
  apply stored_as_app; [apply stored_as_numbered; reflexivity|].
  rewrite numbered_all_length.
  apply stored_as_app; [apply stored_as_numbered; reflexivity|].
  rewrite numbered_all_length. apply stored_as_numbered; reflexivity.
Qed.

Lemma detectHighRiskIPs_stored (w : World) :
  exists new w1,
    final (Rules.detectHighRiskIPs env w) = add_alerts w1 new
    /\ logs w1 = logs w /\ logs_seq w1 = logs_seq w
    /\ alerts w1 = alerts w /\ alerts_seq w1 = alerts_seq w
    /\ (forall I : list Reputation -> Prop,
          (forall reputation ip table,
              I table -> I (upsert env reputation ip table)) ->
          I (ip_reputation w) -> I (ip_reputation w1))
    /\ numbered_from (alerts_seq w) new
    /\ Forall (fun a => alert_status a = "open") new
    /\ ((exists outs,
           Rules.detectHighRiskIPs env w = Ok outs (add_alerts w1 new)
           /\ stored_as Rules.hr_id Rules.risk_level (alerts_seq w) outs new)
        \/ (Rules.detectHighRiskIPs env w
            = Throw first_seen_null (add_alerts w1 new)
            /\ settled env (logs w) = false)).
Proof.
  destruct (detectHighRiskIPs_spec env w)
    as [reps [w1 [_ [Hl [Hls [Ha [Has [_ [Hinv Hrun]]]]]]]]].
  pose proof (settled_none_unbounded env w reps) as Hsettled.
  destruct (before_first _ _) as [pre|] eqn:E.
  - exists (numbered high_risk_entry (high_risk_row env (logs w))
              (alerts_seq w) pre), w1.
    rewrite Hrun. split; [reflexivity|].
    split; [exact Hl|]. split; [exact Hls|]. split; [exact Ha|].
    split; [exact Has|]. split; [exact Hinv|]. split.
    { apply numbered_from_numbered. intros n [k [r|]]; reflexivity. }
    split.
    { apply numbered_Forall. intros n [k [r|]]; reflexivity. }
    right. split; [reflexivity|].
    destruct (settled env (logs w)); [discriminate (Hsettled eq_refl)|].
    reflexivity.
  - pose proof (proj1 (before_first_none _ _) E) as Hnone.
    eexists. exists w1. rewrite Hrun. split; [reflexivity|].
    split; [exact Hl|]. split; [exact Hls|]. split; [exact Ha|].
    split; [exact Has|]. split; [exact Hinv|]. split.
    { apply numbered_from_numbered. intros n [k [r|]]; reflexivity. }
    split.
    { apply numbered_Forall. intros n [k [r|]]; reflexivity. }
    left. eexists. split; [reflexivity|].
    pose proof (high_risk_stored_numbered env (logs w) _ (alerts_seq w)
                  Hnone) as Hpairs.
    split; [|split; [|split]].
    + apply numbered_from_numbered. intros n [k [r|]]; reflexivity.
    + apply (Forall2_map_eq _ _ _ _ _ (fun o a H => proj1 H) Hpairs).
    + apply (Forall2_map_eq _ _ _ _ _
               (fun o a H => proj1 (proj2 (proj2 H))) Hpairs).
    + apply numbered_Forall. intros n [k [r|]]; reflexivity.
Qed.

End Summaries.

Lemma stored_as_length {O : Type} (id : O -> Z) (sev : O -> string)
    (seq : Z) (outs : list O) (new : list AlertRow) :
  stored_as id sev seq outs new -> List.length new = List.length outs.
Proof.
  intros [_ [H _]]. apply (f_equal (@List.length Z)) in H.
  rewrite !length_map in H. exact H.
Qed.

Lemma length_filter_map {A B : Type} (q : B -> bool) (f : A -> B)
    (l : list A) :
  List.length (filter q (map f l))
  = List.length (filter (fun x => q (f x)) l).
Proof.
  induction l as [|x t IH]; simpl; [reflexivity|].
  destruct (q (f x)); simpl; rewrite IH; reflexivity.
Qed.

Lemma length_filter_const {A : Type} (q : string -> bool) (c : string)
    (l : list A) :
  List.length (filter q (map (fun _ => c) l))
  = if q c then List.length l else 0%nat.
Proof.
  induction l as [|x t IH]; simpl; [destruct (q c); reflexivity|].
  destruct (q c); simpl; rewrite IH; reflexivity.
Qed.

(** Among open rows, counting by severity is counting in the list of
    the severities. *)
Lemma count_open_severity (c : string) (old new : list AlertRow) :
  Forall (fun a => alert_status a = "open") new ->
  List.length (filter (fun a => String.eqb (severity a) c
                                && String.eqb (alert_status a) "open")
                      (old ++ new))
  = (List.length (filter (fun a => String.eqb (severity a) c
                                   && String.eqb (alert_status a) "open")
                         old)
     + List.length (filter (fun s => String.eqb s c) (map severity new)))%nat.
Proof.
  intros Hopen. rewrite filter_app, length_app. f_equal.
  rewrite length_filter_map. f_equal. apply filter_ext_in.
  intros a Ha. rewrite Forall_forall in Hopen. rewrite (Hopen a Ha).
  apply andb_true_r.
Qed.

Lemma count_open (old new : list AlertRow) :
  Forall (fun a => alert_status a = "open") new ->
  List.length (filter (fun a => String.eqb (alert_status a) "open")
                      (old ++ new))
  = (List.length (filter (fun a => String.eqb (alert_status a) "open") old)
     + List.length new)%nat.
Proof.
  intros Hopen. rewrite filter_app, length_app. f_equal. f_equal.
  rewrite <- (filter_all new) at 2. apply filter_ext_in.
  intros a Ha. rewrite Forall_forall in Hopen. rewrite (Hopen a Ha).
  reflexivity.
Qed.

(** What a run appends to the alerts, whether it returns or throws. *)
Lemma runAllDetections_rows (env : Env) (w : World) :
  exists new w',
    final (Rules.runAllDetections env w) = w'
    /\ logs w' = logs w /\ logs_seq w' = logs_seq w
    /\ alerts w' = (alerts w ++ new)%list
    /\ alerts_seq w' = alerts_seq w + Z.of_nat (List.length new)
    /\ numbered_from (alerts_seq w) new
    /\ Forall (fun a => alert_status a = "open") new
    /\ exists b o g w1 w2 w3 rest,
         Rules.detectBruteForce env w = Ok b w1
         /\ Rules.detectOffHoursAccess env w1 = Ok o w2
         /\ Rules.detectGeoAnomalies env w2 = Ok g w3
         /\ alerts w' = (alerts w3 ++ rest)%list
         /\ ((exists d,
                Rules.runAllDetections env w = Ok d w'
                /\ Rules.brute_force d = b /\ Rules.off_hours d = o
                /\ Rules.geo_anomaly d = g
                /\ Rules.total d = Z.of_nat (List.length new)
                /\ map alert_id new
                   = (map Rules.bf_id (Rules.brute_force d)
                      ++ map Rules.oh_id (Rules.off_hours d)
                      ++ map Rules.geo_id (Rules.geo_anomaly d)
                      ++ map Rules.hr_id (Rules.high_risk_ip d))%list
                /\ map severity new
                   = (map (fun _ => "high") (Rules.brute_force d)
                      ++ map (fun _ => "medium") (Rules.off_hours d)
                      ++ map (fun _ => "medium") (Rules.geo_anomaly d)
                      ++ map Rules.risk_level (Rules.high_risk_ip d))%list
                /\ List.length new
                   = (List.length (Rules.brute_force d)
                      + List.length (Rules.off_hours d)
                      + List.length (Rules.geo_anomaly d)
                      + List.length (Rules.high_risk_ip d))%nat)
             \/ (Rules.runAllDetections env w = Throw first_seen_null w'
                 /\ settled env (logs w) = false)).
Proof.
  destruct (detectBruteForce_stored env w) as [o1 [r1 [H1 S1]]].
  destruct (detectOffHoursAccess_stored env (add_alerts w r1))
    as [o2 [r2 [H2 S2]]].
  destruct (detectGeoAnomalies_stored env (add_alerts (add_alerts w r1) r2))
    as [o3 [r3 [H3 S3]]].
  set (w3 := add_alerts (add_alerts (add_alerts w r1) r2) r3) in *.
  destruct (detectHighRiskIPs_stored env w3)
    as [r4 [w3' [Hfinal [Hl [Hls [Ha [Has [_ [N4 [O4 Hcases]]]]]]]]]].
  pose proof (stored_as_length _ _ _ _ _ S1) as L1.
  pose proof (stored_as_length _ _ _ _ _ S2) as L2.
  pose proof (stored_as_length _ _ _ _ _ S3) as L3.
  destruct S1 as [N1 [I1 [V1 O1]]]. destruct S2 as [N2 [I2 [V2 O2]]].
  destruct S3 as [N3 [I3 [V3 O3]]].
  assert (Hseq1 : alerts_seq (add_alerts w r1)
                  = alerts_seq w + Z.of_nat (List.length r1)) by reflexivity.
  assert (Hseq2 : alerts_seq (add_alerts (add_alerts w r1) r2)
                  = alerts_seq w + Z.of_nat (List.length r1)
                    + Z.of_nat (List.length r2)) by reflexivity.
  assert (Hseq3 : alerts_seq w3
                  = alerts_seq w + Z.of_nat (List.length r1)
                    + Z.of_nat (List.length r2) + Z.of_nat (List.length r3))
    by reflexivity.
  assert (Hal3 : alerts w3 = (((alerts w ++ r1) ++ r2) ++ r3)%list)
    by reflexivity.
  rewrite Hseq1 in N2. rewrite Hseq2 in N3. rewrite Hseq3 in N4.
  set (new := (r1 ++ r2 ++ r3 ++ r4)%list).
  assert (Hopen : Forall (fun a => alert_status a = "open") new).
  { unfold new. repeat (apply Forall_app; split); assumption. }
  assert (Halerts : alerts (add_alerts w3' r4) = (alerts w ++ new)%list).
  { unfold new. cbn [add_alerts alerts]. rewrite Ha, Hal3.
    rewrite <- !app_assoc. reflexivity. }
  assert (Hrun : Rules.runAllDetections env w
                 = match Rules.detectHighRiskIPs env w3 with
                   | Ok o4 w4 =>
                       Ok (Rules.mkDetections o1 o2 o3 o4
                             (Z.of_nat (List.length o1)
                              + Z.of_nat (List.length o2)
                              + Z.of_nat (List.length o3)
                              + Z.of_nat (List.length o4))) w4
                   | Throw e w4 => Throw e w4
                   end).
  { unfold Rules.runAllDetections.
    rewrite bind_run, H1. cbv beta iota.
    rewrite bind_run, H2. cbv beta iota.
    rewrite bind_run, H3. cbv beta iota. fold w3.
    rewrite bind_run. destruct (Rules.detectHighRiskIPs env w3); reflexivity. }
  exists new, (add_alerts w3' r4).
  split.
  { rewrite Hrun, <- Hfinal.
    destruct (Rules.detectHighRiskIPs env w3); reflexivity. }
  split; [cbn [add_alerts logs]; exact Hl|].
  split; [cbn [add_alerts logs_seq]; exact Hls|].
  split; [exact Halerts|]. split.
  { cbn [add_alerts alerts_seq]. rewrite Has, Hseq3. unfold new.
    rewrite !length_app. lia. }
  split.
  { unfold new. apply numbered_from_app; [exact N1|].
    apply numbered_from_app; [exact N2|].
    apply numbered_from_app; [exact N3|].
    exact N4. }
  split; [exact Hopen|].
  exists o1, o2, o3, (add_alerts w r1), (add_alerts (add_alerts w r1) r2),
    w3, r4.
  split; [exact H1|]. split; [exact H2|]. split; [exact H3|].
  split; [cbn [add_alerts alerts]; rewrite Ha; reflexivity|].
  destruct Hcases as [[o4 [H4 S4]] | [H4 Hunsettled]].
  - left. pose proof (stored_as_length _ _ _ _ _ S4) as L4.
    destruct S4 as [_ [I4 [V4 _]]].
    assert (Hlen : List.length new
                   = (List.length o1 + List.length o2 + List.length o3
                      + List.length o4)%nat).
    { unfold new. rewrite !length_app. lia. }
    eexists. rewrite Hrun, H4. split; [reflexivity|].
    cbn [Rules.brute_force Rules.off_hours Rules.geo_anomaly
         Rules.high_risk_ip Rules.total].
    split; [reflexivity|]. split; [reflexivity|]. split; [reflexivity|].
    split; [rewrite Hlen; lia|]. split.
    { unfold new. rewrite !map_app. congruence. }
    split; [|exact Hlen].
    unfold new. rewrite !map_app. congruence.
  - right. rewrite Hrun, H4. split; [reflexivity | exact Hunsettled].
Qed.

(** The whole run, for every behaviour of the provider.  It returns, or
    it throws the error of the INSERT of the high-risk rule
    (alerts.first_seen is NOT NULL), which happens only in a run that is
    not settled; a settled run returns.  Either way the first three
    rules have run, the logs are untouched, and the rows appended to the
    alerts carry the next numbers of the table and are open: the total
    and the open count of GET /stats grow by their number.  When the run
    returns, the rows are those of the objects returned, in the order
    brute-force, off-hours, geo, high-risk, and [total] is their number;
    brute-force rows are "high", off-hours and geo rows "medium", and
    high-risk rows have their risk level as severity, so that the
    counts of GET /stats grow by exactly what the run reports. *)
Theorem runAllDetections_total (env : Env) (w : World) :
  exists new w',
    final (Rules.runAllDetections env w) = w'
    /\ logs w' = logs w /\ logs_seq w' = logs_seq w
    /\ alerts w' = (alerts w ++ new)%list
    /\ alerts_seq w' = alerts_seq w + Z.of_nat (List.length new)
    /\ numbered_from (alerts_seq w) new
    /\ Forall (fun a => alert_status a = "open") new
    /\ Handlers.total_alerts w'
       = Handlers.total_alerts w + Z.of_nat (List.length new)
    /\ Handlers.open_alerts w'
       = Handlers.open_alerts w + Z.of_nat (List.length new)
    /\ (exists b o g w1 w2 w3 rest,
          Rules.detectBruteForce env w = Ok b w1
          /\ Rules.detectOffHoursAccess env w1 = Ok o w2
          /\ Rules.detectGeoAnomalies env w2 = Ok g w3
          /\ alerts w' = (alerts w3 ++ rest)%list)
    /\ ((exists d,
           Rules.runAllDetections env w = Ok d w'
           /\ Rules.total d = Z.of_nat (List.length new)
           /\ map alert_id new
              = (map Rules.bf_id (Rules.brute_force d)
                 ++ map Rules.oh_id (Rules.off_hours d)
                 ++ map Rules.geo_id (Rules.geo_anomaly d)
                 ++ map Rules.hr_id (Rules.high_risk_ip d))%list
           /\ map severity new
              = (map (fun _ => "high") (Rules.brute_force d)
                 ++ map (fun _ => "medium") (Rules.off_hours d)
                 ++ map (fun _ => "medium") (Rules.geo_anomaly d)
                 ++ map Rules.risk_level (Rules.high_risk_ip d))%list
           /\ Handlers.critical_alerts w'
              = Handlers.critical_alerts w
                + Z.of_nat (List.length
                              (filter (fun o => String.eqb (Rules.risk_level o)
                                                           "critical")
                                      (Rules.high_risk_ip d)))
           /\ Handlers.high_alerts w'
              = Handlers.high_alerts w
                + Z.of_nat (List.length (Rules.brute_force d))
                + Z.of_nat (List.length
                              (filter (fun o => String.eqb (Rules.risk_level o)
                                                           "high")
                                      (Rules.high_risk_ip d))))
        \/ (Rules.runAllDetections env w = Throw first_seen_null w'
            /\ settled env (logs w) = false))
    /\ (settled env (logs w) = true ->
        exists d, Rules.runAllDetections env w = Ok d w').
Proof.
  destruct (runAllDetections_rows env w)
    as [new [w' [Hfinal [Hl [Hls [Halerts [Hseq [Hnum [Hopen
       [b [o [g [w1 [w2 [w3 [rest [H1 [H2 [H3 [Hrest Hcases
       ]]]]]]]]]]]]]]]]]]]].
  exists new, w'.
  split; [exact Hfinal|]. split; [exact Hl|]. split; [exact Hls|].
  split; [exact Halerts|]. split; [exact Hseq|]. split; [exact Hnum|].
  split; [exact Hopen|]. split.
  { unfold Handlers.total_alerts. rewrite Halerts, length_app. lia. }
  split.
  { unfold Handlers.open_alerts.
    rewrite Halerts, (count_open _ _ Hopen). lia. }
  split; [exists b, o, g, w1, w2, w3, rest; auto|].
  destruct Hcases
    as [[d [Hrun [_ [_ [_ [Htotal [Hids [Hsev Hlen]]]]]]]] | [Hrun Hun]].
  - split; [|intros _; exists d; exact Hrun].
    left. exists d. split; [exact Hrun|]. split; [exact Htotal|].
    split; [exact Hids|]. split; [exact Hsev|]. split.
    + unfold Handlers.critical_alerts.
      rewrite Halerts, (count_open_severity _ _ _ Hopen), Hsev.
      rewrite !filter_app, !length_app, !length_filter_const,
        length_filter_map.
      cbn [String.eqb Ascii.eqb Bool.eqb]. lia.
    + unfold Handlers.high_alerts.
      rewrite Halerts, (count_open_severity _ _ _ Hopen), Hsev.
      rewrite !filter_app, !length_app, !length_filter_const,
        length_filter_map.
      cbn [String.eqb Ascii.eqb Bool.eqb]. lia.
  - split; [right; split; [exact Hrun | exact Hun]|].
    intros Hs. rewrite Hs in Hun. discriminate Hun.
Qed.

(** A recent login from 203.0.113.250 with the provider down: the run
    returns one critical alert, and GET /stats counts it.  The same
    login a second inside the window, the lookups taking a second: the
    run throws, and nothing is stored. *)
Lemma runAllDetections_total_witness :
  (exists d w',
     Rules.runAllDetections Sample.provider_down
       (Sample.with_logs
          [Sample.log 1 "2025-10-15T11:00:00Z" "eve" "203.0.113.250"
                      "failed"])
     = Ok d w'
     /\ Rules.total d = 1
     /\ Handlers.total_alerts w' = 1
     /\ Handlers.critical_alerts w' = 1)
  /\ (exists w',
        Rules.runAllDetections Sample.provider_down_slow
          (Sample.with_logs
             [Sample.log 1 "2025-10-14T12:00:01Z" "eve" "203.0.113.250"
                         "failed"])
        = Throw first_seen_null w'
        /\ Handlers.total_alerts w' = 0).
Proof.
  split.
  - destruct (runAllDetections_total Sample.provider_down
        (Sample.with_logs
           [Sample.log 1 "2025-10-15T11:00:00Z" "eve" "203.0.113.250"
                       "failed"]))
      as [new [w' [_ [_ [_ [_ [_ [_ [_ [_ [_ [_ [_ Hsettled]]]]]]]]]]]]].
    destruct (Hsettled eq_refl) as [d Hrun].
    exists d, w'. split; [exact Hrun|].
    vm_compute in Hrun. injection Hrun as <- <-. repeat split; reflexivity.
  - destruct (runAllDetections_total Sample.provider_down_slow
        (Sample.with_logs
           [Sample.log 1 "2025-10-14T12:00:01Z" "eve" "203.0.113.250"
                       "failed"]))
      as [new [w' [_ [_ [_ [_ [_ [_ [_ [_ [_ [_ [Hcases _]]]]]]]]]]]]].
    destruct Hcases as [[d [Hrun _]] | [Hrun _]].
    + vm_compute in Hrun. discriminate Hrun.
    + exists w'. split; [exact Hrun|].
      vm_compute in Hrun. injection Hrun as <-. reflexivity.
Defined.

(** ** The generated reputation and the risk levels *)

(** The score of the generated record, for every text given as address:
    0 for a text with a private prefix; otherwise NaN when the fourth
    component has no leading number or one beyond the range of a double,
    and else 75 + n % 25, 25 + n % 25 or n % 15 for its number n above
    200, above 100, or at most 100. *)
Lemma stubScore_cases (ipAddress : string) :
  (Abuseipdb.isPrivate ipAddress = true
   /\ Abuseipdb.stubScore ipAddress = Js.Num 0)
  \/ (Abuseipdb.isPrivate ipAddress = false
      /\ (((forall n, Abuseipdb.lastOctet ipAddress <> Js.Num n)
           /\ Abuseipdb.stubScore ipAddress = Js.NaN)
          \/ exists n,
               Abuseipdb.lastOctet ipAddress = Js.Num n
               /\ ((200 < n
                    /\ Abuseipdb.stubScore ipAddress
                       = Js.Num (75 + Z.rem n 25))
                   \/ (100 < n <= 200
                       /\ Abuseipdb.stubScore ipAddress
                          = Js.Num (25 + Z.rem n 25))
                   \/ (n <= 100
                       /\ Abuseipdb.stubScore ipAddress
                          = Js.Num (Z.rem n 15))))).
Proof.
  unfold Abuseipdb.stubScore.
  destruct (Abuseipdb.isPrivate ipAddress); [left; auto|right].
  split; [reflexivity|]. cbn [negb].
  destruct (Abuseipdb.lastOctet ipAddress) as [n| | |];
    [right | left; split; [discriminate | reflexivity] ..].
  exists n. split; [reflexivity|]. cbn [Js.gt Js.rem].
  assert (E25 : (25 =? 0) = false) by reflexivity.
  assert (E15 : (15 =? 0) = false) by reflexivity.
  rewrite E25, E15.
  destruct (200 <? n) eqn:E1.
  - apply Z.ltb_lt in E1. left. split; [exact E1|].
    pose proof (Z.rem_bound_pos n 25 ltac:(lia) ltac:(lia)).
    apply add_small. lia.
  - apply Z.ltb_ge in E1. destruct (100 <? n) eqn:E2.
    + apply Z.ltb_lt in E2. right. left. split; [lia|].
      pose proof (Z.rem_bound_pos n 25 ltac:(lia) ltac:(lia)).
      apply add_small. lia.
    + apply Z.ltb_ge in E2. right. right. split; [lia|]. reflexivity.
Qed.

(** The generated record never rates "high".  For every text given as
    address, the record is for that text and is whitelisted exactly when
    the text has one of the private prefixes; its score is NaN or lies
    in 75..99, 25..49 or -14..14, so its risk level is "critical",
    "medium" or "low"; and it passes the test of the high-risk rule
    exactly when the text has no private prefix and parseInt reads from
    its fourth component a finite number above 200, the level then being
    "critical".  A fourth component beyond the range of a double is read
    as Infinity: the score is then NaN, and the record does not pass. *)
Theorem generateStubReputation_never_high (env : Env) (ipAddress : string) :
  let r := Abuseipdb.generateStubReputation env ipAddress in
  let level := Abuseipdb.getRiskLevel (abuse_confidence_score r) in
  ip_address r = ipAddress
  /\ is_whitelisted r = Abuseipdb.isPrivate ipAddress
  /\ (abuse_confidence_score r = Js.NaN
      \/ exists z, abuse_confidence_score r = Js.Num z
                   /\ (75 <= z <= 99 \/ 25 <= z <= 49 \/ -14 <= z <= 14))
  /\ (level = "critical" \/ level = "medium" \/ level = "low")
  /\ (high_risk r = true <->
      Abuseipdb.isPrivate ipAddress = false
      /\ exists n, Abuseipdb.lastOctet ipAddress = Js.Num n /\ 200 < n)
  /\ (high_risk r = true -> level = "critical")
  /\ (Abuseipdb.isPrivate ipAddress = false ->
      Abuseipdb.lastOctet ipAddress = Js.Infinity ->
      abuse_confidence_score r = Js.NaN /\ high_risk r = false).
Proof.
  intros r level.
  assert (Hscore : abuse_confidence_score r = Abuseipdb.stubScore ipAddress)
    by reflexivity.
  assert (Hwhite : is_whitelisted r = Abuseipdb.isPrivate ipAddress)
    by reflexivity.
  unfold level, high_risk. rewrite Hscore, Hwhite. clear Hscore Hwhite.
  split; [reflexivity|]. split; [reflexivity|].
  destruct (stubScore_cases ipAddress)
    as [[Hp ->] | [Hp [[Hl ->] | [n [Hl [[Hn ->] | [[Hn ->] | [Hn ->]]]]]]]];
    rewrite Hp; try rewrite Hl; cbn [negb andb Js.gt Js.ge].
  - split; [right; exists 0; split; [reflexivity | lia]|].
    split; [right; right; reflexivity|].
    split; [split; [discriminate | intros [H _]; discriminate]|].
    split; discriminate.
  - split; [left; reflexivity|].
    split; [right; right; reflexivity|].
    split; [split; [discriminate
                   | intros [_ [n [H _]]]; destruct (Hl n H)]|].
    split; [discriminate|]. intros _ _. split; reflexivity.
  - pose proof (Z.rem_bound_pos n 25 ltac:(lia) ltac:(lia)) as Hb.
    assert (E50 : (50 <=? 75 + Z.rem n 25) = true) by (apply Z.leb_le; lia).
    assert (E75 : (75 <=? 75 + Z.rem n 25) = true) by (apply Z.leb_le; lia).
    unfold Abuseipdb.getRiskLevel. cbn [Js.ge]. rewrite E50, E75.
    split; [right; eexists; split; [reflexivity | lia]|].
    split; [left; reflexivity|].
    split; [split; [intros _; split; [reflexivity | exists n; auto]
                   | reflexivity]|].
    split; [reflexivity | discriminate].
  - pose proof (Z.rem_bound_pos n 25 ltac:(lia) ltac:(lia)) as Hb.
    assert (E50 : (50 <=? 25 + Z.rem n 25) = false) by (apply Z.leb_gt; lia).
    assert (E75 : (75 <=? 25 + Z.rem n 25) = false) by (apply Z.leb_gt; lia).
    assert (E25 : (25 <=? 25 + Z.rem n 25) = true) by (apply Z.leb_le; lia).
    unfold Abuseipdb.getRiskLevel. cbn [Js.ge]. rewrite E50, E75, E25.
    split; [right; eexists; split; [reflexivity | lia]|].
    split; [right; left; reflexivity|].
    split; [split; [discriminate
                   | intros [_ [m [Hm Hgt]]]; injection Hm as <-; lia]|].
    split; discriminate.
  - pose proof (Z.rem_bound_abs n 15 ltac:(lia)) as Hb.
    assert (E50 : (50 <=? Z.rem n 15) = false) by (apply Z.leb_gt; lia).
    assert (E75 : (75 <=? Z.rem n 15) = false) by (apply Z.leb_gt; lia).
    assert (E25 : (25 <=? Z.rem n 15) = false) by (apply Z.leb_gt; lia).
    unfold Abuseipdb.getRiskLevel. cbn [Js.ge]. rewrite E50, E75, E25.
    split; [right; eexists; split; [reflexivity | lia]|].
    split; [right; right; reflexivity|].
    split; [split; [discriminate
                   | intros [_ [m [Hm Hgt]]]; injection Hm as <-; lia]|].
    split; discriminate.
Qed.

(** An address whose fourth component has 310 digits: parseInt reads
    Infinity, the score is NaN and the record is not high-risk; and the
    fourth component 9007199254740993 is read as the double
    9007199254740992, which gives the score 92. *)
Lemma generateStubReputation_beyond_doubles :
  Abuseipdb.lastOctet ("203.0.113.1" ++ Sample.zeros 309) = Js.Infinity
  /\ high_risk (Abuseipdb.generateStubReputation Sample.offline
                  ("203.0.113.1" ++ Sample.zeros 309)) = false
  /\ abuse_confidence_score
       (Abuseipdb.generateStubReputation Sample.offline
          "203.0.113.9007199254740993") = Js.Num 92.
Proof. repeat split; vm_compute; reflexivity. Qed.

(** ** What the provider's failures come to *)

(** [fetchFromAbuseIPDB] never throws and never touches the database.
    It returns a record for the address asked, without a last_checked.
    Without an API key it sends no request and returns the generated
    record.  With a key it sends exactly one request; when the request
    fails (the network, any HTTP error status, 429 included, an
    unreadable body, a body without data) the result is the generated
    record, and otherwise it is built from the data of the provider,
    a missing score or report count being 0, a missing or empty country
    or usage type null, a missing whitelist flag false. *)
Theorem fetchFromAbuseIPDB_never_throws (env : Env) (ipAddress : string)
    (w : World) :
  exists r w',
    Abuseipdb.fetchFromAbuseIPDB env ipAddress w = Ok r w'
    /\ same_database w w'
    /\ ip_address r = ipAddress
    /\ last_checked r = None
    /\ trace w'
       = (trace w ++ if Abuseipdb.key_configured env
                     then [HttpGet ipAddress] else [])%list
    /\ (Abuseipdb.key_configured env = false ->
        r = Abuseipdb.generateStubReputation env ipAddress)
    /\ (Abuseipdb.key_configured env = true ->
        match fetch env (requests (trace w)) ipAddress with
        | Body (Some data) =>
            abuse_confidence_score r
            = Js.Num (match abuseConfidenceScore data with
                      | Some z => z
                      | None => 0
                      end)
            /\ total_reports r
               = Js.Num (match totalReports data with
                         | Some z => z
                         | None => 0
                         end)
            /\ country_code r
               = (if String.eqb (text (countryCode data)) EmptyString
                  then None else countryCode data)
            /\ usage_type r
               = (if String.eqb (text (usageType data)) EmptyString
                  then None else usageType data)
            /\ is_whitelisted r
               = (match isWhitelisted data with
                  | Some b => b
                  | None => false
                  end)
            /\ rep_raw_data r = data_json data
        | _ => r = Abuseipdb.generateStubReputation env ipAddress
        end).
Proof.
  eexists. eexists. split; [apply fetchFromAbuseIPDB_spec|].
  split; [repeat split|]. split; [apply answer_ip_address|].
  split; [apply answer_last_checked|].
  split; [reflexivity|].
  unfold answer. split.
  - intros Hkey. rewrite Hkey. reflexivity.
  - intros Hkey. rewrite Hkey.
    destruct (fetch env (requests (trace w)) ipAddress)
      as [msg|code txt|msg|[data|]]; try reflexivity.
    unfold Abuseipdb.fromProvider. cbn [abuse_confidence_score total_reports
      country_code usage_type is_whitelisted rep_raw_data].
    repeat split.
    + destruct (abuseConfidenceScore data); reflexivity.
    + destruct (totalReports data); reflexivity.
    + destruct (countryCode data) as [c|]; [|reflexivity].
      simpl. destruct (String.eqb c EmptyString); reflexivity.
    + destruct (usageType data) as [c|]; [|reflexivity].
      simpl. destruct (String.eqb c EmptyString); reflexivity.
Qed.

(** A provider that answers 429 to a configured client: one request, and
    the generated record. *)
Lemma fetchFromAbuseIPDB_never_throws_witness :
  let env := mkEnv Sample.noon "2025-10-15T12:00:00.000Z" Sample.datetime
               Sample.first_row (Some "key")
               (fun _ _ => HttpStatus 429 "Too Many Requests")
               Sample.JSON_stringify Sample.BindArgs Sample.at_once in
  exists w',
    Abuseipdb.fetchFromAbuseIPDB env "203.0.113.250" Sample.empty
    = Ok (Abuseipdb.generateStubReputation env "203.0.113.250") w'
    /\ trace w' = [HttpGet "203.0.113.250"].
Proof.
  intros env.
  destruct (fetchFromAbuseIPDB_never_throws env "203.0.113.250" Sample.empty)
    as [r [w' [Hrun [_ [_ [_ [Htrace [_ Hkey]]]]]]]].
  specialize (Hkey eq_refl). cbv beta iota in Hkey.
  exists w'. split; [rewrite Hrun, <- Hkey; reflexivity | exact Htrace].
Defined.

(** ** One row per address *)

Section Invariant.
Variable env : Env.
Variable I : list Reputation -> Prop.
Hypothesis HI : forall reputation ip table,
  I table -> I (upsert env reputation ip table).

Lemma enrichIPsBatch_invariant (ipAddresses : list Js.arg) (w : World) :
  I (ip_reputation w) ->
  exists results w',
    Abuseipdb.enrichIPsBatch env ipAddresses w = Ok results w'
    /\ I (ip_reputation w').
Proof. apply enrich_loop_invariant. exact HI. Qed.

Lemma runAllDetections_invariant (w : World) :
  I (ip_reputation w) ->
  I (ip_reputation (final (Rules.runAllDetections env w))).
Proof.
  intros Hw.
  destruct (detectBruteForce_stored env w) as [o1 [r1 [H1 _]]].
  destruct (detectOffHoursAccess_stored env (add_alerts w r1))
    as [o2 [r2 [H2 _]]].
  destruct (detectGeoAnomalies_stored env (add_alerts (add_alerts w r1) r2))
    as [o3 [r3 [H3 _]]].
  destruct (detectHighRiskIPs_stored env
              (add_alerts (add_alerts (add_alerts w r1) r2) r3))
    as [r4 [w3' [Hfinal [_ [_ [_ [_ [Hinv _]]]]]]]].
  assert (Hend : final (Rules.runAllDetections env w) = add_alerts w3' r4).
  { rewrite <- Hfinal. unfold Rules.runAllDetections.
    rewrite bind_run, H1. cbv beta iota.
    rewrite bind_run, H2. cbv beta iota.
    rewrite bind_run, H3. cbv beta iota.
    rewrite bind_run.
    destruct (Rules.detectHighRiskIPs env _); reflexivity. }
  rewrite Hend. cbn [add_alerts ip_reputation]. apply (Hinv I HI). exact Hw.
Qed.

End Invariant.

(** The cache keeps at most one row per address.  When the table has no
    two rows with the same address, it still has none after a lookup,
    after a batch lookup, after an eviction and after a whole detection
    run, whatever the provider answers and whether the run returns or
    throws.  A lookup adds at most one row, and leaves the rows of all
    other addresses as they are and in their order. *)
Theorem cache_keeps_one_row_per_address (env : Env) (w : World) :
  one_row_per_address (ip_reputation w) ->
  (forall a, exists r w',
      Abuseipdb.getIPReputationWithCache env a w = Ok r w'
      /\ one_row_per_address (ip_reputation w')
      /\ (List.length (ip_reputation w')
          <= S (List.length (ip_reputation w)))%nat
      /\ match a with
         | Js.Str ip =>
             filter (fun r => negb (String.eqb (ip_address r) ip))
                    (ip_reputation w')
             = filter (fun r => negb (String.eqb (ip_address r) ip))
                      (ip_reputation w)
         | _ => ip_reputation w' = ip_reputation w
         end)
  /\ (forall ipAddresses, exists results w',
        Abuseipdb.enrichIPsBatch env ipAddresses w = Ok results w'
        /\ one_row_per_address (ip_reputation w'))
  /\ (exists n w',
        Abuseipdb.clearStaleCache env w = Ok n w'
        /\ one_row_per_address (ip_reputation w'))
  /\ one_row_per_address
       (ip_reputation (final (Rules.runAllDetections env w))).
Proof.
  intros Hw. split; [|split; [|split]].
  - intros a.
    destruct (lookup_table env a w) as [r [w' [Hrun [_ [_ [_ [_ Htab]]]]]]].
    exists r, w'. split; [exact Hrun|].
    destruct Htab as [-> | [ip [rep [-> [_ [_ ->]]]]]].
    + split; [exact Hw|]. split; [lia|]. destruct a; reflexivity.
    + split; [apply upsert_one_row; exact Hw|]. split.
      * rewrite <- (length_map ip_address), upsert_addresses, length_app,
          length_map.
        destruct (existsb _ (ip_reputation w)); simpl; lia.
      * apply upsert_others.
  - intros ipAddresses.
    apply (enrichIPsBatch_invariant env one_row_per_address).
    + intros rep ip table. apply upsert_one_row.
    + exact Hw.
  - eexists. eexists. split.
    { unfold Abuseipdb.clearStaleCache.
      cbv [bind get_world Abuseipdb.set_table ret]. reflexivity. }
    cbn [ip_reputation]. unfold one_row_per_address in *.
    induction (ip_reputation w) as [|r t IH]; simpl; [constructor|].
    inversion Hw as [|? ? Hr Ht]; subst.
    destruct (Abuseipdb.stale env r); simpl; auto.
    constructor; auto. intros Hin. apply Hr.
    apply in_map_iff in Hin as [x [Hx Hin]].
    apply filter_In in Hin as [Hin _]. apply in_map_iff. eauto.
  - apply (runAllDetections_invariant env one_row_per_address).
    + intros rep ip table. apply upsert_one_row.
    + exact Hw.
Qed.

(** A table with one stale row of 8.8.8.8 and a row of 1.1.1.1: the
    lookup of 8.8.8.8 overwrites the stale row, and the table still has
    two rows. *)
Lemma cache_keeps_one_row_per_address_witness :
  let table :=
    [mkRep "8.8.8.8" (Js.Num 10) None None false (Js.Num 1) "{}"
           (Some (Sample.noon - 8 * 86400));
     mkRep "1.1.1.1" (Js.Num 0) None None false (Js.Num 0) "{}"
           (Some Sample.noon)] in
  exists r w',
    Abuseipdb.getIPReputationWithCache Sample.online (Js.Str "8.8.8.8")
      (mkWorld [] 0 [] 0 table []) = Ok r w'
    /\ one_row_per_address (ip_reputation w')
    /\ map ip_address (ip_reputation w') = ["8.8.8.8"; "1.1.1.1"]
    /\ map last_checked (ip_reputation w')
       = [Some Sample.noon; Some Sample.noon].
Proof.
  intros table.
  destruct (cache_keeps_one_row_per_address Sample.online
              (mkWorld [] 0 [] 0 table [])) as [Hlookup _].
  - repeat constructor; simpl; intuition discriminate.
  - destruct (Hlookup (Js.Str "8.8.8.8")) as [r [w' [Hrun [Hone _]]]].
    exists r, w'. split; [exact Hrun|]. split; [exact Hone|].
    vm_compute in Hrun. injection Hrun as _ <-. split; reflexivity.
Defined.

(** ** Eviction and lookups *)

Lemma find_filter {A : Type} (p q : A -> bool) (l : list A) :
  (forall x, p x = true -> q x = true) -> find p (filter q l) = find p l.
Proof.
  intros H. induction l as [|x t IH]; simpl; [reflexivity|].
  destruct (p x) eqn:Hp.
  - rewrite (H x Hp). simpl. rewrite Hp. reflexivity.
  - destruct (q x); simpl; [rewrite Hp|]; exact IH.
Qed.

Lemma fresh_not_stale (env : Env) (r : Reputation) :
  Abuseipdb.fresh env r = true -> Abuseipdb.stale env r = false.
Proof.
  unfold Abuseipdb.fresh, Abuseipdb.stale.
  destruct (last_checked r) as [t|]; [|discriminate].
  intros H. apply Z.ltb_lt in H. apply Z.leb_gt. exact H.
Qed.

Lemma cached_row_evicted (env : Env) (ip : string) (table : list Reputation) :
  Abuseipdb.cached_row env ip
    (filter (fun r => negb (Abuseipdb.stale env r)) table)
  = Abuseipdb.cached_row env ip table.
Proof.
  unfold Abuseipdb.cached_row. apply find_filter. intros r Hr.
  apply andb_true_iff in Hr as [_ Hr].
  rewrite (fresh_not_stale env r Hr). reflexivity.
Qed.

(** A lookup sees the table only through the fresh row of the address,
    and the trace only through the number of requests sent. *)
Lemma lookup_ext (env : Env) (a : Js.arg) (w1 w2 : World) :
  (forall ip, Abuseipdb.cached_row env ip (ip_reputation w1)
              = Abuseipdb.cached_row env ip (ip_reputation w2)) ->
  trace w1 = trace w2 ->
  exists v wa wb,
    Abuseipdb.getIPReputationWithCache env a w1 = Ok v wa
    /\ Abuseipdb.getIPReputationWithCache env a w2 = Ok v wb
    /\ trace wa = trace wb.
Proof.
  intros Hrow Htr. destruct (Js.truthy a) eqn:Ha.
  - destruct a as [| |ip]; try discriminate. simpl in Ha.
    apply negb_true_iff, String.eqb_neq in Ha.
    rewrite (lookup_spec env ip w1 Ha), (lookup_spec env ip w2 Ha).
    unfold lookup_trace, with_trace. rewrite (Hrow ip), Htr.
    destruct (Abuseipdb.cached_row env ip (ip_reputation w2)) as [row|];
      eexists; eexists; eexists; split; try reflexivity;
      split; reflexivity.
  - rewrite !(lookup_falsy env a _ Ha). exists None, w1, w2.
    repeat split. exact Htr.
Qed.

(** Eviction is idempotent and invisible to lookups.  A second eviction
    at the same time deletes nothing.  After an eviction every row that
    has a last_checked is fresh.  And evicting first changes neither
    what a lookup returns nor what it reads, requests and writes: the
    evicted rows are exactly those a lookup ignores. *)
Theorem clearStaleCache_idempotent (env : Env) (w : World) :
  exists n w1,
    Abuseipdb.clearStaleCache env w = Ok n w1
    /\ Abuseipdb.clearStaleCache env w1 = Ok 0 w1
    /\ (forall r t, In r (ip_reputation w1) -> last_checked r = Some t ->
                    Abuseipdb.fresh env r = true)
    /\ (forall ip, Abuseipdb.cached_row env ip (ip_reputation w1)
                   = Abuseipdb.cached_row env ip (ip_reputation w))
    /\ (forall a, exists v wa wb,
          Abuseipdb.getIPReputationWithCache env a w = Ok v wa
          /\ Abuseipdb.getIPReputationWithCache env a w1 = Ok v wb
          /\ trace wb = trace wa).
Proof.
  set (kept := filter (fun r => negb (Abuseipdb.stale env r))
                      (ip_reputation w)).
  set (w1 := mkWorld (logs w) (logs_seq w) (alerts w) (alerts_seq w) kept
                     (trace w)).
  assert (Hrun : Abuseipdb.clearStaleCache env w
                 = Ok (Z.of_nat (List.length
                                   (filter (Abuseipdb.stale env)
                                           (ip_reputation w)))) w1).
  { unfold Abuseipdb.clearStaleCache.
    cbv [bind get_world Abuseipdb.set_table ret]. reflexivity. }
  assert (Hnone : filter (Abuseipdb.stale env) kept = []).
  { apply filter_none. intros r Hr. apply filter_In in Hr as [_ Hr].
    apply negb_true_iff in Hr. exact Hr. }
  assert (Hkept : filter (fun r => negb (Abuseipdb.stale env r)) kept = kept).
  { unfold kept. rewrite filter_filter_and. apply filter_ext. intros r.
    apply andb_diag. }
  eexists. exists w1. split; [exact Hrun|]. split; [|split; [|split]].
  - unfold Abuseipdb.clearStaleCache.
    cbv [bind get_world Abuseipdb.set_table ret].
    cbn [w1 logs logs_seq alerts alerts_seq ip_reputation trace].
    rewrite Hnone, Hkept. reflexivity.
  - intros r t Hin Ht. cbn [w1 ip_reputation] in Hin.
    apply filter_In in Hin as [_ Hr]. apply negb_true_iff in Hr.
    unfold Abuseipdb.stale, Abuseipdb.fresh in *. rewrite Ht in *.
    apply Z.leb_gt in Hr. apply Z.ltb_lt. exact Hr.
  - intros ip. apply cached_row_evicted.
  - intros a.
    destruct (lookup_ext env a w w1) as [v [wa [wb [Ha [Hb Htr]]]]].
    + intros ip. symmetry. apply cached_row_evicted.
    + reflexivity.
    + exists v, wa, wb. repeat split; auto.
Qed.

(** ** The batch lookup and the provider's quota *)

Section Quota.
Variable env : Env.

(** One lookup of a non-empty address: what it returns is afterwards the
    fresh row of the address, and the fresh rows of the other addresses
    are as before. *)
Lemma lookup_warms (ip : string) (w : World) :
  ip <> EmptyString ->
  exists reputation w1,
    Abuseipdb.getIPReputationWithCache env (Js.Str ip) w
    = Ok (Some reputation) w1
    /\ warmed env (ip_reputation w) (ip_reputation w1) ip reputation
    /\ (forall ip', ip' <> ip ->
          Abuseipdb.cached_row env ip' (ip_reputation w1)
          = Abuseipdb.cached_row env ip' (ip_reputation w))
    /\ (misses env (ip_reputation w) ip = false ->
        ip_reputation w1 = ip_reputation w).
Proof.
  intros Hip. rewrite (lookup_spec env ip w Hip). unfold warmed, misses.
  destruct (Abuseipdb.cached_row env ip (ip_reputation w)) as [row|] eqn:E.
  - eexists. eexists. split; [reflexivity|].
    split; [split; [reflexivity | exact E]|]. split; reflexivity.
  - eexists. eexists. split; [reflexivity|]. cbn [ip_reputation]. split.
    + split; [eexists; reflexivity|]. apply cached_row_upsert_same.
    + split; [|discriminate].
      intros ip' Hne. apply cached_row_upsert_other. exact Hne.
Qed.

Lemma warmed_ext (t0 t0' t1 t1' : list Reputation) (ip : string)
    (r : Reputation) :
  Abuseipdb.cached_row env ip t0' = Abuseipdb.cached_row env ip t0 ->
  Abuseipdb.cached_row env ip t1' = Abuseipdb.cached_row env ip t1 ->
  warmed env t0 t1 ip r -> warmed env t0' t1' ip r.
Proof. unfold warmed. intros -> ->. auto. Qed.

Lemma enrich_loop_warm (l : list string) :
  forall (acc : Js.object (option Reputation)) (w : World),
    NoDup l ->
    Forall (fun ip => ip <> EmptyString) l ->
    (forall ip, In ip l -> Js.has_key ip acc = false) ->
    exists reps w',
      for_of l
        (fun results ip =>
           let* r := Abuseipdb.getIPReputationWithCache env (Js.Str ip) in
           let results := Js.set ip r results in
           (if Abuseipdb.key_configured env then Abuseipdb.delay 250
            else ret tt) ;;
           ret results)
        acc w
      = Ok (acc ++ collected (combine l reps))%list w'
      /\ Forall2 (warmed env (ip_reputation w) (ip_reputation w')) l reps
      /\ (forall ip, ~ In ip l ->
            Abuseipdb.cached_row env ip (ip_reputation w')
            = Abuseipdb.cached_row env ip (ip_reputation w))
      /\ ((forall ip, In ip l -> misses env (ip_reputation w) ip = false) ->
          ip_reputation w' = ip_reputation w).
Proof.
  induction l as [|ip t IH]; intros acc w Hnd Hne Hacc.
  - exists [], w. simpl. unfold ret. rewrite !app_nil_r.
    repeat split; auto.
  - inversion Hnd as [|? ? Hnotin Hnd']; subst.
    inversion Hne as [|? ? Hip Hne']; subst.
    destruct (lookup_warms ip w Hip)
      as [rep [w1 [Hrun [Hwarm [Hother Hhit]]]]].
    set (acc' := (acc ++ if String.eqb ip "__proto__" then []
                         else [(ip, Some rep)])%list).
    set (w2 := if Abuseipdb.key_configured env
               then with_trace w1 [Delay 250] else w1).
    assert (Hstep :
      for_of (ip :: t)
        (fun results ip =>
           let* r := Abuseipdb.getIPReputationWithCache env (Js.Str ip) in
           let results := Js.set ip r results in
           (if Abuseipdb.key_configured env then Abuseipdb.delay 250
            else ret tt) ;;
           ret results)
        acc w
      = for_of t
        (fun results ip =>
           let* r := Abuseipdb.getIPReputationWithCache env (Js.Str ip) in
           let results := Js.set ip r results in
           (if Abuseipdb.key_configured env then Abuseipdb.delay 250
            else ret tt) ;;
           ret results)
        acc' w2).
    { rewrite for_of_cons, bind_run, Hrun. cbv beta iota zeta.
      rewrite (set_new ip (Some rep) acc) by (apply Hacc; left; reflexivity).
      fold acc'. unfold w2.
      destruct (Abuseipdb.key_configured env); reflexivity. }
    assert (Htab2 : ip_reputation w2 = ip_reputation w1).
    { unfold w2. destruct (Abuseipdb.key_configured env); reflexivity. }
    destruct (IH acc' w2 Hnd' Hne')
      as [reps [w' [Hloop [Hall [Hframe Hhits]]]]].
    { intros ip' Hin. unfold acc'. rewrite has_key_app.
      rewrite (Hacc ip') by (right; exact Hin). simpl.
      destruct (String.eqb ip "__proto__"); simpl; auto.
      rewrite orb_false_r. apply String.eqb_neq. intros ->. contradiction. }
    rewrite Htab2 in Hall, Hframe, Hhits.
    exists (rep :: reps), w'. split; [|split; [|split]].
    + rewrite Hstep, Hloop. unfold acc'. rewrite <- app_assoc.
      f_equal. f_equal.
      unfold collected. simpl.
      destruct (String.eqb ip "__proto__"); reflexivity.
    + constructor.
      * eapply warmed_ext; [reflexivity | | exact Hwarm].
        apply Hframe. exact Hnotin.
      * eapply Forall2_impl_In; [|exact Hall].
        intros a b Hin. apply warmed_ext; [|reflexivity].
        symmetry. apply Hother. intros ->. contradiction.
    + intros ip' Hnot. rewrite Hframe.
      * apply Hother. intros ->. apply Hnot. left. reflexivity.
      * intros Hin. apply Hnot. right. exact Hin.
    + intros Hall_hit.
      assert (H1 : ip_reputation w1 = ip_reputation w)
        by (apply Hhit, Hall_hit; left; reflexivity).
      rewrite Hhits; [exact H1|].
      intros ip' Hin. rewrite H1. apply Hall_hit. right. exact Hin.
Qed.

Lemma enrichIPsBatch_warm (ipAddresses : list Js.arg) (w : World) :
  let U := Js.uniq (Js.filter_truthy ipAddresses) in
  exists reps w',
    Abuseipdb.enrichIPsBatch env ipAddresses w
    = Ok (collected (combine U reps)) w'
    /\ Forall2 (warmed env (ip_reputation w) (ip_reputation w')) U reps
    /\ ((forall ip, In ip U -> misses env (ip_reputation w) ip = false) ->
        ip_reputation w' = ip_reputation w).
Proof.
  intros U. unfold Abuseipdb.enrichIPsBatch. fold U.
  destruct (enrich_loop_warm U [] w) as [reps [w' [H [Hall [_ Hhits]]]]].
  - apply uniq_NoDup.
  - apply Forall_forall. intros ip Hin.
    apply uniq_In, filter_truthy_In in Hin. tauto.
  - reflexivity.
  - exists reps, w'. split; [exact H|]. split; [exact Hall | exact Hhits].
Qed.

(** The requests of the segments of a batch: one for each miss, when a
    key is configured. *)
Lemma requests_of_segments (table : list Reputation) (l : list string) :
  requests (flat_map (segment env table) l)
  = if Abuseipdb.key_configured env
    then List.length (filter (misses env table) l) else 0%nat.
Proof.
  induction l as [|ip t IH]; cbn [flat_map filter].
  - destruct (Abuseipdb.key_configured env); reflexivity.
  - rewrite requests_app, IH.
    unfold segment, lookup_trace, network, misses.
    destruct (Abuseipdb.cached_row env ip table);
      destruct (Abuseipdb.key_configured env); reflexivity.
Qed.

Lemma resolved_by_address (table : list Reputation) (ip : string)
    (r : Reputation) :
  resolved_by env table ip r -> ip_address r = ip.
Proof.
  unfold resolved_by.
  destruct (Abuseipdb.cached_row env ip table) as [row|] eqn:E.
  - intros ->. unfold Abuseipdb.cached_row in E.
    apply find_some in E as [_ E]. apply andb_true_iff in E as [E _].
    apply String.eqb_eq. exact E.
  - intros [n ->]. apply answer_ip_address.
Qed.

Lemma warmed_row (before after : list Reputation) (ip : string)
    (r : Reputation) :
  warmed env before after ip r ->
  exists row, Abuseipdb.cached_row env ip after = Some row
              /\ same_data r row.
Proof.
  unfold warmed.
  destruct (Abuseipdb.cached_row env ip before) as [row|].
  - intros [-> H]. exists row. split; [exact H|].
    unfold same_data. tauto.
  - intros [[n ->] H]. eexists. split; [exact H|].
    apply same_data_stamped, answer_ip_address.
Qed.

End Quota.

Lemma map_fst_filter {A B : Type} (q : A -> bool) (l : list (A * B)) :
  map fst (filter (fun p => q (fst p)) l) = filter q (map fst l).
Proof.
  induction l as [|[a b] t IH]; simpl; [reflexivity|].
  destruct (q a); simpl; rewrite IH; reflexivity.
Qed.

Lemma same_results_collected (P Q : string -> Reputation -> Prop)
    (U : list string) (reps1 : list Reputation) :
  Forall2 P U reps1 ->
  forall reps2,
    Forall2 Q U reps2 ->
    (forall ip r1 r2, P ip r1 -> Q ip r2 -> same_data r1 r2) ->
    same_results (collected (combine U reps1)) (collected (combine U reps2)).
Proof.
  unfold same_results, collected.
  intros H1. induction H1 as [|ip r1 U reps1 Hp _ IH]; intros reps2 H2 Hsame.
  - constructor.
  - inversion H2 as [|? r2 ? reps2' Hq H2']; subst. simpl.
    destruct (String.eqb ip "__proto__"); simpl.
    + apply IH; assumption.
    + constructor; [|apply IH; assumption].
      simpl. split; [reflexivity|]. eapply Hsame; eassumption.
Qed.



(** The batch lookup warms the cache.  After a batch, every address of
    its result has a fresh row in the table with the data returned for
    it.  Hence the same batch run again at the same time is answered
    from the table alone: it sends no request, leaves the table as it
    is, and returns the same keys with the same data. *)
Theorem enrichIPsBatch_warms_cache (env : Env) (ipAddresses : list Js.arg)
    (w : World) :
  exists res1 w1 res2 w2,
    Abuseipdb.enrichIPsBatch env ipAddresses w = Ok res1 w1
    /\ (forall k r, In (k, Some r) res1 ->
          exists row, Abuseipdb.cached_row env k (ip_reputation w1) = Some row
                      /\ same_data r row)
    /\ Abuseipdb.enrichIPsBatch env ipAddresses w1 = Ok res2 w2
    /\ requests (trace w2) = requests (trace w1)
    /\ ip_reputation w2 = ip_reputation w1
    /\ same_results res1 res2.
Proof.
  set (U := Js.uniq (Js.filter_truthy ipAddresses)).
  destruct (enrichIPsBatch_warm env ipAddresses w)
    as [reps1 [w1 [Hrun1 [Hwarm1 _]]]]. fold U in Hrun1, Hwarm1.
  destruct (enrichIPsBatch_warm env ipAddresses w1)
    as [reps2 [w2 [Hrun2 [Hwarm2 Hhits]]]]. fold U in Hrun2, Hwarm2, Hhits.
  destruct (Forall2_combine_In _ _ _ Hwarm1) as [Hrow1 Hex1].
  assert (Hhit : forall ip, In ip U ->
                   misses env (ip_reputation w1) ip = false).
  { intros ip Hin. destruct (Hex1 ip Hin) as [r Hr].
    destruct (warmed_row env _ _ _ _ (Hrow1 _ _ Hr)) as [row [Hc _]].
    unfold misses. rewrite Hc. reflexivity. }
  exists (collected (combine U reps1)), w1, (collected (combine U reps2)), w2.
  split; [exact Hrun1|]. split; [|split; [exact Hrun2|split; [|split]]].
  - intros k r Hin. apply collected_In in Hin as [r' [Heq [Hin _]]].
    injection Heq as ->. apply (warmed_row env _ _ _ _ (Hrow1 _ _ Hin)).
  - destruct (enrichIPsBatch_spec env ipAddresses w1)
      as [reps [w' [Hrun [_ [Htr _]]]]]. fold U in Hrun, Htr.
    pose proof (eq_trans (eq_sym Hrun2) Hrun) as Heq.
    injection Heq as _ ->.
    rewrite Htr, requests_app, requests_of_segments.
    rewrite (filter_none _ _ Hhit).
    destruct (Abuseipdb.key_configured env); simpl; lia.
  - apply Hhits. exact Hhit.
  - apply (same_results_collected
             (fun ip r => In ip U /\ warmed env (ip_reputation w)
                                            (ip_reputation w1) ip r)
             (warmed env (ip_reputation w1) (ip_reputation w2))).
    + eapply Forall2_impl_In; [|exact Hwarm1]. intros a b Hin H. auto.
    + exact Hwarm2.
    + intros ip r1 r2 [Hin H1] H2.
      destruct (warmed_row env _ _ _ _ H1) as [row [Hc Hsame]].
      unfold warmed in H2. rewrite Hc in H2. destruct H2 as [-> _].
      exact Hsame.
Qed.

(** ** The aliases of a field *)

Lemma or_chain_first_truthy (entry : Json) (names : list string)
    (last : Json) :
  Parsers.or_chain (map (Parsers.prop entry) names) last
  = match first_truthy entry names with
    | Some v => v
    | None => last
    end.
Proof.
  induction names as [|k t IH]; [reflexivity|].
  cbn [map first_truthy].
  destruct (Parsers.prop entry k) as [v|] eqn:E.
  - change (Parsers.or_chain (Some v :: map (Parsers.prop entry) t) last)
      with (if Parsers.truthy (Some v) then v
            else Parsers.or_chain (map (Parsers.prop entry) t) last).
    destruct (Parsers.truthy (Some v)); [reflexivity | exact IH].
  - exact IH.
Qed.

Lemma first_truthy_split (entry : Json) (pre : list string) (k : string)
    (post : list string) :
  missing entry pre = true ->
  Parsers.truthy (Parsers.prop entry k) = true ->
  first_truthy entry (pre ++ k :: post) = Parsers.prop entry k.
Proof.
  intros Hpre Hk. induction pre as [|p pre IH]; simpl.
  - rewrite Hk. reflexivity.
  - simpl in Hpre. apply andb_true_iff in Hpre as [Hp Hpre].
    apply negb_true_iff in Hp. rewrite Hp. apply IH. exact Hpre.
Qed.

(** Every field of the normalised event is the value of the first of
    its aliases that is truthy on the entry, as it is and whatever its
    type, and the default of the field when none is: an alias that is
    absent, null, empty, zero or false is passed over.  In particular
    the value under an alias is taken whenever all the aliases before
    it are missing and it is truthy itself. *)
Theorem normalizeLogEntry_first_alias (env : Env) (entry : Json) (w : World) :
  entry <> JNull ->
  exists n,
    Parsers.normalizeLogEntry env entry w = Ok n w
    /\ Parsers.n_timestamp n
       = match first_truthy entry timestamp_aliases with
         | Some v => v
         | None => JStr (toISOString_now env)
         end
    /\ Parsers.n_event_type n
       = match first_truthy entry event_type_aliases with
         | Some v => v
         | None => JStr "unknown"
         end
    /\ Parsers.n_username n
       = match first_truthy entry username_aliases with
         | Some v => v
         | None => JNull
         end
    /\ Parsers.n_source_ip n
       = match first_truthy entry source_ip_aliases with
         | Some v => v
         | None => JNull
         end
    /\ Parsers.n_destination_ip n
       = match first_truthy entry destination_ip_aliases with
         | Some v => v
         | None => JNull
         end
    /\ Parsers.n_status n
       = match first_truthy entry status_aliases with
         | Some v => v
         | None => JNull
         end
    /\ Parsers.n_message n
       = match first_truthy entry message_aliases with
         | Some v => v
         | None => JNull
         end
    /\ (forall names pre k post,
          names = (pre ++ k :: post)%list ->
          missing entry pre = true ->
          Parsers.truthy (Parsers.prop entry k) = true ->
          first_truthy entry names = Parsers.prop entry k).
Proof.
  intros Hentry.
  assert (Hrun : exists n, Parsers.normalizeLogEntry env entry w = Ok n w
            /\ n = {|
              Parsers.n_timestamp :=
                Parsers.or_chain (map (Parsers.prop entry) timestamp_aliases)
                  (JStr (toISOString_now env));
              Parsers.n_event_type :=
                Parsers.or_chain (map (Parsers.prop entry) event_type_aliases)
                  (JStr "unknown");
              Parsers.n_username :=
                Parsers.or_chain (map (Parsers.prop entry) username_aliases)
                  JNull;
              Parsers.n_source_ip :=
                Parsers.or_chain (map (Parsers.prop entry) source_ip_aliases)
                  JNull;
              Parsers.n_destination_ip :=
                Parsers.or_chain
                  (map (Parsers.prop entry) destination_ip_aliases) JNull;
              Parsers.n_status :=
                Parsers.or_chain (map (Parsers.prop entry) status_aliases)
                  JNull;
              Parsers.n_message :=
                Parsers.or_chain (map (Parsers.prop entry) message_aliases)
                  JNull;
              Parsers.n_raw_data := JSON_stringify env entry |}).
  { destruct entry; try congruence; eexists; split; reflexivity. }
  destruct Hrun as [n [Hrun ->]]. eexists. split; [exact Hrun|].
  cbn [Parsers.n_timestamp Parsers.n_event_type Parsers.n_username
       Parsers.n_source_ip Parsers.n_destination_ip Parsers.n_status
       Parsers.n_message].
  repeat (split; [apply or_chain_first_truthy|]).
  intros names pre k post -> Hpre Hk. apply first_truthy_split; assumption.
Qed.

(** An entry with an empty timestamp, a time and a date, and a status
    that is the number 0 beside a result: the time and the result are
    taken. *)
Lemma normalizeLogEntry_first_alias_witness :
  exists n,
    Parsers.normalizeLogEntry Sample.offline
      (JObj [("timestamp", JStr EmptyString); ("date", JStr "2025-10-14");
             ("time", JStr "2025-10-15T08:00:00Z"); ("status", JNum 0);
             ("result", JStr "denied")])
      Sample.empty
    = Ok n Sample.empty
    /\ Parsers.n_timestamp n = JStr "2025-10-15T08:00:00Z"
    /\ Parsers.n_status n = JStr "denied"
    /\ Parsers.n_username n = JNull.
Proof.
  destruct (normalizeLogEntry_first_alias Sample.offline
      (JObj [("timestamp", JStr EmptyString); ("date", JStr "2025-10-14");
             ("time", JStr "2025-10-15T08:00:00Z"); ("status", JNum 0);
             ("result", JStr "denied")])
      Sample.empty)
    as [n [Hrun [Hts [_ [Hun [_ [_ [Hst _]]]]]]]].
  - discriminate.
  - exists n. split; [exact Hrun|]. rewrite Hts, Hst, Hun.
    repeat split.
Defined.

(** ** The request handlers *)

(** POST /logs/batch always answers.  A body that is not an array is
    taken as a batch of one entry.  The answer is either 200 with the
    number of entries, all of which have then been stored, in order, as
    the only change to the store, or 500, and then some entry was
    rejected and the database is exactly as before. *)
Theorem post_logs_batch_answers (env : Env) (body : Json) (w : World) :
  let entries := match body with JArr l => l | _ => [body] end in
  exists resp w',
    Handlers.post_logs_batch env body w = Ok resp w'
    /\ match resp with
       | Handlers.Ingested n =>
           n = Z.of_nat (List.length entries)
           /\ Handlers.total_logs w' = Handlers.total_logs w + n
           /\ alerts w' = alerts w
           /\ ip_reputation w' = ip_reputation w
           /\ exists rows,
                logs w' = (logs w ++ rows)%list
                /\ Forall2 (stores env) entries rows
       | Handlers.IngestFailed _ =>
           same_database w w'
           /\ exists entry, In entry entries /\ rejected env entry
       end.
Proof.
  intros entries. unfold Handlers.post_logs_batch. fold entries.
  unfold try_catch. rewrite bind_run.
  unfold Routes.insertMany, transaction.
  destruct (insert_loop env entries w)
    as [[rows [Hrun Hall]] | [e [w' [Hrun [_ Hbad]]]]]; rewrite Hrun.
  - eexists. eexists. split; [reflexivity|]. cbv beta iota.
    split; [reflexivity|]. split.
    + unfold Handlers.total_logs. cbn [logs]. rewrite length_app.
      rewrite (Forall2_length Hall). lia.
    + split; [reflexivity|]. split; [reflexivity|].
      exists rows. split; [reflexivity | exact Hall].
  - eexists. eexists. split; [reflexivity|]. cbv beta iota.
    split; [repeat split | exact Hbad].
Qed.

(** ** The address pattern *)

Lemma dot_In (r s : string) : In r (Handlers.dot s) <-> s = String "." r.
Proof.
  destruct s as [|a s]; simpl; [split; [contradiction | discriminate]|].
  destruct a as [[] [] [] [] [] [] [] []]; simpl;
    (split; [intros []; try contradiction; subst; reflexivity
            | intros H; try discriminate; injection H as ->; left;
              reflexivity]).
Qed.

Lemma digits_1_3_In (r s : string) :
  In r (Handlers.digits_1_3 s) <->
  exists x, octet_like x = true /\ s = x ++ r.
Proof.
  unfold octet_like, digits_only. split.
  - unfold Handlers.digits_1_3.
    destruct s as [|a s1]; [contradiction|].
    destruct (Handlers.is_digit a) eqn:Da; [|contradiction].
    intros [<- | H].
    { exists (String a EmptyString). simpl. rewrite Da. auto. }
    destruct s1 as [|b s2]; [contradiction|].
    destruct (Handlers.is_digit b) eqn:Db; [|contradiction].
    destruct H as [<- | H].
    { exists (String a (String b EmptyString)). simpl. rewrite Da, Db. auto. }
    destruct s2 as [|c s3]; [contradiction|].
    destruct (Handlers.is_digit c) eqn:Dc; [|contradiction].
    destruct H as [<- | []].
    exists (String a (String b (String c EmptyString))). simpl.
    rewrite Da, Db, Dc. auto.
  - intros [x [Hx ->]]. apply andb_true_iff in Hx as [Hlen Hd].
    apply andb_true_iff in Hlen as [H1 H3].
    destruct x as [|a [|b [|c [|e x]]]]; simpl in H1, H3; try discriminate;
      simpl in Hd; repeat (apply andb_true_iff in Hd as [? Hd]);
      simpl;
      repeat match goal with
             | H : Handlers.is_digit _ = true |- _ => rewrite H; clear H
             end.
    + left. reflexivity.
    + right. left. reflexivity.
    + right. right. left. reflexivity.
Qed.

Lemma digits_dot_In (r s : string) :
  In r (Handlers.digits_dot s) <->
  exists x, octet_like x = true /\ s = x ++ "." ++ r.
Proof.
  unfold Handlers.digits_dot. rewrite in_flat_map. split.
  - intros [m [Hm Hr]]. apply digits_1_3_In in Hm as [x [Hx ->]].
    apply dot_In in Hr. subst m. exists x. auto.
  - intros [x [Hx ->]]. exists ("." ++ r). split.
    + apply digits_1_3_In. exists x. auto.
    + apply dot_In. reflexivity.
Qed.

Lemma append_nil_r (s : string) : s ++ EmptyString = s.
Proof. induction s as [|a s IH]; simpl; congruence. Qed.

(** Checked on each number from 0 to 999: its text is one to three
    digits. *)
Lemma octet_like_text (n : Z) :
  0 <= n <= 999 -> octet_like (Js.string_of_Z n) = true.
Proof.
  intros H.
  assert (Hin : In n up_to_999).
  { unfold up_to_999. apply in_map_iff. exists (Z.to_nat n).
    split; [lia|]. apply in_seq. lia. }
  assert (Hall : forallb (fun n => octet_like (Js.string_of_Z n)) up_to_999
                 = true) by (vm_compute; reflexivity).
  rewrite forallb_forall in Hall. apply Hall. exact Hin.
Qed.

(** What the address pattern of GET /ip/:ip/reputation accepts: exactly
    the texts made of four groups of one to three decimal digits
    separated by dots.  The empty text is refused.  The groups are not
    bounded by 255: the text of every a.b.c.d with numbers from 0 to 999
    is accepted. *)
Theorem ipRegex_test_spec (s : string) :
  (Handlers.ipRegex_test s = true <->
   exists a b c d,
     octet_like a = true /\ octet_like b = true /\ octet_like c = true
     /\ octet_like d = true
     /\ s = a ++ "." ++ b ++ "." ++ c ++ "." ++ d)
  /\ Handlers.ipRegex_test EmptyString = false
  /\ (forall a b c d,
        0 <= a <= 999 -> 0 <= b <= 999 -> 0 <= c <= 999 -> 0 <= d <= 999 ->
        Handlers.ipRegex_test (dotted a b c d) = true).
Proof.
  assert (Hiff : forall s,
    Handlers.ipRegex_test s = true <->
    exists a b c d,
      octet_like a = true /\ octet_like b = true /\ octet_like c = true
      /\ octet_like d = true
      /\ s = a ++ "." ++ b ++ "." ++ c ++ "." ++ d).
  { clear s. intros s. unfold Handlers.ipRegex_test.
    rewrite existsb_exists. split.
    - intros [rest [Hin Hrest]]. apply String.eqb_eq in Hrest. subst rest.
      apply in_flat_map in Hin as [r3 [Hin Hd]].
      apply in_flat_map in Hin as [r2 [Hin Hc]].
      apply in_flat_map in Hin as [r1 [Ha Hb]].
      apply digits_dot_In in Ha as [a [Ha ->]].
      apply digits_dot_In in Hb as [b [Hb ->]].
      apply digits_dot_In in Hc as [c [Hc ->]].
      apply digits_1_3_In in Hd as [d [Hd ->]].
      exists a, b, c, d. rewrite append_nil_r. auto.
    - intros [a [b [c [d [Ha [Hb [Hc [Hd ->]]]]]]]].
      exists EmptyString. split; [|reflexivity].
      apply in_flat_map. exists d. split.
      + apply in_flat_map. exists (c ++ "." ++ d). split.
        * apply in_flat_map. exists (b ++ "." ++ c ++ "." ++ d). split.
          -- apply digits_dot_In. exists a. auto.
          -- apply digits_dot_In. exists b. auto.
        * apply digits_dot_In. exists c. auto.
      + apply digits_1_3_In. exists d. rewrite append_nil_r. auto. }
  split; [apply Hiff|]. split; [reflexivity|].
  intros a b c d Ha Hb Hc Hd. apply Hiff.
  exists (Js.string_of_Z a), (Js.string_of_Z b), (Js.string_of_Z c),
    (Js.string_of_Z d).
  repeat (split; [apply octet_like_text; assumption|]).
  reflexivity.
Qed.

(** GET /ip/:ip/reputation always answers, with 400 or with 200.  An
    address the pattern refuses is answered 400 and nothing is read,
    requested or written.  An address it accepts is looked up, and the
    answer is 200 with the fields of the record the lookup returned and
    the risk level [getRiskLevel] gives its score: the 404 of the handler
    is never sent, because an accepted address is not empty and the
    lookup then always returns a record. *)
Theorem get_ip_reputation_answers (env : Env) (ipAddress : string)
    (w : World) :
  exists resp w',
    Handlers.get_ip_reputation env ipAddress w = Ok resp w'
    /\ match resp with
       | Handlers.InvalidAddress _ =>
           Handlers.ipRegex_test ipAddress = false /\ w' = w
       | Handlers.ReputationFound ip v =>
           Handlers.ipRegex_test ipAddress = true
           /\ ip = ipAddress
           /\ exists r,
                Abuseipdb.getIPReputationWithCache env (Js.Str ipAddress) w
                = Ok (Some r) w'
                /\ ip_address r = ipAddress
                /\ Handlers.v_abuse_confidence_score v
                   = abuse_confidence_score r
                /\ Handlers.v_country_code v = country_code r
                /\ Handlers.v_usage_type v = usage_type r
                /\ Handlers.v_is_whitelisted v = is_whitelisted r
                /\ Handlers.v_total_reports v = total_reports r
                /\ Handlers.v_last_checked v = last_checked r
                /\ Handlers.v_risk_level v
                   = Abuseipdb.getRiskLevel (abuse_confidence_score r)
       | Handlers.ReputationNotFound _ => False
       | Handlers.ReputationFailed _ => False
       end.
Proof.
  unfold Handlers.get_ip_reputation, try_catch.
  destruct (Handlers.ipRegex_test ipAddress) eqn:Hre; cbn [negb].
  - assert (Hip : ipAddress <> EmptyString).
    { intros ->. discriminate. }
    destruct (lookup_step env ipAddress w Hip)
      as [r [w1 [Hrun [Hres _]]]].
    rewrite bind_run, Hrun. eexists. eexists. split; [reflexivity|].
    cbv beta iota. split; [reflexivity|]. split; [reflexivity|].
    exists r. split; [reflexivity|].
    split; [apply (resolved_by_address env _ _ _ Hres)|].
    repeat split.
  - eexists. eexists. split; [reflexivity|]. split; reflexivity.
Qed.

(** The lookup of 999.1.1.250 with no key configured: the pattern
    accepts the address, and the answer is the generated record. *)
Lemma get_ip_reputation_answers_witness :
  exists v w',
    Handlers.get_ip_reputation Sample.offline "999.1.1.250" Sample.empty
    = Ok (Handlers.ReputationFound "999.1.1.250" v) w'
    /\ Handlers.v_risk_level v = "critical"
    /\ List.length (ip_reputation w') = 1%nat.
Proof.
  destruct (get_ip_reputation_answers Sample.offline "999.1.1.250"
              Sample.empty) as [resp [w' [Hrun H]]].
  vm_compute in Hrun. injection Hrun as <- <-.
  eexists. eexists. split; [vm_compute; reflexivity|].
  split; reflexivity.
Defined.

(** ** Running a rule again *)

Lemma numbered_content {A B C : Type} (f : Z -> A -> B) (h : B -> C)
    (g : A -> C) (s1 s2 : Z) (l : list A) :
  (forall n x, h (f n x) = g x) ->
  map h (numbered (fun _ => true) f s1 l)
  = map h (numbered (fun _ => true) f s2 l).
Proof.
  intros H.
  rewrite (numbered_map _ f h g s1 l H), (numbered_map _ f h g s2 l H).
  reflexivity.
Qed.

(** The rules do not look at the alerts already stored.  Each of the
    three rules that only read the logs, run a second time on the store
    it has just written to, returns again an alert for every alert it
    returned the first time, the same but for its number, and inserts a
    second row for each: nothing is deduplicated. *)
Theorem detection_reports_again (env : Env) (w : World) :
  (exists o1 w1 o2 w2,
      Rules.detectBruteForce env w = Ok o1 w1
      /\ Rules.detectBruteForce env w1 = Ok o2 w2
      /\ map (fun o => (Rules.bf_type o, Rules.bf_username o,
                        Rules.bf_source_ip o, Rules.attempt_count o,
                        Rules.first_attempt o, Rules.last_attempt o)) o2
         = map (fun o => (Rules.bf_type o, Rules.bf_username o,
                          Rules.bf_source_ip o, Rules.attempt_count o,
                          Rules.first_attempt o, Rules.last_attempt o)) o1
      /\ List.length (alerts w2)
         = (List.length (alerts w) + 2 * List.length o1)%nat)
  /\ (exists o1 w1 o2 w2,
        Rules.detectOffHoursAccess env w = Ok o1 w1
        /\ Rules.detectOffHoursAccess env w1 = Ok o2 w2
        /\ map (fun o => (Rules.oh_type o, Rules.oh_username o,
                          Rules.oh_source_ip o, Rules.oh_timestamp o,
                          Rules.oh_event_type o)) o2
           = map (fun o => (Rules.oh_type o, Rules.oh_username o,
                            Rules.oh_source_ip o, Rules.oh_timestamp o,
                            Rules.oh_event_type o)) o1
        /\ List.length (alerts w2)
           = (List.length (alerts w) + 2 * List.length o1)%nat)
  /\ (exists o1 w1 o2 w2,
        Rules.detectGeoAnomalies env w = Ok o1 w1
        /\ Rules.detectGeoAnomalies env w1 = Ok o2 w2
        /\ map (fun o => (Rules.geo_type o, Rules.geo_source_ip o,
                          Rules.geo_username o, Rules.access_count o,
                          Rules.geo_first_seen o, Rules.geo_last_seen o)) o2
           = map (fun o => (Rules.geo_type o, Rules.geo_source_ip o,
                            Rules.geo_username o, Rules.access_count o,
                            Rules.geo_first_seen o, Rules.geo_last_seen o)) o1
        /\ List.length (alerts w2)
           = (List.length (alerts w) + 2 * List.length o1)%nat).
Proof.
  split; [|split].
  - pose proof (detectBruteForce_spec env w) as H1. cbv zeta in H1.
    match type of H1 with _ = Ok _ (add_alerts _ ?r) => set (r1 := r) in * end.
    pose proof (detectBruteForce_spec env (add_alerts w r1)) as H2.
    cbv zeta in H2. change (logs (add_alerts w r1)) with (logs w) in H2.
    eexists. eexists. eexists. eexists.
    split; [exact H1|]. split; [exact H2|]. split.
    + rewrite !map_app. f_equal.
      * apply (numbered_content _ _
                 (fun g => ("brute_force_ip", None, Rules.g_source_ip g,
                            Rules.g_count g, Rules.g_first g, Rules.g_last g))).
        reflexivity.
      * apply (numbered_content _ _
                 (fun g => ("brute_force_user", Rules.g_username g,
                            Rules.g_source_ip g, Rules.g_count g,
                            Rules.g_first g, Rules.g_last g))).
        reflexivity.
    + cbn [add_alerts alerts]. unfold r1.
      rewrite !length_app, !numbered_all_length. lia.
  - pose proof (detectOffHoursAccess_spec env w) as H1. cbv zeta in H1.
    match type of H1 with _ = Ok _ (add_alerts _ ?r) => set (r1 := r) in * end.
    pose proof (detectOffHoursAccess_spec env (add_alerts w r1)) as H2.
    cbv zeta in H2. change (logs (add_alerts w r1)) with (logs w) in H2.
    eexists. eexists. eexists. eexists.
    split; [exact H1|]. split; [exact H2|]. split.
    + apply (numbered_content _ _
               (fun r => ("off_hours", username r, source_ip r, timestamp r,
                          event_type r))).
      reflexivity.
    + cbn [add_alerts alerts]. unfold r1.
      rewrite !length_app, !numbered_all_length. lia.
  - pose proof (detectGeoAnomalies_full env w) as H1. cbv zeta in H1.
    match type of H1 with _ = Ok _ (add_alerts _ ?r) => set (r1 := r) in * end.
    pose proof (detectGeoAnomalies_full env (add_alerts w r1)) as H2.
    cbv zeta in H2. change (logs (add_alerts w r1)) with (logs w) in H2.
    eexists. eexists. eexists. eexists.
    split; [exact H1|]. split; [exact H2|]. split.
    + rewrite !map_app. f_equal; [|f_equal];
        apply (numbered_content _ _
                 (fun g => ("geo_anomaly", Rules.g_source_ip g,
                            Rules.g_username g, Rules.g_count g,
                            Rules.g_first g, Rules.g_last g)));
        reflexivity.
    + cbn [add_alerts alerts]. unfold r1.
      rewrite !length_app, !numbered_all_length. lia.
Qed.

(** ** The summary without a provider *)

Lemma own_has_key {A : Type} (k : string) (o : Js.object A) :
  Js.has_key k o = match AiAnalyst.own k o with
                   | Some _ => true
                   | None => false
                   end.
Proof.
  unfold Js.has_key, AiAnalyst.own.
  induction o as [|[k' v] t IH]; simpl; [reflexivity|].
  destruct (String.eqb k' k); simpl; auto.
Qed.

Lemma has_key_In {A : Type} (k : string) (o : Js.object A) :
  Js.has_key k o = true <-> In k (map fst o).
Proof.
  unfold Js.has_key. rewrite existsb_exists, in_map_iff. split.
  - intros [kv [Hin Heq]]. apply String.eqb_eq in Heq. eauto.
  - intros [kv [Heq Hin]]. exists kv. split; auto.
    apply String.eqb_eq. exact Heq.
Qed.

Lemma own_overwrite {A : Type} (k k' : string) (v : A) (o : Js.object A) :
  AiAnalyst.own k
    (map (fun kv => if String.eqb (fst kv) k' then (k', v) else kv) o)
  = if String.eqb k k'
    then match AiAnalyst.own k o with Some _ => Some v | None => None end
    else AiAnalyst.own k o.
Proof.
  unfold AiAnalyst.own.
  induction o as [|[k0 v0] t IH]; simpl.
  - destruct (String.eqb k k'); reflexivity.
  - destruct (String.eqb_spec k0 k') as [-> | Hne]; simpl.
    + rewrite (String.eqb_sym k' k).
      destruct (String.eqb_spec k k') as [-> | Hk]; simpl; [reflexivity|].
      exact IH.
    + destruct (String.eqb_spec k0 k) as [-> | Hk]; simpl.
      * destruct (String.eqb_spec k k'); [contradiction | reflexivity].
      * exact IH.
Qed.

Lemma own_app {A : Type} (k : string) (o1 o2 : Js.object A) :
  AiAnalyst.own k (o1 ++ o2)%list
  = match AiAnalyst.own k o1 with
    | Some v => Some v
    | None => AiAnalyst.own k o2
    end.
Proof.
  unfold AiAnalyst.own.
  induction o1 as [|[k0 v0] t IH]; simpl; [reflexivity|].
  destruct (String.eqb k0 k); simpl; auto.
Qed.

(** Reading a key after an assignment. *)
Lemma own_set {A : Type} (k k' : string) (v : A) (o : Js.object A) :
  AiAnalyst.own k (Js.set k' v o)
  = if String.eqb k k' && negb (String.eqb k' "__proto__") then Some v
    else AiAnalyst.own k o.
Proof.
  unfold Js.set. destruct (String.eqb k' "__proto__") eqn:Ep.
  - rewrite andb_false_r. reflexivity.
  - rewrite andb_true_r. destruct (Js.has_key k' o) eqn:Eh.
    + rewrite own_overwrite. destruct (String.eqb_spec k k') as [-> | Hk];
        [|reflexivity].
      rewrite own_has_key in Eh.
      destruct (AiAnalyst.own k' o); [reflexivity | discriminate].
    + rewrite own_app. destruct (String.eqb_spec k k') as [-> | Hk].
      * rewrite own_has_key in Eh.
        destruct (AiAnalyst.own k' o); [discriminate|].
        unfold AiAnalyst.own. simpl. rewrite String.eqb_refl. reflexivity.
      * destruct (AiAnalyst.own k o); [reflexivity|].
        unfold AiAnalyst.own. simpl.
        destruct (String.eqb_spec k' k); [congruence | reflexivity].
Qed.

(** The keys after an assignment. *)
Lemma keys_set {A : Type} (k : string) (v : A) (o : Js.object A) :
  map fst (Js.set k v o)
  = (map fst o
     ++ if String.eqb k "__proto__" || Js.has_key k o then [] else [k])%list.
Proof.
  unfold Js.set. destruct (String.eqb k "__proto__"); simpl.
  - rewrite app_nil_r. reflexivity.
  - destruct (Js.has_key k o).
    + rewrite app_nil_r, map_map. apply map_ext. intros [k0 v0]. simpl.
      destruct (String.eqb_spec k0 k); simpl; congruence.
    + rewrite map_app. reflexivity.
Qed.

Lemma uniq_snoc (l : list string) (x : string) :
  Js.uniq (l ++ [x])
  = (Js.uniq l ++ if existsb (String.eqb x) l then [] else [x])%list.
Proof.
  induction l as [|y t IH]; simpl; [reflexivity|].
  rewrite IH, filter_app. f_equal.
  destruct (String.eqb_spec x y) as [-> | Hne]; simpl.
  - destruct (existsb (String.eqb y) t); simpl; rewrite ?String.eqb_refl;
      simpl; rewrite ?app_nil_r; reflexivity.
  - destruct (existsb (String.eqb x) t); simpl; [reflexivity|].
    destruct (String.eqb_spec x y); [contradiction | reflexivity].
Qed.

Lemma has_severity_count (k : string) (alerts : list AlertRow) :
  has_severity k alerts = (0 <? alerts_of k alerts).
Proof.
  unfold has_severity, alerts_of.
  induction alerts as [|a t IH]; simpl; [reflexivity|].
  destruct (String.eqb (severity a) k); simpl; [|exact IH].
  symmetry. apply Z.ltb_lt. lia.
Qed.

Lemma alerts_of_snoc (k : string) (seen : list AlertRow) (a : AlertRow) :
  alerts_of k (seen ++ [a])
  = alerts_of k seen + if String.eqb (severity a) k then 1 else 0.
Proof.
  unfold alerts_of. rewrite filter_app, length_app. simpl.
  destruct (String.eqb (severity a) k); simpl; lia.
Qed.

Lemma has_severity_snoc (k : string) (seen : list AlertRow) (a : AlertRow) :
  has_severity k (seen ++ [a])
  = has_severity k seen || String.eqb (severity a) k.
Proof.
  unfold has_severity. rewrite existsb_app. simpl.
  rewrite orb_false_r. reflexivity.
Qed.

Lemma get_plain (acc : Js.object AiAnalyst.Counter) (k : string) :
  plain_key k = true ->
  AiAnalyst.get acc k = match AiAnalyst.own k acc with
                        | Some c => AiAnalyst.VOwn c
                        | None => AiAnalyst.VUndefined
                        end.
Proof.
  unfold plain_key, AiAnalyst.get. intros H.
  apply andb_prop in H as [H _]. apply andb_prop in H as [Hp Hf].
  destruct (AiAnalyst.own k acc); [reflexivity|].
  apply negb_true_iff in Hp, Hf. rewrite Hp, Hf. reflexivity.
Qed.

Lemma plain_not_proto (k : string) :
  plain_key k = true -> String.eqb k "__proto__" = false.
Proof.
  unfold plain_key. intros H.
  apply andb_prop in H as [H _]. apply andb_prop in H as [Hp _].
  apply negb_true_iff in Hp. exact Hp.
Qed.

Section Counting.
Variable env : AiAnalyst.AiEnv.

Lemma counted_step (seen : list AlertRow) (acc : Js.object AiAnalyst.Counter)
    (a : AlertRow) :
  counted seen acc ->
  counted (seen ++ [a])
    (Js.set (severity a)
            (AiAnalyst.or_zero_plus_one env (AiAnalyst.get acc (severity a)))
            acc).
Proof.
  intros [Hown Hkeys]. split.
  - intros k Hk. rewrite own_set, has_severity_snoc, alerts_of_snoc.
    rewrite (String.eqb_sym k).
    destruct (String.eqb_spec (severity a) k) as [E | E].
    + rewrite E, (plain_not_proto k Hk). simpl. rewrite orb_true_r.
      rewrite (get_plain acc k Hk), (Hown k Hk).
      rewrite has_severity_count.
      destruct (0 <? alerts_of k seen) eqn:Epos; simpl.
      * apply Z.ltb_lt in Epos.
        destruct (Z.eqb_spec (alerts_of k seen) 0); [lia | reflexivity].
      * apply Z.ltb_ge in Epos.
        assert (alerts_of k seen = 0)
          by (unfold alerts_of in *; lia).
        rewrite H. reflexivity.
    + simpl. rewrite orb_false_r, Z.add_0_r. apply Hown, Hk.
  - rewrite keys_set, map_app.
    change (map severity [a]) with [severity a].
    rewrite uniq_snoc, filter_app, Hkeys. f_equal.
    destruct (String.eqb_spec (severity a) "__proto__") as [E | E]; simpl.
    + destruct (existsb (String.eqb (severity a)) (map severity seen));
        simpl; [reflexivity|]. rewrite E. reflexivity.
    + assert (Hk : Js.has_key (severity a) acc
                   = existsb (String.eqb (severity a)) (map severity seen)).
      { apply eq_true_iff_eq. rewrite has_key_In, Hkeys, filter_In, uniq_In.
        rewrite existsb_exists. split.
        - intros [Hin _]. exists (severity a). split; auto.
          apply String.eqb_refl.
        - intros [x [Hin Heq]]. apply String.eqb_eq in Heq. subst x.
          split; auto. apply negb_true_iff. apply String.eqb_neq. exact E. }
      rewrite Hk.
      destruct (existsb (String.eqb (severity a)) (map severity seen));
        simpl; [reflexivity|].
      destruct (String.eqb_spec (severity a) "__proto__");
        [contradiction | reflexivity].
Qed.

Lemma counted_fold (rest seen : list AlertRow)
    (acc : Js.object AiAnalyst.Counter) :
  counted seen acc ->
  counted (seen ++ rest)
    (fold_left (fun acc alert =>
                  Js.set (severity alert)
                         (AiAnalyst.or_zero_plus_one env
                            (AiAnalyst.get acc (severity alert))) acc)
               rest acc).
Proof.
  revert seen acc. induction rest as [|a t IH]; intros seen acc H; simpl.
  - rewrite app_nil_r. exact H.
  - replace (seen ++ a :: t)%list with ((seen ++ [a]) ++ t)%list
      by (rewrite <- app_assoc; reflexivity).
    apply IH, counted_step, H.
Qed.

Lemma severityCounts_counted (alerts : list AlertRow) :
  counted alerts (AiAnalyst.severityCounts env alerts).
Proof.
  apply (counted_fold alerts [] []). split; [|reflexivity].
  intros k _. reflexivity.
Qed.

Lemma gt_zero_plain (alerts : list AlertRow) (k : string) :
  plain_key k = true ->
  AiAnalyst.gt_zero env
    (AiAnalyst.get (AiAnalyst.severityCounts env alerts) k)
  = has_severity k alerts.
Proof.
  intros Hk. destruct (severityCounts_counted alerts) as [Hown _].
  rewrite (get_plain _ k Hk), (Hown k Hk).
  destruct (has_severity k alerts) eqn:E; simpl; [|reflexivity].
  rewrite has_severity_count in E. exact E.
Qed.

Lemma threatLevel_worst (alerts : list AlertRow) :
  AiAnalyst.threatLevel env alerts = worst alerts.
Proof.
  unfold AiAnalyst.threatLevel, worst.
  rewrite !gt_zero_plain by reflexivity. reflexivity.
Qed.

End Counting.

Lemma totalEvents_sum (alerts : list AlertRow) :
  AiAnalyst.totalEvents alerts = sum_of (map events_of alerts).
Proof.
  unfold AiAnalyst.totalEvents.
  assert (H : forall l acc,
             fold_left (fun sum a =>
                          sum + (if event_count a =? 0 then 1
                                 else event_count a)) l acc
             = acc + sum_of (map events_of l)).
  { induction l as [|a t IH]; intros acc; simpl; [lia|].
    rewrite IH. unfold events_of. lia. }
  rewrite H. lia.
Qed.

Lemma index_keys_none {A : Type} (o : Js.object A) :
  (forall kv, In kv o -> Js.is_index_key kv = false) ->
  Js.entries o = o.
Proof.
  intros H. unfold Js.entries.
  assert (Hi : Js.index_keys o = []).
  { induction o as [|kv t IH]; simpl; [reflexivity|].
    assert (Hkv := H kv (or_introl eq_refl)). unfold Js.is_index_key in Hkv.
    destruct (Js.array_index (fst kv)); [discriminate|].
    apply IH. intros x Hx. apply H. right. exact Hx. }
  rewrite Hi. simpl.
  rewrite (filter_ext_in _ (fun _ => true)), filter_all; [reflexivity|].
  intros kv Hkv. rewrite (H kv Hkv). reflexivity.
Qed.

Lemma own_of_distinct {A : Type} (o : Js.object A) :
  NoDup (map fst o) ->
  forall kv, In kv o -> AiAnalyst.own (fst kv) o = Some (snd kv).
Proof.
  unfold AiAnalyst.own.
  induction o as [|[k0 v0] t IH]; intros Hnd kv Hin; [contradiction|].
  inversion Hnd as [|? ? Hk0 Ht]; subst. simpl.
  destruct Hin as [<- | Hin]; simpl.
  - rewrite String.eqb_refl. reflexivity.
  - destruct (String.eqb_spec k0 (fst kv)) as [E | E].
    + exfalso. apply Hk0. rewrite E. apply in_map. exact Hin.
    + apply IH; assumption.
Qed.

(** The summary written without the provider.  Its threat level is the
    highest of Critical, High and Medium for which some alert has
    exactly the severity critical, high or medium, and Low when none
    has (so also for no alert at all, and for severities written in
    another case); its number of events is the sum of the event counts,
    an alert with the count 0 standing for one event.  The object of
    the counts holds, under every severity that is an ordinary key, the
    number of alerts of that severity; when all severities are ordinary
    keys the breakdown lists them in the order of their first alert,
    each with that number. *)
Theorem generateStubSummary_level (env : AiAnalyst.AiEnv)
    (alerts : list AlertRow) :
  AiAnalyst.generateStubSummary env alerts
  = AiAnalyst.summary_text (worst alerts) (Z.of_nat (List.length alerts))
                           (sum_of (map events_of alerts))
                           (AiAnalyst.breakdown env alerts)
  /\ AiAnalyst.generateStubSummary env []
     = AiAnalyst.summary_text "Low" 0 0 EmptyString
  /\ (forall k, plain_key k = true ->
        AiAnalyst.own k (AiAnalyst.severityCounts env alerts)
        = if has_severity k alerts
          then Some (AiAnalyst.Count (alerts_of k alerts)) else None)
  /\ (forallb plain_key (map severity alerts) = true ->
      AiAnalyst.breakdown env alerts
      = AiAnalyst.join ", "
          (map (fun k => Js.string_of_Z (alerts_of k alerts) ++ " " ++ k)
               (Js.uniq (map severity alerts)))).
Proof.
  destruct (severityCounts_counted env alerts) as [Hown Hkeys].
  split; [|split; [reflexivity|split; [exact Hown|]]].
  - unfold AiAnalyst.generateStubSummary.
    rewrite threatLevel_worst, totalEvents_sum. reflexivity.
  - intros Hplain. rewrite forallb_forall in Hplain.
    assert (Hnone : filter (fun k => negb (String.eqb k "__proto__"))
                           (Js.uniq (map severity alerts))
                    = Js.uniq (map severity alerts)).
    { rewrite (filter_ext_in _ (fun _ => true)), filter_all; [reflexivity|].
      intros k Hk. apply (proj1 (uniq_In k _)) in Hk.
      rewrite (plain_not_proto k (Hplain k Hk)). reflexivity. }
    rewrite Hnone in Hkeys.
    assert (Hnd : NoDup (map fst (AiAnalyst.severityCounts env alerts)))
      by (rewrite Hkeys; apply uniq_NoDup).
    assert (Hkey : forall kv,
               In kv (AiAnalyst.severityCounts env alerts) ->
               plain_key (fst kv) = true).
    { intros kv Hkv. apply Hplain. apply uniq_In. rewrite <- Hkeys.
      apply in_map. exact Hkv. }
    unfold AiAnalyst.breakdown. rewrite index_keys_none.
    + rewrite <- Hkeys, map_map. f_equal. apply map_ext_in.
      intros kv Hkv. pose proof (own_of_distinct _ Hnd kv Hkv) as Hv.
      rewrite (Hown _ (Hkey kv Hkv)) in Hv.
      destruct (has_severity (fst kv) alerts); [|discriminate].
      injection Hv as <-. reflexivity.
    + intros kv Hkv. pose proof (Hkey kv Hkv) as Hp. unfold plain_key in Hp.
      apply andb_prop in Hp as [_ Hp]. unfold Js.is_index_key.
      destruct (Js.array_index (fst kv)); [discriminate | reflexivity].
Qed.

(** Two high alerts around a critical one: the level is Critical, the
    breakdown keeps the order of first occurrence, and the alert whose
    count is 0 stands for one event. *)
Lemma generateStubSummary_level_witness :
  AiAnalyst.generateStubSummary SampleAi.no_key
    [SampleAi.alert 1 "high" None 5; SampleAi.alert 2 "critical" None 0;
     SampleAi.alert 3 "high" None 7]
  = AiAnalyst.summary_text "Critical" 3 13 "2 high, 1 critical".
Proof.
  destruct (generateStubSummary_level SampleAi.no_key
              [SampleAi.alert 1 "high" None 5;
               SampleAi.alert 2 "critical" None 0;
               SampleAi.alert 3 "high" None 7])
    as [Htext [_ [_ Hbreak]]].
  rewrite Htext, Hbreak; reflexivity.
Defined.

(** ** ORDER BY and LIMIT *)

Lemma place_rows {Row : Type} (before : Row -> Row -> bool) (x : Row)
    (rows : list Row) :
  Permutation (Order.place before x rows) (x :: rows).
Proof.
  induction rows as [|y t IH]; simpl; [reflexivity|].
  destruct (before x y); [reflexivity|].
  rewrite IH. apply perm_swap.
Qed.

Lemma sorted_by_rows {Row : Type} (before : Row -> Row -> bool)
    (rows : list Row) :
  Permutation (Order.sorted_by before rows) rows.
Proof.
  unfold Order.sorted_by. induction rows as [|x t IH]; simpl; [reflexivity|].
  rewrite place_rows. constructor. exact IH.
Qed.

Section Ordered.
Context {Row : Type}.
Variable before : Row -> Row -> bool.
Variable ahead : Row -> Row -> Prop.
Hypothesis ahead_trans : forall a b c, ahead a b -> ahead b c -> ahead a c.
Hypothesis before_ahead : forall a b, before a b = true -> ahead a b.
Hypothesis behind_ahead : forall a b, before a b = false -> ahead b a.

Lemma place_ordered (x : Row) (rows : list Row) :
  StronglySorted ahead rows ->
  StronglySorted ahead (Order.place before x rows).
Proof.
  induction rows as [|y t IH]; intros Hs; simpl.
  - constructor; constructor.
  - inversion Hs as [|? ? Ht Hy]; subst.
    destruct (before x y) eqn:E.
    + constructor; [exact Hs|]. constructor.
      * apply before_ahead, E.
      * rewrite Forall_forall in *. intros z Hz.
        apply (ahead_trans x y z); auto.
    + constructor; [apply IH, Ht|].
      rewrite Forall_forall in *. intros z Hz.
      apply (Permutation_in _ (place_rows before x t)) in Hz.
      destruct Hz as [<- | Hz]; auto.
Qed.

Lemma sorted_by_ordered (rows : list Row) :
  StronglySorted ahead (Order.sorted_by before rows).
Proof.
  unfold Order.sorted_by. induction rows as [|x t IH]; simpl.
  - constructor.
  - apply place_ordered, IH.
Qed.

End Ordered.

Lemma ordered_split {Row : Type} (ahead : Row -> Row -> Prop)
    (front back : list Row) :
  StronglySorted ahead (front ++ back) ->
  forall a b, In a front -> In b back -> ahead a b.
Proof.
  induction front as [|x t IH]; intros Hs a b Ha Hb; [contradiction|].
  simpl in Hs. inversion Hs as [|? ? Ht Hx]; subst.
  destruct Ha as [<- | Ha].
  - rewrite Forall_forall in Hx. apply Hx, in_or_app. right. exact Hb.
  - apply (IH Ht a b Ha Hb).
Qed.

Lemma leb_total (a b : string) :
  String.leb a b = false -> String.leb b a = true.
Proof.
  unfold String.leb. rewrite (String.compare_antisym b a).
  destruct (String.compare a b); simpl; congruence.
Qed.

(** The first rows of [LIMIT n] against the rows it cuts off. *)
Lemma limit_front {Row : Type} (n : Z) (rows : list Row) :
  0 <= n ->
  Order.limit_offset n 0 rows = firstn (Z.to_nat n) rows
  /\ List.length (Order.limit_offset n 0 rows)
     = Z.to_nat (Z.min n (Z.of_nat (List.length rows))).
Proof.
  intros Hn. unfold Order.limit_offset. simpl.
  destruct (Z.ltb_spec n 0); [lia|]. split; [reflexivity|].
  rewrite length_firstn. lia.
Qed.

Section Latest.
Variable env : AiAnalyst.AiEnv.

Lemma latestLogs_spec (name : string) (column : LogRow -> option string)
    (value : string) (table : list LogRow) :
  let selected := filter (fun r => Sql.eq_text (column r) value) table in
  let latest := AiAnalyst.latestLogs env name column value table in
  exists others,
    Permutation (latest ++ others) selected
    /\ List.length latest
       = Z.to_nat (Z.min 20 (Z.of_nat (List.length selected)))
    /\ StronglySorted
         (fun a b => String.leb (timestamp b) (timestamp a) = true) latest
    /\ (forall a b, In a latest -> In b others ->
                    String.leb (timestamp b) (timestamp a) = true).
Proof.
  intros selected latest.
  set (key := Order.text_desc timestamp
                (AiAnalyst.log_rank env name selected)).
  set (rows := Order.sorted_by key selected).
  assert (Hlatest : latest = firstn 20 rows).
  { unfold latest, AiAnalyst.latestLogs. fold selected. fold key. fold rows.
    apply (limit_front 20 rows). lia. }
  assert (Hsorted : StronglySorted
                      (fun a b => String.leb (timestamp b) (timestamp a) = true)
                      rows).
  { apply (sorted_by_ordered key).
    - intros a b c Hab Hbc. apply (leb_trans _ _ _ Hbc Hab).
    - intros a b. unfold key, Order.text_desc.
      destruct (String.eqb_spec (timestamp a) (timestamp b)) as [E | E].
      + intros _. rewrite E. apply leb_refl.
      + auto.
    - intros a b. unfold key, Order.text_desc.
      destruct (String.eqb_spec (timestamp a) (timestamp b)) as [E | E].
      + intros _. rewrite E. apply leb_refl.
      + apply leb_total. }
  exists (skipn 20 rows). rewrite Hlatest. split; [|split; [|split]].
  - rewrite firstn_skipn. apply sorted_by_rows.
  - rewrite length_firstn.
    pose proof (Permutation_length (sorted_by_rows key selected)) as Hl.
    fold rows in Hl. lia.
  - rewrite <- (firstn_skipn 20 rows) in Hsorted.
    clear - Hsorted. induction (firstn 20 rows) as [|x t IH]; [constructor|].
    simpl in Hsorted. inversion Hsorted as [|? ? Ht Hx]; subst.
    constructor; [apply IH, Ht|].
    rewrite Forall_forall in *. intros z Hz. apply Hx, in_or_app. auto.
  - apply ordered_split. rewrite firstn_skipn. exact Hsorted.
Qed.

End Latest.

(** The log entries given to the provider with an alert.  They are
    entries of the log table related to the alert: those from its
    address or, when the alert has no address (null or empty), those of
    its account, and none when it has neither.  They are the 20 latest
    of them by timestamp (all of them when there are fewer), the latest
    first, timestamps being compared as texts: no related entry that is
    left out is later than one that is given. *)
Theorem relatedLogs_latest (env : AiAnalyst.AiEnv) (table : list LogRow)
    (alert : AlertRow) :
  let related := filter (related_to alert) table in
  let given := AiAnalyst.relatedLogs env table alert in
  exists others,
    Permutation (given ++ others) related
    /\ List.length given
       = Z.to_nat (Z.min 20 (Z.of_nat (List.length related)))
    /\ (forall r, In r given -> In r table /\ related_to alert r = true)
    /\ StronglySorted
         (fun a b => String.leb (timestamp b) (timestamp a) = true) given
    /\ (forall a b, In a given -> In b others ->
                    String.leb (timestamp b) (timestamp a) = true)
    /\ (AiAnalyst.truthy_text (alert_source_ip alert) = false ->
        AiAnalyst.truthy_text (affected_entity alert) = false ->
        given = []).
Proof.
  intros related given.
  assert (Hcases :
    exists others,
      Permutation (given ++ others) related
      /\ List.length given
         = Z.to_nat (Z.min 20 (Z.of_nat (List.length related)))
      /\ StronglySorted
           (fun a b => String.leb (timestamp b) (timestamp a) = true) given
      /\ (forall a b, In a given -> In b others ->
                      String.leb (timestamp b) (timestamp a) = true)).
  { unfold given, related, AiAnalyst.relatedLogs, related_to.
    destruct (AiAnalyst.truthy_text (alert_source_ip alert)).
    - apply latestLogs_spec.
    - destruct (AiAnalyst.truthy_text (affected_entity alert)).
      + apply latestLogs_spec.
      + exists []. rewrite (filter_none (fun _ => false)) by reflexivity.
        repeat split; try constructor; intros; contradiction. }
  destruct Hcases as [others [Hperm [Hlen [Hsorted Hcut]]]].
  exists others. repeat match goal with |- _ /\ _ => split end; auto.
  - intros r Hr.
    assert (Hin : In r related).
    { apply (Permutation_in _ Hperm), in_or_app. left. exact Hr. }
    apply filter_In in Hin. exact Hin.
  - intros Hip Huser. unfold given, AiAnalyst.relatedLogs.
    rewrite Hip, Huser. reflexivity.
Qed.

(** An alert on an address with three entries in the log: the three
    are given, the latest first. *)
Lemma relatedLogs_latest_witness :
  map timestamp
    (AiAnalyst.relatedLogs SampleAi.with_key
       [Sample.log 1 "2025-10-15T11:57:00Z" "admin" "10.0.0.5" "failed";
        Sample.log 2 "2025-10-15T11:59:00Z" "admin" "10.0.0.5" "failed";
        Sample.log 3 "2025-10-15T11:58:00Z" "guest" "10.0.0.9" "failed";
        Sample.log 4 "2025-10-15T11:58:30Z" "root" "10.0.0.5" "failed"]
       (SampleAi.alert 1 "high" (Some "10.0.0.5") 3))
  = ["2025-10-15T11:59:00Z"; "2025-10-15T11:58:30Z"; "2025-10-15T11:57:00Z"].
Proof.
  destruct (relatedLogs_latest SampleAi.with_key
       [Sample.log 1 "2025-10-15T11:57:00Z" "admin" "10.0.0.5" "failed";
        Sample.log 2 "2025-10-15T11:59:00Z" "admin" "10.0.0.5" "failed";
        Sample.log 3 "2025-10-15T11:58:00Z" "guest" "10.0.0.9" "failed";
        Sample.log 4 "2025-10-15T11:58:30Z" "root" "10.0.0.5" "failed"]
       (SampleAi.alert 1 "high" (Some "10.0.0.5") 3))
    as [others _].
  vm_compute. reflexivity.
Defined.

(** ** The analyst and its provider *)

Lemma text_of_truthy (data t : Json) :
  text_of data = Some t -> Parsers.truthy (Some t) = true.
Proof.
  unfold text_of. intros H.
  destruct (Parsers.prop data "content") as [c|]; [|discriminate].
  destruct (Parsers.truthy (Some c)); [|discriminate].
  destruct (AiAnalyst.first c) as [item|]; [|discriminate].
  destruct (Parsers.truthy (Some item)); [|discriminate]. simpl in H.
  destruct (Parsers.truthy (Parsers.prop item "text")) eqn:E; [|discriminate].
  rewrite H in E. exact E.
Qed.

Lemma content_text_spec (env : AiAnalyst.AiEnv) (data : Json)
    (sent : list AiAnalyst.Request) :
  AiAnalyst.content_text env data sent
  = match data with
    | JNull => AiAnalyst.Thrown (AiAnalyst.null_read env "content") sent
    | _ => AiAnalyst.Returned (text_of data) sent
    end.
Proof.
  unfold AiAnalyst.content_text, AiAnalyst.bind, AiAnalyst.read, text_of.
  destruct data; try reflexivity.
  cbn [Parsers.prop AiAnalyst.ret].
  destruct (Parsers.assoc "content" fields) as [c|]; [|reflexivity].
  destruct (Parsers.truthy (Some c)); [|reflexivity].
  destruct (AiAnalyst.first c) as [item|]; [|reflexivity].
  destruct (Parsers.truthy (Some item)); [|reflexivity].
  cbn [andb].
  destruct (Parsers.truthy (Parsers.prop item "text")); reflexivity.
Qed.

Lemma summary_text_truthy (level : string) (n events : Z) (b : string) :
  Parsers.truthy (Some (JStr (AiAnalyst.summary_text level n events b)))
  = true.
Proof. reflexivity. Qed.

Lemma key_configured_cases (env : AiAnalyst.AiEnv) :
  AiAnalyst.key_configured env = false <->
  AiAnalyst.ANTHROPIC_API_KEY env = None
  \/ AiAnalyst.ANTHROPIC_API_KEY env = Some EmptyString
  \/ AiAnalyst.ANTHROPIC_API_KEY env = Some "your_api_key_here".
Proof.
  unfold AiAnalyst.key_configured.
  destruct (AiAnalyst.ANTHROPIC_API_KEY env) as [k|].
  - destruct (String.eqb_spec k EmptyString) as [-> | H1]; simpl.
    + split; auto.
    + destruct (String.eqb_spec k "your_api_key_here") as [-> | H2]; simpl.
      * split; auto.
      * split; [discriminate|].
        intros [H | [H | H]]; congruence.
  - split; auto.
Qed.

(** Closes the cases of a call that has run to its end. *)
Ltac falls_back :=
  repeat match goal with |- _ /\ _ => split end;
  first [ reflexivity
        | assumption
        | intros; discriminate
        | intros; repeat split; auto ].

(** [generateAISummary] always returns a summary, and never an empty
    one.  Without a usable key (none, the empty text, or the placeholder
    your_api_key_here) it sends nothing and returns the summary written
    without the provider.  With a key it sends exactly one request, the
    prompt built from the alerts with max_tokens 1024, and returns the
    provider's text only when the response is ok and its body has a
    truthy content[0].text; when the request fails, the status is an
    error, the body cannot be read, is null, or has no such text, the
    result is again the summary written without the provider. *)
Theorem generateAISummary_falls_back (env : AiAnalyst.AiEnv)
    (alerts : list AlertRow) (sent : list AiAnalyst.Request) :
  let request :=
    request_of env 1024 (AiAnalyst.buildAnalystPrompt env alerts) in
  let stub := JStr (AiAnalyst.generateStubSummary env alerts) in
  exists summary sent',
    AiAnalyst.generateAISummary env alerts sent
    = AiAnalyst.Returned summary sent'
    /\ AiAnalyst.summarizeAlerts env alerts sent
       = AiAnalyst.Returned summary sent'
    /\ Parsers.truthy (Some summary) = true
    /\ (AiAnalyst.key_configured env = false <->
        AiAnalyst.ANTHROPIC_API_KEY env = None
        \/ AiAnalyst.ANTHROPIC_API_KEY env = Some EmptyString
        \/ AiAnalyst.ANTHROPIC_API_KEY env = Some "your_api_key_here")
    /\ (AiAnalyst.key_configured env = false ->
        sent' = sent /\ summary = stub)
    /\ (AiAnalyst.key_configured env = true ->
        sent' = (sent ++ [request])%list
        /\ Some (AiAnalyst.x_api_key request) = AiAnalyst.ANTHROPIC_API_KEY env
        /\ summary = match verdict env sent request with
                     | Answer text => text
                     | _ => stub
                     end).
Proof.
  intros request stub.
  assert (Hstub : Parsers.truthy (Some stub) = true)
    by apply summary_text_truthy.
  assert (Hkey : AiAnalyst.key_configured env = true ->
                 Some (AiAnalyst.x_api_key request)
                 = AiAnalyst.ANTHROPIC_API_KEY env).
  { unfold request, request_of, AiAnalyst.api_key, AiAnalyst.key_configured.
    simpl. destruct (AiAnalyst.ANTHROPIC_API_KEY env);
      [reflexivity | discriminate]. }
  unfold AiAnalyst.summarizeAlerts, AiAnalyst.generateAISummary.
  generalize (key_configured_cases env). revert Hkey.
  destruct (AiAnalyst.key_configured env); intros Hkey Hcases; simpl.
  2:{ exists stub, sent. falls_back. }
  unfold AiAnalyst.try_catch, AiAnalyst.bind, AiAnalyst.fetch, verdict.
  fold (request_of env 1024 (AiAnalyst.buildAnalystPrompt env alerts)).
  fold request. fold stub.
  destruct (AiAnalyst.post env sent request) as [m | response].
  { exists stub, (sent ++ [request])%list. falls_back. }
  destruct (AiAnalyst.ok response); simpl.
  - destruct (AiAnalyst.body_json response) as [m | data]; simpl.
    { exists stub, (sent ++ [request])%list. falls_back. }
    rewrite content_text_spec.
    destruct data;
      try (destruct (text_of _) as [t|] eqn:Et;
           [ pose proof (text_of_truthy _ _ Et);
             exists t, (sent ++ [request])%list; falls_back
           | exists stub, (sent ++ [request])%list; falls_back ]).
    exists stub, (sent ++ [request])%list. falls_back.
  - destruct (AiAnalyst.body_text response) as [m | body]; simpl;
      exists stub, (sent ++ [request])%list; falls_back.
Qed.

(** With the placeholder key of the example configuration nothing is
    sent, although the provider would answer. *)
Lemma generateAISummary_falls_back_witness :
  exists summary,
    AiAnalyst.generateAISummary SampleAi.placeholder_key
      [SampleAi.alert 1 "high" None 5] []
    = AiAnalyst.Returned summary []
    /\ summary
       = JStr (AiAnalyst.summary_text "High" 1 5 "1 high").
Proof.
  destruct (generateAISummary_falls_back SampleAi.placeholder_key
              [SampleAi.alert 1 "high" None 5] [])
    as [summary [sent' [Hrun [_ [_ [_ [Hnone _]]]]]]].
  destruct Hnone as [-> ->]; [reflexivity|].
  exists (JStr (AiAnalyst.generateStubSummary SampleAi.placeholder_key
                  [SampleAi.alert 1 "high" None 5])).
  split; [exact Hrun | reflexivity].
Defined.

Lemma alertById_found (table : list AlertRow) (alertId : Js.number)
    (alert : AlertRow) :
  AiAnalyst.alertById table alertId = Some alert ->
  In alert table /\ alertId = Js.Num (alert_id alert).
Proof.
  unfold AiAnalyst.alertById. destruct alertId as [z| | |]; try discriminate.
  intros H. apply find_some in H as [Hin Hid].
  apply Z.eqb_eq in Hid. split; [exact Hin | congruence].
Qed.

(** [generateAlertSummary] always returns an analysis, and never an
    empty one.  For an id that no alert has, NaN included, it is the
    text Alert not found and nothing is sent.  Without a usable key
    nothing is sent either and the analysis is a note that the analyst
    is not configured, followed by the title and the description of the
    alert.  With a key exactly one request is sent, the prompt built
    from the alert and its related log entries with max_tokens 2048;
    the analysis is the provider's text when the response is ok and
    has one, and otherwise a note on the failure (the error thrown, an
    error status, an invalid response), again followed by the title and
    the description.  The database is only read. *)
Theorem generateAlertSummary_answers (env : AiAnalyst.AiEnv) (w : World)
    (alertId : Js.number) (sent : list AiAnalyst.Request) :
  exists analysis sent',
    AiAnalyst.generateAlertSummary env w alertId sent
    = AiAnalyst.Returned analysis sent'
    /\ Parsers.truthy (Some analysis) = true
    /\ match AiAnalyst.alertById (alerts w) alertId with
       | None => analysis = JStr "Alert not found" /\ sent' = sent
       | Some alert =>
           In alert (alerts w) /\ alertId = Js.Num (alert_id alert)
           /\ if AiAnalyst.key_configured env then
                let request :=
                  request_of env 2048
                    (AiAnalyst.alertPrompt alert
                       (AiAnalyst.logsContext
                          (AiAnalyst.relatedLogs env (logs w) alert))) in
                sent' = (sent ++ [request])%list
                /\ analysis
                   = match verdict env sent request with
                     | Answer text => text
                     | Threw message =>
                         JStr (AiAnalyst.titled
                                 ("[Analysis failed - " ++ message ++ "]")
                                 alert)
                     | ErrorStatus =>
                         JStr (AiAnalyst.titled
                                 "[Analysis failed - API error]" alert)
                     | InvalidBody =>
                         JStr (AiAnalyst.titled
                                 "[Analysis failed - Invalid response]" alert)
                     end
              else
                sent' = sent
                /\ analysis
                   = JStr (AiAnalyst.titled
                             ("[Detailed analysis for alert #"
                              ++ Js.string_of_Z (alert_id alert)
                              ++ " - AI not configured]") alert)
       end
    /\ (alertId = Js.NaN -> analysis = JStr "Alert not found").
Proof.
  unfold AiAnalyst.generateAlertSummary.
  destruct (AiAnalyst.alertById (alerts w) alertId) as [alert|] eqn:Ealert.
  2:{ exists (JStr "Alert not found"), sent. repeat split; reflexivity. }
  destruct (alertById_found _ _ _ Ealert) as [Hin Hid].
  destruct (AiAnalyst.key_configured env) eqn:Ekey; simpl.
  2:{ eexists. exists sent. split; [reflexivity|].
      split; [reflexivity|]. split.
      - rewrite Hid. repeat split; auto.
      - intros HNaN. congruence. }
  set (prompt := AiAnalyst.alertPrompt alert
                   (AiAnalyst.logsContext
                      (AiAnalyst.relatedLogs env (logs w) alert))).
  unfold AiAnalyst.try_catch, AiAnalyst.bind, AiAnalyst.fetch, verdict.
  fold (request_of env 2048 prompt).
  set (request := request_of env 2048 prompt).
  assert (Hnan : alertId = Js.NaN -> False) by congruence.
  destruct (AiAnalyst.post env sent request) as [m | response].
  { eexists. exists (sent ++ [request])%list. split; [reflexivity|].
    split; [reflexivity|]. split; [|intros H; destruct (Hnan H)].
    repeat split; auto. }
  destruct (AiAnalyst.ok response); simpl.
  - destruct (AiAnalyst.body_json response) as [m | data]; simpl.
    { eexists. exists (sent ++ [request])%list. split; [reflexivity|].
      split; [reflexivity|]. split; [|intros H; destruct (Hnan H)].
      repeat split; auto. }
    rewrite content_text_spec.
    destruct data;
      try (destruct (text_of _) as [t|] eqn:Et;
           [ exists t, (sent ++ [request])%list; split; [reflexivity|];
             split; [apply (text_of_truthy _ _ Et)|];
             split; [|intros H; destruct (Hnan H)];
             repeat split; auto
           | eexists; exists (sent ++ [request])%list; split; [reflexivity|];
             split; [reflexivity|];
             split; [|intros H; destruct (Hnan H)];
             repeat split; auto ]).
    eexists. exists (sent ++ [request])%list. split; [reflexivity|].
    split; [reflexivity|]. split; [|intros H; destruct (Hnan H)].
    repeat split; auto.
  - destruct (AiAnalyst.body_text response) as [m | body]; simpl;
      (eexists; exists (sent ++ [request])%list; split; [reflexivity|];
       split; [reflexivity|]; split; [|intros H; destruct (Hnan H)];
       repeat split; auto).
Qed.

(** A provider over its quota: one request, and the note on the error
    status with the title and the description of the alert. *)
Lemma generateAlertSummary_answers_witness :
  exists request,
    AiAnalyst.generateAlertSummary SampleAi.over_quota
      (SampleAi.with_alerts [SampleAi.alert 1 "high" (Some "10.0.0.5") 5] [])
      (Js.Num 1) []
    = AiAnalyst.Returned
        (JStr (AiAnalyst.titled "[Analysis failed - API error]"
                 (SampleAi.alert 1 "high" (Some "10.0.0.5") 5)))
        [request]
    /\ AiAnalyst.max_tokens request = 2048.
Proof.
  destruct (generateAlertSummary_answers SampleAi.over_quota
              (SampleAi.with_alerts
                 [SampleAi.alert 1 "high" (Some "10.0.0.5") 5] [])
              (Js.Num 1) [])
    as [analysis [sent' [Hrun [_ [Hcase _]]]]].
  simpl in Hcase. destruct Hcase as [_ [_ [-> ->]]].
  eexists. split; [exact Hrun | reflexivity].
Defined.

(** ** The handlers of the analyst *)

Lemma generateAISummary_returns (env : AiAnalyst.AiEnv)
    (alerts : list AlertRow) (sent : list AiAnalyst.Request) :
  exists summary sent',
    AiAnalyst.generateAISummary env alerts sent
    = AiAnalyst.Returned summary sent'
    /\ (AiAnalyst.key_configured env = false ->
        sent' = sent
        /\ summary = JStr (AiAnalyst.generateStubSummary env alerts)).
Proof.
  unfold AiAnalyst.generateAISummary.
  destruct (AiAnalyst.key_configured env); simpl.
  2:{ eexists. eexists. split; [reflexivity|]. auto. }
  unfold AiAnalyst.try_catch, AiAnalyst.bind, AiAnalyst.fetch.
  destruct (AiAnalyst.post env sent _) as [m | response].
  { eexists. eexists. split; [reflexivity | discriminate]. }
  destruct (AiAnalyst.ok response); simpl.
  - destruct (AiAnalyst.body_json response) as [m | data]; simpl.
    { eexists. eexists. split; [reflexivity | discriminate]. }
    rewrite content_text_spec.
    destruct data; try destruct (text_of _);
      eexists; eexists; (split; [reflexivity | discriminate]).
  - destruct (AiAnalyst.body_text response); simpl;
      eexists; eexists; (split; [reflexivity | discriminate]).
Qed.

Lemma generateAlertSummary_returns (env : AiAnalyst.AiEnv) (w : World)
    (alertId : Js.number) (sent : list AiAnalyst.Request) :
  exists analysis sent',
    AiAnalyst.generateAlertSummary env w alertId sent
    = AiAnalyst.Returned analysis sent'
    /\ (AiAnalyst.alertById (alerts w) alertId = None ->
        analysis = JStr "Alert not found" /\ sent' = sent).
Proof.
  unfold AiAnalyst.generateAlertSummary.
  destruct (AiAnalyst.alertById (alerts w) alertId) as [alert|].
  2:{ eexists. eexists. split; [reflexivity|]. auto. }
  destruct (AiAnalyst.key_configured env); simpl.
  2:{ eexists. eexists. split; [reflexivity | discriminate]. }
  unfold AiAnalyst.try_catch, AiAnalyst.bind, AiAnalyst.fetch.
  destruct (AiAnalyst.post env sent _) as [m | response].
  { eexists. eexists. split; [reflexivity | discriminate]. }
  destruct (AiAnalyst.ok response); simpl.
  - destruct (AiAnalyst.body_json response) as [m | data]; simpl.
    { eexists. eexists. split; [reflexivity | discriminate]. }
    rewrite content_text_spec.
    destruct data; try destruct (text_of _);
      eexists; eexists; (split; [reflexivity | discriminate]).
  - destruct (AiAnalyst.body_text response); simpl;
      eexists; eexists; (split; [reflexivity | discriminate]).
Qed.

(** GET /api/alerts/:id/analyze always answers, with 400 or with 200.
    It answers 400 exactly when parseInt reads no number from the id,
    and then nothing is sent.  Otherwise it answers 200 with what
    parseInt read, a double (the id may go on with other characters, and
    a run of digits beyond the range of a double is read as an
    infinity), and the analysis of [generateAlertSummary] for it: an id
    that no alert has, an infinite one included, is answered 200 as
    well, with the analysis Alert not found. *)
Theorem get_alert_analyze_answers (env : AiAnalyst.AiEnv) (w : World)
    (id : string) (sent : list AiAnalyst.Request) :
  exists response sent',
    AiAnalyst.get_alert_analyze env w id sent
    = AiAnalyst.Returned response sent'
    /\ match response with
       | AiAnalyst.InvalidAlertId error =>
           Js.parseInt id = Js.NaN /\ error = "Invalid alert ID"
           /\ sent' = sent
       | AiAnalyst.Analysis alertId analysis =>
           Js.parseInt id = alertId
           /\ alertId <> Js.NaN
           /\ AiAnalyst.generateAlertSummary env w alertId sent
              = AiAnalyst.Returned analysis sent'
           /\ (AiAnalyst.alertById (alerts w) alertId = None ->
               analysis = JStr "Alert not found" /\ sent' = sent)
           /\ ((forall z, alertId <> Js.Num z) ->
               analysis = JStr "Alert not found" /\ sent' = sent)
       | AiAnalyst.AnalysisFailed _ => False
       end.
Proof.
  unfold AiAnalyst.get_alert_analyze, AiAnalyst.try_catch, AiAnalyst.bind.
  destruct (Js.parseInt id) as [z| | |] eqn:Eid;
    [| | | eexists; eexists; split; [reflexivity|]; simpl; auto];
    match goal with
    | |- context [AiAnalyst.generateAlertSummary env w ?n sent] =>
        destruct (generateAlertSummary_returns env w n sent)
          as [analysis [sent' [Hrun Hnone]]]
    end;
    rewrite Hrun; eexists; eexists; (split; [reflexivity|]);
    cbv beta iota;
    (split; [reflexivity|]); (split; [discriminate|]);
    (split; [exact Hrun|]); (split; [exact Hnone|]).
  - intros H. destruct (H z eq_refl).
  - intros _. apply Hnone. reflexivity.
  - intros _. apply Hnone. reflexivity.
Qed.

(** An id that starts with a number is taken for that number, and an
    alert that does not exist is answered with status 200. *)
Lemma get_alert_analyze_answers_witness :
  AiAnalyst.get_alert_analyze SampleAi.with_key
    (SampleAi.with_alerts [SampleAi.alert 1 "high" None 5] []) "7abc" []
  = AiAnalyst.Returned
      (AiAnalyst.Analysis (Js.Num 7) (JStr "Alert not found")) [].
Proof.
  destruct (get_alert_analyze_answers SampleAi.with_key
              (SampleAi.with_alerts [SampleAi.alert 1 "high" None 5] [])
              "7abc" [])
    as [response [sent' [Hrun Hcase]]].
  destruct response as [e | alertId analysis | e].
  - destruct Hcase as [Hid _]. vm_compute in Hid. discriminate.
  - destruct Hcase as [Hid [_ [_ [Hnone _]]]]. vm_compute in Hid.
    subst alertId.
    destruct Hnone as [-> ->]; [reflexivity | exact Hrun].
  - destruct Hcase.
Defined.

Lemma has_severity_rows (k : string) (a b : list AlertRow) :
  Permutation a b -> has_severity k a = has_severity k b.
Proof.
  intros H. unfold has_severity. apply eq_true_iff_eq.
  rewrite !existsb_exists. split; intros [x [Hin Hx]]; exists x; split; auto.
  - apply (Permutation_in _ H Hin).
  - apply (Permutation_in _ (Permutation_sym H) Hin).
Qed.

Lemma worst_rows (a b : list AlertRow) :
  Permutation a b -> worst a = worst b.
Proof.
  intros H. unfold worst. rewrite !(has_severity_rows _ a b H). reflexivity.
Qed.

Section Listing.
Variable env : AiAnalyst.AiEnv.

(** The first page of [getAlerts]. *)
Lemma getAlerts_first_page (table : list AlertRow) (status : string)
    (limit : Z) :
  0 <= limit ->
  let selected :=
    filter (fun a => String.eqb (alert_status a) status) table in
  let page := AiAnalyst.getAlerts env table status limit 0 in
  exists others,
    Permutation (page ++ others) selected
    /\ List.length page
       = Z.to_nat (Z.min limit (Z.of_nat (List.length selected)))
    /\ (forall a b, In a page -> In b others ->
                    alert_created_at b <= alert_created_at a).
Proof.
  intros Hlimit selected page.
  set (key := Order.time_desc alert_created_at
                (AiAnalyst.alert_rank env limit 0 selected)).
  set (rows := Order.sorted_by key selected).
  assert (Hpage : page = firstn (Z.to_nat limit) rows).
  { unfold page, AiAnalyst.getAlerts. fold selected. fold key. fold rows.
    apply (limit_front limit rows Hlimit). }
  assert (Hsorted : StronglySorted
                      (fun a b => alert_created_at b <= alert_created_at a)
                      rows).
  { apply (sorted_by_ordered key).
    - intros a b c Hab Hbc. lia.
    - intros a b. unfold key, Order.time_desc.
      destruct (Z.eqb_spec (alert_created_at a) (alert_created_at b)).
      + intros _. lia.
      + intros H. apply Z.ltb_lt in H. lia.
    - intros a b. unfold key, Order.time_desc.
      destruct (Z.eqb_spec (alert_created_at a) (alert_created_at b)).
      + intros _. lia.
      + intros H. apply Z.ltb_ge in H. lia. }
  exists (skipn (Z.to_nat limit) rows). rewrite Hpage. split; [|split].
  - rewrite firstn_skipn. apply sorted_by_rows.
  - rewrite length_firstn.
    pose proof (Permutation_length (sorted_by_rows key selected)) as Hl.
    fold rows in Hl. lia.
  - apply ordered_split. rewrite firstn_skipn. exact Hsorted.
Qed.

End Listing.

(** POST /api/analyze always answers with status 200.  With no open
    alert it answers that there is nothing to analyze and sends
    nothing.  Otherwise it has [generateAISummary] summarize the open
    alerts, at most 20 of them: [alerts_analyzed] is the smaller of 20
    and the number of open alerts, and when there are more than 20 no
    open alert that is left out was created later than one that is
    analyzed.  Without a usable key the summary is the one written
    without the provider, and with up to 20 open alerts its threat
    level is the highest severity among all open alerts. *)
Theorem post_analyze_answers (env : AiAnalyst.AiEnv) (w : World)
    (sent : list AiAnalyst.Request) :
  let open := open_rows (alerts w) in
  exists response sent',
    AiAnalyst.post_analyze env w sent = AiAnalyst.Returned response sent'
    /\ match response with
       | AiAnalyst.NothingToAnalyze summary =>
           open = [] /\ summary = "No open alerts to analyze."
           /\ sent' = sent
       | AiAnalyst.Analyzed alerts_analyzed summary =>
           open <> []
           /\ alerts_analyzed = Z.min 20 (Z.of_nat (List.length open))
           /\ exists analyzed others,
                Permutation (analyzed ++ others) open
                /\ Z.of_nat (List.length analyzed) = alerts_analyzed
                /\ (forall a b, In a analyzed -> In b others ->
                                alert_created_at b <= alert_created_at a)
                /\ AiAnalyst.generateAISummary env analyzed sent
                   = AiAnalyst.Returned summary sent'
                /\ (AiAnalyst.key_configured env = false ->
                    sent' = sent
                    /\ summary
                       = JStr (AiAnalyst.summary_text
                                 (worst analyzed) alerts_analyzed
                                 (sum_of (map events_of analyzed))
                                 (AiAnalyst.breakdown env analyzed)))
                /\ ((List.length open <= 20)%nat ->
                    others = [] /\ worst analyzed = worst open)
       | AiAnalyst.AnalyzeFailed _ => False
       end.
Proof.
  intros open.
  destruct (getAlerts_first_page env (alerts w) "open" 20 ltac:(lia))
    as [others [Hperm [Hlen Hlate]]].
  fold (open_rows (alerts w)) in Hperm, Hlen. fold open in Hperm, Hlen.
  unfold AiAnalyst.post_analyze, AiAnalyst.try_catch, AiAnalyst.bind.
  set (recentAlerts := AiAnalyst.getAlerts env (alerts w) "open" 20 0) in *.
  destruct (Z.eqb_spec (Z.of_nat (List.length recentAlerts)) 0) as [E | E].
  - eexists. eexists. split; [reflexivity|]. simpl.
    repeat split. destruct open as [|a t]; [reflexivity|].
    simpl List.length in Hlen. lia.
  - destruct (generateAISummary_returns env recentAlerts sent)
      as [summary [sent' [Hrun Hnone]]].
    rewrite Hrun. eexists. eexists. split; [reflexivity|].
    cbv beta iota. split; [|split].
    + intros Hopen. rewrite Hopen in Hlen. simpl in Hlen. lia.
    + lia.
    + exists recentAlerts, others.
      repeat match goal with |- _ /\ _ => split end; auto.
      * intros Hkey. destruct (Hnone Hkey) as [-> ->]. split; [reflexivity|].
        unfold AiAnalyst.generateStubSummary.
        rewrite threatLevel_worst, totalEvents_sum. reflexivity.
      * intros Hfew.
        assert (Hothers : others = []).
        { pose proof (Permutation_length Hperm) as Hl.
          rewrite length_app in Hl.
          destruct others; [reflexivity|]. simpl in Hl. lia. }
        split; [exact Hothers|]. apply worst_rows.
        rewrite Hothers, app_nil_r in Hperm. exact Hperm.
Qed.

(** One open and one resolved alert, no key: one alert is analyzed,
    and the level is that of the open one. *)
Lemma post_analyze_answers_witness :
  AiAnalyst.post_analyze SampleAi.no_key
    (mkWorld [] 0
       [SampleAi.alert 1 "medium" None 2;
        mkAlert 2 "geo_anomaly" "critical" "t" "d" None None 1 "a" "b"
                "resolved" None Sample.noon] 2 [] []) []
  = AiAnalyst.Returned
      (AiAnalyst.Analyzed 1
         (JStr (AiAnalyst.summary_text "Medium" 1 2 "1 medium"))) [].
Proof.
  destruct (post_analyze_answers SampleAi.no_key
    (mkWorld [] 0
       [SampleAi.alert 1 "medium" None 2;
        mkAlert 2 "geo_anomaly" "critical" "t" "d" None None 1 "a" "b"
                "resolved" None Sample.noon] 2 [] []) [])
    as [response [sent' [Hrun Hcase]]].
  rewrite Hrun. vm_compute in Hrun. injection Hrun as <- <-. reflexivity.
Defined.

(** ** Upload and CSV ingestion *)

Lemma same_database_refl (w : World) : same_database w w.
Proof. repeat split. Qed.

(** The transaction of the handlers: all entries stored, or an error
    and the database as before. *)
Lemma insertMany_cases (env : Env) (entries : list Json) (w : World) :
  (exists w1, Routes.insertMany env entries w = Ok tt w1
              /\ stored env entries w w1
              /\ (entries = [] -> w1 = w))
  \/ (exists e w1, Routes.insertMany env entries w = Throw e w1
                   /\ same_database w w1
                   /\ exists entry, In entry entries /\ rejected env entry).
Proof.
  unfold Routes.insertMany, transaction.
  destruct (insert_loop env entries w)
    as [[rows [Hrun Hall]] | [e [w' [Hrun [_ Hbad]]]]]; rewrite Hrun.
  - left. eexists. split; [reflexivity|]. split.
    + exists rows. repeat split; auto.
    + intros ->. inversion Hall; subst. cbn [List.length Z.of_nat].
      rewrite app_nil_r, Z.add_0_r. destruct w; reflexivity.
  - right. eexists. eexists. split; [reflexivity|].
    split; [repeat split | exact Hbad].
Qed.

(** The common end of the two handlers: the answer with the numbers of
    the run; or an error of the transaction, the database being as
    before; or the error of a run that is not settled, the entries
    being stored. *)
Lemma ingest_cases (env : Env) (entries : list Json) (w : World) :
  (exists w1 d w' summary,
      Uploads.ingest env entries w
      = Ok (Uploads.Processed (Z.of_nat (List.length entries)) (Rules.total d)
                              summary) w'
      /\ stored env entries w w1
      /\ (entries = [] -> w1 = w)
      /\ Rules.runAllDetections env w1 = Ok d w'
      /\ reports d w1 w' (Rules.total d) summary)
  \/ (exists e w', Uploads.ingest env entries w = Throw e w'
                   /\ same_database w w'
                   /\ exists entry, In entry entries /\ rejected env entry)
  \/ (exists w1 w',
        Uploads.ingest env entries w = Throw first_seen_null w'
        /\ interrupted env entries w w1 w').
Proof.
  unfold Uploads.ingest. rewrite bind_run.
  destruct (insertMany_cases env entries w)
    as [[w1 [Hin [Hstored Hnil]]] | [e [w1 [Hin [Hsame Hbad]]]]];
    rewrite Hin; cbv beta iota.
  - destruct (runAllDetections_rows env w1)
      as [new [w' [Hfinal [Hl [_ [Halerts [_ [_ [_
         [b [o [g [w2 [w3 [w4 [rest [_ [_ [_ [_ Hcases]]]]]]]]]]]]]]]]]]]].
    destruct Hcases
      as [[d [Hrun [_ [_ [_ [Htotal [_ [_ Hlen]]]]]]]] | [Hrun Hun]].
    + left. rewrite bind_run, Hrun. cbv beta iota.
      exists w1, d, w'. eexists. split; [reflexivity|].
      split; [exact Hstored|]. split; [exact Hnil|]. split; [exact Hrun|].
      unfold reports. cbn [Uploads.s_brute_force Uploads.s_off_hours
                           Uploads.s_geo_anomaly Uploads.s_high_risk_ip].
      repeat split.
      * rewrite Htotal, Hlen. lia.
      * exact Hl.
      * rewrite Halerts, length_app, Htotal. lia.
    + right. right. rewrite bind_run, Hrun. cbv beta iota.
      exists w1, w'. split; [reflexivity|].
      split; [exact Hstored|]. split; [exact Hrun|].
      split; [exact Hun|]. split; [exact Hl|]. exists new. exact Halerts.
  - right. left. exists e, w1. repeat split; auto; apply Hsame.
Qed.

Lemma fileFilter_spec (fs : Files.FileEnv) (f : Uploads.File) :
  Uploads.fileFilter fs f = true <->
  Uploads.extension fs (Uploads.originalname f) = ".json"
  \/ Uploads.extension fs (Uploads.originalname f) = ".csv"
  \/ Uploads.extension fs (Uploads.originalname f) = ".log".
Proof.
  unfold Uploads.fileFilter. cbv zeta. cbn [existsb].
  rewrite orb_false_r, !orb_true_iff, !String.eqb_eq.
  split; intros [H | [H | H]]; auto.
Qed.

(** POST /api/logs/upload always answers a request with at most one
    file part, in the field logfile and within the size limit.  A file
    whose extension, lower-cased, is none of .json, .csv and .log is
    refused by the file filter of multer and answered 500 by the error
    middleware, nothing being touched.  The handler answers 400, touching nothing, when
    there is no file and when the file is a .log file, which the filter
    lets through.  It answers 200 only when the file was parsed and
    every entry stored, in order; the detections have then run on the
    store so grown (also when the file held no entry at all), the
    answer gives the number of entries and the number of alerts
    generated, which is the sum of the four numbers of its summary and
    the number of rows the alerts have grown by.  It answers 500 when
    parsing threw or some entry was rejected, the database being then
    exactly as before; and when the detection run threw, which only a
    run that is not settled does: the entries are stored then. *)
Theorem post_logs_upload_answers (fs : Files.FileEnv) (env : Env)
    (part : option Uploads.File) (w : World) :
  exists response w',
    Uploads.post_logs_upload fs env part w = Ok response w'
    /\ match response with
       | Uploads.BadRequest error =>
           w' = w
           /\ match part with
              | None => error = "No file uploaded"
              | Some f =>
                  error = "Unsupported file type"
                  /\ Uploads.extension fs (Uploads.originalname f) = ".log"
              end
       | Uploads.Processed logs_ingested alerts_generated summary =>
           exists f entries w1 d,
             part = Some f
             /\ (Uploads.extension fs (Uploads.originalname f) = ".json"
                 \/ Uploads.extension fs (Uploads.originalname f) = ".csv")
             /\ parsed fs f = inr entries
             /\ logs_ingested = Z.of_nat (List.length entries)
             /\ stored env entries w w1
             /\ (entries = [] -> w1 = w)
             /\ Rules.runAllDetections env w1 = Ok d w'
             /\ reports d w1 w' alerts_generated summary
       | Uploads.ServerError error =>
           exists f,
             part = Some f
             /\ ((Uploads.fileFilter fs f = false
                  /\ error = Uploads.filter_error /\ w' = w)
                 \/ (Uploads.fileFilter fs f = true
                     /\ same_database w w'
                     /\ (parsed fs f = inl error
                         \/ exists entries,
                              parsed fs f = inr entries
                              /\ exists entry, In entry entries
                                               /\ rejected env entry))
                 \/ (Uploads.fileFilter fs f = true
                     /\ error = first_seen_null
                     /\ exists entries w1,
                          parsed fs f = inr entries
                          /\ interrupted env entries w w1 w'))
       end
    /\ (forall f,
          part = Some f ->
          (Uploads.fileFilter fs f = true <->
           Uploads.extension fs (Uploads.originalname f) = ".json"
           \/ Uploads.extension fs (Uploads.originalname f) = ".csv"
           \/ Uploads.extension fs (Uploads.originalname f) = ".log")
          /\ (Uploads.fileFilter fs f = false ->
              response = Uploads.ServerError Uploads.filter_error)
          /\ (Uploads.extension fs (Uploads.originalname f) = ".log" ->
              response = Uploads.BadRequest "Unsupported file type")).
Proof.
  unfold Uploads.post_logs_upload, Uploads.upload_single.
  destruct part as [f|].
  2:{ eexists. eexists. split; [reflexivity|]. split; [auto|].
      intros f Hf. discriminate. }
  pose proof (fileFilter_spec fs f) as Hfilter.
  destruct (Uploads.fileFilter fs f) eqn:Efilter.
  2:{ eexists. eexists. split; [reflexivity|]. split.
      - exists f. split; [reflexivity|]. left. auto.
      - intros f' Hf'. injection Hf' as <-. rewrite Efilter.
        split; [exact Hfilter|]. split; [reflexivity|].
        intros Hlog. assert (H : false = true) by (apply Hfilter; auto).
        discriminate H. }
  unfold Uploads.logs_upload_handler, try_catch.
  assert (Hparsed :
    forall text,
      exists response w',
        match (let* logs := Uploads.call text in Uploads.ingest env logs) w with
        | Ok a w' => Ok a w'
        | Throw e w' => Ok (Uploads.ServerError e) w'
        end = Ok response w'
        /\ match response with
           | Uploads.BadRequest _ => False
           | Uploads.Processed logs_ingested alerts_generated summary =>
               exists entries w1 d,
                 text = inr entries
                 /\ logs_ingested = Z.of_nat (List.length entries)
                 /\ stored env entries w w1
                 /\ (entries = [] -> w1 = w)
                 /\ Rules.runAllDetections env w1 = Ok d w'
                 /\ reports d w1 w' alerts_generated summary
           | Uploads.ServerError error =>
               (same_database w w'
                /\ (text = inl error
                    \/ exists entries,
                         text = inr entries
                         /\ exists entry, In entry entries
                                          /\ rejected env entry))
               \/ (error = first_seen_null
                   /\ exists entries w1,
                        text = inr entries
                        /\ interrupted env entries w w1 w')
           end).
  { intros text. rewrite bind_run. destruct text as [e | entries]; simpl.
    - eexists. eexists. split; [reflexivity|]. simpl.
      left. split; [apply same_database_refl | left; reflexivity].
    - destruct (ingest_cases env entries w)
        as [[w1 [d [w' [summary [Hrun [Hst [Hnil [Hdet Hrep]]]]]]]]
           | [[e [w' [Hrun [Hsame Hbad]]]]
             | [w1 [w' [Hrun Hint]]]]]; rewrite Hrun.
      + eexists. eexists. split; [reflexivity|].
        exists entries, w1, d. repeat split; auto; apply Hrep.
      + eexists. eexists. split; [reflexivity|]. simpl.
        left. split; [exact Hsame|]. right. exists entries. auto.
      + eexists. eexists. split; [reflexivity|]. simpl.
        right. split; [reflexivity|]. exists entries, w1. auto. }
  assert (Hcases :
    forall text response w',
      parsed fs f = text ->
      (Uploads.extension fs (Uploads.originalname f) = ".json"
       \/ Uploads.extension fs (Uploads.originalname f) = ".csv") ->
      match response with
      | Uploads.BadRequest _ => False
      | Uploads.Processed logs_ingested alerts_generated summary =>
          exists entries w1 d,
            text = inr entries
            /\ logs_ingested = Z.of_nat (List.length entries)
            /\ stored env entries w w1
            /\ (entries = [] -> w1 = w)
            /\ Rules.runAllDetections env w1 = Ok d w'
            /\ reports d w1 w' alerts_generated summary
      | Uploads.ServerError error =>
          (same_database w w'
           /\ (text = inl error
               \/ exists entries,
                    text = inr entries
                    /\ exists entry, In entry entries
                                     /\ rejected env entry))
          \/ (error = first_seen_null
              /\ exists entries w1,
                   text = inr entries
                   /\ interrupted env entries w w1 w')
      end ->
      match response with
      | Uploads.BadRequest error =>
          w' = w
          /\ error = "Unsupported file type"
          /\ Uploads.extension fs (Uploads.originalname f) = ".log"
      | Uploads.Processed logs_ingested alerts_generated summary =>
          exists f0 entries w1 d,
            Some f = Some f0
            /\ (Uploads.extension fs (Uploads.originalname f0) = ".json"
                \/ Uploads.extension fs (Uploads.originalname f0) = ".csv")
            /\ parsed fs f0 = inr entries
            /\ logs_ingested = Z.of_nat (List.length entries)
            /\ stored env entries w w1
            /\ (entries = [] -> w1 = w)
            /\ Rules.runAllDetections env w1 = Ok d w'
            /\ reports d w1 w' alerts_generated summary
      | Uploads.ServerError error =>
          exists f0,
            Some f = Some f0
            /\ ((Uploads.fileFilter fs f0 = false
                 /\ error = Uploads.filter_error /\ w' = w)
                \/ (Uploads.fileFilter fs f0 = true
                    /\ same_database w w'
                    /\ (parsed fs f0 = inl error
                        \/ exists entries,
                             parsed fs f0 = inr entries
                             /\ exists entry, In entry entries
                                              /\ rejected env entry))
                \/ (Uploads.fileFilter fs f0 = true
                    /\ error = first_seen_null
                    /\ exists entries w1,
                         parsed fs f0 = inr entries
                         /\ interrupted env entries w w1 w'))
      end).
  { intros text response w' Hp Hext Hcase.
    destruct response as [e | n total summary | e]; [destruct Hcase| |].
    - destruct Hcase as [entries [w1 [d H]]].
      exists f, entries, w1, d. split; [reflexivity|]. split; [exact Hext|].
      rewrite Hp. exact H.
    - exists f. split; [reflexivity|]. right. rewrite Hp.
      destruct Hcase as [[Hsame Hwhy] | [He Hint]]; [left | right]; auto. }
  cbv zeta.
  destruct (String.eqb_spec (Uploads.extension fs (Uploads.originalname f))
                            ".json") as [Ej | Ej].
  - assert (Hp : parsed fs f = Files.parseJSON fs (Uploads.path f)).
    { unfold parsed. rewrite Ej. reflexivity. }
    destruct (Hparsed (Files.parseJSON fs (Uploads.path f)))
      as [response [w' [Hrun Hcase]]].
    exists response, w'. split; [exact Hrun|]. split.
    + apply (Hcases _ _ _ Hp (or_introl Ej) Hcase).
    + intros f' Hf'. injection Hf' as <-. rewrite Efilter.
      split; [exact Hfilter|]. split; [discriminate|].
      rewrite Ej. discriminate.
  - assert (Ej' : String.eqb (Uploads.extension fs (Uploads.originalname f))
                             ".json" = false) by (apply String.eqb_neq, Ej).
    destruct (String.eqb_spec (Uploads.extension fs (Uploads.originalname f))
                              ".csv") as [Ec | Ec].
    + assert (Hp : parsed fs f = Files.parseCSV fs (Uploads.path f)).
      { unfold parsed. rewrite Ej'. reflexivity. }
      destruct (Hparsed (Files.parseCSV fs (Uploads.path f)))
        as [response [w' [Hrun Hcase]]].
      exists response, w'. split; [exact Hrun|]. split.
      * apply (Hcases _ _ _ Hp (or_intror Ec) Hcase).
      * intros f' Hf'. injection Hf' as <-. rewrite Efilter.
        split; [exact Hfilter|]. split; [discriminate|].
        rewrite Ec. discriminate.
    + assert (Hlog : Uploads.extension fs (Uploads.originalname f) = ".log").
      { destruct (proj1 Hfilter eq_refl) as [H | [H | H]];
          [contradiction | contradiction | exact H]. }
      eexists. eexists. split; [reflexivity|]. split.
      * split; [reflexivity|]. split; [reflexivity | exact Hlog].
      * intros f' Hf'. injection Hf' as <-. rewrite Efilter.
        split; [exact Hfilter|]. split; [discriminate | reflexivity].
Qed.

(** A file named events.LOG passes the filter and is refused by the
    handler with 400; a file named notes.txt is refused by the filter
    and answered 500. *)
Lemma post_logs_upload_answers_witness :
  Uploads.post_logs_upload SampleFiles.node Sample.offline
    (Some (Uploads.mkFile "events.LOG" "/tmp/1")) Sample.empty
  = Ok (Uploads.BadRequest "Unsupported file type") Sample.empty
  /\ Uploads.post_logs_upload SampleFiles.node Sample.offline
       (Some (Uploads.mkFile "notes.txt" "/tmp/2")) Sample.empty
     = Ok (Uploads.ServerError "Only JSON and CSV files are allowed")
          Sample.empty.
Proof.
  split.
  - destruct (post_logs_upload_answers SampleFiles.node Sample.offline
                (Some (Uploads.mkFile "events.LOG" "/tmp/1")) Sample.empty)
      as [response [w' [Hrun [_ Hfile]]]].
    destruct (Hfile _ eq_refl) as [_ [_ Hlog]].
    rewrite (Hlog eq_refl) in Hrun. rewrite Hrun. f_equal.
    vm_compute in Hrun. injection Hrun as <-. reflexivity.
  - destruct (post_logs_upload_answers SampleFiles.node Sample.offline
                (Some (Uploads.mkFile "notes.txt" "/tmp/2")) Sample.empty)
      as [response [w' [Hrun [_ Hfile]]]].
    destruct (Hfile _ eq_refl) as [_ [Hrefused _]].
    rewrite (Hrefused eq_refl) in Hrun. rewrite Hrun. f_equal.
    vm_compute in Hrun. injection Hrun as <-. reflexivity.
Defined.

(** POST /api/ingest-csv always answers.  It answers 400 without
    touching anything when the body is neither a text, nor a value with
    a truthy csv field, nor a Buffer, when the text so found is empty
    or the csv field is no text, and when the parser finds no record.
    It answers 200 only when every record was stored, in order; the
    detections have then run on the store so grown, and the answer
    gives the number of records and the number of alerts generated,
    which is the sum of the four numbers of its summary and the number
    of rows the alerts have grown by.  It answers 500 when the parser
    threw or some record was rejected, the database being then exactly
    as before; and when the detection run threw, which only a run that
    is not settled does: the records are stored then. *)
Theorem post_ingest_csv_answers (fs : Files.FileEnv) (env : Env)
    (body : Uploads.Body) (w : World) :
  exists response w',
    Uploads.post_ingest_csv fs env body w = Ok response w'
    /\ match response with
       | Uploads.BadRequest error =>
           w' = w
           /\ match Uploads.csvText body with
              | Some (JStr text) =>
                  (text = EmptyString /\ error = Uploads.csv_required)
                  \/ (text <> EmptyString
                      /\ Files.csv_parse fs true text = inr []
                      /\ error = "No valid records found in CSV")
              | _ => error = Uploads.csv_required
              end
       | Uploads.Processed logs_ingested alerts_generated summary =>
           exists text records w1 d,
             Uploads.csvText body = Some (JStr text)
             /\ Files.csv_parse fs true text = inr records
             /\ records <> []
             /\ logs_ingested = Z.of_nat (List.length records)
             /\ stored env records w w1
             /\ Rules.runAllDetections env w1 = Ok d w'
             /\ reports d w1 w' alerts_generated summary
       | Uploads.ServerError error =>
           exists text,
             Uploads.csvText body = Some (JStr text)
             /\ ((same_database w w'
                  /\ (Files.csv_parse fs true text = inl error
                      \/ exists records,
                           Files.csv_parse fs true text = inr records
                           /\ exists entry, In entry records
                                            /\ rejected env entry))
                 \/ (error = first_seen_null
                     /\ exists records w1,
                          Files.csv_parse fs true text = inr records
                          /\ interrupted env records w w1 w'))
       end.
Proof.
  unfold Uploads.post_ingest_csv, try_catch.
  destruct (Uploads.csvText body) as [[| | |text| |]|];
    try (eexists; eexists; split; [reflexivity|]; split; reflexivity).
  destruct (String.eqb_spec text EmptyString) as [E | E].
  { eexists. eexists. split; [reflexivity|]. split; [reflexivity|].
    left. auto. }
  rewrite bind_run.
  destruct (Files.csv_parse fs true text) as [e | records] eqn:Eparse; simpl.
  { eexists. eexists. split; [reflexivity|]. simpl.
    exists text. split; [reflexivity|]. left.
    split; [apply same_database_refl | auto]. }
  destruct records as [|r t].
  { eexists. eexists. split; [reflexivity|]. simpl. split; [reflexivity|].
    right. auto. }
  replace (Z.of_nat (List.length (r :: t)) =? 0) with false
    by (symmetry; apply Z.eqb_neq; cbn [List.length]; lia).
  destruct (ingest_cases env (r :: t) w)
    as [[w1 [d [w' [summary [Hrun [Hst [_ [Hdet Hrep]]]]]]]]
       | [[e [w' [Hrun [Hsame Hbad]]]]
         | [w1 [w' [Hrun Hint]]]]]; rewrite Hrun.
  - eexists. eexists. split; [reflexivity|].
    exists text, (r :: t), w1, d.
    repeat split; auto; try apply Hrep. discriminate.
  - eexists. eexists. split; [reflexivity|]. simpl.
    exists text. split; [reflexivity|]. left. split; [exact Hsame|].
    right. exists (r :: t). auto.
  - eexists. eexists. split; [reflexivity|]. simpl.
    exists text. split; [reflexivity|]. right. split; [reflexivity|].
    exists (r :: t), w1. auto.
Qed.

(** A body that is the JSON object with an empty csv field is answered
    400, like a body with no csv field at all. *)
Lemma post_ingest_csv_answers_witness :
  Uploads.post_ingest_csv SampleFiles.node Sample.offline
    (Uploads.Parsed (JObj [("csv", JStr EmptyString)])) Sample.empty
  = Ok (Uploads.BadRequest Uploads.csv_required) Sample.empty.
Proof.
  destruct (post_ingest_csv_answers SampleFiles.node Sample.offline
              (Uploads.Parsed (JObj [("csv", JStr EmptyString)])) Sample.empty)
    as [response [w' [Hrun Hcase]]].
  rewrite Hrun. vm_compute in Hrun. injection Hrun as <- <-. reflexivity.
Defined.

(** A record that leaves the 24-hour window while the lookups run, from
    an address the generated reputation rates critical: the record is
    stored, the detection run throws, and the answer is 500. *)
Lemma post_ingest_csv_stores_then_fails :
  exists w',
    Uploads.post_ingest_csv SampleFiles.node_old_record
      Sample.provider_down_slow (Uploads.Buffer "csv") Sample.empty
    = Ok (Uploads.ServerError first_seen_null) w'
    /\ map timestamp (logs w') = ["2025-10-14T12:00:01Z"]
    /\ alerts w' = [].
Proof. eexists. split; [lazy; reflexivity|]. split; reflexivity. Qed.

(** ** The JSON file parser *)

Lemma parse_lines_cases (fs : Files.FileEnv) (lines : list string) :
  match Files.parse_lines fs lines with
  | inr entries =>
      Forall2 (fun line v => Files.JSON_parse fs line = inr v) lines entries
  | inl e =>
      exists before line after,
        lines = (before ++ line :: after)%list
        /\ Files.JSON_parse fs line = inl e
        /\ Forall (fun l => exists v, Files.JSON_parse fs l = inr v) before
  end.
Proof.
  induction lines as [|line rest IH]; simpl; [constructor|].
  destruct (Files.JSON_parse fs line) as [e | v] eqn:E.
  - exists [], line, rest. repeat split; auto.
  - destruct (Files.parse_lines fs rest) as [e | vs].
    + destruct IH as [before [bad [after [-> [Hbad Hbefore]]]]].
      exists (line :: before), bad, after. repeat split; auto.
      constructor; eauto.
    + constructor; assumption.
Qed.

(** What [parseJSON] makes of a file.  A file whose whole content
    parses is never read line by line: an array gives its elements,
    any other value (an object, but also a number, a text or null) one
    entry.  Otherwise every line that is not blank must parse on its
    own and the entries are the values of these lines, in order, one
    per line; the first such line that does not parse makes the whole
    call throw with its error, whatever the lines before it held.  A
    file that cannot be read throws too. *)
Theorem parseJSON_entries (fs : Files.FileEnv) (filePath : string) :
  match Files.parseJSON fs filePath with
  | inr entries =>
      exists content,
        Files.readFileSync fs filePath = inr content
        /\ match Files.JSON_parse fs content with
           | inr (JArr elements) => entries = elements
           | inr data => entries = [data]
           | inl _ =>
               Forall2 (fun line v => Files.JSON_parse fs line = inr v)
                       (filter (Files.not_blank fs)
                               (Js.split (ascii_of_nat 10) content))
                       entries
           end
  | inl e =>
      Files.readFileSync fs filePath = inl e
      \/ exists content before line after,
           Files.readFileSync fs filePath = inr content
           /\ (exists e0, Files.JSON_parse fs content = inl e0)
           /\ filter (Files.not_blank fs) (Js.split (ascii_of_nat 10) content)
              = (before ++ line :: after)%list
           /\ Files.JSON_parse fs line = inl e
           /\ Forall (fun l => exists v, Files.JSON_parse fs l = inr v) before
  end.
Proof.
  unfold Files.parseJSON.
  destruct (Files.readFileSync fs filePath) as [e | content]; [left; auto|].
  destruct (Files.JSON_parse fs content) as [e0 | data] eqn:Ewhole.
  - pose proof (parse_lines_cases fs
                  (filter (Files.not_blank fs)
                          (Js.split (ascii_of_nat 10) content))) as Hlines.
    destruct (Files.parse_lines fs _) as [e | entries].
    + right. destruct Hlines as [before [line [after [Hsplit [Hbad Hok]]]]].
      exists content, before, line, after. repeat split; eauto.
    + exists content. split; [reflexivity|]. rewrite Ewhole. exact Hlines.
  - exists content. split; [reflexivity|]. rewrite Ewhole.
    destruct data; reflexivity.
Qed.
